(* ===== verification/_CoqProject ===== *)
-Q . S2P
Prelude.v
Text.v
Hex.v
Endian.v
Serialize.v
Compress.v
Compact.v
ParseAddress.v
Timer.v
Crypto.v
Transaction.v
SecurityManager.v
ConnectionPool.v
WalletStorage.v
Json.v
JsonText.v
Schema.v
Helpers.v
HistoryCache.v
Settings.v
BlockInfo.v
BlockStore.v
BlockRefine.v
BlockVerify.v
BlockWorker.v
BlockSafety.v
BlockChain.v
BlockLoader.v
BatchRequest.v
HttpRequest.v
RequestLife.v
SyncCall.v
Handlers.v
Answers.v
TxHandlers.v
GenerateJson.v
BlockHandlers.v
SyncHandlers.v
Status.v
Dispatch.v
Forward.v
HttpSession.v
Validation.v
Lookup.v
LookupCalls.v
Dns.v
Fleet.v
Node.v
NodeLife.v
Serve.v
Threads.v
Statistics.v
