(* ===== verification/Prelude.v ===== *)
(** * The full-node client of #MetaHash: model and proofs

    The client is a daemon that answers JSON-RPC requests.  It keeps wallets,
    builds and signs transactions, caches blocks and histories in LevelDB,
    verifies the blocks with the signatures of the core nodes, and forwards what
    it cannot answer to proxy and torrent nodes over HTTP.  Its own code is under
    src/src/; paths below are relative to that directory.

    ** How the parts interact

    main.cpp reads the settings, chooses nodes (nslookup), starts the caches and
    the server.  A session (http_session) authenticates a request, checks it
    against a JSON schema (jsonrpc/json_rpc_schema), looks its method up in a table (task_handlers/task_handlers.cpp) or takes a batch apart
    (json_batch_request), and the handler of the method checks it against a second
    schema and either answers at once, from the wallet, a cache or the local database, or hands one request to
    http_json_rpc_request, which takes a connection out of the pool, runs against
    a timer and calls the handler back.  The block cache and the history cache
    have workers that ask the nodes by synchronous calls of the same class.

    ** Files

    Shared:
    - Prelude: bytes, machine integers, results ([res]), tactics, hints, lemmas.
    - Text: std::to_string, stoull, stoi, atoi, tolower.
    - Endian: reference encodings of integers.
    - JsonText: a printer and parser of JSON values, for witnesses only.
    - Helpers: common/stringUtils.h, jsonUtils.h, duration.h, parallel_for.h and
      sync/P2P/LimitArray.h.

    Data:
    - Hex: common/convertStrings.h, common/string_utils, bin2hex and hex2bin of
      cpplib_open_ssl_decor/crypto.cpp.
    - Serialize: sync/utils/serialize.h and the splitting of dumps.
    - Compress: cache/compress.cpp.
    - Compact, ParseAddress, Timer, Transaction: task_handlers/utils.
    - Crypto: cpplib_open_ssl_decor/crypto.cpp and validate_address.
    - Json: jsonrpc/json_rpc.  Schema: jsonrpc/json_rpc_schema, the two schemas of
      jsonrpc/schema and the validator of 3rdParty/rapidjson as far as they use it.
    - BlockInfo: sync/BlockInfo.h, sync/Address.h.
    - GenerateJson: generate_json.cpp.
    - Settings: settings/settings.cpp.

    Parts with state:
    - WalletStorage: wallet_storage; SecurityManager: security_manager;
      ConnectionPool: connection_pool; HistoryCache: cache/history_cache.
    - BlockStore (the database), BlockVerify (the signatures of cores),
      BlockWorker (the worker), BlockLoader (what its version 1 does with an answer):
      cache/blocks_cache.cpp.
      BlockRefine has the specification of the database, BlockSafety and BlockChain
      the theorems about the worker.
    - HttpRequest: http_json_rpc_request; RequestLife its theorems for a call that
      has the pool to itself; Fleet: all the calls of the process over the one pool.
    - SyncCall: the synchronous calls of the workers, many on one object, and the
      loops of version 1 of the block cache over them.
    - Lookup: nslookup.cpp and the first choice of nodes in main.cpp; LookupCalls:
      its loop over the calls to the nodes; Dns: the records of a reply of the name
      server.
    - Statistics: Statistic/, with what main.cpp does to start and end them.

    Requests:
    - Handlers: the base classes (task_handlers/base_handler, network_handler,
      sync_handler) and exception/except.h.  Answers: what a class of handlers
      promises to perform<C>, as the class [Answering].
    - TxHandlers, BlockHandlers, SyncHandlers, Status: the handlers.
    - Dispatch: the tables of methods, with an [Answering] instance per class.
    - Forward: a handler joined with its HTTP request.
    - BatchRequest: json_batch_request; HttpSession: http_session and the check of
      http_server.  Validation: what the schemas promise to the session and to the
      handlers.

    The process:
    - Node: http_server, the sessions, the batches, the handlers and their calls
      over one state; the methods are a record ([service]).  NodeLife: what the
      methods promise to the server (the class [Serving]) and the balance of
      requests and answers.  Serve: the methods of the program behind Node.
    - Threads: main.cpp (runServer and the joins), http_server::run and stop, and
      the threads of the pool, the caches and the lookup.

    ** Modelling

    Pure code is a function.  Integers are [Z] with [wrap] or a signed
    counterpart where the type matters; texts are lists of [ascii].  Code that may
    throw returns [res], where [Undefined] is what the language or a library
    leaves undefined, which no handler catches.  The
    handlers are in a monad of state and exceptions in which the state survives a
    throw.  A database is a finite map whose writes may fail by a schedule
    ([put_ok]).  Asynchronous code is a machine driven by events (HttpRequest) or
    steps of threads (Timer, Statistics, Threads); the theorems hold for all orders of
    events and steps.  Locks that cover a whole method make it one step.

    The expiry of a request's timer comes with the part of the response that a read
    under way has received by then.  In SyncCall the pool is given anew for each
    call, since other threads use it in between; in Fleet and Node a call of a worker
    is one of a new object.

    In Node a step is an accepted connection, a request that was read, with all that
    its handler does before it returns, an operation of a call that completes, with
    the callback it may lead to, the start of a call of a worker, or a pass of the pool's monitor.  The query that
    status makes itself is recorded in the state of the server ([srv_calls]), its
    answer is an argument, and the connection it takes from the pool is that of a call
    of a worker.  A run that reaches [Undefined] has no next state; the theorems about
    it are about the run before, and say so.
    The workers change the caches and the chosen nodes at any time, and in any way.  The
    clean-up of the pool belongs to the end of the process, in Threads, where
    checkStopSignal throws exactly when the signal was given.

    Code outside the repository is a parameter:
    - OpenSSL: the class [OpenSSL], with laws for the digests ([DigestLaws]) and for
      the keys of a generated pair ([KeyLaws]) (Crypto).
    - the compiled torrent library: [TorrentLib] (BlockInfo), [InfoLib]
      (GenerateJson), a record of database operations (BlockHandlers); the one law
      used is that hashes are digests of 32 bytes ([TorrentLaws]).
    - LZ4 (Compress): decoding what was encoded gives it back.
    - RapidJSON: [parse] and [print]; only Forward needs that printing and parsing
      are inverse, and JsonText shows that they can be.  Its validator is modelled
      from its source, with the hash codes it compares listed values by; the text of
      an error is a parameter.
    - LevelDB, the file system, clocks, the answers of nodes and name servers,
      the resolver, std::sort, Boost's property trees: arguments.
    Every hypothesis about a parameter has a witness at a concrete instance.

    ** What the theorems show

    - Blocks: what the cache serves with verification on has evidence in the run
      of the worker, or is one of the blocks that the code saves unchecked, which the
      theorem names (BlockSafety); the checked blocks that a response adds are a chain
      (BlockChain);
      version 1 of the worker loads what is missing over its calls and ends (SyncCall);
      the verdict on a block in terms of its signing transactions (BlockVerify);
      the database implements four separate maps, under failed writes, as long as no
      hash reads as a number (BlockRefine), and returns what was saved (BlockStore).
    - Transactions: what create-tx answers, that send-tx accepts it, that the
      signed bytes determine the fields and are read back (Transaction,
      TxHandlers), that generated wallets are usable (Crypto, TxHandlers).
    - The server: every request on every connection is answered exactly once, for
      the methods of the program and all orders of events, up to a request on which
      the behaviour is undefined (Serve); the calls to other nodes do not disturb
      each other (Fleet); a send-tx without a nonce takes the next one of the
      balance, of the node or of the local database (TxHandlers).
    - The process: after the signal the threads can always reach their end, in a
      bounded number of steps but for the passes of the workers that go on, which only
      their own code ends; what a thread of the server or of a component uses is not
      deleted before (Threads).
    - Requests: every request of every table is settled in one way (Dispatch); a
      forwarded one is answered exactly once in every order of events (Forward,
      RequestLife); a batch is answered once (BatchRequest); the synchronous calls
      that the workers make on one object return, as long as none before was ended by
      its timer, with a response of their own (SyncCall), and no pooled connection is
      lost (RequestLife, ConnectionPool); a session refuses without the key and answers
      in order (HttpSession); handlers that exist twice execute alike (SyncHandlers).
    - Validation: an accepted request has a handler, unless its method only has the
      hash code of one, and the parameters that the handler needs with their types; no
      accepted request makes fetch-history-filter use what is no
      object; a hash has 64 digits; the requests of README.md are refused.
    - The rest: round trips of the encodings, the addresses of nodes, the histories
      and the documents; the ranges of the settings; termination of the loops over responses and pages;
      throttling; the handler of a timer runs once per start and stop returns;
      the choice of nodes, who do not answer for one another (Lookup, LookupCalls);
      every request is counted once in the statistics.
    - Where the code goes wrong: theorems state it for the inputs concerned, such
      as [load_extra_endless], [pages_endless], [restart_deadlocks],
      [partial_save_served], [shorter_name_hides_longer],
      [statistics_end_at_start], [early_stop_is_lost], [lookup_uses_freed_pool],
      [pool_emptied_under_calls], [version_1_stuck], [alias_record_kept],
      [stale_completion_doubles_next_call], [unreachable_node_hides_next],
      [nul_hides_text], [colliding_hash_overwrites], [endless_pass_blocks_shutdown].

    ** Bounds and fuel

    Loops that are not structural have fuel.  Loops over a buffer take its length
    as fuel, since an iteration consumes a byte at least; load_extra_blocks needs
    one round per announced block ([load_extra_terminates]) and the pages of a
    history one page with a transaction for every ten announced ([pages_end]);
    the theorems prove that this is enough and state where no fuel is.  An HTTP
    request needs at most [E + 10] events per attempt, [E] being the number of
    endpoints of its host.  A schema is compiled to a depth of 16, which both schemas
    stay below ([schemas_compile]).  crypto.cpp counts with 32 bits, so its loops are
    modelled for sequences shorter than [2^32].

    ** Not modelled

    - the rest of main.cpp, SyncSingleton.cpp, common/log.h: options, signals and
      logging; time_duration of task_handlers/utils, which only logs;
      Statistic/benchmarks.cpp, which measures the machine.
    - The torrent library (interfaces in sync/), which is shipped compiled, and
      the declarations in common/ of files, libcurl and host names.
    - Sockets, strands and parsers of Boost.Asio and Beast below the completion
      handlers; the opening of LevelDB; the resolver of the system.
    - hex2val_le of common/string_utils.cpp, whose value is dropped, uintToHexStr
      for GMP numbers and check_params_1 of send_tx_handler, which nothing calls.
    - sync/P2P/safe_ptr.h and ReferenceWrapper.h, locks and references that only the
      compiled library uses; keywords and patterns that the two schemas do not use.
    - The worker of version 2 and of the history cache take the answers of their
      calls as arguments; what a call returns is in SyncCall. *)

From Stdlib Require Export ZArith Lia Ascii.
From Stdlib Require Import String.
From stdpp Require Export base decidable option list numbers gmap strings.

Open Scope Z_scope.

(** ** Bytes and byte strings *)

(** [char], [unsigned char] are 8-bit values; [std::string], [std::string_view]
    and [std::vector<unsigned char>] are finite sequences of them. *)
Abbreviation bytes := (list ascii).

(** A string literal of the source. *)
Definition str (s : string) : bytes := list_ascii_of_string s.

(** Number of elements as the [size_t] the C++ containers return. *)
Definition zlen {A} (l : list A) : Z := Z.of_nat (length l).

(** [static_cast<unsigned char>(c)] as an integer. *)
Definition uc (c : ascii) : Z := Z.of_N (N_of_ascii c).

(** Conversion of an integer to an 8-bit character: the value modulo 256. *)
Definition chr (z : Z) : ascii := ascii_of_N (Z.to_N (z mod 256)).

(** ** Machine integers *)

(** Value of an expression of unsigned type of [w] bits. *)
Definition wrap (w : Z) (z : Z) : Z := z mod 2 ^ w.
(** Value of an expression of two's complement signed type of [w] bits. *)
Definition swrap (w : Z) (z : Z) : Z := (z + 2 ^ (w - 1)) mod 2 ^ w - 2 ^ (w - 1).

Abbreviation u8 := (wrap 8).
Abbreviation u16 := (wrap 16).
Abbreviation u32 := (wrap 32).
Abbreviation u64 := (wrap 64).
Abbreviation i32 := (swrap 32).
Abbreviation i64 := (swrap 64).

Definition UINT16_MAX : Z := 2 ^ 16 - 1.
Definition UINT32_MAX : Z := 2 ^ 32 - 1.
Definition UINT64_MAX : Z := 2 ^ 64 - 1.
Definition INT_MAX : Z := 2 ^ 31 - 1.

(** ** Exceptions *)

(** What the code throws: [common::exception] (a [std::string], raised by the
    [CHECK] macros), [common::UserException], the standard library's exceptions, the handlers'
    [invalid_param] family with its JSON-RPC code, and [common::StopException].
    The message of a [CHECK] is the text before the source location.
    [Undefined] is not an exception: it marks a call outside the preconditions
    of the language or its library, after which the source gives no behaviour. *)
Inductive exn : Type :=
| CommonException (what : bytes)
| UserException (what : bytes)
| OutOfRange
| InvalidArgument (what : bytes)
| RuntimeError (what : bytes)
| BadVariantAccess
| InvalidParam (code : Z) (what : bytes)
| StopException
| Undefined.

Inductive res (A : Type) : Type :=
| Ok (a : A)
| Throw (e : exn).
Arguments Ok {A} a.
Arguments Throw {A} e.

#[global] Instance res_ret : MRet res := fun A a => Ok a.
#[global] Instance res_bind : MBind res := fun A B f m =>
  match m with Ok a => f a | Throw e => Throw e end.
#[global] Instance res_fmap : FMap res := fun A B f m =>
  match m with Ok a => Ok (f a) | Throw e => Throw e end.

(** [CHECK(v, s)] of common/check.h. *)
Definition CHECK (v : bool) (s : string) : res unit :=
  if v then Ok () else Throw (CommonException (str s)).

(** Whether a computation returned without throwing. *)
Definition is_Ok {A} (r : res A) : bool := match r with Ok _ => true | Throw _ => false end.

(** [catch (std::exception& e)]: [common::exception] is a [std::string], and
    [invalid_param] and [StopException] have no base class, so none of them is
    caught by it. *)
Definition is_std_exception (e : exn) : bool :=
  match e with
  | OutOfRange | InvalidArgument _ | RuntimeError _ | BadVariantAccess => true
  | CommonException _ | UserException _ | InvalidParam _ _ | StopException | Undefined => false
  end.

Definition try_std {A} (m : res A) (handler : exn -> A) : res A :=
  match m with
  | Ok a => Ok a
  | Throw e => if is_std_exception e then Ok (handler e) else Throw e
  end.

(** [catch (...)]. *)
Definition try_any {A} (m : res A) (handler : exn -> A) : res A :=
  match m with
  | Ok a => Ok a
  | Throw Undefined => Throw Undefined
  | Throw e => Ok (handler e)
  end.

(** ** Standard library string operations the source uses *)

(** [s.substr(pos, n)]: throws [std::out_of_range] when [pos > s.size()],
    otherwise returns at most [n] characters from [pos]. *)
Definition substr (s : bytes) (pos n : Z) : res bytes :=
  if zlen s <? pos then Throw OutOfRange
  else Ok (take (Z.to_nat (Z.min n (zlen s - pos))) (drop (Z.to_nat pos) s)).

(** [s[i]] of a [std::string]: the terminating NUL at [i = size()]. *)
Definition at_nul (s : bytes) (i : nat) : ascii := default zero (s !! i).

(** A [std::string] made from [s.c_str()]: the text up to the first NUL. *)
Fixpoint c_str (s : bytes) : bytes :=
  match s with
  | [] => []
  | c :: s' => if bool_decide (c = zero) then [] else c :: c_str s'
  end.

(** [s.compare(pos, n, t) == 0], for [pos <= s.size()]. *)
Definition sub_eqb (s : bytes) (pos n : nat) (t : bytes) : bool :=
  bool_decide (take n (drop pos s) = t).

(** [t] is a prefix of [s]. *)
Fixpoint starts_with (t s : bytes) : bool :=
  match t, s with
  | [], _ => true
  | a :: t', b :: s' => bool_decide (a = b) && starts_with t' s'
  | _ :: _, [] => false
  end.

(** [s.find(t)]: index of the first occurrence, [None] for [npos]. *)
Fixpoint find_sub (t s : bytes) : option nat :=
  if starts_with t s then Some O
  else match s with
       | [] => None
       | _ :: s' => S <$> find_sub t s'
       end.

(** [s.find(c)] for one character. *)
Fixpoint find_char (c : ascii) (s : bytes) : option nat :=
  match s with
  | [] => None
  | a :: s' => if bool_decide (a = c) then Some O else S <$> find_char c s'
  end.

(** ** Tactics and hint databases *)

Create HintDb fullnode.

(** Case analysis on the [match]es and boolean tests of a hypothesis or goal,
    discarding the branches that contradict the context. *)
Ltac destruct_matches_in H :=
  repeat (match type of H with
          | context [match ?x with _ => _ end] =>
              let E := fresh "E" in destruct x eqn:E
          end; simplify_eq/=; try done).

(** Reflect boolean comparisons on integers. *)
Ltac zbool :=
  repeat match goal with
  | H : (_ <? _) = true |- _ => apply Z.ltb_lt in H
  | H : (_ <? _) = false |- _ => apply Z.ltb_ge in H
  | H : (_ <=? _) = true |- _ => apply Z.leb_le in H
  | H : (_ <=? _) = false |- _ => apply Z.leb_gt in H
  | H : (_ =? _) = true |- _ => apply Z.eqb_eq in H
  | H : (_ =? _) = false |- _ => apply Z.eqb_neq in H
  | H : (_ && _) = true |- _ => apply andb_true_iff in H as [? ?]
  | H : (_ || _) = false |- _ => apply orb_false_iff in H as [? ?]
  | H : negb _ = true |- _ => apply negb_true_iff in H
  | H : negb _ = false |- _ => apply negb_false_iff in H
  | H : bool_decide _ = true |- _ => apply bool_decide_eq_true_1 in H
  | H : bool_decide _ = false |- _ => apply bool_decide_eq_false_1 in H
  end.

(** Decide an integer test in the goal from linear facts in the context. *)
Ltac ztest :=
  repeat match goal with
  | |- context [?a <? ?b] =>
      first [ rewrite (proj2 (Z.ltb_lt a b)) by lia
            | rewrite (proj2 (Z.ltb_ge a b)) by lia ]
  | |- context [?a <=? ?b] =>
      first [ rewrite (proj2 (Z.leb_le a b)) by lia
            | rewrite (proj2 (Z.leb_gt a b)) by lia ]
  | |- context [?a =? ?b] =>
      first [ rewrite (proj2 (Z.eqb_eq a b)) by lia
            | rewrite (proj2 (Z.eqb_neq a b)) by lia ]
  end.

(** ** Generic lemmas *)

Lemma uc_range c : 0 <= uc c < 256.
Proof.
  unfold uc. pose proof (N_ascii_bounded c). lia.
Qed.

Lemma uc_chr z : uc (chr z) = z mod 256.
Proof.
  unfold uc, chr. pose proof (Z.mod_pos_bound z 256 eq_refl).
  rewrite N_ascii_embedding by lia. lia.
Qed.

Lemma chr_uc c : chr (uc c) = c.
Proof.
  unfold chr. rewrite Z.mod_small by apply uc_range.
  unfold uc. rewrite N2Z.id. apply ascii_N_embedding.
Qed.

Lemma uc_inj c d : uc c = uc d -> c = d.
Proof. intros H. by rewrite <- (chr_uc c), H, chr_uc. Qed.

Lemma chr_inj_mod a b : a mod 256 = b mod 256 -> chr a = chr b.
Proof. unfold chr. by intros ->. Qed.

(** A property of every character follows from its 256 instances. *)
Lemma forall_ascii (P : ascii -> bool) :
  forallb P (map ascii_of_nat (seq 0 256)) = true -> forall c, P c = true.
Proof.
  intros H c. rewrite forallb_forall in H. apply H.
  rewrite <- (ascii_nat_embedding c). apply in_map, in_seq.
  pose proof (nat_ascii_bounded c). lia.
Qed.

Lemma str_inj s t : str s = str t -> s = t.
Proof.
  unfold str. intros E%(f_equal string_of_list_ascii). by rewrite !string_of_list_ascii_of_string in E.
Qed.

Lemma wrap_range w z : 0 <= w -> 0 <= wrap w z < 2 ^ w.
Proof. intros ?. apply Z.mod_pos_bound. by apply Z.pow_pos_nonneg. Qed.

Lemma wrap_small w z : 0 <= z < 2 ^ w -> wrap w z = z.
Proof. apply Z.mod_small. Qed.

Lemma wrap_idem w z : 0 <= w -> wrap w (wrap w z) = wrap w z.
Proof. intros ?. by apply wrap_small, wrap_range. Qed.

Lemma swrap_small w z : 0 < w -> - 2 ^ (w - 1) <= z < 2 ^ (w - 1) -> swrap w z = z.
Proof.
  intros Hw Hz. unfold swrap.
  assert (2 ^ w = 2 * 2 ^ (w - 1)) as E.
  { rewrite <- Z.pow_succ_r by lia. f_equal. lia. }
  rewrite Z.mod_small; lia.
Qed.

Lemma zlen_nonneg {A} (l : list A) : 0 <= zlen l.
Proof. unfold zlen. lia. Qed.

Lemma zlen_nil {A} : zlen (@nil A) = 0.
Proof. done. Qed.

Lemma zlen_cons {A} (a : A) l : zlen (a :: l) = 1 + zlen l.
Proof. unfold zlen. cbn [length]. lia. Qed.

Lemma zlen_app {A} (l k : list A) : zlen (l ++ k) = zlen l + zlen k.
Proof. unfold zlen. rewrite length_app. lia. Qed.

Lemma zlen_0 {A} (l : list A) : zlen l = 0 -> l = [].
Proof. destruct l; [done|]. rewrite zlen_cons. pose proof (zlen_nonneg l). lia. Qed.

Lemma zlen_to_nat {A} (l : list A) : Z.to_nat (zlen l) = length l.
Proof. unfold zlen. lia. Qed.

#[export] Hint Resolve uc_range zlen_nonneg : fullnode.
Create Rewrite HintDb zlen.
#[export] Hint Rewrite @zlen_nil @zlen_cons @zlen_app @zlen_to_nat : zlen.

(** Reading back a block that was appended after [p]. *)
Lemma substr_app p s q : substr (p ++ s ++ q) (zlen p) (zlen s) = Ok s.
Proof.
  unfold substr. rewrite !zlen_app.
  pose proof (zlen_nonneg s). pose proof (zlen_nonneg q). ztest.
  rewrite Z.min_l by lia. rewrite !zlen_to_nat, drop_app_length.
  by rewrite take_app_length.
Qed.

Lemma bind_Ok {A B} (m : res A) (f : A -> res B) b :
  m ≫= f = Ok b <-> exists a, m = Ok a /\ f a = Ok b.
Proof.
  destruct m as [a|e]; cbn; split; [eauto | by intros (?&[= <-]&?) | done | by intros (?&?&?)].
Qed.

Lemma bind_Throw {A B} (m : res A) (f : A -> res B) e :
  m ≫= f = Throw e -> m = Throw e \/ exists a, m = Ok a /\ f a = Throw e.
Proof. destruct m as [a|e']; cbn; [eauto|intros [= ->]; by left]. Qed.

Lemma Ok_inj {A} (a b : A) : Ok a = Ok b -> a = b.
Proof. by intros [=]. Qed.

Lemma CHECK_true s : CHECK true s = Ok ().
Proof. done. Qed.

Lemma starts_with_app t s : starts_with t s = true <-> exists r, s = t ++ r.
Proof.
  revert s. induction t as [|a t IH]; intros s; cbn.
  - split; [by exists s | done].
  - destruct s as [|b s].
    + split; [done | by intros [r [=]]].
    + rewrite andb_true_iff, bool_decide_eq_true, IH. split.
      * intros [-> [r ->]]. by exists r.
      * intros [r [= -> ->]]. eauto.
Qed.

(** Induction on a list two elements at a time. *)
Lemma list_ind_pair {A} (P : list A -> Prop) :
  P [] -> (forall a, P [a]) -> (forall a b l, P l -> P (a :: b :: l)) -> forall l, P l.
Proof.
  intros H0 H1 H2 l. enough (P l /\ forall a, P (a :: l)) by tauto.
  induction l as [|b l [IH1 IH2]]; [by split|]. split; [apply IH2|]. eauto.
Qed.
