(* ===== verification/Text.v ===== *)
(** Standard library conversions between numbers and text that the client
    relies on: [std::to_string], [std::stoull], [std::stoi], [std::atoi] and the
    C locale's [tolower].  They have no entry in the client's sources; they are
    the part of the C++ library the components below call. *)

From S2P Require Import Prelude.
Open Scope Z_scope.

(** ** Character classes of the C locale *)

Definition isdigit (c : ascii) : bool := (48 <=? uc c) && (uc c <=? 57).
Definition isspace (c : ascii) : bool := ((9 <=? uc c) && (uc c <=? 13)) || (uc c =? 32).

Definition tolower (c : ascii) : ascii :=
  if (65 <=? uc c) && (uc c <=? 90) then chr (uc c + 32) else c.
Definition toupper (c : ascii) : ascii :=
  if (97 <=? uc c) && (uc c <=? 122) then chr (uc c - 32) else c.

(** ** Printing: [std::to_string] of a non-negative value *)

Definition digit (d : Z) : ascii := chr (48 + d).

Fixpoint to_dec (fuel : nat) (n : Z) (acc : bytes) : bytes :=
  match fuel with
  | O => acc
  | S f => if n <? 10 then digit n :: acc
           else to_dec f (n / 10) (digit (n mod 10) :: acc)
  end.

(** [log2 n + 1] rounds are enough: a decimal number has no more digits than bits. *)
Definition to_string (n : Z) : bytes := to_dec (S (Z.to_nat (Z.log2 n))) n [].

(** ** Scanning: the common part of [strtol] and [strtoull] in base 10 *)

Fixpoint skip_spaces (s : bytes) : bytes :=
  match s with
  | c :: s' => if isspace c then skip_spaces s' else s
  | [] => []
  end.

Fixpoint scan_digits (acc : Z) (s : bytes) : Z :=
  match s with
  | c :: s' => if isdigit c then scan_digits (acc * 10 + (uc c - 48)) s' else acc
  | [] => acc
  end.

Definition starts_digit (s : bytes) : bool :=
  match s with c :: _ => isdigit c | [] => false end.

(** Sign and magnitude of the number at the start of [s], [None] when no
    conversion can be performed. *)
Definition scan_number (s : bytes) : option (bool * Z) :=
  let '(neg, s') := match skip_spaces s with
                    | c :: t => if uc c =? 45 then (true, t)
                                else if uc c =? 43 then (false, t) else (false, c :: t)
                    | [] => (false, [])
                    end in
  if starts_digit s' then Some (neg, scan_digits 0 s') else None.

(** [std::stoull]: a leading minus sign negates modulo [2^64]. *)
Definition stoull (s : bytes) : res Z :=
  match scan_number s with
  | None => Throw (InvalidArgument (str "stoull"))
  | Some (neg, m) =>
      if UINT64_MAX <? m then Throw OutOfRange
      else Ok (if neg then u64 (- m) else m)
  end.

(** [std::stoi]. *)
Definition stoi (s : bytes) : res Z :=
  match scan_number s with
  | None => Throw (InvalidArgument (str "stoi"))
  | Some (neg, m) =>
      let v := if neg then - m else m in
      if (v <? - 2 ^ 31) || (INT_MAX <? v) then Throw OutOfRange else Ok v
  end.

(** [std::atoi]: [(int) strtol(s)], where [strtol] saturates at the bounds of
    [long] and returns 0 when there is nothing to convert. *)
Definition atoi (s : bytes) : Z :=
  match scan_number s with
  | None => 0
  | Some (neg, m) =>
      let v := if neg then - m else m in
      i32 (Z.max (- 2 ^ 63) (Z.min v (2 ^ 63 - 1)))
  end.

(** ** Round trips *)

Lemma uc_digit d : 0 <= d <= 9 -> uc (digit d) = 48 + d.
Proof. intros ?. unfold digit. rewrite uc_chr, Z.mod_small; lia. Qed.

Lemma isdigit_digit d : 0 <= d <= 9 -> isdigit (digit d) = true.
Proof. intros ?. unfold isdigit. rewrite uc_digit by done. by ztest. Qed.

Lemma scan_digits_digit d acc s :
  0 <= d <= 9 -> scan_digits acc (digit d :: s) = scan_digits (acc * 10 + d) s.
Proof.
  intros ?. cbn [scan_digits]. rewrite isdigit_digit by done.
  rewrite uc_digit by done. f_equal. lia.
Qed.

(** The digits [to_dec] puts in front of [acc] denote [n]. *)
Lemma to_dec_spec fuel n acc :
  0 <= n < 2 ^ Z.of_nat fuel -> n = 0 \/ 0 < n ->
  (0 < fuel)%nat ->
  exists ds, to_dec fuel n acc = ds ++ acc /\ ds <> [] /\
    Forall (fun c => isdigit c = true) ds /\
    forall k s, scan_digits k (ds ++ s) = scan_digits (k * 10 ^ Z.of_nat (length ds) + n) s.
Proof.
  revert n acc. induction fuel as [|f IH]; intros n acc Hn Hp Hf; [lia|].
  cbn [to_dec]. destruct (n <? 10) eqn:E; zbool.
  - exists [digit n]. repeat split; [done | repeat constructor; apply isdigit_digit; lia |].
    intros k s. cbn [app length]. rewrite scan_digits_digit by lia. f_equal; lia.
  - rewrite Nat2Z.inj_succ, Z.pow_succ_r in Hn by lia.
    assert (0 < 2 ^ Z.of_nat f) by (apply Z.pow_pos_nonneg; lia).
    assert (f <> O) by (intros ->; cbn in Hn; lia).
    pose proof (Z.mod_pos_bound n 10 eq_refl).
    destruct (IH (n / 10) (digit (n mod 10) :: acc)) as (ds & -> & Hne & Hall & Hval).
    { split; [apply Z.div_pos; lia | apply Z.div_lt_upper_bound; lia]. }
    { assert (1 <= n / 10) by (apply Z.div_le_lower_bound; lia). lia. }
    { lia. }
    exists (ds ++ [digit (n mod 10)]). rewrite <- app_assoc. repeat split.
    + by destruct ds.
    + apply Forall_app. split; [done|]. repeat constructor. apply isdigit_digit. lia.
    + intros k s. rewrite <- app_assoc, Hval. cbn [app].
      rewrite scan_digits_digit by lia. f_equal.
      rewrite length_app, Nat2Z.inj_add, Z.pow_add_r by lia. cbn [length].
      pose proof (Z.div_mod n 10). lia.
Qed.

Lemma to_string_digits n :
  0 <= n -> to_string n <> [] /\ Forall (fun c => isdigit c = true) (to_string n) /\
  scan_digits 0 (to_string n) = n.
Proof.
  intros Hn. unfold to_string.
  destruct (to_dec_spec (S (Z.to_nat (Z.log2 n))) n []) as (ds & -> & Hne & Hall & Hval); [|lia..|].
  - split; [done|]. rewrite Nat2Z.inj_succ, Z2Nat.id by apply Z.log2_nonneg.
    destruct (decide (n = 0)) as [->|]; [done|]. apply Z.log2_spec. lia.
  - rewrite app_nil_r in *. repeat split; [done..|].
    specialize (Hval 0 []). rewrite app_nil_r in Hval. rewrite Hval. cbn. lia.
Qed.

Lemma isdigit_uc c : isdigit c = true -> 48 <= uc c <= 57.
Proof. unfold isdigit. intros ?. zbool. lia. Qed.

Lemma scan_number_to_string n : 0 <= n -> scan_number (to_string n) = Some (false, n).
Proof.
  intros Hn. destruct (to_string_digits n Hn) as (Hne & Hall & Hval).
  destruct (to_string n) as [|c s] eqn:E; [done|]. inversion Hall as [|?? Hc _]; subst.
  unfold scan_number. pose proof (isdigit_uc c Hc) as Hu.
  assert (isspace c = false) as Hs.
  { unfold isspace. ztest. cbn. ztest. done. }
  cbn [skip_spaces]. rewrite Hs. ztest. cbn [starts_digit]. rewrite Hc. by f_equal.
Qed.

Lemma stoull_to_string n : 0 <= n <= UINT64_MAX -> stoull (to_string n) = Ok n.
Proof.
  intros Hn. unfold stoull. rewrite scan_number_to_string by lia. by ztest.
Qed.

Lemma scan_digits_nonneg s acc : 0 <= acc -> 0 <= scan_digits acc s.
Proof.
  revert acc. induction s as [|c s IH]; intros acc Ha; cbn [scan_digits]; [done|].
  destruct (isdigit c) eqn:E; [|done]. apply isdigit_uc in E. apply IH. lia.
Qed.

Lemma stoull_range s v : stoull s = Ok v -> 0 <= v <= UINT64_MAX.
Proof.
  unfold stoull, scan_number. destruct (match skip_spaces s with [] => _ | _ => _ end) as [neg t].
  destruct (starts_digit t); [|done]. pose proof (scan_digits_nonneg t 0) as Hn.
  destruct (UINT64_MAX <? _) eqn:E; [done|]. zbool. intros [= <-].
  destruct neg; [|lia]. pose proof (Z.mod_pos_bound (- scan_digits 0 t) (2 ^ 64)).
  unfold u64, wrap, UINT64_MAX in *. lia.
Qed.

Lemma atoi_to_string n : 0 <= n <= INT_MAX -> atoi (to_string n) = n.
Proof.
  unfold INT_MAX. intros Hn. unfold atoi. rewrite scan_number_to_string by lia.
  rewrite Z.min_l, Z.max_r by lia. apply swrap_small; lia.
Qed.

Lemma to_string_inj n m : 0 <= n -> 0 <= m -> to_string n = to_string m -> n = m.
Proof.
  intros Hn Hm E. destruct (to_string_digits n Hn) as (_ & _ & <-).
  destruct (to_string_digits m Hm) as (_ & _ & <-). by rewrite E.
Qed.

Lemma to_string_nonempty n : 0 <= n -> to_string n <> [].
Proof. intros Hn. apply (to_string_digits n Hn). Qed.

Lemma tolower_idem c : tolower (tolower c) = tolower c.
Proof.
  apply (bool_decide_eq_true_1 (tolower (tolower c) = tolower c)).
  revert c. apply forall_ascii. vm_compute. done.
Qed.

Lemma to_dec_length fuel n acc k :
  0 <= n < 10 ^ Z.of_nat (S k) -> (length (to_dec fuel n acc) <= length acc + S k)%nat.
Proof.
  revert n acc k. induction fuel as [|f IH]; intros n acc k Hn; cbn; [lia|].
  destruct (n <? 10) eqn:E; zbool; cbn [length]; [lia|].
  destruct k as [|k]; [cbn in Hn; lia|].
  eapply Nat.le_trans; [apply (IH _ _ k)|cbn; lia].
  split; [apply Z.div_pos; lia|]. apply Z.div_lt_upper_bound; [lia|].
  rewrite (Nat2Z.inj_succ (S k)), Z.pow_succ_r in Hn by lia. lia.
Qed.

(** A 64-bit number has at most twenty digits. *)
Lemma to_string_length n : 0 <= n <= UINT64_MAX -> (length (to_string n) <= 20)%nat.
Proof.
  unfold UINT64_MAX. intros Hn. apply (to_dec_length _ n [] 19).
  split; [lia|]. change (10 ^ Z.of_nat 20) with 100000000000000000000. lia.
Qed.
