(* ===== verification/Hex.v ===== *)
(** Hexadecimal text: the encoders and decoders of src/common/convertStrings.h,
    src/common/string_utils.cpp, src/common/string_utils.h and the pair
    [bin2hex]/[hex2bin] of src/cpplib_open_ssl_decor/crypto.cpp.

    The lookup tables are the source's literals, completed with the zeroes the
    compiler adds.  Loops over [0 <= i < size] are maps over the sequence.  The
    loops of crypto.cpp count with a 32-bit [uint]; the model is the code's
    behaviour on sequences shorter than [2^32]. *)

From Stdlib Require Import String.
From S2P Require Import Prelude Text.
Open Scope Z_scope.

(** ** Lookup tables *)

Definition HexLookup : bytes := str
  ("000102030405060708090a0b0c0d0e0f" ++
   "101112131415161718191a1b1c1d1e1f" ++
   "202122232425262728292a2b2c2d2e2f" ++
   "303132333435363738393a3b3c3d3e3f" ++
   "404142434445464748494a4b4c4d4e4f" ++
   "505152535455565758595a5b5c5d5e5f" ++
   "606162636465666768696a6b6c6d6e6f" ++
   "707172737475767778797a7b7c7d7e7f" ++
   "808182838485868788898a8b8c8d8e8f" ++
   "909192939495969798999a9b9c9d9e9f" ++
   "a0a1a2a3a4a5a6a7a8a9aaabacadaeaf" ++
   "b0b1b2b3b4b5b6b7b8b9babbbcbdbebf" ++
   "c0c1c2c3c4c5c6c7c8c9cacbcccdcecf" ++
   "d0d1d2d3d4d5d6d7d8d9dadbdcdddedf" ++
   "e0e1e2e3e4e5e6e7e8e9eaebecedeeef" ++
   "f0f1f2f3f4f5f6f7f8f9fafbfcfdfeff").

Definition DecLookup : list Z :=
  [0;0;0;0;0;0;0;0;0;0;0;0;0;0;0;0;
   0;0;0;0;0;0;0;0;0;0;0;0;0;0;0;0;
   0;0;0;0;0;0;0;0;0;0;0;0;0;0;0;0;
   0;1;2;3;4;5;6;7;8;9;
   0;0;0;0;0;0;0;
   10;11;12;13;14;15;
   0;0;0;0;0;0;0;0;0;0;0;0;0;
   0;0;0;0;0;0;0;0;0;0;0;0;0;
   10;11;12;13;14;15;
   0;0;0;0;0;0;0;0;0;0;0;0;0;0;0;0] ++ replicate (256 - 119) 0.

(** The two characters at [HexLookup + 2 * c]. *)
Definition hex_pair (c : ascii) : bytes :=
  take 2 (drop (Z.to_nat (2 * uc c)) HexLookup).

(** [DecLookup[(unsigned char) c]]. *)
Definition dec_of (c : ascii) : Z := default 0 (DecLookup !! Z.to_nat (uc c)).

(** [d = DecLookup[a] << 4; d |= DecLookup[b]], in an [unsigned char]. *)
Definition dec_pair (a b : ascii) : ascii :=
  chr (Z.lor (u8 (Z.shiftl (dec_of a) 4)) (dec_of b)).

(** ** Encoders *)

(** common::toHex over a range of iterators: one digit at a time. *)
Definition hex_digit (d : Z) : ascii := chr (if d <=? 9 then d + 48 else d - 10 + 97).

Definition toHex (s : bytes) : bytes :=
  flat_map (fun c => [hex_digit (uc c / 16); hex_digit (uc c mod 16)]) s.

(** common::bin2hex2, which common::toHex of a vector calls. *)
Definition bin2hex2 (src : bytes) : bytes := flat_map hex_pair src.
Definition toHex_vec (vec : bytes) : bytes := bin2hex2 vec.

(** The overloads of string_utils::bin2hex: a vector, a buffer of [size] bytes
    written into [res], a string appended to [res]. *)
Definition bin2hex_vec (src : bytes) : bytes :=
  fold_left (fun res c => res ++ hex_pair c) src [].
Definition bin2hex_buf (buf : bytes) (size : nat) : bytes := flat_map hex_pair (take size buf).
Definition bin2hex_append (buf res : bytes) : bytes :=
  fold_left (fun res c => res ++ hex_pair c) buf res.

(** bin2hex of crypto.cpp. *)
Definition bin2hex (message : bytes) : bytes :=
  fold_left (fun res c => res ++ hex_pair c) message [].

(** ** Decoders *)

(** common::hex2bin2 on the [len] characters at [src]; [None] when it reads past them. *)
Fixpoint hex2bin2 (data : bytes) : option bytes :=
  match data with
  | [] => Some []
  | [_] => None
  | a :: b :: rest => cons (dec_pair a b) <$> hex2bin2 rest
  end.

Definition fromHex (hex : bytes) : option bytes :=
  let begin := if sub_eqb hex 0 2 (str "0x") then 2%nat else 0%nat in
  if negb (zlen hex mod 2 =? 0) then Some []
  else hex2bin2 (drop begin hex).

(** hex2bin of crypto.cpp; [src[i + 1]] past the end is the terminating NUL. *)
Fixpoint hex2bin_loop (src : bytes) : bytes :=
  match src with
  | [] => []
  | [a] => [dec_pair a zero]
  | a :: b :: rest => dec_pair a b :: hex2bin_loop rest
  end.

Definition hex2bin (src : bytes) : bytes :=
  if (2 <? zlen src) && bool_decide (src !! 0%nat = Some "0"%char)
     && bool_decide (src !! 1%nat = Some "x"%char)
  then hex2bin_loop (drop 2 src) else hex2bin_loop src.

(** ** Numbers in hexadecimal *)

(** The loop of the two overloads of common::uintToHexStr; [num % 16] and
    [num / 16] truncate toward zero, and the digit is taken through a [uint8_t]. *)
Fixpoint uintToHexStr_loop (fuel : nat) (num : Z) (res : bytes) : bytes :=
  match fuel with
  | O => res
  | S f => if num =? 0 then res
           else let md := u8 (Z.rem num 16) in
                let cc := chr (if md <=? 9 then 48 + md else 97 + md - 10) in
                uintToHexStr_loop f (Z.quot num 16) (cc :: res)
  end.

(** [log2 |num| + 1] rounds are enough: each one removes four bits. *)
Definition uintToHexStr (num : Z) : bytes :=
  if num =? 0 then str "0x0"
  else str "0x" ++ uintToHexStr_loop (S (Z.to_nat (Z.log2 (Z.abs num)))) num [].

Definition hex_value (c : ascii) : Z :=
  if (48 <=? uc c) && (uc c <=? 57) then uc c - 48
  else if (97 <=? uc c) && (uc c <=? 102) then uc c - 97 + 10
  else if (65 <=? uc c) && (uc c <=? 70) then uc c - 65 + 10 else 0.

(** common::hexStrToInt<Type> for an unsigned [Type] of [w] bits. *)
Definition hexStrToInt (w : Z) (s : bytes) : Z :=
  let copy := if bool_decide (find_sub (str "0x") s = Some 0%nat) then drop 2 s else s in
  fold_left (fun r c => wrap w (wrap w (r * 16) + hex_value c)) copy 0.

(** ** Case and concatenation: string_utils *)

Definition to_lower (s : bytes) : bytes := map tolower s.
Definition to_upper (s : bytes) : bytes := map toupper s.

(** check_size: the total of the sizes, 0 as soon as it overflows [size_t]. *)
Fixpoint check_size (size : Z) (pieces : list bytes) : Z :=
  match pieces with
  | [] => size
  | v :: rest => if UINT64_MAX - size <? zlen v then 0 else check_size (size + zlen v) rest
  end.

Fixpoint str_append_unsafe (res : bytes) (pieces : list bytes) : bytes :=
  match pieces with
  | [] => res
  | v :: rest => str_append_unsafe (res ++ v) rest
  end.

Definition str_append (res : bytes) (pieces : list bytes) : bytes :=
  if negb (check_size 0 pieces =? 0) then str_append_unsafe res pieces else res.

Definition str_concat (pieces : list bytes) : bytes := str_append [] pieces.

(** ** Facts about single characters, checked on all 256 of them *)

(** A hexadecimal digit, and a lower-case one. *)
Definition is_hex (c : ascii) : bool :=
  ((48 <=? uc c) && (uc c <=? 57)) || ((97 <=? uc c) && (uc c <=? 102))
  || ((65 <=? uc c) && (uc c <=? 70)).

Definition hex_hi (c : ascii) : ascii := hex_digit (uc c / 16).
Definition hex_lo (c : ascii) : ascii := hex_digit (uc c mod 16).

Ltac by_all_chars c :=
  match goal with |- ?P => apply (bool_decide_eq_true_1 P) end;
  clear -c; revert c; apply forall_ascii; vm_compute; done.

Lemma hex_pair_digits c : hex_pair c = [hex_hi c; hex_lo c].
Proof. by_all_chars c. Qed.

Lemma dec_pair_hex c : dec_pair (hex_hi c) (hex_lo c) = c.
Proof. by_all_chars c. Qed.

Lemma is_hex_hi c : is_hex (hex_hi c) = true.
Proof. by_all_chars c. Qed.

Lemma is_hex_lo c : is_hex (hex_lo c) = true.
Proof. by_all_chars c. Qed.

Lemma hex_value_dec_of c : hex_value c = dec_of c.
Proof. by_all_chars c. Qed.

Lemma dec_of_range c : 0 <= dec_of c < 16.
Proof.
  assert ((0 <=? dec_of c) && (dec_of c <? 16) = true); [by_all_chars c | zbool; lia].
Qed.

Lemma hex_digit_dec_of c : is_hex c = true -> hex_digit (dec_of c) = tolower c.
Proof.
  assert (implb (is_hex c) (bool_decide (hex_digit (dec_of c) = tolower c)) = true) as H
    by by_all_chars c.
  intros E. rewrite E in H. by apply bool_decide_eq_true_1 in H.
Qed.

Lemma hex_value_digit d : 0 <= d < 16 -> hex_value (hex_digit d) = d.
Proof.
  intros Hd. assert (d = uc (chr d)) as -> by (rewrite uc_chr, Z.mod_small; lia).
  set (c := chr d) in *. assert (uc c < 16) as Hc by (subst c; rewrite uc_chr, Z.mod_small; lia).
  clearbody c. clear d Hd.
  assert (implb (uc c <? 16) (hex_value (hex_digit (uc c)) =? uc c) = true) as H by by_all_chars c.
  apply Z.ltb_lt in Hc. rewrite Hc in H. cbn [implb] in H. zbool. done.
Qed.

Lemma lor_nibbles c : Z.lor (uc c / 16 * 16) (uc c mod 16) = uc c.
Proof. by_all_chars c. Qed.

Lemma lor_nibbles_add x y : 0 <= x < 16 -> 0 <= y < 16 -> Z.lor (x * 16) y = x * 16 + y.
Proof.
  intros Hx Hy. pose proof (lor_nibbles (chr (x * 16 + y))) as H.
  rewrite uc_chr, (Z.mod_small (x * 16 + y) 256) in H by lia.
  rewrite Z.div_add_l, Z.div_small, Z.add_0_r in H by lia.
  rewrite (Z.add_comm (x * 16) y), Z.mod_add, (Z.mod_small y 16) in H by lia. lia.
Qed.

Lemma uc_dec_pair a b : uc (dec_pair a b) = dec_of a * 16 + dec_of b.
Proof.
  unfold dec_pair. pose proof (dec_of_range a). pose proof (dec_of_range b).
  rewrite Z.shiftl_mul_pow2 by lia. change (2 ^ 4) with 16.
  rewrite wrap_small by (change (2 ^ 8) with 256; lia).
  rewrite uc_chr, lor_nibbles_add, Z.mod_small; lia.
Qed.

Lemma hex_of_dec_pair a b :
  is_hex a = true -> is_hex b = true ->
  hex_pair (dec_pair a b) = [tolower a; tolower b].
Proof.
  intros Ha Hb. rewrite hex_pair_digits. unfold hex_hi, hex_lo.
  rewrite uc_dec_pair. pose proof (dec_of_range a). pose proof (dec_of_range b).
  rewrite Z.div_add_l, Z.div_small, Z.add_0_r by lia.
  rewrite (Z.add_comm (_ * 16)), Z.mod_add, Z.mod_small by lia.
  by rewrite !hex_digit_dec_of.
Qed.

(** ** The encoders agree *)

Lemma fold_append_flat_map (f : ascii -> bytes) s acc :
  fold_left (fun res c => res ++ f c) s acc = acc ++ flat_map f s.
Proof.
  revert acc. induction s as [|c s IH]; intros acc; cbn; [by rewrite app_nil_r|].
  by rewrite IH, app_assoc.
Qed.

Lemma bin2hex_flat_map s : bin2hex s = flat_map hex_pair s.
Proof. apply fold_append_flat_map. Qed.

Lemma bin2hex_cons c s : bin2hex (c :: s) = hex_hi c :: hex_lo c :: bin2hex s.
Proof. rewrite !bin2hex_flat_map. cbn [flat_map]. by rewrite hex_pair_digits. Qed.

Lemma bin2hex_app s t : bin2hex (s ++ t) = bin2hex s ++ bin2hex t.
Proof. rewrite !bin2hex_flat_map. apply flat_map_app. Qed.

Lemma toHex_bin2hex s : toHex s = bin2hex s.
Proof.
  induction s as [|c s IH]; [done|]. rewrite bin2hex_cons, <- IH. done.
Qed.

(** Every hexadecimal encoder of the program computes the same text. *)
Theorem encoders_agree s :
  toHex s = bin2hex s /\ toHex_vec s = bin2hex s /\ bin2hex_vec s = bin2hex s /\
  bin2hex_buf s (length s) = bin2hex s /\
  (forall res, bin2hex_append s res = res ++ bin2hex s).
Proof.
  unfold toHex_vec, bin2hex2, bin2hex_buf, bin2hex_append. rewrite bin2hex_flat_map.
  repeat split; [by rewrite toHex_bin2hex, bin2hex_flat_map | apply bin2hex_flat_map | |].
  - by rewrite take_ge.
  - intros res. apply fold_append_flat_map.
Qed.

Lemma length_bin2hex s : length (bin2hex s) = (2 * length s)%nat.
Proof. induction s as [|c s IH]; [done|]. rewrite bin2hex_cons. cbn [length]. lia. Qed.

Lemma zlen_bin2hex s : zlen (bin2hex s) = 2 * zlen s.
Proof. unfold zlen. rewrite length_bin2hex. lia. Qed.

Lemma Forall_is_hex_bin2hex s : Forall (fun c => is_hex c = true) (bin2hex s).
Proof.
  induction s as [|c s IH]; [constructor|]. rewrite bin2hex_cons.
  constructor; [apply is_hex_hi|]. constructor; [apply is_hex_lo | done].
Qed.

#[export] Hint Resolve Forall_is_hex_bin2hex : fullnode.

(** No text of hexadecimal digits starts with the prefix "0x". *)
Lemma hex_no_prefix s : Forall (fun c => is_hex c = true) s -> sub_eqb s 0 2 (str "0x") = false.
Proof.
  intros H. apply bool_decide_eq_false_2.
  destruct s as [|a [|b s]]; [done..|]. inversion H as [|?? _ H2]; subst.
  inversion H2 as [|?? Hb _]; subst. cbn. intros [= -> ->]. by vm_compute in Hb.
Qed.

(** ** Round trips *)

Lemma hex2bin2_bin2hex s t : hex2bin2 (bin2hex s ++ t) = (fun r => s ++ r) <$> hex2bin2 t.
Proof.
  induction s as [|c s IH]; cbn [app].
  - cbn. by destruct (hex2bin2 t).
  - rewrite bin2hex_cons. cbn [app hex2bin2]. rewrite IH, dec_pair_hex.
    by destruct (hex2bin2 t).
Qed.

Lemma hex2bin2_encoded s : hex2bin2 (bin2hex s) = Some s.
Proof.
  pose proof (hex2bin2_bin2hex s []) as H. rewrite app_nil_r in H. rewrite H. cbn.
  by rewrite app_nil_r.
Qed.

Lemma hex2bin_loop_bin2hex s t : hex2bin_loop (bin2hex s ++ t) = s ++ hex2bin_loop t.
Proof.
  induction s as [|c s IH]; [done|]. rewrite bin2hex_cons. cbn [app hex2bin_loop].
  by rewrite IH, dec_pair_hex.
Qed.

Lemma hex2bin_loop_encoded s : hex2bin_loop (bin2hex s) = s.
Proof.
  pose proof (hex2bin_loop_bin2hex s []) as H. rewrite app_nil_r in H. rewrite H.
  apply app_nil_r.
Qed.

Lemma hex2bin_hex s : Forall (fun c => is_hex c = true) s -> hex2bin s = hex2bin_loop s.
Proof.
  intros H. unfold hex2bin. destruct (_ && _) eqn:E; [|done].
  apply andb_true_iff in E as [_ E]. apply bool_decide_eq_true_1 in E.
  apply (Forall_lookup_1 _ _ _ _ H) in E. by vm_compute in E.
Qed.

Lemma hex2bin_bin2hex s : hex2bin (bin2hex s) = s.
Proof.
  rewrite hex2bin_hex by apply Forall_is_hex_bin2hex. apply hex2bin_loop_encoded.
Qed.

Lemma fromHex_bin2hex s : fromHex (bin2hex s) = Some s.
Proof.
  unfold fromHex. rewrite hex_no_prefix by apply Forall_is_hex_bin2hex.
  rewrite zlen_bin2hex, Z.mul_comm, Z.mod_mul by lia. apply hex2bin2_encoded.
Qed.

(** Decoding what any encoder wrote returns the bytes that were encoded,
    with or without the "0x" prefix. *)
Theorem decode_encode s :
  hex2bin (bin2hex s) = s /\ fromHex (bin2hex s) = Some s /\
  fromHex (str "0x" ++ bin2hex s) = Some s /\
  (s <> [] -> hex2bin (str "0x" ++ bin2hex s) = s).
Proof.
  split; [apply hex2bin_bin2hex|]. split; [apply fromHex_bin2hex|]. split.
  - unfold fromHex. assert (sub_eqb (str "0x" ++ bin2hex s) 0 2 (str "0x") = true) as ->
      by by apply bool_decide_eq_true_2.
    rewrite zlen_app, zlen_bin2hex. change (zlen (str "0x")) with 2.
    replace (2 + 2 * zlen s) with ((1 + zlen s) * 2) by lia. rewrite Z.mod_mul by lia.
    apply hex2bin2_encoded.
  - intros Hs. unfold hex2bin. rewrite zlen_app, zlen_bin2hex. change (zlen (str "0x")) with 2.
    destruct s as [|c s]; [done|]. rewrite zlen_cons. pose proof (zlen_nonneg s). ztest.
    apply hex2bin_loop_encoded.
Qed.

Lemma hex2bin_loop_inv s :
  Forall (fun c => is_hex c = true) s -> Nat.Even (length s) ->
  bin2hex (hex2bin_loop s) = to_lower s.
Proof.
  induction s as [|a|a b s IH] using list_ind_pair; intros H He; [done|..].
  - destruct He as [k Hk]. cbn in Hk. lia.
  - inversion H as [|?? Ha H2]; subst. inversion H2 as [|?? Hb H3]; subst.
    cbn [hex2bin_loop]. rewrite bin2hex_flat_map. cbn [flat_map].
    rewrite hex_of_dec_pair by done. cbn [app]. rewrite <- bin2hex_flat_map, IH; [done..|].
    destruct He as [k Hk]. exists (k - 1)%nat. cbn in Hk. lia.
Qed.

(** On an even number of hexadecimal digits, decoding then encoding gives
    the text in lower case. *)
Theorem encode_decode s :
  Forall (fun c => is_hex c = true) s -> Nat.Even (length s) ->
  bin2hex (hex2bin s) = to_lower s.
Proof. intros H He. rewrite hex2bin_hex by done. by apply hex2bin_loop_inv. Qed.

Lemma hex2bin2_even s : Nat.Even (length s) -> hex2bin2 s = Some (hex2bin_loop s).
Proof.
  induction s as [|a|a b s IH] using list_ind_pair; intros [k Hk]; [done | cbn in Hk; lia |].
  cbn [hex2bin2 hex2bin_loop]. rewrite IH; [done|]. exists (k - 1)%nat. cbn in Hk. lia.
Qed.

Lemma zlen_even {A} (s : list A) : zlen s mod 2 = 0 -> Nat.Even (length s).
Proof.
  unfold zlen. intros H. destruct (Nat.Even_or_Odd (length s)) as [|[k Hk]]; [done|].
  rewrite Hk in H. exfalso.
  replace (Z.of_nat (2 * k + 1)) with (1 + Z.of_nat k * 2) in H by lia.
  by rewrite Z.mod_add in H by lia.
Qed.

Lemma sub_eqb_prefix s t : sub_eqb s 0 (length t) t = true -> exists r, s = t ++ r.
Proof.
  unfold sub_eqb. intros H%bool_decide_eq_true_1. exists (drop (length t) s).
  rewrite drop_0 in H. rewrite <- H at 1. by rewrite take_drop.
Qed.

Lemma sub_eqb_app s t : sub_eqb (t ++ s) 0 (length t) t = true.
Proof. apply bool_decide_eq_true_2. by rewrite drop_0, take_app_length. Qed.

(** [fromHex] never reads outside its argument, and it agrees with [hex2bin]
    on every text of even length except "0x" itself; on an odd length it gives
    the empty sequence. *)
Theorem fromHex_spec s :
  fromHex s = Some (if negb (zlen s mod 2 =? 0) then []
                    else if bool_decide (s = str "0x") then [] else hex2bin s).
Proof.
  unfold fromHex. destruct (zlen s mod 2 =? 0) eqn:Ez; cbn [negb]; [|done].
  zbool. apply zlen_even in Ez. destruct (sub_eqb s 0 2 (str "0x")) eqn:Ep.
  - change 2%nat with (length (str "0x")) in Ep. apply sub_eqb_prefix in Ep as [r ->].
    change (drop 2 (str "0x" ++ r)) with r.
    assert (Nat.Even (length r)) as Hr.
    { destruct Ez as [k Hk]. exists (k - 1)%nat. rewrite length_app in Hk. cbn in Hk. lia. }
    rewrite hex2bin2_even by done. f_equal. destruct (decide (r = [])) as [->|Hne]; [done|].
    rewrite bool_decide_eq_false_2 by (destruct r; done).
    unfold hex2bin. rewrite zlen_app. change (zlen (str "0x")) with 2.
    destruct r as [|c r]; [done|]. rewrite zlen_cons. pose proof (zlen_nonneg r).
    by ztest.
  - rewrite drop_0, hex2bin2_even by done. f_equal. rewrite bool_decide_eq_false_2 by (by intros ->).
    unfold hex2bin. destruct (_ && _) eqn:E; [|done]. zbool.
    destruct s as [|a [|b s]]; [done..|]. simplify_eq/=.
Qed.

(** ** Values of hexadecimal text *)

(** The value of a text read as hexadecimal digits, without wrap-around. *)
Definition hex_num (s : bytes) : Z := fold_left (fun r c => r * 16 + hex_value c) s 0.

Lemma hex_value_range c : 0 <= hex_value c < 16.
Proof. rewrite hex_value_dec_of. apply dec_of_range. Qed.

Lemma hex_num_snoc s c : hex_num (s ++ [c]) = hex_num s * 16 + hex_value c.
Proof. unfold hex_num. by rewrite fold_left_app. Qed.

Lemma hex_num_range s : 0 <= hex_num s < 16 ^ zlen s.
Proof.
  induction s as [|c s IH] using rev_ind; [by vm_compute|].
  rewrite hex_num_snoc, zlen_app. change (zlen [c]) with 1.
  rewrite Z.pow_add_r by (try apply zlen_nonneg; lia). pose proof (hex_value_range c). lia.
Qed.

Lemma fold_wrap w s :
  0 <= w ->
  fold_left (fun r c => wrap w (wrap w (r * 16) + hex_value c)) s 0 = wrap w (hex_num s).
Proof.
  intros Hw. induction s as [|c s IH] using rev_ind.
  - cbn. unfold wrap. rewrite Z.mod_0_l; [done|]. apply Z.pow_nonzero; lia.
  - rewrite fold_left_app, hex_num_snoc. cbn [fold_left]. rewrite IH. unfold wrap.
    assert (2 ^ w <> 0) by (apply Z.pow_nonzero; lia).
    rewrite Z.add_mod_idemp_l by done.
    by rewrite <- (Z.add_mod_idemp_l (_ mod _ * 16)), Z.mul_mod_idemp_l, Z.add_mod_idemp_l by done.
Qed.

Lemma find_prefix_0 t s : find_sub t s = Some 0%nat <-> starts_with t s = true.
Proof.
  destruct s; cbn [find_sub]; destruct (starts_with t _); try done.
  destruct (find_sub t s); done.
Qed.

Lemma hex_no_find s : Forall (fun c => is_hex c = true) s -> find_sub (str "0x") s <> Some 0%nat.
Proof.
  intros H E%find_prefix_0. apply starts_with_app in E as [r ->].
  pose proof (sub_eqb_app r (str "0x")) as E. change (length (str "0x")) with 2%nat in E.
  rewrite hex_no_prefix in E; done.
Qed.

Lemma hexStrToInt_hex w s :
  0 <= w -> Forall (fun c => is_hex c = true) s -> hexStrToInt w s = wrap w (hex_num s).
Proof.
  intros Hw H. unfold hexStrToInt. rewrite bool_decide_eq_false_2 by by apply hex_no_find.
  by apply fold_wrap.
Qed.

Lemma hexStrToInt_0x w s : 0 <= w -> hexStrToInt w (str "0x" ++ s) = wrap w (hex_num s).
Proof.
  intros Hw. unfold hexStrToInt. rewrite bool_decide_eq_true_2; [by apply fold_wrap|].
  apply find_prefix_0, starts_with_app. by exists s.
Qed.

Lemma hex_digit_chr d :
  0 <= d < 16 -> chr (if d <=? 9 then 48 + d else 97 + d - 10) = hex_digit d.
Proof. intros ?. unfold hex_digit. destruct (d <=? 9); f_equal; lia. Qed.

Lemma uintToHexStr_loop_spec fuel n acc :
  0 <= n < 2 ^ Z.of_nat fuel ->
  exists ds, uintToHexStr_loop fuel n acc = ds ++ acc /\ hex_num ds = n.
Proof.
  revert n acc. induction fuel as [|f IH]; intros n acc Hn.
  - exists []. cbn in *. split; [done|]. unfold hex_num. cbn. lia.
  - cbn [uintToHexStr_loop]. destruct (n =? 0) eqn:E; zbool; [by exists []; subst|].
    rewrite Nat2Z.inj_succ, Z.pow_succ_r in Hn by lia.
    rewrite Z.rem_mod_nonneg, Z.quot_div_nonneg by lia.
    pose proof (Z.mod_pos_bound n 16 eq_refl).
    rewrite wrap_small by (change (2 ^ 8) with 256; lia). rewrite hex_digit_chr by lia.
    destruct (IH (n / 16) (hex_digit (n mod 16) :: acc)) as (ds & -> & Hds).
    { split; [apply Z.div_pos; lia|]. apply Z.div_lt_upper_bound; lia. }
    exists (ds ++ [hex_digit (n mod 16)]). rewrite <- app_assoc. split; [done|].
    rewrite hex_num_snoc, hex_value_digit, Hds by lia. pose proof (Z.div_mod n 16). lia.
Qed.

(** Reading back the hexadecimal text of a [size_t] gives the number. *)
Theorem hexStrToInt_uintToHexStr n :
  0 <= n <= UINT64_MAX -> hexStrToInt 64 (uintToHexStr n) = n.
Proof.
  unfold UINT64_MAX. intros Hn. unfold uintToHexStr. destruct (n =? 0) eqn:E; zbool.
  - by subst.
  - destruct (uintToHexStr_loop_spec (S (Z.to_nat (Z.log2 (Z.abs n)))) n []) as (ds & -> & Hds).
    { rewrite Z.abs_eq by lia. split; [lia|].
      rewrite Nat2Z.inj_succ, Z2Nat.id by apply Z.log2_nonneg. apply Z.log2_spec. lia. }
    rewrite app_nil_r, hexStrToInt_0x, Hds by lia. apply wrap_small. lia.
Qed.

(** ** Concatenation *)

Lemma check_size_spec n pieces :
  0 <= n -> n + zlen (concat pieces) <= UINT64_MAX ->
  check_size n pieces = n + zlen (concat pieces).
Proof.
  revert n. induction pieces as [|v rest IH]; intros n Hn H; cbn [check_size concat] in *.
  - rewrite zlen_nil. lia.
  - rewrite zlen_app in *. pose proof (zlen_nonneg v). pose proof (zlen_nonneg (concat rest)).
    ztest. rewrite IH; lia.
Qed.

Lemma str_append_unsafe_concat r pieces : str_append_unsafe r pieces = r ++ concat pieces.
Proof.
  revert r. induction pieces as [|v rest IH]; intros r; cbn; [by rewrite app_nil_r|].
  by rewrite IH, app_assoc.
Qed.

Lemma str_append_spec r pieces :
  zlen (concat pieces) <= UINT64_MAX -> str_append r pieces = r ++ concat pieces.
Proof.
  intros H. unfold str_append. rewrite check_size_spec by lia. rewrite Z.add_0_l.
  destruct (zlen (concat pieces) =? 0) eqn:E; cbn [negb].
  - zbool. apply zlen_0 in E. rewrite E. by rewrite app_nil_r.
  - apply str_append_unsafe_concat.
Qed.

Lemma str_concat_concat pieces :
  zlen (concat pieces) <= UINT64_MAX -> str_concat pieces = concat pieces.
Proof. apply (str_append_spec []). Qed.

(** Hexadecimal text has no NUL. *)
Lemma c_str_hex s : Forall (fun c => is_hex c = true) s -> c_str s = s.
Proof.
  induction 1 as [|c s Hc Hs IH]; [done|]. cbn [c_str].
  rewrite bool_decide_eq_false_2 by (by intros ->). by rewrite IH.
Qed.

Lemma c_str_bin2hex s : c_str (bin2hex s) = bin2hex s.
Proof. apply c_str_hex, Forall_is_hex_bin2hex. Qed.
