(* ===== verification/Endian.v ===== *)
(** Reference encodings of unsigned integers as sequences of bytes, big-endian
    and little-endian, against which the loops of the sources are verified. *)

From S2P Require Import Prelude.
Open Scope Z_scope.

(** ** Big-endian *)

(** The [n] big-endian digits of [v] in base 256. *)
Fixpoint be_bytes (n : nat) (v : Z) : bytes :=
  match n with
  | O => []
  | S k => be_bytes k (v / 256) ++ [chr (v mod 256)]
  end.

(** The number a sequence of big-endian digits denotes. *)
Definition be_value (s : bytes) : Z := fold_left (fun v c => v * 256 + uc c) s 0.

Lemma length_be_bytes n v : length (be_bytes n v) = n.
Proof.
  revert v. induction n as [|n IH]; intros v; [done|]. cbn [be_bytes].
  rewrite length_app, IH. cbn [length]. lia.
Qed.

Lemma zlen_be_bytes n v : zlen (be_bytes n v) = Z.of_nat n.
Proof. unfold zlen. by rewrite length_be_bytes. Qed.

Lemma be_bytes_0 n : be_bytes n 0 = replicate n zero.
Proof.
  induction n as [|n IH]; [done|]. cbn [be_bytes]. change (0 / 256) with 0. rewrite IH.
  change [chr (0 mod 256)] with (replicate 1 zero). rewrite <- replicate_add. f_equal. lia.
Qed.

Lemma be_value_snoc s c : be_value (s ++ [c]) = be_value s * 256 + uc c.
Proof. unfold be_value. by rewrite fold_left_app. Qed.

Lemma be_value_be_bytes n v : be_value (be_bytes n v) = v mod 256 ^ Z.of_nat n.
Proof.
  revert v. induction n as [|n IH]; intros v; [cbn; by rewrite Z.mod_1_r|].
  cbn [be_bytes]. rewrite be_value_snoc, IH, uc_chr, Z.mod_mod by lia.
  rewrite Nat2Z.inj_succ, Z.pow_succ_r by lia.
  rewrite Z.rem_mul_r by (try apply Z.pow_pos_nonneg; lia). lia.
Qed.

Lemma be_value_range s : 0 <= be_value s < 256 ^ zlen s.
Proof.
  induction s as [|c s IH] using rev_ind; [by vm_compute|].
  rewrite be_value_snoc, zlen_app. change (zlen [c]) with 1.
  rewrite Z.pow_add_r by (try apply zlen_nonneg; lia). pose proof (uc_range c). lia.
Qed.

Lemma pow_256 n : 0 <= n -> 256 ^ n = 2 ^ (8 * n).
Proof. intros ?. change 256 with (2 ^ 8). by rewrite <- Z.pow_mul_r by lia. Qed.

(** ** Little-endian *)

(** The [n] little-endian digits of [v] in base 256. *)
Fixpoint le_bytes (n : nat) (v : Z) : bytes :=
  match n with
  | O => []
  | S k => chr (v mod 256) :: le_bytes k (v / 256)
  end.

Fixpoint le_value (s : bytes) : Z :=
  match s with
  | [] => 0
  | c :: s' => uc c + 256 * le_value s'
  end.

Lemma le_bytes_rev n v : le_bytes n v = rev (be_bytes n v).
Proof.
  revert v. induction n as [|n IH]; intros v; [done|]. cbn [le_bytes be_bytes].
  rewrite rev_app_distr, IH. done.
Qed.

Lemma rev_le_bytes n v : rev (le_bytes n v) = be_bytes n v.
Proof. by rewrite le_bytes_rev, rev_involutive. Qed.

Lemma length_le_bytes n v : length (le_bytes n v) = n.
Proof. by rewrite le_bytes_rev, length_rev, length_be_bytes. Qed.

Lemma zlen_le_bytes n v : zlen (le_bytes n v) = Z.of_nat n.
Proof. unfold zlen. by rewrite length_le_bytes. Qed.

Lemma le_value_rev s : le_value (rev s) = be_value s.
Proof.
  induction s as [|c s IH] using rev_ind; [done|].
  rewrite rev_app_distr, be_value_snoc, <- IH. cbn. lia.
Qed.

Lemma le_value_le_bytes n v : le_value (le_bytes n v) = v mod 256 ^ Z.of_nat n.
Proof. by rewrite le_bytes_rev, le_value_rev, be_value_be_bytes. Qed.

(** And back: the bytes are determined by the value. *)
Lemma le_bytes_le_value s : le_bytes (length s) (le_value s) = s.
Proof.
  induction s as [|c s IH]; [done|]. cbn [length le_bytes le_value]. pose proof (uc_range c).
  rewrite (Z.mul_comm 256), Z_mod_plus_full, Z.mod_small, Z.div_add, Z.div_small, Z.add_0_l, IH by lia.
  f_equal. apply uc_inj. rewrite uc_chr. by apply Z.mod_small.
Qed.

Lemma be_bytes_be_value s : be_bytes (length s) (be_value s) = s.
Proof.
  rewrite <- rev_le_bytes, <- le_value_rev. rewrite <- (rev_involutive s) at 3. f_equal.
  rewrite <- (length_rev s). apply le_bytes_le_value.
Qed.
