(* ===== verification/Serialize.v ===== *)
(** Binary serialization: src/sync/utils/serialize.h, and the two consumers of
    it that cut a response into block dumps, [parseDumpBlockBinary] and
    [parseDumpBlocksBinary] of src/generate_json.cpp.

    [T] stands for an unsigned integer type of [n] bytes.  Positions are
    [size_t] values, so sums of positions and sizes wrap at [2^64].  Functions
    with an output position return the value together with the new position. *)

From Stdlib Require Import String.
From S2P Require Import Prelude Endian.
Open Scope Z_scope.

(** ** Integers *)

(** The [while (val != 0 && i >= 0)] loop, with [i = k - 1]: digit [k - 1] of
    the field at offset [off] is stored, then [i--]. *)
Fixpoint be_loop (off k : nat) (val : Z) (buffer : bytes) : bytes :=
  match k with
  | O => buffer
  | S i => if val =? 0 then buffer
           else be_loop off i (val / 256) (<[(off + i)%nat := chr (val mod 256)]> buffer)
  end.

(** toBinaryStringBigEndian<T>(val): a fresh string of [sizeof(T)] zeroes is filled. *)
Definition toBinaryStringBigEndian (n : nat) (val : Z) : bytes :=
  be_loop 0 n val (replicate n zero).

(** toBinaryStringBigEndian<T>(val, buffer): the buffer grows by [sizeof(T)]. *)
Definition toBinaryStringBigEndian_buf (n : nat) (val : Z) (buffer : bytes) : bytes :=
  be_loop (length buffer) n val (buffer ++ replicate n zero).

(** fromBinaryStringBigEndian<T>(raw, fromPos, endPos): the value and [endPos]. *)
Definition fromBinaryStringBigEndian (n : nat) (raw : bytes) (fromPos : Z) : Z * Z :=
  let sizeField := Z.of_nat n in
  if zlen raw <? u64 (sizeField + fromPos) then (0, fromPos)
  else
    let field := take n (drop (Z.to_nat fromPos) raw) in
    let val := fold_left (fun val c => wrap (8 * sizeField) (wrap (8 * sizeField) (val * 256) + uc c))
                 field 0 in
    (val, u64 (fromPos + sizeField)).

Definition serializeIntBigEndian (n : nat) (v : Z) : bytes := toBinaryStringBigEndian n v.
Definition serializeIntBigEndian_buf (n : nat) (v : Z) (buffer : bytes) : bytes :=
  toBinaryStringBigEndian_buf n v buffer.

(** deserializeIntBigEndian<T>(raw, fromPos, endPos). *)
Definition deserializeIntBigEndian3 (n : nat) (raw : bytes) (fromPos : Z) : Z * Z :=
  fromBinaryStringBigEndian n raw fromPos.

(** deserializeIntBigEndian<T>(raw, fromPos), which advances [fromPos]. *)
Definition deserializeIntBigEndian (n : nat) (raw : bytes) (fromPos : Z) : res (Z * Z) :=
  let '(val, endPos) := deserializeIntBigEndian3 n raw fromPos in
  _ ← CHECK (negb (endPos =? fromPos)) "Incorrect raw";
  Ok (val, endPos).

(** ** Strings and vectors of bytes *)

Definition sizeof_size_t : nat := 8.

Definition serializeStringBigEndian (s : bytes) : bytes :=
  serializeIntBigEndian sizeof_size_t (zlen s) ++ s.
Definition serializeVectorBigEndian (s : bytes) : bytes :=
  serializeIntBigEndian sizeof_size_t (zlen s) ++ s.
Definition serializeVectorBigEndian_buf (s buffer : bytes) : bytes :=
  serializeIntBigEndian_buf sizeof_size_t (zlen s) buffer ++ s.
Definition serializeStringBigEndian_buf (s buffer : bytes) : bytes :=
  serializeIntBigEndian_buf sizeof_size_t (zlen s) buffer ++ s.

(** deserializeStringBigEndian(raw, fromPos, endPos); the size is not checked
    against what is left of [raw], [substr] only shortens the result. *)
Definition deserializeStringBigEndian3 (raw : bytes) (fromPos : Z) : res (bytes * Z) :=
  let '(sizeString, endPos) := deserializeIntBigEndian3 sizeof_size_t raw fromPos in
  if fromPos =? endPos then Ok ([], endPos)
  else
    let fromPos := endPos in
    s ← substr raw fromPos sizeString;
    Ok (s, u64 (endPos + sizeString)).

Definition deserializeVectorBigEndian3 (raw : bytes) (fromPos : Z) : res (bytes * Z) :=
  let '(sizeString, endPos) := deserializeIntBigEndian3 sizeof_size_t raw fromPos in
  if fromPos =? endPos then Ok ([], endPos)
  else
    let fromPos := endPos in
    tmp ← substr raw fromPos sizeString;
    Ok (tmp, u64 (endPos + sizeString)).

Definition deserializeStringBigEndian (raw : bytes) (fromPos : Z) : res (bytes * Z) :=
  '(s, endPos) ← deserializeStringBigEndian3 raw fromPos;
  _ ← CHECK (negb (endPos =? fromPos)) "Incorrect raw";
  Ok (s, endPos).

Definition deserializeVectorBigEndian (raw : bytes) (fromPos : Z) : res (bytes * Z) :=
  '(s, endPos) ← deserializeVectorBigEndian3 raw fromPos;
  _ ← CHECK (negb (endPos =? fromPos)) "Incorrect raw";
  Ok (s, endPos).

(** ** The unsuffixed names select the big-endian encoding *)

Definition serializeInt (n : nat) (v : Z) : bytes := serializeIntBigEndian n v.
Definition serializeInt_buf (n : nat) (v : Z) (buffer : bytes) : bytes :=
  serializeIntBigEndian_buf n v buffer.
Definition serializeString (s : bytes) : bytes := serializeStringBigEndian s.
Definition serializeVector (s : bytes) : bytes := serializeVectorBigEndian s.
Definition serializeVector_buf (s buffer : bytes) : bytes := serializeVectorBigEndian_buf s buffer.
Definition serializeString_buf (s buffer : bytes) : bytes := serializeStringBigEndian_buf s buffer.
Definition deserializeInt3 (n : nat) (raw : bytes) (fromPos : Z) : Z * Z :=
  deserializeIntBigEndian3 n raw fromPos.
Definition deserializeInt (n : nat) (raw : bytes) (fromPos : Z) : res (Z * Z) :=
  deserializeIntBigEndian n raw fromPos.
Definition deserializeString3 (raw : bytes) (fromPos : Z) : res (bytes * Z) :=
  deserializeStringBigEndian3 raw fromPos.
Definition deserializeString (raw : bytes) (fromPos : Z) : res (bytes * Z) :=
  deserializeStringBigEndian raw fromPos.
Definition deserializeVector (raw : bytes) (fromPos : Z) : res (bytes * Z) :=
  deserializeVectorBigEndian raw fromPos.

(** ** Variants *)

(** A [std::variant]: its alternatives in order, [None] for [std::monostate],
    else the type's [serialize]/[deserialize] pair, here acting on a common
    carrier [V].  A value is an alternative's index with a payload. *)
Section Variant.
Context {V : Type}.

Record alternative := Alternative {
  alt_serialize : V -> bytes -> bytes;
  alt_deserialize : bytes -> Z -> res (V * Z) }.

(** [alts !! i]: alternative [i] of the variant type. *)
Context (alts : list (option alternative)).

Record variant := Variant { v_index : nat; v_payload : option V }.

Definition serializeVariant (v : variant) (buffer : bytes) : bytes :=
  let buffer := serializeInt_buf 8 (Z.of_nat (v_index v)) buffer in
  match alts !! v_index v, v_payload v with
  | Some (Some a), Some x => alt_serialize a x buffer
  | _, _ => buffer
  end.

(** tryParse<I>: alternative [I] replaces [status] when [I == number]. *)
Definition tryParse (I : nat) (alt : option alternative) (raw : bytes) (number : Z)
    (st : Z * variant) : res (Z * variant) :=
  let '(fromPos, status) := st in
  if Z.of_nat I =? number then
    match alt with
    | None => Ok (fromPos, status)
    | Some a => '(x, fromPos') ← alt_deserialize a raw fromPos;
                Ok (fromPos', Variant I (Some x))
    end
  else Ok (fromPos, status).

(** parseVarintImpl: the fold expression over all indices. *)
Fixpoint parseVarintImpl (I : nat) (rest : list (option alternative)) (raw : bytes)
    (number : Z) (st : Z * variant) : res (Z * variant) :=
  match rest with
  | [] => Ok st
  | alt :: rest' => st' ← tryParse I alt raw number st;
                    parseVarintImpl (S I) rest' raw number st'
  end.

Definition deserializeVarint (raw : bytes) (fromPos : Z) (status : variant) : res (Z * variant) :=
  '(number, fromPos) ← deserializeInt 8 raw fromPos;
  _ ← CHECK (number <? zlen alts) "Incorrect type in transaction status";
  parseVarintImpl 0 alts raw number (fromPos, status).
End Variant.

(** ** Splitting a response into dumps (generate_json.cpp) *)

(** The [while (from < r.size())] loop; [None] when [fuel] iterations did not
    finish it.  [res] is the vector built so far. *)
Fixpoint dumps_loop (fuel : nat) (r : bytes) (from : Z) (acc : list bytes)
    : option (res (list bytes)) :=
  match fuel with
  | O => None
  | S f =>
      if from <? zlen r then
        match deserializeStringBigEndian r from with
        | Ok (s, from') => dumps_loop f r from' (acc ++ [s])
        | Throw e => Some (Throw e)
        end
      else Some (Ok acc)
  end.

Section Dumps.
(** [torrent_node_lib::decompress], modelled in Compress. *)
Context (decompress : bytes -> bytes).

Definition parseDumpBlockBinary (response : bytes) (isCompress : bool) : bytes :=
  if negb isCompress then response else decompress response.

Definition parseDumpBlocksBinary (fuel : nat) (response : bytes) (isCompress : bool)
    : option (res (list bytes)) :=
  let r := if isCompress then decompress response else response in
  dumps_loop fuel r 0 [].
End Dumps.

(** ** The integer routines against the reference encoding *)

(** The in-place loop writes the reference digits over the zeroes it finds. *)
Lemma be_loop_spec pre k val post :
  be_loop (length pre) k val (pre ++ replicate k zero ++ post) = pre ++ be_bytes k val ++ post.
Proof.
  revert val post. induction k as [|k IH]; intros val post; [done|].
  cbn [be_loop]. destruct (val =? 0) eqn:E; zbool.
  - subst val. by rewrite be_bytes_0.
  - replace (replicate (S k) zero) with (replicate k zero ++ [zero]).
    2: { change [zero] with (replicate 1 zero). rewrite <- replicate_add. f_equal. lia. }
    rewrite <- app_assoc. rewrite insert_app_r.
    replace k with (length (replicate k zero) + 0)%nat at 2 by (rewrite length_replicate; lia).
    rewrite insert_app_r. cbn [app insert list_insert].
    rewrite IH. cbn [be_bytes]. by rewrite <- !app_assoc.
Qed.

Lemma toBinary_be_bytes n v : toBinaryStringBigEndian n v = be_bytes n v.
Proof.
  unfold toBinaryStringBigEndian. pose proof (be_loop_spec [] n v []) as H.
  rewrite !app_nil_r in H. done.
Qed.

Lemma toBinary_buf_be_bytes n v buffer :
  toBinaryStringBigEndian_buf n v buffer = buffer ++ be_bytes n v.
Proof.
  unfold toBinaryStringBigEndian_buf. pose proof (be_loop_spec buffer n v []) as H.
  rewrite !app_nil_r in H. done.
Qed.

Lemma fold_be_wrap w s :
  0 <= w ->
  fold_left (fun val c => wrap w (wrap w (val * 256) + uc c)) s 0 = wrap w (be_value s).
Proof.
  intros Hw. assert (2 ^ w <> 0) by (apply Z.pow_nonzero; lia).
  induction s as [|c s IH] using rev_ind.
  - unfold wrap. cbn. by rewrite Z.mod_0_l.
  - rewrite fold_left_app, be_value_snoc. cbn [fold_left]. rewrite IH. unfold wrap.
    rewrite Z.add_mod_idemp_l by done.
    by rewrite <- (Z.add_mod_idemp_l (_ mod _ * 256)), Z.mul_mod_idemp_l, Z.add_mod_idemp_l by done.
Qed.

(** Decoding what is in range: the [n] bytes at [fromPos] as a number. *)
Lemma fromBinary_app n p f q :
  length f = n -> zlen (p ++ f ++ q) <= UINT64_MAX ->
  fromBinaryStringBigEndian n (p ++ f ++ q) (zlen p) = (be_value f, zlen p + Z.of_nat n).
Proof.
  intros Hf Hl. unfold UINT64_MAX in Hl. unfold fromBinaryStringBigEndian.
  rewrite !zlen_app in *. pose proof (zlen_nonneg p). pose proof (zlen_nonneg q).
  assert (zlen f = Z.of_nat n) as Hz by (unfold zlen; by rewrite Hf).
  rewrite (Z.add_comm (Z.of_nat n)), wrap_small by lia. ztest. f_equal.
  rewrite zlen_to_nat, drop_app_length, <- Hf, take_app_length, fold_be_wrap by lia.
  apply wrap_small. pose proof (be_value_range f). rewrite pow_256 in * by apply zlen_nonneg.
  unfold zlen in *. lia.
Qed.

Lemma fromBinary_short n raw pos :
  0 <= pos -> pos + Z.of_nat n <= UINT64_MAX -> zlen raw < pos + Z.of_nat n ->
  fromBinaryStringBigEndian n raw pos = (0, pos).
Proof.
  unfold UINT64_MAX. intros. unfold fromBinaryStringBigEndian.
  rewrite wrap_small by lia. by ztest.
Qed.

(** ** The codec interface *)

(** What a serializer and its deserializer promise to a client: the encoding of
    [a], wherever it stands in a buffer that a [size_t] can address, is read
    back with the position just after it. *)
Class Codec {A : Type} (ok : A -> Prop) (enc : A -> bytes) (dec : bytes -> Z -> res (A * Z)) := {
  codec_nonempty a : enc a <> [];
  codec_roundtrip p a q :
    ok a -> zlen (p ++ enc a ++ q) <= UINT64_MAX ->
    dec (p ++ enc a ++ q) (zlen p) = Ok (a, zlen p + zlen (enc a)) }.

#[export] Instance int_codec n :
  (0 < n)%nat -> Codec (fun v => 0 <= v < 256 ^ Z.of_nat n) (serializeInt n) (deserializeInt n).
Proof.
  intros Hn. unfold serializeInt, serializeIntBigEndian. split.
  - intros v E%(f_equal length). rewrite toBinary_be_bytes, length_be_bytes in E. cbn in E. lia.
  - intros p v q Hv Hl. unfold deserializeInt, deserializeIntBigEndian, deserializeIntBigEndian3.
    rewrite toBinary_be_bytes in *.
    rewrite fromBinary_app by (rewrite ?length_be_bytes; done).
    pose proof (zlen_nonneg p). ztest. cbn [negb CHECK mbind res_bind].
    by rewrite be_value_be_bytes, Z.mod_small, zlen_be_bytes by done.
Qed.

Lemma deserializeString3_app p s q :
  zlen (p ++ serializeString s ++ q) <= UINT64_MAX ->
  deserializeStringBigEndian3 (p ++ serializeString s ++ q) (zlen p)
  = Ok (s, zlen p + zlen (serializeString s)).
Proof.
  unfold serializeString, serializeStringBigEndian, serializeIntBigEndian, sizeof_size_t.
  rewrite toBinary_be_bytes. intros Hl.
  unfold deserializeStringBigEndian3, deserializeIntBigEndian3, sizeof_size_t.
  rewrite <- app_assoc in *. rewrite fromBinary_app by (rewrite ?length_be_bytes; done).
  pose proof (zlen_nonneg p). pose proof (zlen_nonneg s). pose proof (zlen_nonneg q).
  unfold UINT64_MAX in *. rewrite !zlen_app, zlen_be_bytes in *.
  rewrite be_value_be_bytes, Z.mod_small by (change (256 ^ Z.of_nat 8) with (2 ^ 64); lia).
  ztest. rewrite !app_assoc, <- (app_assoc _ s q).
  replace (zlen p + Z.of_nat 8) with (zlen (p ++ be_bytes 8 (zlen s)))
    by (rewrite zlen_app, zlen_be_bytes; lia).
  rewrite substr_app. cbn [mbind res_bind]. rewrite zlen_app, zlen_be_bytes.
  do 2 f_equal. rewrite wrap_small; lia.
Qed.

Lemma serializeString_nonempty s : serializeString s <> [].
Proof.
  unfold serializeString, serializeStringBigEndian, serializeIntBigEndian.
  rewrite toBinary_be_bytes. intros E%(f_equal length).
  rewrite length_app, length_be_bytes in E. cbn in E. lia.
Qed.

#[export] Instance string_codec : Codec (fun _ => True) serializeString deserializeString.
Proof.
  split; [apply serializeString_nonempty|].
  intros p s q _ Hl. unfold deserializeString, deserializeStringBigEndian.
  rewrite deserializeString3_app by done. cbn [mbind res_bind].
  pose proof (serializeString_nonempty s). destruct (serializeString s) as [|c t] eqn:E; [done|].
  rewrite zlen_cons. pose proof (zlen_nonneg t). by ztest.
Qed.

#[export] Instance vector_codec : Codec (fun _ => True) serializeVector deserializeVector := string_codec.

(** ** Errors *)

(** An integer is read exactly when its bytes are there: with fewer than [n]
    bytes left the two-argument [deserializeInt] throws, and otherwise it
    returns their big-endian value and advances by [n]. *)
Theorem deserializeInt_total n raw pos :
  (0 < n)%nat -> 0 <= pos <= zlen raw -> zlen raw + Z.of_nat n <= UINT64_MAX ->
  deserializeInt n raw pos =
    if zlen raw <? pos + Z.of_nat n then Throw (CommonException (str "Incorrect raw"))
    else Ok (be_value (take n (drop (Z.to_nat pos) raw)), pos + Z.of_nat n).
Proof.
  intros Hn Hp Hl. unfold deserializeInt, deserializeIntBigEndian, deserializeIntBigEndian3.
  destruct (zlen raw <? pos + Z.of_nat n) eqn:E; zbool.
  - rewrite fromBinary_short by lia. by rewrite Z.eqb_refl.
  - set (p := take (Z.to_nat pos) raw). set (f := take n (drop (Z.to_nat pos) raw)).
    set (q := drop n (drop (Z.to_nat pos) raw)).
    assert (raw = p ++ f ++ q) as Er by (subst p f q; by rewrite !take_drop).
    assert (zlen p = pos) as Ep by (subst p; unfold zlen in *; rewrite length_take; lia).
    assert (length f = n) as Ef.
    { subst f. unfold zlen in *. rewrite length_take, length_drop. lia. }
    pose proof (fromBinary_app n p f q Ef) as H. rewrite <- Er, Ep in H.
    rewrite H by (unfold UINT64_MAX in *; lia). by ztest.
Qed.

(** ** Variants *)

Section VariantFacts.
Context {V : Type} (alts : list (option (@alternative V))).
Implicit Types (rest : list (option (@alternative V))) (st : Z * @variant V).

Lemma parseVarintImpl_skip I rest raw number st :
  number < Z.of_nat I -> parseVarintImpl I rest raw number st = Ok st.
Proof.
  revert I st. induction rest as [|alt rest IH]; intros I [pos st] H; [done|].
  cbn [parseVarintImpl tryParse]. ztest. cbn [mbind res_bind]. apply IH. lia.
Qed.

Lemma parseVarintImpl_at I rest raw k st :
  parseVarintImpl I rest raw (Z.of_nat (I + k)) st =
  match rest !! k with
  | Some alt => tryParse (I + k) alt raw (Z.of_nat (I + k)) st
  | None => Ok st
  end.
Proof.
  revert I k st. induction rest as [|alt rest IH]; intros I k [pos st]; [done|].
  cbn [parseVarintImpl]. destruct k as [|k].
  - rewrite Nat.add_0_r. cbn [lookup list_lookup].
    destruct (tryParse I alt raw (Z.of_nat I) (pos, st)) as [st'|e]; [|done].
    cbn [mbind res_bind]. apply parseVarintImpl_skip. lia.
  - assert (tryParse I alt raw (Z.of_nat (I + S k)) (pos, st) = Ok (pos, st)) as ->
      by (cbn [tryParse]; by ztest).
    cbn [mbind res_bind]. replace (I + S k)%nat with (S I + k)%nat by lia. apply IH.
Qed.

(** An alternative whose own serializer appends and whose deserializer reads back. *)
Definition alt_roundtrip (a : @alternative V) (x : V) : Prop :=
  forall p, exists body, alt_serialize a x p = p ++ body /\
    forall q, zlen (p ++ body ++ q) <= UINT64_MAX ->
    alt_deserialize a (p ++ body ++ q) (zlen p) = Ok (x, zlen p + zlen body).

(** A variant whose alternative round-trips is read back with that
    alternative and its payload, whatever the target held before. *)
Theorem variant_roundtrip p k a x q status0 :
  zlen alts <= UINT64_MAX -> alts !! k = Some (Some a) -> alt_roundtrip a x ->
  zlen (serializeVariant alts (Variant k (Some x)) p ++ q) <= UINT64_MAX ->
  deserializeVarint alts (serializeVariant alts (Variant k (Some x)) p ++ q) (zlen p) status0
  = Ok (zlen (serializeVariant alts (Variant k (Some x)) p), Variant k (Some x)).
Proof.
  intros Hal Hk Ha. unfold serializeVariant. cbn [v_index v_payload]. rewrite Hk.
  unfold serializeInt_buf, serializeIntBigEndian_buf. rewrite toBinary_buf_be_bytes.
  destruct (Ha (p ++ be_bytes 8 (Z.of_nat k))) as (body & -> & Hd). intros Hl.
  assert (Z.of_nat k < zlen alts) as Hlt.
  { unfold zlen. apply lookup_lt_Some in Hk. lia. }
  unfold deserializeVarint. rewrite <- app_assoc in *. specialize (Hd q Hl).
  rewrite <- app_assoc, <- toBinary_be_bytes in Hl |- *.
  change (toBinaryStringBigEndian 8 (Z.of_nat k)) with (serializeInt 8 (Z.of_nat k)) in *.
  rewrite (@codec_roundtrip _ _ _ _ (int_codec 8 ltac:(lia)))
    by (try done; change (256 ^ Z.of_nat 8) with (2 ^ 64); unfold UINT64_MAX in *; lia).
  cbn [mbind res_bind]. ztest. cbn [CHECK mbind res_bind].
  pose proof (parseVarintImpl_at 0 alts) as HI. cbn [Nat.add] in HI. rewrite HI, Hk.
  unfold tryParse. rewrite Z.eqb_refl.
  rewrite <- toBinary_be_bytes, zlen_app, <- app_assoc in Hd.
  change (toBinaryStringBigEndian 8 (Z.of_nat k)) with (serializeInt 8 (Z.of_nat k)) in Hd.
  rewrite Hd. cbn [mbind res_bind]. do 2 f_equal. rewrite !zlen_app. lia.
Qed.
End VariantFacts.

(** ** Splitting a response into dumps *)

Lemma dumps_loop_roundtrip blocks p acc :
  zlen (p ++ concat (map serializeString blocks)) <= UINT64_MAX ->
  dumps_loop (S (length blocks)) (p ++ concat (map serializeString blocks)) (zlen p) acc
  = Some (Ok (acc ++ blocks)).
Proof.
  revert p acc. induction blocks as [|b blocks IH]; intros p acc Hl; cbn [map concat length] in *.
  - cbn [dumps_loop]. rewrite app_nil_r. ztest. by rewrite app_nil_r.
  - remember (S (length blocks)) as fuel. cbn [dumps_loop].
    rewrite zlen_app, zlen_app. pose proof (zlen_nonneg (concat (map serializeString blocks))).
    assert (0 < zlen (serializeString b)) as Hp.
    { pose proof (serializeString_nonempty b). destruct (serializeString b) as [|c t]; [done|].
      rewrite zlen_cons. pose proof (zlen_nonneg t). lia. }
    ztest. change deserializeStringBigEndian with deserializeString.
    rewrite codec_roundtrip by done. subst fuel.
    rewrite app_assoc, <- zlen_app, IH by (by rewrite <- app_assoc).
    by rewrite <- app_assoc.
Qed.

(** C36: a response that is the concatenation of serialized dumps, asked for without
    compression, is split back into those dumps, in one iteration per dump. *)
Theorem parseDumpBlocksBinary_roundtrip decompress blocks :
  zlen (concat (map serializeString blocks)) <= UINT64_MAX ->
  parseDumpBlocksBinary decompress (S (length blocks))
    (concat (map serializeString blocks)) false = Some (Ok blocks).
Proof. intros Hl. apply (dumps_loop_roundtrip blocks [] []). done. Qed.

(** ** A response that the splitting loop never finishes *)

(** An empty dump followed by a dump that announces [2^64 - 16] bytes. *)
Definition endless_response : bytes := be_bytes 8 0 ++ be_bytes 8 (2 ^ 64 - 16).

Lemma endless_step0 :
  deserializeStringBigEndian endless_response 0 = Ok ([], 8).
Proof. by vm_compute. Qed.

Lemma endless_step8 :
  deserializeStringBigEndian endless_response 8 = Ok ([], 0).
Proof. by vm_compute. Qed.

(** On these sixteen bytes the position goes 0, 8, 0, 8, ... because the
    announced size is added modulo [2^64]: no number of iterations ends the loop. *)
Theorem parseDumpBlocksBinary_endless decompress fuel :
  parseDumpBlocksBinary decompress fuel endless_response false = None.
Proof.
  unfold parseDumpBlocksBinary.
  enough (forall acc, dumps_loop fuel endless_response 0 acc = None /\
                      dumps_loop fuel endless_response 8 acc = None) as H by apply H.
  change 0 with (0 : Z). induction fuel as [|f IH]; intros acc; [done|].
  cbn [dumps_loop]. rewrite endless_step0, endless_step8.
  change (zlen endless_response) with 16. split; apply IH.
Qed.

(** ** Witnesses *)

Module Sample.
(** std::variant<std::string, std::vector<...>>: two alternatives, a string each. *)
Definition text_alt : alternative := {|
  alt_serialize s buf := buf ++ serializeString s;
  alt_deserialize := deserializeString |}.
Definition alts : list (option (@alternative bytes)) := [None; Some text_alt].

Lemma variant_roundtrip_witness :
  deserializeVarint alts (serializeVariant alts (Variant 1 (Some (str "ab"))) (str "x") ++ str "y")
    1 (Variant 0 None) = Ok (19, Variant 1 (Some (str "ab"))).
Proof.
  refine (variant_roundtrip alts (str "x") 1 text_alt (str "ab") (str "y") (Variant 0 None) _ _ _ _).
  - by vm_compute.
  - reflexivity.
  - intros p. exists (serializeString (str "ab")). split; [reflexivity|].
    intros q Hl. exact (codec_roundtrip p (str "ab") q I Hl).
  - by vm_compute.
Defined.

Lemma parseDumpBlocksBinary_roundtrip_witness :
  parseDumpBlocksBinary (fun s => s) 3
    (concat (map serializeString [str "first"; str "second"])) false
  = Some (Ok [str "first"; str "second"]).
Proof. apply (parseDumpBlocksBinary_roundtrip _ [str "first"; str "second"]). by vm_compute. Defined.
End Sample.
