(* ===== verification/Compress.v ===== *)
(** Compressed responses: src/cache/compress.cpp.

    LZ4 is a library the client links; its three entry points are parameters.
    A call gets the destination buffer and returns its result with the buffer's
    new contents; the capacity LZ4 receives is the buffer's size.  Sizes are
    passed to LZ4 as [int], the header is a native (little-endian) [uint32_t]. *)

From Stdlib Require Import String.
From S2P Require Import Prelude Endian.
Open Scope Z_scope.

(** [dst.resize(n)]: shortened, or extended with NULs. *)
Definition resize (dst : bytes) (n : Z) : bytes :=
  take (Z.to_nat n) dst ++ replicate (Z.to_nat n - length dst) zero.

(** A pointer into [dst] at offset [off]: what is before it, and what it sees. *)
Definition write_at (off : nat) (dst tail : bytes) : bytes := take off dst ++ tail.

Section LZ4.
Context (LZ4_compressBound : Z -> Z).
Context (LZ4_compress_default LZ4_decompress_safe : bytes -> bytes -> Z * bytes).

Definition sizeof_uint32_t : Z := 4.

Definition compress_raw_block (src dst : bytes) : bool * bytes :=
  if bool_decide (src = []) then (false, dst)
  else
    let bound_size := LZ4_compressBound (i32 (zlen src)) in
    if bound_size =? 0 then (false, dst)
    else
      let dst := if zlen dst <? u32 bound_size then resize dst (u64 bound_size) else dst in
      let '(lz4_size, dst) := LZ4_compress_default src dst in
      if negb (lz4_size =? 0) then
        let dst := if negb (lz4_size =? bound_size) then resize dst (u64 lz4_size) else dst in
        (true, dst)
      else (false, dst).

Definition compress_uint32_block (src dst : bytes) : bool * bytes :=
  if bool_decide (src = []) then (false, dst)
  else
    let bound_size := LZ4_compressBound (i32 (zlen src)) in
    if bound_size =? 0 then (false, dst)
    else
      let bound_size := i32 (bound_size + sizeof_uint32_t) in
      let dst := if zlen dst <? u32 bound_size then resize dst (u64 bound_size) else dst in
      let '(lz4_size, tail) := LZ4_compress_default src (drop 4 dst) in
      let dst := write_at 4 dst tail in
      if negb (lz4_size =? 0) then
        let dst := if negb (i32 (lz4_size + sizeof_uint32_t) =? bound_size)
                   then resize dst (u64 (lz4_size + sizeof_uint32_t)) else dst in
        (* *header = src.size() *)
        (true, le_bytes 4 (u32 (zlen src)) ++ drop 4 dst)
      else (false, dst).

Definition decompress_raw_block (src dst : bytes) : bool * bytes :=
  if bool_decide (src = []) then (false, dst)
  else
    let '(size, dst) := LZ4_decompress_safe src dst in
    if size <? 0 then (false, dst)
    else
      let dst := if negb (zlen dst =? u32 size) then resize dst (u64 size) else dst in
      (true, dst).

Definition decompress_uint32_block (src dst : bytes) (max_size : Z) : bool * bytes :=
  if zlen src <=? 4 then (false, dst)
  else
    let orig_size := le_value (take 4 src) in
    if max_size <? orig_size then (false, dst)
    else
      let dst := if zlen dst <? orig_size then resize dst orig_size else dst in
      let '(size, dst) := LZ4_decompress_safe (drop 4 src) dst in
      if size <? 0 then (false, dst)
      else
        let dst := if negb (zlen dst =? u32 size) then resize dst (u64 size) else dst in
        (true, dst).

Definition compress (value : bytes) : bytes := snd (compress_uint32_block value []).

Definition decompress (value : bytes) : bytes :=
  snd (decompress_uint32_block value [] UINT32_MAX).

(** What lz4.h documents: a destination of at least [LZ4_compressBound] bytes
    makes compression succeed; the bytes it wrote decompress, into a buffer
    that is large enough, to the source; buffers keep their size. *)
Record LZ4_spec : Prop := {
  lz4_bound n : 0 < n <= 2113929216 (* LZ4_MAX_INPUT_SIZE *) ->
    0 < LZ4_compressBound n <= 2122219150;
  lz4_compress src dst :
    0 < zlen src <= 2113929216 -> LZ4_compressBound (zlen src) <= zlen dst ->
    exists n dst', LZ4_compress_default src dst = (n, dst') /\
      0 < n <= LZ4_compressBound (zlen src) /\ length dst' = length dst /\
      forall out, zlen src <= zlen out <= INT_MAX ->
      exists out', LZ4_decompress_safe (take (Z.to_nat n) dst') out = (zlen src, out') /\
        length out' = length out /\ take (length src) out' = src }.
End LZ4.

(** ** Facts about buffers *)

Lemma resize_nil n : resize [] n = replicate (Z.to_nat n) zero.
Proof. unfold resize. by rewrite take_nil, Nat.sub_0_r. Qed.

Lemma resize_shorter dst n : 0 <= n <= zlen dst -> resize dst n = take (Z.to_nat n) dst.
Proof.
  unfold zlen. intros ?. unfold resize.
  replace (Z.to_nat n - length dst)%nat with 0%nat by lia. apply app_nil_r.
Qed.

Lemma zlen_replicate {A} n (a : A) : zlen (replicate n a) = Z.of_nat n.
Proof. unfold zlen. by rewrite length_replicate. Qed.

Lemma zlen_resize dst n : 0 <= n -> zlen (resize dst n) = n.
Proof.
  intros ?. unfold resize, zlen. rewrite length_app, length_take, length_replicate. lia.
Qed.

Section Properties.
Context {LZ4_compressBound : Z -> Z}.
Context {LZ4_compress_default LZ4_decompress_safe : bytes -> bytes -> Z * bytes}.
Hypothesis spec : LZ4_spec LZ4_compressBound LZ4_compress_default LZ4_decompress_safe.

(** What [compress] produces: the size of the value, then an LZ4 block that
    decompresses to it. *)
Lemma compress_shape value :
  0 < zlen value <= 2113929216 ->
  exists block,
    compress LZ4_compressBound LZ4_compress_default value = le_bytes 4 (zlen value) ++ block /\
    block <> [] /\
    forall out, zlen value <= zlen out <= INT_MAX ->
    exists out', LZ4_decompress_safe block out = (zlen value, out') /\
      length out' = length out /\ take (length value) out' = value.
Proof.
  intros Hv. unfold compress, compress_uint32_block.
  rewrite bool_decide_eq_false_2 by (intros E; rewrite E in Hv; by destruct Hv).
  rewrite swrap_small by lia.
  pose proof (lz4_bound _ _ _ spec _ Hv) as Hb. set (b := LZ4_compressBound (zlen value)) in *.
  ztest. unfold sizeof_uint32_t. rewrite swrap_small by lia.
  rewrite zlen_nil, !wrap_small by lia. ztest. rewrite resize_nil.
  assert (zlen (drop 4 (replicate (Z.to_nat (b + 4)) zero)) = b) as Hz.
  { unfold zlen. rewrite length_drop, length_replicate. lia. }
  destruct (lz4_compress _ _ _ spec value (drop 4 (replicate (Z.to_nat (b + 4)) zero)) Hv)
    as (n & dst' & -> & Hn & Hlen & Hdec); [rewrite Hz; subst b; lia|]. fold b in Hn.
  ztest. cbn [negb snd]. rewrite swrap_small by lia.
  assert (zlen dst' = b) as Hd by (unfold zlen in *; lia).
  assert (zlen (write_at 4 (replicate (Z.to_nat (b + 4)) zero) dst') = b + 4) as Hw.
  { unfold write_at. rewrite zlen_app, Hd. unfold zlen. rewrite length_take, length_replicate. lia. }
  assert (drop 4 (write_at 4 (replicate (Z.to_nat (b + 4)) zero) dst') = dst') as Hdrop.
  { unfold write_at. rewrite drop_app_length'; [done|]. rewrite length_take, length_replicate. lia. }
  exists (take (Z.to_nat n) dst'). split; [f_equal|split; [|done]].
  - destruct (n + 4 =? b + 4) eqn:E; zbool; cbn [negb].
    + rewrite Hdrop, take_ge; [done|]. unfold zlen in Hd. lia.
    + rewrite wrap_small, resize_shorter by lia. rewrite <- Hdrop at 2.
      replace (Z.to_nat (n + 4)) with (4 + Z.to_nat n)%nat by lia. by rewrite take_drop_commute.
  - intros E%(f_equal length). rewrite length_take in E. cbn in E. unfold zlen in Hd. lia.
Qed.

Lemma compress_nil : compress LZ4_compressBound LZ4_compress_default [] = [].
Proof. done. Qed.

(** C37: decompressing a compressed value gives the value, for every value LZ4
    accepts (at most LZ4_MAX_INPUT_SIZE bytes), the empty one included. *)
Theorem decompress_compress value :
  zlen value <= 2113929216 ->
  decompress LZ4_decompress_safe (compress LZ4_compressBound LZ4_compress_default value) = value.
Proof.
  intros Hv. destruct (decide (value = [])) as [->|Hne]; [done|].
  assert (0 < zlen value) as Hp.
  { destruct value as [|c v]; [done|]. rewrite zlen_cons. pose proof (zlen_nonneg v). lia. }
  destruct (compress_shape value) as (block & -> & Hbl & Hdec); [lia|].
  unfold decompress, decompress_uint32_block, UINT32_MAX.
  assert (0 < zlen block).
  { destruct block as [|c v]; [done|]. rewrite zlen_cons. pose proof (zlen_nonneg v). lia. }
  rewrite zlen_app, zlen_le_bytes, zlen_nil. ztest.
  rewrite take_app_length' by (by rewrite length_le_bytes).
  rewrite drop_app_length' by (by rewrite length_le_bytes).
  rewrite le_value_le_bytes, Z.mod_small by (change (256 ^ Z.of_nat 4) with (2 ^ 32); lia).
  ztest. rewrite resize_nil.
  destruct (Hdec (replicate (Z.to_nat (zlen value)) zero)) as (out' & -> & Hlen & Htake).
  { rewrite zlen_replicate. unfold INT_MAX. lia. }
  rewrite length_replicate in Hlen. ztest. cbn [snd].
  rewrite wrap_small by lia. assert (zlen out' = zlen value) as -> by (unfold zlen in *; lia).
  rewrite Z.eqb_refl. cbn [negb snd]. rewrite <- Htake. symmetry. apply take_ge.
  unfold zlen in *. lia.
Qed.
End Properties.

(** A compressed value that LZ4 rejects is not reported: [decompress] ignores
    the failure and returns as many bytes as the header announces. *)
Theorem decompress_rejected LZ4_decompress_safe src :
  4 < zlen src ->
  (forall dst, fst (LZ4_decompress_safe (drop 4 src) dst) < 0 /\
               length (snd (LZ4_decompress_safe (drop 4 src) dst)) = length dst) ->
  fst (decompress_uint32_block LZ4_decompress_safe src [] UINT32_MAX) = false /\
  zlen (decompress LZ4_decompress_safe src) = le_value (take 4 src).
Proof.
  intros Hl Hr. unfold decompress, decompress_uint32_block. ztest.
  assert (0 <= le_value (take 4 src) <= UINT32_MAX) as Hv.
  { rewrite <- (rev_involutive (take 4 src)), le_value_rev.
    pose proof (be_value_range (rev (take 4 src))) as H.
    replace (zlen (rev (take 4 src))) with 4 in H; [unfold UINT32_MAX; lia|].
    unfold zlen in *. rewrite length_rev, length_take. lia. }
  ztest. rewrite zlen_nil.
  destruct (0 <? le_value (take 4 src)) eqn:E; zbool.
  - destruct (Hr (resize [] (le_value (take 4 src)))) as [Hf Hd].
    destruct (LZ4_decompress_safe _ _) as [n d]. cbn in Hf, Hd. ztest. split; [done|].
    cbn [snd]. unfold zlen. rewrite Hd. apply zlen_resize. lia.
  - destruct (Hr []) as [Hf Hd].
    destruct (LZ4_decompress_safe _ _) as [n d]. cbn in Hf, Hd. ztest. split; [done|].
    cbn [snd]. unfold zlen. rewrite Hd. cbn. lia.
Qed.

(** ** A concrete instance *)

(** A stand-in for LZ4 that stores the bytes unchanged; it satisfies the
    documented behaviour, so the hypotheses above can be met. *)
Module Stored.
Definition bound (n : Z) : Z := n + n / 255 + 16.
Definition copy (src dst : bytes) : Z * bytes :=
  (zlen src, src ++ drop (length src) dst).

Lemma copy_spec src dst :
  zlen src <= zlen dst ->
  length (snd (copy src dst)) = length dst /\ take (length src) (snd (copy src dst)) = src.
Proof.
  unfold zlen. intros H. cbn. rewrite length_app, length_drop, take_app_length. split; [lia|done].
Qed.

Lemma stored_spec : LZ4_spec bound copy copy.
Proof.
  split.
  - intros n Hn. unfold bound.
    assert (0 <= n / 255) by (apply Z.div_pos; lia).
    assert (n / 255 < 8289919) by (apply Z.div_lt_upper_bound; lia). lia.
  - intros src dst Hs Hb. unfold bound in Hb.
    assert (0 <= zlen src / 255) by (apply Z.div_pos; lia).
    destruct (copy_spec src dst) as [Hl Ht]; [lia|].
    exists (zlen src), (snd (copy src dst)). split; [done|]. unfold bound. split; [lia|].
    split; [done|]. intros out Ho. rewrite zlen_to_nat, Ht.
    destruct (copy_spec src out) as [Hl' Ht']; [lia|]. by exists (snd (copy src out)).
Qed.

Lemma decompress_compress_witness :
  decompress copy (compress bound copy (str "block")) = str "block".
Proof. apply (decompress_compress stored_spec (str "block")). by vm_compute. Defined.

(** A decoder that rejects every input. *)
Definition reject (src dst : bytes) : Z * bytes := (-1, dst).

Lemma decompress_rejected_witness :
  fst (decompress_uint32_block reject (le_bytes 4 3 ++ str "zz") [] UINT32_MAX) = false /\
  zlen (decompress reject (le_bytes 4 3 ++ str "zz")) = 3.
Proof. apply (decompress_rejected reject); [by vm_compute|]. intros dst. split; reflexivity. Defined.
End Stored.
