(* ===== verification/Compact.v ===== *)
(** Compact integers of transactions: [toLittleEndian], [write_compact_int] of
    src/task_handlers/utils.h, [read_compact_int] and [reverse_byte_order] of
    src/task_handlers/utils.cpp.  Writing appends bytes to a vector; reading
    consumes hexadecimal text from a [std::string_view], so the two meet through
    [bin2hex]. *)

From Stdlib Require Import String.
From S2P Require Import Prelude Text Hex Endian.
Open Scope Z_scope.

(** ** Writing *)

(** The [for] loop filling [arr]. *)
Fixpoint toLittleEndian_loop (k : nat) (integer : Z) (arr : bytes) : bytes :=
  match k with
  | O => arr
  | S k' => toLittleEndian_loop k' (integer / 256) (arr ++ [chr (integer mod 256)])
  end.

(** toLittleEndian(Integer) for an unsigned [Integer] of [n] bytes. *)
Definition toLittleEndian (n : nat) (integer : Z) : bytes := toLittleEndian_loop n integer [].

Definition toVect (s : bytes) : bytes := s.

(** write_compact_int(value, buf) for an unsigned [value]. *)
Definition write_compact_int (value : Z) (buf : bytes) : bytes :=
  let result :=
    if value <=? 249 then toVect (toLittleEndian 1 (u8 value))
    else if value <=? UINT16_MAX then
      toVect (toLittleEndian 1 (u8 250) ++ toLittleEndian 2 (u16 value))
    else if value <=? UINT32_MAX then
      toVect (toLittleEndian 1 (u8 251) ++ toLittleEndian 4 (u32 value))
    else toVect (toLittleEndian 1 (u8 252) ++ toLittleEndian 8 (u64 value)) in
  buf ++ result.

(** ** Reading *)

(** One iteration of reverse_byte_order: [c = hex[i]], then [hex[i]] and
    [hex[sz - i]] (odd [i]) or [hex[sz - i - 2]] (even [i]) are exchanged. *)
Definition reverse_step (sz : nat) (hex : bytes) (i : nat) : bytes :=
  let j := if Nat.odd i then (sz - i)%nat else (sz - i - 2)%nat in
  match hex !! i, hex !! j with
  | Some c, Some d => <[j := c]> (<[i := d]> hex)
  | _, _ => hex
  end.

Definition reverse_byte_order (hex : bytes) : bytes :=
  let sz := length hex in
  let cnt := (sz / 2 - (sz / 2) mod 2)%nat in
  fold_left (reverse_step sz) (seq 0 cnt) hex.

(** read_compact_int(buf): the value and what is left of [buf]. *)
Definition read_compact_int (buf : bytes) : res (Z * bytes) :=
  if zlen buf <? 2 then Ok (0, buf)
  else
    '(tmp, buf) ←
      (if sub_eqb buf 0 2 (str "fa") then
         if zlen buf <? 2 * 2 + 2 then Throw (InvalidArgument (str "Can not read compact uint16"))
         else let buf := drop 2 buf in Ok (take 4 buf, drop 4 buf)
       else if sub_eqb buf 0 2 (str "fb") then
         if zlen buf <? 4 * 2 + 2 then Throw (InvalidArgument (str "Can not read compact uint32"))
         else let buf := drop 2 buf in Ok (take 8 buf, drop 8 buf)
       else if sub_eqb buf 0 2 (str "fc") then
         if zlen buf <? 8 * 2 + 2 then Throw (InvalidArgument (str "Can not read compact uint64"))
         else let buf := drop 2 buf in Ok (take 16 buf, drop 16 buf)
       else
         if zlen buf <? 1 * 2 + 2 then Throw (InvalidArgument (str "Can not read compact uint8"))
         else Ok (take 2 buf, drop 2 buf));
    let tmp := reverse_byte_order tmp in
    Ok (hexStrToInt 64 tmp, buf).

(** ** Little-endian digits *)

Lemma toLittleEndian_loop_spec k v arr : toLittleEndian_loop k v arr = arr ++ le_bytes k v.
Proof.
  revert v arr. induction k as [|k IH]; intros v arr; cbn; [by rewrite app_nil_r|].
  by rewrite IH, <- app_assoc.
Qed.

Lemma toLittleEndian_le_bytes n v : toLittleEndian n v = le_bytes n v.
Proof. apply toLittleEndian_loop_spec. Qed.

(** ** reverse_byte_order reverses the order of the bytes the text denotes *)

Lemma list_insert_middle {A} (l1 l2 : list A) (x y : A) :
  <[length l1 := y]> (l1 ++ x :: l2) = l1 ++ y :: l2.
Proof. induction l1 as [|a l1 IH]; [done|]. exact (f_equal (cons a) IH). Qed.

Lemma list_ends_ind {A} (P : list A -> Prop) :
  P [] -> (forall a, P [a]) ->
  (forall a l b, P l -> P (a :: l ++ [b])) -> forall l, P l.
Proof.
  intros H0 H1 H2 l. remember (length l) as n eqn:Hn. revert l Hn.
  induction n as [n IH] using lt_wf_ind. intros l Hn. destruct l as [|a l]; [done|].
  destruct l as [|c l] using rev_ind; [done|]. apply H2. apply (IH (length l)); [|done].
  subst. cbn. rewrite length_app. cbn. lia.
Qed.

Lemma exchange (p x : bytes) (c : ascii) (q : bytes) (d : ascii) :
  <[(length p + 1 + length x)%nat := c]> (<[length p := d]> (p ++ [c] ++ x ++ [d] ++ q))
  = p ++ [d] ++ x ++ [c] ++ q.
Proof.
  cbn [app]. rewrite list_insert_middle.
  replace (p ++ d :: x ++ d :: q) with ((p ++ d :: x) ++ d :: q) by by rewrite <- app_assoc.
  replace (length p + 1 + length x)%nat with (length (p ++ d :: x))
    by (rewrite length_app; cbn [length]; lia).
  by rewrite list_insert_middle, <- app_assoc.
Qed.

(** The two iterations that exchange the first and the last byte of a segment. *)
Lemma reverse_step_pair p a1 a2 x b1 b2 q sz :
  Nat.Even (length p) -> length q = length p ->
  sz = (length p + (4 + length x) + length q)%nat ->
  reverse_step sz (reverse_step sz (p ++ [a1; a2] ++ x ++ [b1; b2] ++ q) (length p)) (S (length p))
  = p ++ [b1; b2] ++ x ++ [a1; a2] ++ q.
Proof.
  intros Hp Hq ->. unfold reverse_step at 2.
  rewrite <- Nat.negb_even. replace (Nat.even (length p)) with true by (symmetry; by apply Nat.even_spec).
  cbn [negb].
  replace (length p + (4 + length x) + length q - length p - 2)%nat
    with (length p + 1 + length (a2 :: x))%nat by (cbn [length]; lia).
  assert ((p ++ [a1; a2] ++ x ++ [b1; b2] ++ q) !! length p = Some a1) as ->
    by by apply list_lookup_middle.
  assert ((p ++ [a1; a2] ++ x ++ [b1; b2] ++ q) !! (length p + 1 + length (a2 :: x))%nat = Some b1) as ->.
  { replace (p ++ [a1; a2] ++ x ++ [b1; b2] ++ q) with ((p ++ [a1; a2] ++ x) ++ b1 :: b2 :: q)
      by (rewrite <- !app_assoc; done).
    apply list_lookup_middle. rewrite !length_app. cbn [length]. lia. }
  change (p ++ [a1; a2] ++ x ++ [b1; b2] ++ q) with (p ++ [a1] ++ (a2 :: x) ++ [b1] ++ b2 :: q).
  rewrite (exchange p (a2 :: x) a1 (b2 :: q) b1). unfold reverse_step.
  rewrite Nat.odd_succ. replace (Nat.even (length p)) with true by (symmetry; by apply Nat.even_spec).
  replace (length p + (4 + length x) + length q - S (length p))%nat
    with (length (p ++ [b1]) + 1 + length (x ++ [a1]))%nat by (rewrite !length_app; cbn [length]; lia).
  replace (S (length p)) with (length (p ++ [b1])) by (rewrite length_app; cbn; lia).
  replace (p ++ [b1] ++ (a2 :: x) ++ [a1] ++ b2 :: q)
    with ((p ++ [b1]) ++ [a2] ++ (x ++ [a1]) ++ [b2] ++ q) by (rewrite <- !app_assoc; done).
  assert (((p ++ [b1]) ++ [a2] ++ (x ++ [a1]) ++ [b2] ++ q) !! length (p ++ [b1]) = Some a2) as ->
    by by apply list_lookup_middle.
  assert (((p ++ [b1]) ++ [a2] ++ (x ++ [a1]) ++ [b2] ++ q) !!
          (length (p ++ [b1]) + 1 + length (x ++ [a1]))%nat = Some b2) as ->.
  { replace ((p ++ [b1]) ++ [a2] ++ (x ++ [a1]) ++ [b2] ++ q)
      with ((p ++ [b1] ++ [a2] ++ x ++ [a1]) ++ b2 :: q) by (rewrite <- !app_assoc; done).
    apply list_lookup_middle. rewrite !length_app. cbn [length]. lia. }
  rewrite exchange. rewrite <- !app_assoc. done.
Qed.

Lemma reverse_loop_spec s p q :
  Nat.Even (length p) -> length q = length p ->
  fold_left (reverse_step (length p + 2 * length s + length q))
    (seq (length p) (2 * (length s / 2))) (p ++ bin2hex s ++ q)
  = p ++ bin2hex (rev s) ++ q.
Proof.
  revert p q. induction s as [|a|a s b IH] using list_ends_ind; intros p q Hp Hq; [done..|].
  cbn [length]. rewrite length_app. cbn [length].
  replace (2 * (S (length s + 1) / 2))%nat with (S (S (2 * (length s / 2)))).
  2: { replace (S (length s + 1)) with (length s + 1 * 2)%nat by lia. rewrite Nat.div_add by lia. lia. }
  cbn [seq fold_left]. rewrite bin2hex_cons, bin2hex_app, bin2hex_cons.
  replace (p ++ (hex_hi a :: hex_lo a :: bin2hex s ++ hex_hi b :: hex_lo b :: bin2hex []) ++ q)
    with (p ++ [hex_hi a; hex_lo a] ++ bin2hex s ++ [hex_hi b; hex_lo b] ++ q).
  2: { cbn. by rewrite <- app_assoc. }
  rewrite reverse_step_pair by (rewrite ?length_bin2hex; first [done | lia]).
  replace (p ++ [hex_hi b; hex_lo b] ++ bin2hex s ++ [hex_hi a; hex_lo a] ++ q)
    with ((p ++ [hex_hi b; hex_lo b]) ++ bin2hex s ++ ([hex_hi a; hex_lo a] ++ q))
    by (by rewrite <- app_assoc).
  replace (S (S (length p))) with (length (p ++ [hex_hi b; hex_lo b])) by (rewrite length_app; cbn; lia).
  replace (length p + 2 * S (length s + 1) + length q)%nat
    with (length (p ++ [hex_hi b; hex_lo b]) + 2 * length s + length ([hex_hi a; hex_lo a] ++ q))%nat
    by (rewrite !length_app; cbn [length]; lia).
  rewrite IH.
  - cbn [rev]. rewrite rev_app_distr. cbn [rev app]. rewrite bin2hex_cons, bin2hex_app, bin2hex_cons.
    cbn. by rewrite <- !app_assoc.
  - rewrite length_app. destruct Hp as [k Hk]. exists (S k). cbn. lia.
  - rewrite !length_app, Hq. cbn. lia.
Qed.

Lemma reverse_byte_order_hex s : reverse_byte_order (bin2hex s) = bin2hex (rev s).
Proof.
  unfold reverse_byte_order. rewrite length_bin2hex.
  replace (2 * length s / 2)%nat with (length s) by (rewrite Nat.mul_comm, Nat.div_mul; lia).
  replace (length s - length s mod 2)%nat with (2 * (length s / 2))%nat.
  2: { pose proof (Nat.div_mod_eq (length s) 2). lia. }
  pose proof (reverse_loop_spec s [] []) as H. rewrite !app_nil_r, Nat.add_0_r in H.
  apply H; [by exists 0%nat|done].
Qed.

(** On hexadecimal text, [reverse_byte_order] is the text of the reversed
    bytes, for every length. *)
Theorem reverse_byte_order_spec s : reverse_byte_order (bin2hex s) = bin2hex (rev s).
Proof. apply reverse_byte_order_hex. Qed.

(** ** Round trip *)

Lemma hex_num_bin2hex s : hex_num (bin2hex s) = be_value s.
Proof.
  induction s as [|c s IH] using rev_ind; [done|].
  rewrite bin2hex_app, bin2hex_cons, be_value_snoc.
  replace (bin2hex s ++ hex_hi c :: hex_lo c :: bin2hex [])
    with ((bin2hex s ++ [hex_hi c]) ++ [hex_lo c]) by (by rewrite <- app_assoc).
  rewrite !hex_num_snoc, IH. unfold hex_hi, hex_lo. pose proof (uc_range c).
  rewrite !hex_value_digit.
  - pose proof (Z.div_mod (uc c) 16). lia.
  - apply Z.mod_pos_bound. lia.
  - split; [apply Z.div_pos; lia | apply Z.div_lt_upper_bound; lia].
Qed.

(** The text of a little-endian field, after [reverse_byte_order]. *)
Lemma read_field n v :
  0 <= v < 256 ^ Z.of_nat n -> (n <= 8)%nat ->
  hexStrToInt 64 (reverse_byte_order (bin2hex (le_bytes n v))) = v.
Proof.
  intros Hv Hn. rewrite reverse_byte_order_hex, rev_le_bytes.
  rewrite hexStrToInt_hex by (try apply Forall_is_hex_bin2hex; lia).
  rewrite hex_num_bin2hex, be_value_be_bytes, Z.mod_small by done. apply wrap_small.
  rewrite pow_256 in Hv by lia. split; [lia|]. apply Z.lt_le_trans with (1 := proj2 Hv).
  apply Z.pow_le_mono_r; lia.
Qed.

Lemma sub_eqb_tag c d s rest :
  sub_eqb (bin2hex (c :: s) ++ rest) 0 2 (bin2hex [d]) = bool_decide (c = d).
Proof.
  unfold sub_eqb. rewrite !bin2hex_cons. cbn. apply bool_decide_ext. split; [|by intros ->].
  intros [= H1 H2]. by rewrite <- (dec_pair_hex c), H1, H2, dec_pair_hex.
Qed.

Lemma chr_eq a b : 0 <= a < 256 -> 0 <= b < 256 -> chr a = chr b -> a = b.
Proof. intros Ha Hb E%(f_equal uc). rewrite !uc_chr, !Z.mod_small in E; done. Qed.

Lemma tag_fa : str "fa" = bin2hex [chr 250]. Proof. done. Qed.
Lemma tag_fb : str "fb" = bin2hex [chr 251]. Proof. done. Qed.
Lemma tag_fc : str "fc" = bin2hex [chr 252]. Proof. done. Qed.

(** The bytes [write_compact_int] appends. *)
Definition compact (v : Z) : bytes :=
  if v <=? 249 then [chr v]
  else if v <=? UINT16_MAX then chr 250 :: le_bytes 2 v
  else if v <=? UINT32_MAX then chr 251 :: le_bytes 4 v
  else chr 252 :: le_bytes 8 v.

Lemma write_compact v buf : 0 <= v <= UINT64_MAX -> write_compact_int v buf = buf ++ compact v.
Proof.
  unfold UINT64_MAX. intros Hv. unfold write_compact_int, toVect, compact, UINT16_MAX, UINT32_MAX.
  rewrite !toLittleEndian_le_bytes. f_equal.
  destruct (v <=? 249) eqn:?; zbool.
  { rewrite wrap_small by lia. cbn [le_bytes]. f_equal. apply chr_inj_mod. by rewrite Z.mod_mod. }
  destruct (v <=? 2 ^ 16 - 1) eqn:?; zbool; [by rewrite (wrap_small _ v) by lia|].
  destruct (v <=? 2 ^ 32 - 1) eqn:?; zbool; [by rewrite (wrap_small _ v) by lia|].
  by rewrite (wrap_small _ v) by lia.
Qed.

(** Reading a tagged field of [n] bytes. *)
Lemma tagged_field c n v rest :
  take (2 * n) (drop 2 (bin2hex (c :: le_bytes n v) ++ rest)) = bin2hex (le_bytes n v) /\
  drop (2 * n) (drop 2 (bin2hex (c :: le_bytes n v) ++ rest)) = rest /\
  zlen (bin2hex (c :: le_bytes n v) ++ rest) = 2 + 2 * Z.of_nat n + zlen rest.
Proof.
  assert (length (bin2hex (le_bytes n v)) = (2 * n)%nat) as Hl
    by by rewrite length_bin2hex, length_le_bytes.
  rewrite zlen_app, zlen_bin2hex, zlen_cons, zlen_le_bytes.
  rewrite bin2hex_cons.
  change (drop 2 _) with (bin2hex (le_bytes n v) ++ rest).
  rewrite take_app_length', drop_app_length' by done. repeat split; lia.
Qed.

Lemma read_compact_tagged c n v rest :
  (c = chr 250 /\ n = 2%nat) \/ (c = chr 251 /\ n = 4%nat) \/ (c = chr 252 /\ n = 8%nat) ->
  0 <= v < 256 ^ Z.of_nat n ->
  read_compact_int (bin2hex (c :: le_bytes n v) ++ rest) = Ok (v, rest).
Proof.
  intros Hc Hv. destruct (tagged_field c n v rest) as (Ht & Hd & Hz).
  pose proof (zlen_nonneg rest) as Hr. unfold read_compact_int.
  rewrite tag_fa, tag_fb, tag_fc, !sub_eqb_tag.
  remember (bin2hex (c :: le_bytes n v) ++ rest) as buf eqn:Hbuf. clear Hbuf.
  destruct Hc as [[-> ->]|[[-> ->]|[-> ->]]];
    repeat (rewrite bool_decide_eq_false_2 by (intros E; apply chr_eq in E; lia));
    rewrite bool_decide_eq_true_2 by done; ztest; cbn [mbind res_bind Nat.mul Nat.add] in *;
    rewrite Ht, Hd; do 2 f_equal; apply read_field; (done || lia).
Qed.

Lemma read_compact_small v rest :
  0 <= v <= 249 ->
  read_compact_int (bin2hex [chr v] ++ rest) =
    if zlen rest <? 2 then Throw (InvalidArgument (str "Can not read compact uint8"))
    else Ok (v, rest).
Proof.
  intros Hv. unfold read_compact_int. rewrite tag_fa, tag_fb, tag_fc, !sub_eqb_tag.
  rewrite !bool_decide_eq_false_2 by (intros E; apply chr_eq in E; lia).
  rewrite !zlen_app, !zlen_bin2hex. change (zlen [chr v]) with 1.
  pose proof (zlen_nonneg rest) as Hr. ztest.
  destruct (zlen rest <? 2) eqn:E; zbool; ztest; [done|]. cbn [mbind res_bind].
  rewrite take_app_length', drop_app_length' by (by rewrite length_bin2hex). do 2 f_equal.
  change [chr v] with (le_bytes 0 0 ++ [chr v]).
  assert (le_bytes 0 0 ++ [chr v] = le_bytes 1 v) as ->.
  { cbn. f_equal. apply chr_inj_mod. by rewrite Z.mod_mod. }
  apply read_field; [cbn|]; lia.
Qed.

Lemma read_compact v rest :
  0 <= v <= UINT64_MAX -> 2 <= zlen rest \/ 249 < v ->
  read_compact_int (bin2hex (compact v) ++ rest) = Ok (v, rest).
Proof.
  unfold UINT64_MAX. intros Hv Hr. unfold compact, UINT16_MAX, UINT32_MAX.
  destruct (v <=? 249) eqn:?; zbool; [rewrite read_compact_small by lia; by ztest|].
  destruct (v <=? 2 ^ 16 - 1) eqn:?; zbool; [apply read_compact_tagged; [tauto|]; cbn; lia|].
  destruct (v <=? 2 ^ 32 - 1) eqn:?; zbool; apply read_compact_tagged; (tauto || cbn; lia).
Qed.

(** Every 64-bit value that [write_compact_int] wrote is read back with the
    text behind it untouched, provided at least one more byte follows or the
    value needs more than one byte. *)
Theorem compact_roundtrip v rest :
  0 <= v <= UINT64_MAX -> 2 <= zlen rest \/ 249 < v ->
  read_compact_int (bin2hex (write_compact_int v []) ++ rest) = Ok (v, rest).
Proof. intros Hv Hr. rewrite write_compact by done. by apply read_compact. Qed.

(** A one-byte value at the very end of the text is refused, because the
    single-byte branch asks for four characters although it consumes two. *)
Theorem compact_last_byte_rejected v :
  0 <= v <= 249 ->
  read_compact_int (bin2hex (write_compact_int v []))
  = Throw (InvalidArgument (str "Can not read compact uint8")).
Proof.
  intros Hv. rewrite write_compact by (unfold UINT64_MAX; lia). unfold compact. ztest.
  pose proof (read_compact_small v [] Hv) as H. by rewrite app_nil_r in H.
Qed.

(** ** Witnesses *)

Lemma compact_roundtrip_witness :
  read_compact_int (bin2hex (write_compact_int 70000 []) ++ str "00") = Ok (70000, str "00").
Proof. apply (compact_roundtrip 70000 (str "00")); [by vm_compute|right; lia]. Defined.

Lemma compact_last_byte_rejected_witness :
  read_compact_int (bin2hex (write_compact_int 0 [])) = Throw (InvalidArgument (str "Can not read compact uint8")).
Proof. apply (compact_last_byte_rejected 0). lia. Defined.
