(* ===== verification/ParseAddress.v ===== *)
(** Addresses of nodes: [utils::parse_address] of src/task_handlers/utils.cpp.

    The function splits an address into host, port and path and recognises the
    scheme.  Port, path and the TLS flag are in/out parameters in the source: the
    ones the address does not mention keep their value. *)

From Stdlib Require Import String.
From S2P Require Import Prelude Text.
Open Scope Z_scope.

Record node_address := {
  na_host : bytes;
  na_port : bytes;
  na_path : bytes;
  na_use_ssl : bool
}.

(** The four blocks of parse_address: [tmp] is the part that is still to be
    split.  [remove_prefix] drops from the front wherever the text was found. *)
Definition strip_http (tmp port : bytes) : bytes * bytes :=
  match find_sub (str "http://") tmp with
  | Some _ => (drop 7 tmp, str "80")
  | None => (tmp, port)
  end.

Definition strip_https (tmp port : bytes) (use_ssl : bool) : bytes * bytes * bool :=
  match find_sub (str "https://") tmp with
  | Some _ => (drop 8 tmp, str "443", true)
  | None => (tmp, port, use_ssl)
  end.

Definition split_path (tmp path : bytes) : bytes * bytes :=
  match find_char "/"%char tmp with
  | Some pos => (take pos tmp, drop pos tmp)
  | None => (tmp, path)
  end.

Definition split_port (tmp port : bytes) : bytes * bytes :=
  match find_char ":"%char tmp with
  | Some pos => (take pos tmp, drop (S pos) tmp)
  | None => (tmp, port)
  end.

Definition parse_address (address port path : bytes) (use_ssl : bool) : node_address :=
  let '(tmp, port) := strip_http address port in
  let '(tmp, port, use_ssl) := strip_https tmp port use_ssl in
  let '(tmp, path) := split_path tmp path in
  let '(tmp, port) := split_port tmp port in
  {| na_host := tmp; na_port := port; na_path := path; na_use_ssl := use_ssl |}.

(** ** Addresses as they are written *)

Inductive scheme := NoScheme | Http | Https.

Definition scheme_text (s : scheme) : bytes :=
  match s with NoScheme => [] | Http => str "http://" | Https => str "https://" end.
Definition default_port (s : scheme) (port : bytes) : bytes :=
  match s with NoScheme => port | Http => str "80" | Https => str "443" end.

(** host, then [:port] when one is given, then the path. *)
Definition render_rest (host : bytes) (port : option bytes) (path : bytes) : bytes :=
  host ++ match port with Some p => ":"%char :: p | None => [] end ++ path.

(** A scheme inside the rest of the address. *)
Definition no_scheme_inside (rest : bytes) : Prop :=
  find_sub (str "http://") rest = None /\ find_sub (str "https://") rest = None.

(** ** Lemmas *)

Lemma find_char_app c s t : c ∉ s -> find_char c (s ++ c :: t) = Some (length s).
Proof.
  induction s as [|a s IH]; intros Hn; cbn [find_char app length].
  - by rewrite bool_decide_eq_true_2.
  - rewrite not_elem_of_cons in Hn. destruct Hn as [Ha Hs].
    rewrite bool_decide_eq_false_2 by congruence. by rewrite IH.
Qed.

Lemma find_char_absent c s : c ∉ s -> find_char c s = None.
Proof.
  induction s as [|a s IH]; intros Hn; [done|]. cbn [find_char].
  rewrite not_elem_of_cons in Hn. destruct Hn as [Ha Hs].
  rewrite bool_decide_eq_false_2 by congruence. by rewrite IH.
Qed.

Lemma split_path_at s path0 path :
  "/"%char ∉ s -> (path = [] \/ exists t, path = "/"%char :: t) ->
  split_path (s ++ path) path0 = (s, if bool_decide (path = []) then path0 else path).
Proof.
  intros Hs [-> | [t ->]]; unfold split_path.
  - rewrite app_nil_r, find_char_absent by done. by rewrite bool_decide_eq_true_2.
  - rewrite find_char_app by done. rewrite take_app_length, drop_app_length. done.
Qed.

Lemma split_port_at host port port0 :
  ":"%char ∉ host ->
  split_port (host ++ match port with Some p => ":"%char :: p | None => [] end) port0
  = (host, default port0 port).
Proof.
  intros Hh. unfold split_port. destruct port as [p|].
  - rewrite find_char_app, take_app_length by done.
    replace (S (length host)) with (length host + 1)%nat by lia. by rewrite <- drop_drop, drop_app_length.
  - by rewrite app_nil_r, find_char_absent by done.
Qed.

Lemma strip_schemes s rest port ssl :
  no_scheme_inside rest ->
  (let '(tmp, port) := strip_http (scheme_text s ++ rest) port in strip_https tmp port ssl)
  = (rest, default_port s port, match s with Https => true | _ => ssl end).
Proof.
  intros [Hh Hs]. unfold strip_http. destruct s.
  - cbn [scheme_text app]. rewrite Hh. unfold strip_https. by rewrite Hs.
  - assert (find_sub (str "http://") (scheme_text Http ++ rest) = Some 0%nat) as -> by done.
    change (drop 7 (scheme_text Http ++ rest)) with rest. unfold strip_https. by rewrite Hs.
  - assert (find_sub (str "http://") (scheme_text Https ++ rest) = None) as ->.
    { cbn. cbn in Hh. by rewrite Hh. }
    unfold strip_https.
    assert (find_sub (str "https://") (scheme_text Https ++ rest) = Some 0%nat) as -> by done.
    done.
Qed.

(** An address that is written with a scheme, a host, a port and a path, in
    this order and each but the host optional, is split into them; the port
    defaults to the one of the scheme, and TLS is used for https. *)
Theorem parse_address_render s host port path port0 path0 ssl0 :
  "/"%char ∉ host -> ":"%char ∉ host ->
  (forall p, port = Some p -> "/"%char ∉ p) ->
  (path = [] \/ exists t, path = "/"%char :: t) ->
  no_scheme_inside (render_rest host port path) ->
  parse_address (scheme_text s ++ render_rest host port path) port0 path0 ssl0 =
  {| na_host := host; na_port := default (default_port s port0) port;
     na_path := if bool_decide (path = []) then path0 else path;
     na_use_ssl := match s with Https => true | _ => ssl0 end |}.
Proof.
  intros Hh1 Hh2 Hp Hpath Hn. unfold parse_address.
  pose proof (strip_schemes s (render_rest host port path) port0 ssl0 Hn) as Hs.
  destruct (strip_http _ port0) as [tmp p]. rewrite Hs. unfold render_rest. rewrite app_assoc.
  rewrite split_path_at; [|destruct port as [q|]; [|by rewrite app_nil_r]|done].
  - by rewrite split_port_at.
  - rewrite not_elem_of_app, not_elem_of_cons. split; [done|]. split; [done|]. by apply Hp.
Qed.

(** The scheme is looked for anywhere in the address, and seven characters are
    taken off its front: a path that contains an address damages the host. *)
Theorem scheme_in_path_damages_host :
  na_host (parse_address (str "node.example.org/?u=http://x") [] [] false) = str "ample.org".
Proof. reflexivity. Qed.

(** ** Witness *)

Lemma parse_address_render_witness :
  parse_address (str "https://tor.example.org:5795/fetch") [] [] false =
  {| na_host := str "tor.example.org"; na_port := str "5795"; na_path := str "/fetch"; na_use_ssl := true |}.
Proof.
  refine (parse_address_render Https (str "tor.example.org") (Some (str "5795")) (str "/fetch") [] [] false _ _ _ _ _).
  - by apply (bool_decide_unpack _); vm_compute.
  - by apply (bool_decide_unpack _); vm_compute.
  - intros p [= <-]. by apply (bool_decide_unpack _); vm_compute.
  - right. by eexists.
  - by split; vm_compute.
Defined.
