(* ===== verification/Timer.v ===== *)
(** The timer of an HTTP request: class [utils::Timer] of
    src/task_handlers/utils.cpp.

    A timer is used by one thread, the owner, and runs its handler on a thread of
    its own; the two share [m_stop], [m_handler] and the mutex [m_locker].  The
    machine below has a step for everything that happens between two operations on
    the mutex, the condition variable or the thread: what is done while the mutex
    is held is one step, and a join is a step that waits for the other thread. *)

From Stdlib Require Import String.
From S2P Require Import Prelude.
Open Scope Z_scope.

(** ** State *)

(** The thread: not joinable; created and not yet at the mutex; in wait_for;
    back from wait_for, after a time-out or not, and not yet at the mutex; in the
    handler, with the mutex; at its end and not yet joined. *)
Inductive thread := NoThread | Started | Waiting | Woken (timed_out : bool) | Handling | Finished.

(** Where the owner is: in none of the methods; in start, before the mutex and
    before the join, with the mutex; in stop, before the mutex and before the
    join. *)
Inductive place := Idle | StartLock (handler : nat) | StartJoin | StopLock | StopJoin.

Inductive party := Owner | TimerThread.

Record timer := {
  m_stop : bool;
  m_handler : option nat;
  m_thr : thread;
  m_locker : option party;
  place_of : place
}.

(** Timer(). *)
Definition Timer_new : timer :=
  {| m_stop := true; m_handler := None; m_thr := NoThread; m_locker := None; place_of := Idle |}.

(** A join returns at once, or when the thread has ended. *)
Definition join_returns (t : thread) : bool := match t with NoThread | Finished => true | _ => false end.

(** notify_one wakes a thread that is in wait_for. *)
Definition notify_one (t : thread) : thread := match t with Waiting => Woken false | _ => t end.

(** ** Steps *)

Inductive label :=
| LCall
| LStart (handler : nat)
| LStopped
| LWake (timed_out : bool)
| LFire (handler : option nat)
| LOther.

Inductive step : timer -> label -> timer -> Prop :=
(** The owner calls start or stop. *)
| call_start s h : place_of s = Idle ->
    step s LCall {| m_stop := m_stop s; m_handler := m_handler s; m_thr := m_thr s; m_locker := m_locker s;
                    place_of := StartLock h |}
| call_stop s : place_of s = Idle ->
    step s LCall {| m_stop := m_stop s; m_handler := m_handler s; m_thr := m_thr s; m_locker := m_locker s;
                    place_of := StopLock |}
(** start: set_callback, m_stop = false, with the mutex. *)
| start_locked s h : place_of s = StartLock h -> m_locker s = None ->
    step s (LStart h) {| m_stop := false; m_handler := Some h; m_thr := m_thr s; m_locker := Some Owner;
                         place_of := StartJoin |}
(** run_once: the join, then the new thread; the end of start frees the mutex. *)
| start_joined s : place_of s = StartJoin -> join_returns (m_thr s) = true ->
    step s LOther {| m_stop := m_stop s; m_handler := m_handler s; m_thr := Started; m_locker := None;
                     place_of := Idle |}
(** stop: a timer that runs is told to stop, and its thread is joined. *)
| stop_running s : place_of s = StopLock -> m_locker s = None -> m_stop s = false ->
    step s LOther {| m_stop := true; m_handler := m_handler s; m_thr := notify_one (m_thr s); m_locker := None;
                     place_of := StopJoin |}
| stop_joined s : place_of s = StopJoin -> join_returns (m_thr s) = true ->
    step s LStopped {| m_stop := m_stop s; m_handler := None; m_thr := NoThread; m_locker := m_locker s;
                       place_of := Idle |}
| stop_stopped s : place_of s = StopLock -> m_locker s = None -> m_stop s = true ->
    step s LStopped {| m_stop := true; m_handler := None; m_thr := m_thr s; m_locker := None; place_of := Idle |}
(** The thread takes the mutex and waits, which frees it. *)
| thread_waits s : m_thr s = Started -> m_locker s = None ->
    step s LOther {| m_stop := m_stop s; m_handler := m_handler s; m_thr := Waiting; m_locker := None;
                     place_of := place_of s |}
(** The interval is over, or the wait ends without a reason. *)
| thread_wakes s b : m_thr s = Waiting ->
    step s (LWake b) {| m_stop := m_stop s; m_handler := m_handler s; m_thr := Woken b; m_locker := m_locker s;
                        place_of := place_of s |}
(** Back with the mutex: the end, another wait, or the handler. *)
| thread_ends s b : m_thr s = Woken b -> m_locker s = None -> m_stop s = true ->
    step s LOther {| m_stop := true; m_handler := m_handler s; m_thr := Finished; m_locker := None;
                     place_of := place_of s |}
| thread_waits_again s : m_thr s = Woken false -> m_locker s = None -> m_stop s = false ->
    step s LOther {| m_stop := false; m_handler := m_handler s; m_thr := Waiting; m_locker := None;
                     place_of := place_of s |}
| thread_expires s : m_thr s = Woken true -> m_locker s = None -> m_stop s = false ->
    step s LOther {| m_stop := false; m_handler := m_handler s; m_thr := Handling; m_locker := Some TimerThread;
                     place_of := place_of s |}
(** The handler, and m_stop = true behind it. *)
| thread_handles s : m_thr s = Handling ->
    step s (LFire (m_handler s)) {| m_stop := true; m_handler := m_handler s; m_thr := Finished; m_locker := None;
                                    place_of := place_of s |}.

Inductive steps : timer -> list label -> timer -> Prop :=
| steps_nil s : steps s [] s
| steps_cons s l s' ls s'' : step s l s' -> steps s' ls s'' -> steps s (l :: ls) s''.

(** ** Invariant *)

(** Who holds the mutex, and what m_stop says of the thread: while a timer runs its
    thread is there, and the handler only runs while the timer does. *)
Definition inv (s : timer) : bool :=
  (match m_locker s, place_of s with
   | Some Owner, StartJoin => true
   | Some Owner, _ | _, StartJoin => false
   | _, _ => true
   end) &&
  (match m_locker s, m_thr s with
   | Some TimerThread, Handling => true
   | Some TimerThread, _ | _, Handling => false
   | _, _ => true
   end) &&
  (match m_stop s, place_of s with
   | true, StartJoin | false, StopJoin => false
   | true, StopJoin => negb (match m_thr s with Handling => true | _ => false end)
   | true, _ => join_returns (m_thr s)
   | false, StartJoin => true
   | false, _ => negb (join_returns (m_thr s))
   end).

Lemma inv_new : inv Timer_new = true.
Proof. done. Qed.

(** The fields that decide are finite: look at every case. *)
Ltac all_cases s :=
  destruct s as [[] ? [| | |[]| |] [[]|] []]; cbn in *; simplify_eq; try done.

Lemma step_inv s l s' : step s l s' -> inv s = true -> inv s' = true.
Proof. destruct 1; intros I; all_cases s. Qed.

Lemma steps_inv s ls s' : steps s ls s' -> inv s = true -> inv s' = true.
Proof. induction 1; eauto using step_inv. Qed.

Definition reachable (s : timer) : Prop := exists ls, steps Timer_new ls s.

Lemma reachable_inv s : reachable s -> inv s = true.
Proof. intros [ls H]. eapply steps_inv; [exact H|done]. Qed.

(** ** Theorems *)

Definition starts (ls : list label) : nat := length (List.filter (fun l => match l with LStart _ => true | _ => false end) ls).
Definition fires (ls : list label) : nat := length (List.filter (fun l => match l with LFire _ => true | _ => false end) ls).

(** A timer that was told to stop, or has not been started. *)
Definition runs (s : timer) : nat := if m_stop s then 0 else 1.

Lemma step_fires s l s' : step s l s' -> inv s = true -> (fires [l] + runs s' <= starts [l] + runs s)%nat.
Proof. destruct 1; intros I; all_cases s; unfold runs; cbn; lia. Qed.

Lemma filter_length_cons {A} (f : A -> bool) a l :
  length (List.filter f (a :: l)) = (length (List.filter f [a]) + length (List.filter f l))%nat.
Proof. cbn. by destruct (f a). Qed.

Lemma steps_fires s ls s' : steps s ls s' -> inv s = true -> (fires ls + runs s' <= starts ls + runs s)%nat.
Proof.
  induction 1 as [s|s l s1 ls s2 H1 H2 IH]; intros I; [cbn; lia|].
  pose proof (step_fires s l s1 H1 I). specialize (IH (step_inv _ _ _ H1 I)).
  unfold fires, starts in *. rewrite !(filter_length_cons _ l ls). lia.
Qed.

Lemma stopped_stop s s' : step s LStopped s' -> inv s = true -> m_stop s' = true.
Proof. inversion 1; subst; intros I; all_cases s. Qed.

(** C26: the handler of a timer runs at most once for every start, and once stop has
    returned it does not run before the next start, however the two threads are
    interleaved. *)
Theorem handler_only_while_started ls s :
  steps Timer_new ls s ->
  (fires ls <= starts ls)%nat /\
  forall s1 ls' s', step s LStopped s1 -> steps s1 ls' s' -> (fires ls' <= starts ls')%nat.
Proof.
  intros H. pose proof (steps_inv _ _ _ H inv_new) as I. split; [pose proof (steps_fires _ _ _ H inv_new) as Hf; cbn in Hf; lia|].
  intros s1 ls' s' H1 H2. pose proof (steps_fires _ _ _ H2 (step_inv _ _ _ H1 I)) as Hf.
  pose proof (stopped_stop _ _ H1 I) as Hs. unfold runs in Hf. rewrite Hs in Hf. lia.
Qed.

(** One step ahead: the owner when it can, else its timer's thread. *)
Ltac advance :=
  eapply steps_cons;
    [first [eapply stop_joined; reflexivity | eapply stop_stopped; reflexivity | eapply stop_running; reflexivity
           | eapply start_joined; reflexivity | eapply start_locked; reflexivity | eapply thread_handles; reflexivity
           | eapply thread_ends; reflexivity | eapply thread_waits; reflexivity | eapply (thread_wakes _ true); reflexivity]
    |cbn].

(** C27: neither stop nor a start of a timer that does not run can block for ever: from
    every state that can be reached with the owner inside one of them, the threads
    can go on until the owner is out of it, in at most six steps. *)
Theorem timer_calls_return s :
  reachable s ->
  match place_of s with
  | StopLock | StopJoin => True
  | StartLock _ => m_stop s = true
  | _ => False
  end ->
  exists ls s', steps s ls s' /\ place_of s' = Idle /\ (length ls <= 6)%nat.
Proof.
  intros Hr%reachable_inv Hp. destruct s as [[] hd [| | |[]| |] [[]|] []]; cbn in *; try done.
  all: eexists _, _; (split; [repeat advance; apply steps_nil|]); cbn; (split; [done|lia]).
Qed.

(** A start of a timer that still runs never returns: it waits for the thread with
    the mutex that the thread needs to end. *)
Theorem restart_deadlocks s ls s' :
  place_of s = StartJoin -> m_locker s = Some Owner -> join_returns (m_thr s) = false -> m_thr s <> Handling ->
  steps s ls s' -> place_of s' = StartJoin.
Proof.
  intros Hp Hl Hj Hh H. revert Hp Hl Hj Hh.
  induction H as [|s l s1 ls s2 H1 H2 IH]; intros Hp Hl Hj Hh; [done|].
  apply IH; destruct H1; all_cases s.
Qed.

(** A stop that comes before the new thread waits is not noticed by it: the thread
    looks at m_stop only behind the wait, so stop returns only after the wait has
    ended by itself, at the end of the interval. *)
Theorem early_stop_waits_for_interval s ls s' :
  place_of s = StopJoin -> m_thr s = Started -> steps s ls s' -> place_of s' = Idle ->
  exists b, LWake b ∈ ls.
Proof.
  assert (forall ls s s', steps s ls s' -> place_of s = StopJoin -> (m_thr s = Started \/ m_thr s = Waiting) ->
    place_of s' = Idle -> exists b, LWake b ∈ ls) as K.
  { clear. intros ls s s'. induction 1 as [|s l s1 ls s2 H1 H2 IH]; intros Hp Ht Hi; [congruence|].
    assert ((exists b, l = LWake b) \/ (place_of s1 = StopJoin /\ (m_thr s1 = Started \/ m_thr s1 = Waiting))) as [[b ->]|[P1 P2]]
      by (destruct H1; all_cases s; destruct Ht; (done || eauto)).
    - exists b. constructor.
    - destruct (IH P1 P2 Hi) as [b Hb]. exists b. by constructor. }
  intros Hp Ht H Hi. eapply K; eauto.
Qed.

(** ** Witnesses *)

Module Sample.
Lemma started : steps Timer_new [LCall; LStart 1; LOther; LCall; LOther]
  {| m_stop := true; m_handler := Some 1%nat; m_thr := Started; m_locker := None; place_of := StopJoin |}.
Proof.
  eapply steps_cons; [apply (call_start _ 1); reflexivity|]. eapply steps_cons; [apply start_locked; reflexivity|].
  eapply steps_cons; [apply start_joined; reflexivity|]. eapply steps_cons; [apply call_stop; reflexivity|].
  eapply steps_cons; [apply stop_running; reflexivity|]. apply steps_nil.
Defined.

Lemma handler_only_while_started_witness :
  (fires [LCall; LStart 1; LOther; LCall; LOther] <= starts [LCall; LStart 1; LOther; LCall; LOther])%nat.
Proof. exact (proj1 (handler_only_while_started _ _ started)). Defined.

Lemma timer_calls_return_witness :
  exists ls s', steps {| m_stop := true; m_handler := Some 1%nat; m_thr := Started; m_locker := None; place_of := StopJoin |}
    ls s' /\ place_of s' = Idle /\ (length ls <= 6)%nat.
Proof. apply timer_calls_return; [exact (ex_intro _ _ started)|exact I]. Defined.
End Sample.
