(* ===== verification/Crypto.v ===== *)
(** The wrapper of src/cpplib_open_ssl_decor/crypto.cpp around OpenSSL, and
    [validate_address] of src/task_handlers/utils.cpp.

    OpenSSL is not part of the repository.  The class [OpenSSL] has one field
    per library entry point the wrapper calls, with the value the wrapper looks
    at; [DigestLaws] and [KeyLaws] state what its documentation promises, the latter
    for keys that hold both parts of a pair on the curve secp256k1, as generation and
    d2i_PrivateKey_bio return them.  Memory management
    ([EVP_PKEY_free], [BIO_free], ...) has no counterpart. *)

From Stdlib Require Import String.
From S2P Require Import Prelude Text Hex.
Open Scope Z_scope.

(** ** The library *)

Class OpenSSL := {
  EVP_PKEY : Type;
  EVP_MD : Type;
  EVP_sha256 : EVP_MD;
  EVP_ripemd160 : EVP_MD;
  (** Output size in bytes. *)
  EVP_MD_size : EVP_MD -> Z;
  (** [EVP_MD_CTX_create()] returns a context. *)
  EVP_MD_CTX_create : bool;
  (** [EVP_DigestInit_ex], [EVP_DigestUpdate] return 1. *)
  EVP_DigestInit_ex : EVP_MD -> bool;
  EVP_DigestUpdate : bytes -> bool;
  (** The digest of what was fed, [None] when the result is not 1. *)
  EVP_DigestFinal_ex : EVP_MD -> bytes -> option bytes;
  (** [BIO_new] and [BIO_new_mem_buf] return an object. *)
  BIO_new : bool;
  (** [EVP_PKEY_keygen] on the curve, from the random bytes it draws. *)
  EVP_PKEY_keygen : bytes -> option EVP_PKEY;
  (** The DER text of a key, [None] when the result is not 1. *)
  i2d_PUBKEY_bio : EVP_PKEY -> option bytes;
  i2d_PrivateKey_bio : EVP_PKEY -> option bytes;
  d2i_PUBKEY_bio : bytes -> option EVP_PKEY;
  d2i_PrivateKey_bio : bytes -> option EVP_PKEY;
  (** Signing: init, update, the room a signature needs (a call of
      [EVP_DigestSignFinal] without a buffer), the signature of the fed data. *)
  EVP_DigestSignInit : EVP_PKEY -> bool;
  EVP_DigestSignUpdate : bytes -> bool;
  EVP_DigestSignSize : EVP_PKEY -> option Z;
  EVP_DigestSignFinal : EVP_PKEY -> bytes -> option bytes;
  (** Verification: init, update, the return code for key, data, signature. *)
  EVP_DigestVerifyInit : EVP_PKEY -> bool;
  EVP_DigestVerifyUpdate : bytes -> bool;
  EVP_DigestVerifyFinal : EVP_PKEY -> bytes -> bytes -> Z;
}.

Definition throw_unless (b : bool) (s : string) : res unit :=
  if b then Ok () else Throw (RuntimeError (str s)).
Definition or_throw {A} (o : option A) (s : string) : res A :=
  match o with Some a => Ok a | None => Throw (RuntimeError (str s)) end.

(** struct CRYPTO_wallet. *)
Record CRYPTO_wallet := {
  private_key_buf : bytes;
  public_key_buf : bytes;
  mh_address_buf : bytes;
  nonce : Z
}.

Section Wrapper.
Context `{OpenSSL}.

(** What [EVP_PKEY_CTX_new_id .. EVP_PKEY_keygen] do on one call: whether
    each step succeeded, and the random bytes of the last. *)
Record keygen_run := {
  ctx_new_id : bool;
  paramgen_init : bool;
  set_curve_nid : bool;
  keygen_init : bool;
  random : bytes
}.

Definition crypto_generate_keypair (run : keygen_run) : res EVP_PKEY :=
  _ ← throw_unless (ctx_new_id run) "Cannot create key context";
  _ ← throw_unless (paramgen_init run) "Cannot initialise key parameters";
  _ ← throw_unless (set_curve_nid run) "Cannot set secp256k1 algorithm";
  _ ← throw_unless (keygen_init run) "Cannot initialise keys generator";
  or_throw (EVP_PKEY_keygen (random run)) "Cannot generate keys".

(** [BIO_read] of nothing returns a value [<= 0]. *)
Definition crypto_dump_key (pkey : EVP_PKEY) (pubkey : bool) : res bytes :=
  _ ← throw_unless BIO_new "Cannot create BIO object";
  bio ← (if pubkey then or_throw (i2d_PUBKEY_bio pkey) "Cannot write public key to BIO"
         else or_throw (i2d_PrivateKey_bio pkey) "Cannot private write key to BIO");
  _ ← throw_unless (0 <? zlen bio) "Cannot read BIO";
  Ok bio.

Definition crypto_dump_private_key pkey := crypto_dump_key pkey false.
Definition crypto_dump_public_key pkey := crypto_dump_key pkey true.

Definition crypto_load_key (key_buf : bytes) (pubkey : bool) : res EVP_PKEY :=
  _ ← throw_unless BIO_new "Cannot create BIO object";
  if pubkey then or_throw (d2i_PUBKEY_bio key_buf) "Cannot load public key from BIO"
  else or_throw (d2i_PrivateKey_bio key_buf) "Cannot load private key from BIO".

Definition crypto_load_private_key key_buf := crypto_load_key key_buf false.
Definition crypto_load_public_key key_buf := crypto_load_key key_buf true.

(** digest_message: the buffer is resized to the size [EVP_DigestFinal_ex]
    reports, so it is exactly the digest. *)
Definition digest_message (type : EVP_MD) (data : bytes) : res bytes :=
  _ ← throw_unless EVP_MD_CTX_create "Digest context create problem";
  _ ← throw_unless (EVP_DigestInit_ex type) "Digest init problem";
  _ ← throw_unless (EVP_DigestUpdate data) "Digest update problem";
  or_throw (EVP_DigestFinal_ex type data) "Digest processing problem".

(** The iterator arithmetic [v.end() - n], [v.begin() + n], defined when the
    vector has at least [n] elements. *)
Definition last_bytes (n : nat) (v : bytes) : res bytes :=
  if (length v <? n)%nat then Throw Undefined else Ok (drop (length v - n) v).
Definition but_last_bytes (n : nat) (v : bytes) : res bytes :=
  if (length v <? n)%nat then Throw Undefined else Ok (take (length v - n) v).
Definition first_bytes (n : nat) (v : bytes) : res bytes :=
  if (length v <? n)%nat then Throw Undefined else Ok (take n v).

Definition crypto_generate_address (public_key_buf : bytes) : res bytes :=
  buf1 ← last_bytes 65 public_key_buf;
  buf2 ← digest_message EVP_sha256 buf1;
  buf3 ← digest_message EVP_ripemd160 buf2;
  let buf3 := zero :: buf3 in
  buf1 ← digest_message EVP_sha256 buf3;
  buf2 ← digest_message EVP_sha256 buf1;
  sum ← first_bytes 4 buf2;
  Ok (buf3 ++ sum).

(** The [int data_size] a [size_t] converts to; a negative one becomes a huge
    [size_t] again in OpenSSL, outside the buffer. *)
Definition fed (data : bytes) : res bytes :=
  if zlen data <=? INT_MAX then Ok data else Throw Undefined.

Definition crypto_sign_data (private_key data : bytes) : res bytes :=
  let private_key_buf := hex2bin private_key in
  pkey ← crypto_load_private_key private_key_buf;
  _ ← throw_unless EVP_MD_CTX_create "Cannot create digest context";
  _ ← throw_unless (EVP_DigestSignInit pkey) "Cannot initialise SHA-256 signing";
  data ← fed data;
  _ ← throw_unless (EVP_DigestSignUpdate data) "Cannot sign the data";
  _ ← or_throw (EVP_DigestSignSize pkey) "Cannot obtain signature size";
  or_throw (EVP_DigestSignFinal pkey data) "Cannot obtain signature".

Definition crypto_check_sign_data (sign public_key data : bytes) : res bool :=
  _ ← throw_unless EVP_MD_CTX_create "Cannot create digest context";
  let public_key_buf := hex2bin public_key in
  pkey ← crypto_load_public_key public_key_buf;
  _ ← throw_unless (EVP_DigestVerifyInit pkey) "Cannot initialise SHA-256 verifying";
  data ← fed data;
  _ ← throw_unless (EVP_DigestVerifyUpdate data) "Cannot verify the data";
  let rc := EVP_DigestVerifyFinal pkey data sign in
  if rc =? 0 then Ok false
  else if rc =? 1 then Ok true
  else Throw (RuntimeError (str "Serious error of signature verification")).

Definition CRYPTO_generate_wallet (run : keygen_run) : res CRYPTO_wallet :=
  pkey ← crypto_generate_keypair run;
  pub ← crypto_dump_public_key pkey;
  prv ← crypto_dump_private_key pkey;
  address ← crypto_generate_address pub;
  Ok {| private_key_buf := prv; public_key_buf := pub; mh_address_buf := address; nonce := 0 |}.

(** The overload with text results: private key, public key, address. *)
Definition CRYPTO_generate_wallet_text (run : keygen_run) : res (bytes * bytes * bytes) :=
  wallet ← CRYPTO_generate_wallet run;
  Ok (bin2hex (private_key_buf wallet), bin2hex (public_key_buf wallet),
      bin2hex (mh_address_buf wallet)).

Definition CRYPTO_init_wallet (wallet : CRYPTO_wallet) (private_key public_key mh_address : bytes)
  : CRYPTO_wallet :=
  {| private_key_buf := hex2bin private_key; public_key_buf := hex2bin public_key;
     mh_address_buf := hex2bin mh_address; nonce := nonce wallet |}.

Definition CRYPTO_sign_text (private_key text : bytes) : res bytes :=
  crypto_sign_data private_key text.
Definition CRYPTO_sign_data (private_key data : bytes) : res bytes :=
  crypto_sign_data private_key data.
Definition CRYPTO_check_sign_text (sign public_key text : bytes) : res bool :=
  crypto_check_sign_data sign public_key text.
Definition CRYPTO_check_sign_data (sign public_key data : bytes) : res bool :=
  crypto_check_sign_data sign public_key data.

Definition CRYPTO_generate_public (private_key : bytes) : res bytes :=
  let private_key_buf := hex2bin private_key in
  pkey ← crypto_load_private_key private_key_buf;
  public_key_buf ← crypto_dump_public_key pkey;
  Ok (bin2hex public_key_buf).

Definition CRYPTO_generate_address (public_key : bytes) : res bytes :=
  let public_key_buf := hex2bin public_key in
  mh_address_buf ← crypto_generate_address public_key_buf;
  Ok (bin2hex mh_address_buf).

(** [buf1.resize(4)] of a shorter digest would pad it with zeroes. *)
Definition CRYPTO_check_address (mh_address : bytes) : res bool :=
  let mh_address_buf := hex2bin mh_address in
  buf1 ← but_last_bytes 4 mh_address_buf;
  buf2 ← digest_message EVP_sha256 buf1;
  buf1 ← digest_message EVP_sha256 buf2;
  let buf1 := take 4 (buf1 ++ replicate 4 zero) in
  buf2 ← last_bytes 4 mh_address_buf;
  Ok (bool_decide (buf1 = buf2)).

(** utils::validate_address; [&&] evaluates the digest only behind the guards. *)
Definition validate_address (value : bytes) : res bool :=
  if (zlen value =? 26 * 2) && sub_eqb value 0 2 (str "0x") && sub_eqb value 2 2 (str "00")
  then CRYPTO_check_address value
  else Ok false.
End Wrapper.

(** ** What OpenSSL promises *)

(** Digests.  A context can be created: allocation is the only thing that fails
    there. *)
Class DigestLaws `(L : OpenSSL) := {
  md_ctx : EVP_MD_CTX_create = true;
  md_sizes : EVP_MD_size EVP_sha256 = 32 /\ EVP_MD_size EVP_ripemd160 = 20;
  (** Digesting succeeds and yields [EVP_MD_size] bytes. *)
  md_digest type data : type = EVP_sha256 \/ type = EVP_ripemd160 ->
    EVP_DigestInit_ex type = true /\ EVP_DigestUpdate data = true /\
    exists d, EVP_DigestFinal_ex type data = Some d /\ zlen d = EVP_MD_size type;
}.

(** Keys.  A key that was read from a public text has no private part; [key_pair]
    holds of the keys that have both parts, on the curve. *)
Class KeyLaws `(L : OpenSSL) := {
  (** Again only allocation fails. *)
  bio_new : BIO_new = true;
  key_pair : EVP_PKEY -> Prop;
  keygen_pair r k : EVP_PKEY_keygen r = Some k -> key_pair k;
  (** A pair can be written, and reading its private text gives a pair with the same
      public part; the uncompressed public key takes 65 of the bytes of the public
      text, which can be read too. *)
  private_text k : key_pair k -> exists b k', i2d_PrivateKey_bio k = Some b /\ 0 < zlen b /\
    d2i_PrivateKey_bio b = Some k' /\ key_pair k' /\ i2d_PUBKEY_bio k' = i2d_PUBKEY_bio k;
  public_text k : key_pair k -> exists b p, i2d_PUBKEY_bio k = Some b /\ 65 <= zlen b /\
    d2i_PUBKEY_bio b = Some p /\ i2d_PUBKEY_bio p = Some b;
  (** A pair signs, and any key with the same public part verifies that. *)
  sign_ok k data : key_pair k -> EVP_DigestSignInit k = true /\ EVP_DigestSignUpdate data = true /\
    (exists n, EVP_DigestSignSize k = Some n) /\ exists s, EVP_DigestSignFinal k data = Some s;
  verify_sign k p b data s : key_pair k ->
    i2d_PUBKEY_bio k = Some b -> i2d_PUBKEY_bio p = Some b ->
    EVP_DigestSignFinal k data = Some s ->
    EVP_DigestVerifyInit p = true /\ EVP_DigestVerifyUpdate data = true /\
    EVP_DigestVerifyFinal p data s = 1;
}.

(** ** Addresses *)

Section Laws.
Context `{L : OpenSSL} {digests : DigestLaws L}.

Lemma digest_message_ok type data :
  type = EVP_sha256 \/ type = EVP_ripemd160 -> exists d, digest_message type data = Ok d /\ zlen d = EVP_MD_size type.
Proof.
  intros Ht. destruct (md_digest type data Ht) as (Hi & Hu & d & Hf & Hd). exists d. split; [|done].
  unfold digest_message. by rewrite md_ctx, Hi, Hu, Hf.
Qed.

Lemma sha256_ok data : exists d, digest_message EVP_sha256 data = Ok d /\ length d = 32%nat.
Proof.
  destruct (digest_message_ok EVP_sha256 data (or_introl eq_refl)) as (d & Hd & Hl). exists d. split; [done|].
  rewrite (proj1 md_sizes) in Hl. unfold zlen in Hl. lia.
Qed.

Lemma ripemd160_ok data : exists d, digest_message EVP_ripemd160 data = Ok d /\ length d = 20%nat.
Proof.
  destruct (digest_message_ok EVP_ripemd160 data (or_intror eq_refl)) as (d & Hd & Hl). exists d. split; [done|].
  rewrite (proj2 md_sizes) in Hl. unfold zlen in Hl. lia.
Qed.

(** The first four bytes of the double SHA-256 of [payload]. *)
Definition checksum (payload sum : bytes) : Prop :=
  exists d1 d2, digest_message EVP_sha256 payload = Ok d1 /\
    digest_message EVP_sha256 d1 = Ok d2 /\ sum = take 4 d2.

Lemma checksum_length payload sum : checksum payload sum -> length sum = 4%nat.
Proof.
  intros (d1 & d2 & _ & H2 & ->). destruct (sha256_ok d1) as (d & Hd & Hl).
  rewrite H2 in Hd. injection Hd as ->. rewrite length_take. lia.
Qed.

(** The address of a key of at least 65 bytes: a zero byte, the 20 bytes of the
    key's digest, and their checksum. *)
Lemma crypto_generate_address_spec key :
  (65 <= length key)%nat ->
  exists body sum, crypto_generate_address key = Ok (zero :: body ++ sum) /\
    length body = 20%nat /\ checksum (zero :: body) sum.
Proof.
  intros Hk. unfold crypto_generate_address, last_bytes.
  destruct (Nat.ltb_spec (length key) 65); [lia|]. cbn [mbind res_bind].
  destruct (sha256_ok (drop (length key - 65) key)) as (b2 & -> & _). cbn [mbind res_bind].
  destruct (ripemd160_ok b2) as (b3 & -> & Hb3). cbn [mbind res_bind].
  destruct (sha256_ok (zero :: b3)) as (d1 & H1 & _). rewrite H1. cbn [mbind res_bind].
  destruct (sha256_ok d1) as (d2 & H2 & Hl). rewrite H2. cbn [mbind res_bind].
  unfold first_bytes. destruct (Nat.ltb_spec (length d2) 4); [lia|]. cbn [mbind res_bind].
  exists b3, (take 4 d2). repeat split; [done|]. by exists d1, d2.
Qed.

(** The check accepts exactly a payload followed by its checksum. *)
Lemma check_address_decoded v payload sum :
  hex2bin v = payload ++ sum -> length sum = 4%nat ->
  exists b, CRYPTO_check_address v = Ok b /\ (b = true <-> checksum payload sum).
Proof.
  intros E Hs. unfold CRYPTO_check_address, but_last_bytes, last_bytes. rewrite E.
  rewrite !length_app, Hs. replace (length payload + 4 <? 4)%nat with false
    by (symmetry; apply Nat.ltb_ge; lia).
  cbn [mbind res_bind]. replace (length payload + 4 - 4)%nat with (length payload) by lia.
  rewrite take_app_length, drop_app_length.
  destruct (sha256_ok payload) as (d1 & H1 & _). rewrite H1. cbn [mbind res_bind].
  destruct (sha256_ok d1) as (d2 & H2 & Hl). rewrite H2. cbn [mbind res_bind].
  rewrite take_app_le by lia. eexists. split; [done|]. rewrite bool_decide_eq_true.
  unfold checksum. rewrite H1. split.
  - intros <-. by exists d1, d2.
  - intros (? & ? & [= <-] & Hd & ->). rewrite H2 in Hd. by injection Hd as ->.
Qed.

Lemma hex2bin_0x s : s <> [] -> hex2bin (str "0x" ++ s) = hex2bin_loop s.
Proof.
  intros Hs. unfold hex2bin. rewrite zlen_app. change (zlen (str "0x")) with 2.
  destruct s as [|c s]; [done|]. rewrite zlen_cons. pose proof (zlen_nonneg s). by ztest.
Qed.

Lemma hex2bin_0x_bin2hex s : s <> [] -> hex2bin (str "0x" ++ bin2hex s) = s.
Proof.
  intros Hs. rewrite hex2bin_0x; [apply hex2bin_loop_encoded|].
  destruct s; [done|]. by rewrite bin2hex_cons.
Qed.

Lemma hex2bin_loop_length s : length (hex2bin_loop s) = ((length s + 1) / 2)%nat.
Proof.
  induction s as [|a|a b s IH] using list_ind_pair; [done..|]. cbn [hex2bin_loop length].
  rewrite IH. replace (S (S (length s)) + 1)%nat with (length s + 1 + 1 * 2)%nat by lia.
  rewrite Nat.div_add by lia. lia.
Qed.

Lemma address_accepted body sum :
  length body = 20%nat -> checksum (zero :: body) sum ->
  validate_address (str "0x" ++ bin2hex (zero :: body ++ sum)) = Ok true.
Proof.
  intros Hb Hs. pose proof (checksum_length _ _ Hs) as Hl. unfold validate_address.
  rewrite zlen_app, zlen_bin2hex, zlen_cons, zlen_app. unfold zlen at 2 3. rewrite Hb, Hl.
  rewrite bin2hex_cons. cbn [Z.eqb andb].
  replace (sub_eqb _ 0 2 _) with true by (symmetry; by apply bool_decide_eq_true).
  replace (sub_eqb _ 2 2 _) with true by (symmetry; by apply bool_decide_eq_true).
  rewrite <- bin2hex_cons. cbn [andb]. change (_ =? _) with true. cbn [andb].
  destruct (check_address_decoded (str "0x" ++ bin2hex (zero :: body ++ sum)) (zero :: body) sum)
    as (b & -> & Hb'); [|done|].
  - by apply hex2bin_0x_bin2hex.
  - by rewrite (proj2 Hb' Hs).
Qed.

(** The dumps of a key of a wallet. *)
Lemma dumped (keys : KeyLaws L) k bpub bprv :
  key_pair k -> crypto_dump_public_key k = Ok bpub -> crypto_dump_private_key k = Ok bprv ->
  65 <= zlen bpub /\ i2d_PUBKEY_bio k = Some bpub /\
  (exists p, d2i_PUBKEY_bio bpub = Some p /\ i2d_PUBKEY_bio p = Some bpub) /\
  exists k', d2i_PrivateKey_bio bprv = Some k' /\ key_pair k' /\ i2d_PUBKEY_bio k' = Some bpub.
Proof.
  intros Hk Hpub Hprv.
  destruct (public_text k Hk) as (b & p & Hb & Hl & Hd & Hp). destruct (private_text k Hk) as (pb & k' & Hpb & Hpl & Hdp & Hk' & Hsame).
  unfold crypto_dump_public_key, crypto_dump_private_key, crypto_dump_key in Hpub, Hprv.
  rewrite bio_new, Hb in Hpub. rewrite bio_new, Hpb in Hprv.
  cbn [mbind res_bind throw_unless or_throw] in Hpub, Hprv.
  rewrite (proj2 (Z.ltb_lt 0 _)) in Hpub by lia. rewrite (proj2 (Z.ltb_lt 0 _)) in Hprv by lia.
  cbn in Hpub, Hprv. injection Hpub as <-. injection Hprv as <-. split_and!; [done|done|by exists p|]. exists k'. by rewrite Hsame.
Qed.

Context {keys : KeyLaws L}.

Lemma keypair_pair run k : crypto_generate_keypair run = Ok k -> key_pair k.
Proof.
  unfold crypto_generate_keypair. intros (_ & _ & Hk)%bind_Ok. apply bind_Ok in Hk as (_ & _ & Hk).
  apply bind_Ok in Hk as (_ & _ & Hk). apply bind_Ok in Hk as (_ & _ & Hk).
  destruct (EVP_PKEY_keygen (random run)) as [k'|] eqn:E; [|done]. injection Hk as <-. by eapply keygen_pair.
Qed.

Lemma wallet_address_valid run w :
  CRYPTO_generate_wallet run = Ok w -> validate_address (str "0x" ++ bin2hex (mh_address_buf w)) = Ok true.
Proof.
  unfold CRYPTO_generate_wallet. intros (k & Hk & Hg)%bind_Ok. apply bind_Ok in Hg as (bpub & Hpub & Hg).
  apply bind_Ok in Hg as (bprv & Hprv & Hg). apply bind_Ok in Hg as (a & Ha & [= <-]). cbn [mh_address_buf].
  destruct (dumped keys k bpub bprv (keypair_pair run k Hk) Hpub Hprv) as (Hl & _).
  destruct (crypto_generate_address_spec bpub) as (body & sum & E & Hbody & Hsum);
    [unfold zlen in Hl; lia|].
  rewrite E in Ha. injection Ha as <-. by apply address_accepted.
Qed.

(** A wallet [CRYPTO_generate_wallet] returns has an address that, printed
    the way the handlers print it, [validate_address] accepts; and generation
    does return a wallet whenever every key generation step succeeds. *)
Theorem generated_address_valid run k :
  ctx_new_id run = true -> paramgen_init run = true -> set_curve_nid run = true ->
  keygen_init run = true -> EVP_PKEY_keygen (random run) = Some k ->
  exists w, CRYPTO_generate_wallet run = Ok w /\
    validate_address (str "0x" ++ bin2hex (mh_address_buf w)) = Ok true.
Proof.
  intros H1 H2 H3 H4 H5.
  assert (exists w, CRYPTO_generate_wallet run = Ok w) as [w Hw];
    [|exists w; split; [done|by eapply wallet_address_valid]].
  unfold CRYPTO_generate_wallet, crypto_generate_keypair.
  rewrite H1, H2, H3, H4, H5. cbn [mbind res_bind throw_unless or_throw]. pose proof (keygen_pair _ _ H5) as Hk.
  destruct (public_text k Hk) as (b & p & Hb & Hl & _). destruct (private_text k Hk) as (pb & k' & Hp & Hpl & _).
  unfold crypto_dump_public_key, crypto_dump_private_key, crypto_dump_key.
  rewrite bio_new, Hb, Hp. cbn [mbind res_bind throw_unless or_throw]. ztest.
  cbn [mbind res_bind throw_unless].
  destruct (crypto_generate_address_spec b) as (body & sum & -> & _); [unfold zlen in Hl; lia|]. by eexists.
Qed.

(** The addresses [validate_address] accepts: 52 characters beginning with
    [0x00] whose decoding is 21 bytes followed by the first four bytes of their
    double SHA-256; every other text is rejected without an exception. *)
Theorem validate_address_spec v :
  exists b, validate_address v = Ok b /\
  (b = true <->
   zlen v = 52 /\ sub_eqb v 0 4 (str "0x00") = true /\
   exists body sum, hex2bin v = zero :: body ++ sum /\ length body = 20%nat /\
     checksum (zero :: body) sum).
Proof.
  unfold validate_address. change (26 * 2) with 52.
  destruct (zlen v =? 52) eqn:Hz; zbool; cbn [andb];
    [|eexists; split; [done|]; split; [done | by intros [? _]]].
  assert (sub_eqb v 0 2 (str "0x") && sub_eqb v 2 2 (str "00") = sub_eqb v 0 4 (str "0x00")) as ->.
  { destruct v as [|a [|b [|c [|d v]]]]; try done. unfold sub_eqb. cbn [take drop].
    rewrite <- bool_decide_and. apply bool_decide_ext. split.
    - by intros [[= -> ->] [= -> ->]].
    - by intros [= -> -> -> ->]. }
  destruct (sub_eqb v 0 4 (str "0x00")) eqn:Hp;
    [|eexists; split; [done|]; split; [done | by intros (_ & ? & _)]].
  pose proof (sub_eqb_prefix v (str "0x00") Hp) as [r ->].
  assert (length r = 48%nat) as Hr by (rewrite zlen_app in Hz; unfold zlen in Hz; cbn in Hz; lia).
  change (str "0x00" ++ r) with (str "0x" ++ "0"%char :: "0"%char :: r) in *.
  assert (hex2bin (str "0x" ++ "0"%char :: "0"%char :: r) = zero :: hex2bin_loop r) as E
    by by rewrite hex2bin_0x.
  pose proof (hex2bin_loop_length r) as Hl. rewrite Hr in Hl. change ((48 + 1) / 2)%nat with 24%nat in Hl.
  destruct (check_address_decoded (str "0x" ++ "0"%char :: "0"%char :: r)
              (zero :: take 20 (hex2bin_loop r)) (drop 20 (hex2bin_loop r))) as (b & -> & Hb).
  { by rewrite E, <- app_comm_cons, take_drop. }
  { rewrite length_drop. lia. }
  exists b. split; [done|]. rewrite Hb. rewrite E. split.
  - intros Hc. repeat split; [done..|]. eexists _, _.
    split; [by rewrite <- (take_drop 20 (hex2bin_loop r)) at 1|]. split; [|done].
    rewrite length_take. lia.
  - intros (_ & _ & body & sum & [= ->] & Hbl & Hc).
    by rewrite take_app_length', drop_app_length' by done.
Qed.

(** ** Signatures *)

(** C35: keys that went through their text form still work: for a generated
    wallet, the public key and the address are recovered from the private key,
    and what the private key signs the public key verifies, for texts shorter than
    2 GB.  Of OpenSSL it uses that allocations and digests succeed, that a generated key
    is a pair, that a pair can be written as text and read back with the same public
    part, and that a pair signs what its public part verifies. *)
Theorem sign_verify_text run prv pub addr text :
  CRYPTO_generate_wallet_text run = Ok (prv, pub, addr) -> zlen text <= INT_MAX ->
  CRYPTO_generate_public prv = Ok pub /\
  CRYPTO_generate_address pub = Ok addr /\
  exists s, CRYPTO_sign_text prv text = Ok s /\ CRYPTO_check_sign_text s pub text = Ok true.
Proof.
  unfold CRYPTO_generate_wallet_text, CRYPTO_generate_wallet. intros Hg Ht.
  apply bind_Ok in Hg as (w & Hg & [= <- <- <-]).
  apply bind_Ok in Hg as (k & Hk & Hg). apply bind_Ok in Hg as (bpub & Hpub & Hg).
  apply bind_Ok in Hg as (bprv & Hprv & Hg). apply bind_Ok in Hg as (a & Ha & [= <-]).
  cbn [private_key_buf public_key_buf mh_address_buf].
  destruct (dumped keys k bpub bprv (keypair_pair run k Hk) Hpub Hprv) as (Hl & _ & (p & Hd & Hp) & k' & Hdp & Hk' & Hb).
  unfold CRYPTO_generate_public, CRYPTO_generate_address, CRYPTO_sign_text, CRYPTO_check_sign_text,
    crypto_sign_data, crypto_check_sign_data, crypto_load_private_key, crypto_load_public_key,
    crypto_load_key, crypto_dump_public_key, crypto_dump_key.
  rewrite !hex2bin_bin2hex, bio_new, Hdp, Hd, Ha, md_ctx. cbn [mbind res_bind throw_unless or_throw].
  rewrite Hb. cbn [mbind res_bind throw_unless or_throw]. ztest. split_and!; [done..|].
  destruct (sign_ok k' text Hk') as (Hsi & Hsu & (n & Hn) & s & Hs).
  destruct (verify_sign k' p bpub text s) as (Hvi & Hvu & Hvf); [done..|].
  exists s. unfold fed. ztest. rewrite Hsi, Hvi. cbn [mbind res_bind throw_unless or_throw].
  rewrite Hsu, Hn, Hvu, Hvf. cbn [mbind res_bind throw_unless or_throw]. by rewrite Hs.
Qed.
End Laws.

(** ** Addresses that are not hexadecimal *)

Lemma hex2bin_loop_ext s t : Forall2 (fun a b => dec_of a = dec_of b) s t -> hex2bin_loop s = hex2bin_loop t.
Proof.
  revert t. induction s as [|a|a b s IH] using list_ind_pair; intros t Ht.
  - by inversion Ht.
  - inversion Ht as [|? ? ? ? E Hn]; subst. inversion Hn; subst. cbn. unfold dec_pair. by rewrite E.
  - inversion Ht as [|? ? ? ? E Hn]; subst. inversion Hn as [|? ? ? ? E2 Hn2]; subst.
    cbn. unfold dec_pair. rewrite E, E2. f_equal. by apply IH.
Qed.

(** [validate_address] does not look at which characters stand behind the
    prefix, only at what they decode to, and a character that is no hexadecimal
    digit decodes to 0: replacing digits [0] of an accepted address by any such
    character ('/' and '.' among them) gives another accepted address. *)
Theorem validate_address_alias `{OpenSSL} s t :
  Forall2 (fun a b => a = b \/ (a = "0"%char /\ is_hex b = false)) s t ->
  validate_address (str "0x00" ++ s) = validate_address (str "0x00" ++ t).
Proof.
  intros Hst. assert (Forall2 (fun a b => dec_of a = dec_of b) s t) as Hd.
  { eapply Forall2_impl; [exact Hst|]. intros a b [->|[-> Hb]]; [done|].
    revert Hb. by_all_chars b. }
  apply Forall2_length in Hst. unfold validate_address, CRYPTO_check_address.
  change (str "0x00" ++ s) with (str "0x" ++ "0"%char :: "0"%char :: s).
  change (str "0x00" ++ t) with (str "0x" ++ "0"%char :: "0"%char :: t).
  rewrite !hex2bin_0x by done. cbn [hex2bin_loop]. rewrite (hex2bin_loop_ext s t) by done.
  rewrite !zlen_app, !zlen_cons. unfold zlen at 2 4. by rewrite Hst.
Qed.

(** ** An instance of the library

    A stand-in with one-byte keys: digests repeat the sum of the bytes, a
    signature is the key followed by the sum of the data.  A key is a byte and
    whether it has its private part, without which it can neither be dumped as private
    nor sign.  It shows that the laws can hold, and evaluates. *)
Module Toy.
Definition sum (data : bytes) : ascii := chr (fold_right (fun c z => uc c + z) 0 data).

#[export] Instance toy : OpenSSL := {|
  EVP_PKEY := bool * ascii;
  EVP_MD := bool;
  EVP_sha256 := true;
  EVP_ripemd160 := false;
  EVP_MD_size t := if t then 32 else 20;
  EVP_MD_CTX_create := true;
  EVP_DigestInit_ex _ := true;
  EVP_DigestUpdate _ := true;
  EVP_DigestFinal_ex t data := Some (replicate (if t then 32 else 20) (sum data));
  BIO_new := true;
  EVP_PKEY_keygen r := pair true <$> head r;
  i2d_PUBKEY_bio k := Some (replicate 88 k.2);
  i2d_PrivateKey_bio k := if (k : bool * ascii).1 then Some [k.2] else None;
  d2i_PUBKEY_bio b := pair false <$> head b;
  d2i_PrivateKey_bio b := pair true <$> head b;
  EVP_DigestSignInit k := k.1;
  EVP_DigestSignUpdate _ := true;
  EVP_DigestSignSize k := if (k : bool * ascii).1 then Some 2 else None;
  EVP_DigestSignFinal k data := if (k : bool * ascii).1 then Some [k.2; sum data] else None;
  EVP_DigestVerifyInit _ := true;
  EVP_DigestVerifyUpdate _ := true;
  EVP_DigestVerifyFinal k data s := if bool_decide (s = [k.2; sum data]) then 1 else 0
|}.

#[export] Instance toy_digests : DigestLaws toy.
Proof. split; try done. intros [] data _; repeat split; by eexists. Qed.

#[export] Instance toy_keys : KeyLaws toy.
Proof.
  refine {| key_pair := fun k : @EVP_PKEY toy => k.1 = true |}.
  - done.
  - intros [|c r] k; [done|]. by intros [= <-].
  - intros [[] c]; [|done]. intros _. by exists [c], (true, c).
  - intros [[] c]; [|done]. intros _. by exists (replicate 88 c), (false, c).
  - intros [[] c] data; [|done]. intros _. repeat split; by eexists.
  - intros [[] c] [x d] b data s; [|done]. intros _ [= <-] [= ->] [= <-]. cbn. by rewrite bool_decide_eq_true_2.
Defined.

Definition run : keygen_run :=
  {| ctx_new_id := true; paramgen_init := true; set_curve_nid := true; keygen_init := true; random := ["k"%char] |}.

Lemma generated_address_valid_witness :
  exists w, CRYPTO_generate_wallet run = Ok w /\
    validate_address (str "0x" ++ bin2hex (mh_address_buf w)) = Ok true.
Proof. exact (generated_address_valid run (true, "k"%char) eq_refl eq_refl eq_refl eq_refl eq_refl). Defined.

Lemma validate_address_spec_witness :
  exists b, validate_address (str "0x00") = Ok b /\
  (b = true <->
   zlen (str "0x00") = 52 /\ sub_eqb (str "0x00") 0 4 (str "0x00") = true /\
   exists body sum, hex2bin (str "0x00") = zero :: body ++ sum /\ length body = 20%nat /\
     checksum (zero :: body) sum).
Proof. exact (validate_address_spec (digests := toy_digests) (str "0x00")). Defined.

Lemma sign_verify_text_witness :
  exists s, CRYPTO_sign_text (bin2hex ["k"%char]) (str "message") = Ok s /\
    CRYPTO_check_sign_text s (bin2hex (replicate 88 "k"%char)) (str "message") = Ok true.
Proof.
  eapply (sign_verify_text run); [|by vm_compute].
  vm_compute. reflexivity.
Defined.

Lemma validate_address_alias_witness :
  validate_address (str "0x00" ++ str "0a0b") = validate_address (str "0x00" ++ str "/a.b").
Proof.
  apply validate_address_alias.
  repeat (constructor; [solve [left; reflexivity | right; split; reflexivity]|]). constructor.
Defined.
End Toy.
