(* ===== verification/Transaction.v ===== *)
(** Transactions as the client builds, signs, hashes and parses them:
    [gen_sign], [make_tx] and [parse_tansaction] of src/task_handlers/utils.cpp.

    The variadic functions read their arguments by a format string; a
    [va_list] is a list of machine integers and C strings.  SHA-256 of
    <openssl/sha.h> and the signing entry points are library code. *)

From Stdlib Require Import String.
From S2P Require Import Prelude Text Hex Endian Compact Crypto.
Open Scope Z_scope.

(** ** Argument packing *)

Inductive va_arg := VaInt (z : Z) | VaStr (s : bytes).

(** The case ['x']: the prefix [0x] is dropped from a text longer than 2. *)
Definition pack_hex (param : bytes) : bytes :=
  let param :=
    if (2 <? zlen param) && bool_decide (param !! 0%nat = Some "0"%char)
       && bool_decide (param !! 1%nat = Some "x"%char)
    then drop 2 param else param in
  hex2bin param.

(** The loop over [fmt]; a missing argument, or one of another kind, is
    undefined for [va_arg]. *)
Fixpoint pack (fmt : bytes) (args : list va_arg) (data : bytes) : res bytes :=
  match fmt with
  | [] => Ok data
  | c :: fmt' =>
      if bool_decide (c = "d"%char) || bool_decide (c = "u"%char) then
        match args with
        | VaInt z :: args' => pack fmt' args' (write_compact_int (u32 z) data)
        | _ => Throw Undefined
        end
      else if bool_decide (c = "D"%char) || bool_decide (c = "U"%char) then
        match args with
        | VaInt z :: args' => pack fmt' args' (write_compact_int (u64 z) data)
        | _ => Throw Undefined
        end
      else if bool_decide (c = "x"%char) then
        match args with
        | VaStr s :: args' => pack fmt' args' (data ++ pack_hex (c_str s))
        | _ => Throw Undefined
        end
      else if bool_decide (c = "s"%char) then
        match args with
        | VaStr s :: args' => pack fmt' args' (data ++ c_str s)
        | _ => Throw Undefined
        end
      else pack fmt' args data
  end.

(** [e.what()] of a standard exception; the text of [std::out_of_range] and
    [std::bad_variant_access] is up to the library. *)
Definition what (e : exn) : bytes :=
  match e with
  | RuntimeError s | InvalidArgument s => s
  | _ => str "exception"
  end.

Section Sign.
Context `{OpenSSL}.
(** [SHA256_Init]; [SHA256_Update]; [SHA256_Final]. *)
Variable SHA256 : bytes -> bytes.

(** gen_sign: the result, then the outputs [transaction] and [result]. *)
Definition gen_sign (transaction result prv_key : bytes) (fmt : string) (args : list va_arg)
  : res (bool * bytes * bytes) :=
  try_std
    (data ← pack (str fmt) args [];
     if bool_decide (data = []) then Ok (false, transaction, result)
     else
       sign ← CRYPTO_sign_data prv_key data;
       Ok (true, bin2hex data, bin2hex sign))
    (fun e => (false, transaction, str "generate sign failed: " ++ what e)).

(** make_tx: the result and the output [result]. *)
Definition make_tx (result : bytes) (fmt : string) (args : list va_arg) : res (bool * bytes) :=
  try_any
    (data ← pack (str fmt) args [];
     if bool_decide (data = []) then Ok (false, result)
     else
       let hash := SHA256 data in
       let data := hash in
       let hash := SHA256 data in
       Ok (true, bin2hex hash))
    (fun _ => (false, result)).
End Sign.

(** ** Parsing *)

(** The output parameters of parse_tansaction. *)
Record parsed := {
  p_to : bytes;
  p_value : Z;
  p_fee : Z;
  p_nonce : Z;
  p_data_size : Z;
  p_data : bytes
}.

(** The four assignments [out = read_compact_int(transaction)], in order; an
    exception leaves the outputs assigned so far. *)
Fixpoint read_fields (set : list (Z -> parsed -> parsed)) (transaction : bytes) (out : parsed)
  : res (bool * parsed * bytes) :=
  match set with
  | [] => Ok (true, out, transaction)
  | f :: set' =>
      match read_compact_int transaction with
      | Ok (z, rest) => read_fields set' rest (f z out)
      | Throw e => if is_std_exception e then Ok (false, out, transaction) else Throw e
      end
  end.

Definition set_value z o := {| p_to := p_to o; p_value := z; p_fee := p_fee o; p_nonce := p_nonce o;
  p_data_size := p_data_size o; p_data := p_data o |}.
Definition set_fee z o := {| p_to := p_to o; p_value := p_value o; p_fee := z; p_nonce := p_nonce o;
  p_data_size := p_data_size o; p_data := p_data o |}.
Definition set_nonce z o := {| p_to := p_to o; p_value := p_value o; p_fee := p_fee o; p_nonce := z;
  p_data_size := p_data_size o; p_data := p_data o |}.
Definition set_data_size z o := {| p_to := p_to o; p_value := p_value o; p_fee := p_fee o;
  p_nonce := p_nonce o; p_data_size := z; p_data := p_data o |}.

(** parse_tansaction; fewer than 50 characters are read past their end. *)
Definition parse_tansaction (transaction : bytes) (out : parsed) : res (bool * parsed) :=
  if zlen transaction <? 50 then Throw Undefined
  else
    let out := {| p_to := p_to out ++ str "0x" ++ take 50 transaction; p_value := p_value out;
                  p_fee := p_fee out; p_nonce := p_nonce out; p_data_size := p_data_size out;
                  p_data := p_data out |} in
    r ← read_fields [set_value; set_fee; set_nonce; set_data_size] (drop 50 transaction) out;
    let '(ok, out, rest) := (r : bool * parsed * bytes) in
    if ok then
      Ok (true, {| p_to := p_to out; p_value := p_value out; p_fee := p_fee out;
                   p_nonce := p_nonce out; p_data_size := p_data_size out; p_data := rest |})
    else Ok (false, out).

(** ** The bytes that are signed *)

(** The fields of a transaction; [tx_to] is the 25 bytes of an address. *)
Record tx := {
  tx_to : bytes;
  tx_value : Z;
  tx_fee : Z;
  tx_nonce : Z;
  tx_data : bytes
}.

(** Fields of the widths the handlers declare. *)
Definition tx_wf (t : tx) : Prop :=
  length (tx_to t) = 25%nat /\ 0 <= tx_value t <= UINT64_MAX /\ 0 <= tx_fee t <= UINT64_MAX /\
  0 <= tx_nonce t <= UINT64_MAX /\ zlen (tx_data t) <= UINT32_MAX.

(** The arguments create_tx_base_handler::build_request passes to gen_sign. *)
Definition tx_args (t : tx) : list va_arg :=
  [VaStr (str "0x" ++ bin2hex (tx_to t)); VaInt (tx_value t); VaInt (tx_fee t); VaInt (tx_nonce t);
   VaInt (zlen (bin2hex (tx_data t)) / 2); VaStr (bin2hex (tx_data t))].

Definition tx_bytes (t : tx) : bytes :=
  tx_to t ++ compact (tx_value t) ++ compact (tx_fee t) ++ compact (tx_nonce t)
  ++ compact (zlen (tx_data t)) ++ tx_data t.

(** The outputs parse_tansaction should produce for [t]. *)
Definition tx_parsed (t : tx) : parsed :=
  {| p_to := str "0x" ++ bin2hex (tx_to t); p_value := tx_value t; p_fee := tx_fee t;
     p_nonce := tx_nonce t; p_data_size := zlen (tx_data t); p_data := bin2hex (tx_data t) |}.

Definition no_output : parsed :=
  {| p_to := []; p_value := 0; p_fee := 0; p_nonce := 0; p_data_size := 0; p_data := [] |}.

(** ** Lemmas *)

Lemma c_str_0x s : c_str (str "0x" ++ bin2hex s) = str "0x" ++ bin2hex s.
Proof. cbn [str list_ascii_of_string app c_str]. by rewrite c_str_bin2hex. Qed.

Lemma pack_hex_0x s : s <> [] -> pack_hex (str "0x" ++ bin2hex s) = s.
Proof.
  intros Hs. unfold pack_hex. rewrite zlen_app, zlen_bin2hex. change (zlen (str "0x")) with 2.
  destruct s as [|c s]; [done|]. rewrite zlen_cons. pose proof (zlen_nonneg s). ztest.
  cbn [andb str list_ascii_of_string app lookup list_lookup]. rewrite !bool_decide_eq_true_2 by done.
  cbn [andb drop]. apply hex2bin_bin2hex.
Qed.

Lemma pack_hex_bin2hex s : pack_hex (bin2hex s) = s.
Proof.
  unfold pack_hex. pose proof (Forall_is_hex_bin2hex s) as Hs.
  destruct (_ && _) eqn:E; [|apply hex2bin_bin2hex]. zbool. exfalso.
  rewrite Forall_lookup in Hs. by pose proof (Hs _ _ H0).
Qed.

Lemma half_hex s : zlen (bin2hex s) / 2 = zlen s.
Proof. rewrite zlen_bin2hex, Z.mul_comm. by apply Z.div_mul. Qed.

Lemma compact_nonempty v : 2 <= zlen (bin2hex (compact v)).
Proof.
  rewrite zlen_bin2hex. unfold compact.
  repeat case_match; rewrite zlen_cons; match goal with |- context [zlen ?l] => pose proof (zlen_nonneg l) end; lia.
Qed.

(** Compact integers are self-delimiting. *)
Lemma compact_app_inj v w r s :
  0 <= v <= UINT64_MAX -> 0 <= w <= UINT64_MAX ->
  compact v ++ r = compact w ++ s -> v = w /\ r = s.
Proof.
  intros Hv Hw E.
  assert (forall x q, 0 <= x <= UINT64_MAX ->
    read_compact_int (bin2hex (compact x ++ q ++ [zero])) = Ok (x, bin2hex (q ++ [zero]))) as R.
  { intros x q Hx. rewrite bin2hex_app. apply read_compact; [done|]. left.
    rewrite zlen_bin2hex, zlen_app. pose proof (zlen_nonneg q). change (zlen [zero]) with 1. lia. }
  pose proof (R v r Hv) as Rv. rewrite app_assoc, E, <- app_assoc, R in Rv by done.
  injection Rv as -> Hrs. split; [done|].
  apply (f_equal hex2bin) in Hrs. rewrite !hex2bin_bin2hex in Hrs. by apply app_inj_2 in Hrs as [-> _].
Qed.

(** Decide the comparisons of character literals in the goal. *)
Ltac decide_chars :=
  repeat match goal with
  | |- context [bool_decide (@eq ascii ?a ?b)] =>
      first [ rewrite (bool_decide_eq_true_2 (a = b)) by done
            | rewrite (bool_decide_eq_false_2 (a = b)) by done ]
  end.

(** The format of the signed data, "xUUUux". *)
Lemma pack_tx t : tx_wf t -> pack (str "xUUUux") (tx_args t) [] = Ok (tx_bytes t).
Proof.
  intros (Hto & Hv & Hf & Hn & Hd). unfold tx_args. cbn [pack str list_ascii_of_string].
  decide_chars. cbn [orb]. rewrite c_str_0x, pack_hex_0x, c_str_bin2hex, pack_hex_bin2hex, half_hex
    by (intros E; by rewrite E in Hto).
  pose proof (zlen_nonneg (tx_data t)). unfold UINT64_MAX, UINT32_MAX in *.
  rewrite !wrap_small by lia. rewrite !write_compact by (unfold UINT64_MAX; lia).
  unfold tx_bytes. by rewrite <- !app_assoc.
Qed.

(** The format of the hashed transaction, "xuxux". *)
Lemma pack_signed (data sign pub : bytes) :
  zlen sign <= UINT32_MAX -> zlen pub <= UINT32_MAX ->
  pack (str "xuxux") [VaStr (bin2hex data); VaInt (zlen (bin2hex sign) / 2); VaStr (bin2hex sign);
                      VaInt (zlen (bin2hex pub) / 2); VaStr (bin2hex pub)] []
  = Ok (data ++ compact (zlen sign) ++ sign ++ compact (zlen pub) ++ pub).
Proof.
  intros Hs Hp. cbn [pack str list_ascii_of_string].
  decide_chars. cbn [orb]. rewrite !c_str_bin2hex, !pack_hex_bin2hex, !half_hex.
  pose proof (zlen_nonneg sign). pose proof (zlen_nonneg pub). unfold UINT32_MAX in *.
  rewrite !wrap_small by lia. rewrite !write_compact by (unfold UINT64_MAX; lia).
  by rewrite <- !app_assoc.
Qed.

Lemma read_fields_cons f fs v rest out :
  0 <= v <= UINT64_MAX -> 2 <= zlen rest ->
  read_fields (f :: fs) (bin2hex (compact v) ++ rest) out = read_fields fs rest (f v out).
Proof. intros Hv Hr. cbn [read_fields]. by rewrite read_compact by tauto. Qed.

(** Parsing the text of a well-formed transaction. *)
Lemma parse_tx_bytes t :
  tx_wf t ->
  parse_tansaction (bin2hex (tx_bytes t)) no_output =
    if bool_decide (tx_data t = [])
    then Ok (false, {| p_to := p_to (tx_parsed t); p_value := tx_value t; p_fee := tx_fee t;
                       p_nonce := tx_nonce t; p_data_size := 0; p_data := [] |})
    else Ok (true, tx_parsed t).
Proof.
  intros (Hto & Hv & Hf & Hn & Hd). unfold parse_tansaction, tx_bytes.
  pose proof (zlen_nonneg (tx_data t)) as Hd0. unfold UINT32_MAX in Hd.
  assert (length (bin2hex (tx_to t)) = 50%nat) as Hl by (rewrite length_bin2hex; lia).
  rewrite bin2hex_app, zlen_app. unfold zlen at 1. rewrite Hl.
  rewrite (proj2 (Z.ltb_ge _ _)) by (pose proof (zlen_nonneg (bin2hex (compact (tx_value t) ++
    compact (tx_fee t) ++ compact (tx_nonce t) ++ compact (zlen (tx_data t)) ++ tx_data t))); lia).
  rewrite take_app_length', drop_app_length' by done. rewrite !bin2hex_app.
  assert (forall v s, 2 <= zlen (bin2hex (compact v) ++ s)) as Hc.
  { intros v s. rewrite zlen_app. pose proof (compact_nonempty v). pose proof (zlen_nonneg s). lia. }
  rewrite 3 read_fields_cons by (done || apply Hc).
  destruct (tx_data t) as [|c d] eqn:Ed.
  - rewrite bool_decide_eq_true_2 by done. by rewrite app_nil_r.
  - rewrite bool_decide_eq_false_2 by done. rewrite <- Ed in *.
    rewrite read_fields_cons; [done|unfold UINT64_MAX; lia|].
    rewrite zlen_bin2hex, Ed, zlen_cons. pose proof (zlen_nonneg d). lia.
Qed.

(** ** Theorems *)

Section Theorems.
Context `{OpenSSL}.
Variable SHA256 : bytes -> bytes.

(** C18: a transaction with data that build_request packs and signs is read back
    by [parse_tansaction] with every field as it was given. *)
Theorem transaction_roundtrip t prv sign tr re :
  tx_wf t -> tx_data t <> [] -> CRYPTO_sign_data prv (tx_bytes t) = Ok sign ->
  gen_sign tr re prv "xUUUux" (tx_args t) = Ok (true, bin2hex (tx_bytes t), bin2hex sign) /\
  parse_tansaction (bin2hex (tx_bytes t)) no_output = Ok (true, tx_parsed t).
Proof.
  intros Hwf Hd Hs. split.
  - unfold gen_sign. rewrite pack_tx by done. cbn [mbind res_bind].
    rewrite bool_decide_eq_false_2, Hs; [done|]. destruct Hwf as [Hto _]. unfold tx_bytes.
    by destruct (tx_to t).
  - rewrite parse_tx_bytes by done. by rewrite bool_decide_eq_false_2.
Qed.

(** The same transaction without data cannot be parsed: the one-byte length
    at its end is refused, although gen_sign produced it. *)
Theorem empty_data_not_parsed t :
  tx_wf t -> tx_data t = [] ->
  pack (str "xUUUux") (tx_args t) [] = Ok (tx_bytes t) /\
  exists out, parse_tansaction (bin2hex (tx_bytes t)) no_output = Ok (false, out).
Proof.
  intros Hwf Hd. split; [by apply pack_tx|]. rewrite parse_tx_bytes by done.
  rewrite bool_decide_eq_true_2 by done. by eexists.
Qed.

(** C17: the signed bytes determine the transaction: no two sets of fields share
    a signature's message. *)
Theorem signed_bytes_injective t u :
  tx_wf t -> tx_wf u ->
  pack (str "xUUUux") (tx_args t) [] = pack (str "xUUUux") (tx_args u) [] -> t = u.
Proof.
  intros Ht Hu. rewrite !pack_tx by done. intros [= E]. unfold tx_bytes in E.
  destruct Ht as (Ht & Hv & Hf & Hn & Hd), Hu as (Hu & Hv' & Hf' & Hn' & Hd').
  apply app_inj_1 in E as [E1 E]; [|lia].
  apply compact_app_inj in E as [E2 E]; [|done..].
  apply compact_app_inj in E as [E3 E]; [|done..].
  apply compact_app_inj in E as [E4 E]; [|done..].
  apply compact_app_inj in E as [_ E];
    [|pose proof (zlen_nonneg (tx_data t)); pose proof (zlen_nonneg (tx_data u));
      unfold UINT64_MAX, UINT32_MAX in *; lia..].
  destruct t, u; cbn in *; congruence.
Qed.

Lemma make_tx_signed data sign pub result :
  zlen sign <= UINT32_MAX -> zlen pub <= UINT32_MAX ->
  make_tx SHA256 result "xuxux"
    [VaStr (bin2hex data); VaInt (zlen (bin2hex sign) / 2); VaStr (bin2hex sign);
     VaInt (zlen (bin2hex pub) / 2); VaStr (bin2hex pub)]
  = Ok (true, bin2hex (SHA256 (SHA256
      (data ++ compact (zlen sign) ++ sign ++ compact (zlen pub) ++ pub)))).
Proof.
  intros Hs Hp. unfold make_tx. rewrite pack_signed by done. cbn [mbind res_bind].
  rewrite bool_decide_eq_false_2; [done|]. intros E%(f_equal zlen).
  rewrite !zlen_app, zlen_nil in E. pose proof (compact_nonempty (zlen sign)) as Hc.
  rewrite zlen_bin2hex in Hc. pose proof (zlen_nonneg data). pose proof (zlen_nonneg sign).
  pose proof (zlen_nonneg pub). pose proof (zlen_nonneg (compact (zlen pub))). lia.
Qed.

(** [make_tx] on the text of a transaction, its signature and its public key
    succeeds and prints the double SHA-256 of transaction, signature length,
    signature, key length and key. *)
Theorem make_tx_hash data sign pub result :
  zlen sign <= UINT32_MAX -> zlen pub <= UINT32_MAX ->
  make_tx SHA256 result "xuxux"
    [VaStr (bin2hex data); VaInt (zlen (bin2hex sign) / 2); VaStr (bin2hex sign);
     VaInt (zlen (bin2hex pub) / 2); VaStr (bin2hex pub)]
  = Ok (true, bin2hex (SHA256 (SHA256
      (data ++ compact (zlen sign) ++ sign ++ compact (zlen pub) ++ pub)))).
Proof. apply make_tx_signed. Qed.
End Theorems.

(** ** Witnesses *)

Module Sample.
Import Crypto.Toy.

Definition t1 : tx := {| tx_to := replicate 25 "a"%char; tx_value := 70000; tx_fee := 300;
  tx_nonce := 1; tx_data := str "hi" |}.
Definition t2 : tx := {| tx_to := replicate 25 "a"%char; tx_value := 70000; tx_fee := 300;
  tx_nonce := 1; tx_data := [] |}.

Lemma t1_wf : tx_wf t1. Proof. vm_compute. intuition discriminate. Defined.
Lemma t2_wf : tx_wf t2. Proof. vm_compute. intuition discriminate. Defined.

Lemma transaction_roundtrip_witness :
  gen_sign [] [] (bin2hex ["k"%char]) "xUUUux" (tx_args t1)
    = Ok (true, bin2hex (tx_bytes t1), bin2hex ["k"%char; sum (tx_bytes t1)]) /\
  parse_tansaction (bin2hex (tx_bytes t1)) no_output = Ok (true, tx_parsed t1).
Proof. apply transaction_roundtrip; [exact t1_wf | discriminate | vm_compute; reflexivity]. Defined.

Lemma empty_data_not_parsed_witness :
  pack (str "xUUUux") (tx_args t2) [] = Ok (tx_bytes t2) /\
  exists out, parse_tansaction (bin2hex (tx_bytes t2)) no_output = Ok (false, out).
Proof. apply empty_data_not_parsed; [exact t2_wf | reflexivity]. Defined.

(** The same transaction, its recipient and data read from hexadecimal text. *)
Definition t3 : tx := {| tx_to := hex2bin (concat (replicate 25 (str "61"))); tx_value := 70000;
  tx_fee := 300; tx_nonce := 1; tx_data := hex2bin (str "0x6869") |}.

Lemma signed_bytes_injective_witness : t1 = t3.
Proof.
  apply signed_bytes_injective; [exact t1_wf | vm_compute; intuition discriminate | by vm_compute].
Defined.

Lemma make_tx_hash_witness :
  make_tx (fun b => take 32 b) [] "xuxux"
    [VaStr (bin2hex (str "t")); VaInt (zlen (bin2hex (str "sg")) / 2); VaStr (bin2hex (str "sg"));
     VaInt (zlen (bin2hex (str "p")) / 2); VaStr (bin2hex (str "p"))]
  = Ok (true, bin2hex (take 32 (take 32
      (str "t" ++ compact (zlen (str "sg")) ++ str "sg" ++ compact (zlen (str "p")) ++ str "p")))).
Proof. apply (make_tx_hash (fun b => take 32 b)); vm_compute; discriminate. Defined.
End Sample.
