(* ===== verification/SecurityManager.v ===== *)
(** The login throttle of src/security_manager/security_manager.cpp.

    The table [m_info] is a finite map from addresses to the time and the number
    of failures; [std::time(nullptr)] is an argument of each operation that calls
    it, [-1] when the clock is not available.  Times are 64-bit signed, the
    failure counter is a 32-bit unsigned integer. *)

From S2P Require Import Prelude.
Open Scope Z_scope.

Record addr_info := { last : Z; attempt : Z }.

Definition max_attempts : Z := 4.

Section Manager.
(** [boost::asio::ip::address], of which only the ordering is used. *)
Context {address : Type} `{Countable address}.

Abbreviation table := (gmap address addr_info).

(** [time - info.last] is a [time_t]; the right-hand side is computed in
    [unsigned int] and then converted. *)
Definition expired (time : Z) (info : addr_info) : bool :=
  u32 (u32 (attempt info - max_attempts) * 300) <? i64 (time - last info).

Definition check (m_info : table) (addr : address) (cur_time : Z) : bool * table :=
  match m_info !! addr with
  | Some info =>
      if max_attempts <? attempt info then
        if cur_time =? -1 then (true, m_info)
        else if negb (expired cur_time info) then (false, m_info)
        else (true, <[addr := {| last := cur_time; attempt := attempt info |}]> m_info)
      else (true, m_info)
  | None => (true, m_info)
  end.

Definition mark_failed (m_info : table) (addr : address) (time : Z) : table :=
  match m_info !! addr with
  | Some info => <[addr := {| last := last info; attempt := u32 (attempt info + 1) |}]> m_info
  | None => <[addr := {| last := time; attempt := 1 |}]> m_info
  end.

Definition try_reset (m_info : table) (addr : address) : table :=
  match m_info !! addr with
  | Some _ => delete addr m_info
  | None => m_info
  end.

(** ** Histories *)

Inductive op :=
| Check (addr : address) (cur_time : Z)
| MarkFailed (addr : address) (time : Z)
| TryReset (addr : address).

Definition apply (m : table) (o : op) : table :=
  match o with
  | Check a t => (check m a t).2
  | MarkFailed a t => mark_failed m a t
  | TryReset a => try_reset m a
  end.

Definition apply_all (m : table) (ops : list op) : table := fold_left apply ops m.

(** The number of failures a history records for [a]. *)
Fixpoint failures (a : address) (ops : list op) : Z :=
  match ops with
  | [] => 0
  | MarkFailed b _ :: ops' => (if bool_decide (a = b) then 1 else 0) + failures a ops'
  | _ :: ops' => failures a ops'
  end.

Definition resets (a : address) (o : op) : bool :=
  match o with TryReset b => bool_decide (a = b) | _ => false end.

(** The largest counter for which the delay is not reduced modulo [2^32]. *)
Definition counter_bound : Z := 2 ^ 32 / 300.

(** The seconds an address with [n] failures is shut out. *)
Definition delay (n : Z) : Z := (n - max_attempts) * 300.

(** ** Lemmas *)

Lemma expired_spec time info :
  max_attempts < attempt info <= counter_bound ->
  0 <= time < 2 ^ 62 -> 0 <= last info < 2 ^ 62 ->
  expired time info = (delay (attempt info) <? time - last info).
Proof.
  unfold expired, counter_bound, max_attempts, delay. intros Ha Ht Hl.
  change (2 ^ 32 / 300) with 14316557 in Ha.
  rewrite (wrap_small 32 (attempt info - 4)) by lia. rewrite (wrap_small 32) by (unfold max_attempts; lia).
  by rewrite swrap_small by lia.
Qed.

Lemma failures_nonneg a ops : 0 <= failures a ops.
Proof.
  induction ops as [|o ops IH]; [done|]. destruct o; cbn; [done| |done].
  destruct (bool_decide _); lia.
Qed.

(** What the other operations leave of an entry. *)
Lemma apply_entry m o a info :
  m !! a = Some info -> resets a o = false -> attempt info + failures a [o] <= counter_bound ->
  0 <= attempt info ->
  exists info', apply m o !! a = Some info' /\
    attempt info' = attempt info + failures a [o] /\
    (last info' = last info \/ exists t, o = Check a t /\ max_attempts < attempt info /\
       expired t info = true /\ t <> -1 /\ last info' = t).
Proof.
  intros Hm Hr Hb Ha. destruct o as [b t|b t|b]; cbn in *.
  - rewrite Z.add_0_r. unfold check. destruct (decide (a = b)) as [<-|Hab].
    + rewrite Hm. destruct (max_attempts <? attempt info) eqn:E1; zbool; [|eauto].
      destruct (t =? -1) eqn:E2; zbool; [eauto|].
      destruct (expired t info) eqn:E3; cbn; [|eauto].
      rewrite lookup_insert_eq. eexists. split; [done|]. split; [done|]. right. by exists t.
    + destruct (m !! b) as [ib|]; [|eauto]. destruct (_ <? _); [|eauto].
      destruct (_ =? _); [eauto|]. destruct (negb _); [eauto|]. cbn.
      rewrite lookup_insert_ne by done. eauto.
  - unfold mark_failed. destruct (decide (a = b)) as [<-|Hab].
    + rewrite bool_decide_eq_true_2 in Hb |- * by done. rewrite Hm, lookup_insert_eq. eexists. split; [done|].
      split; [|by left]. cbn. unfold counter_bound in Hb. change (2 ^ 32 / 300) with 14316557 in Hb.
      rewrite wrap_small; lia.
    + rewrite bool_decide_eq_false_2, !Z.add_0_r by done.
      destruct (m !! b); rewrite lookup_insert_ne by done; eauto.
  - apply bool_decide_eq_false_1 in Hr. rewrite Z.add_0_r. unfold try_reset.
    destruct (m !! b); [rewrite lookup_delete_ne by done|]; eauto.
Qed.

(** The times of a history are those of a working clock that starts at [t0] and
    does not go back. *)
Fixpoint ordered (t0 : Z) (ops : list op) : Prop :=
  match ops with
  | [] => True
  | Check _ t :: ops' | MarkFailed _ t :: ops' => t0 <= t < 2 ^ 62 /\ ordered t ops'
  | TryReset _ :: ops' => ordered t0 ops'
  end.

Lemma ordered_le t0 t1 ops : t0 <= t1 -> ordered t1 ops -> ordered t0 ops.
Proof.
  induction ops as [|o ops IH]; [done|]. destruct o; cbn; intros Hle Ho; [split; [lia|apply Ho]..|auto].
Qed.

Lemma failures_cons a o ops : failures a (o :: ops) = failures a [o] + failures a ops.
Proof. destruct o; cbn; lia. Qed.

(** The entry never forgets: its counter adds up and its time does not go back. *)
Lemma apply_all_entry ops m a info :
  m !! a = Some info -> 0 <= attempt info -> 0 <= last info < 2 ^ 62 ->
  attempt info + failures a ops <= counter_bound ->
  Forall (fun o => resets a o = false) ops -> ordered (last info) ops ->
  exists info', apply_all m ops !! a = Some info' /\
    attempt info' = attempt info + failures a ops /\ last info <= last info' < 2 ^ 62.
Proof.
  intros Hm Ha Hl Hb Hr. revert m info Hm Ha Hl Hb.
  induction Hr as [|o ops Ho Hr IH]; intros m info Hm Ha Hl Hb Hc.
  { exists info. cbn. split_and!; (done || lia). }
  rewrite failures_cons in Hb |- *.
  pose proof (failures_nonneg a ops). pose proof (failures_nonneg a [o]).
  destruct (apply_entry m o a info Hm Ho) as (i & Hi & Hai & Hli); [lia..|].
  assert (last info <= last i < 2 ^ 62 /\ ordered (last i) ops) as [Hmono Hord].
  { destruct Hli as [->|(t & -> & _ & _ & _ & ->)]; [|exact Hc]. split; [lia|].
    destruct o; cbn in Hc; [| |done]; (eapply ordered_le; [|apply Hc]); lia. }
  destruct (IH (apply m o) i Hi) as (i' & Hi' & Hai' & Hli'); [lia..|done|].
  exists i'. split; [done|]. split; lia.
Qed.

Lemma check_result m a t info :
  m !! a = Some info -> max_attempts < attempt info -> t <> -1 ->
  check m a t = if expired t info
                then (true, <[a := {| last := t; attempt := attempt info |}]> m)
                else (false, m).
Proof.
  intros Hm Ha Ht. unfold check. rewrite Hm. ztest. by destruct (expired t info).
Qed.

(** ** Theorems *)

(** An address is turned away exactly while it has more than four recorded
    failures and the delay of five minutes for each failure beyond the fourth
    has not passed since the recorded time; the table changes only when such an
    address is let through again, and then only in the recorded time. *)
Theorem check_spec m a t info :
  m !! a = Some info -> 0 <= attempt info <= counter_bound ->
  0 <= t < 2 ^ 62 -> 0 <= last info < 2 ^ 62 ->
  (check m a t).1 = negb ((max_attempts <? attempt info) && (t - last info <=? delay (attempt info))) /\
  (check m a t).2 =
    (if (max_attempts <? attempt info) && (delay (attempt info) <? t - last info)
     then <[a := {| last := t; attempt := attempt info |}]> m else m).
Proof.
  intros Hm Ha Ht Hl. destruct (max_attempts <? attempt info) eqn:E; zbool.
  - rewrite (check_result m a t info), expired_spec by (done || lia). cbn [andb].
    rewrite Z.leb_antisym. by destruct (_ <? _).
  - unfold check. rewrite Hm. by ztest.
Qed.

(** C25: back-off.  After a throttled address was let through at time [t1], no
    check lets it through again before the whole delay has passed, whatever
    checks, failures and resets of other addresses come between, for a clock that does
    not go back and failures that the counter can hold. *)
Theorem throttle_backoff m a t1 m1 ops t2 info :
  m !! a = Some info -> max_attempts < attempt info -> 0 <= t1 < 2 ^ 62 ->
  check m a t1 = (true, m1) ->
  attempt info + failures a ops <= counter_bound ->
  Forall (fun o => resets a o = false) ops -> ordered t1 (ops ++ [Check a t2]) ->
  (check (apply_all m1 ops) a t2).1 = true ->
  delay (attempt info) < t2 - t1.
Proof.
  intros Hm Ha Ht1 Hc Hb Hr Ho Hc2. rewrite (check_result m a t1 info) in Hc by (done || lia).
  destruct (expired t1 info); [|done]. injection Hc as <-.
  assert (ordered t1 ops /\ t1 <= t2 < 2 ^ 62) as [Ho1 Ht2].
  { clear -Ho Ht1. revert t1 Ht1 Ho. induction ops as [|o ops IH]; intros t1 Ht1 Ho; [by split; [|apply Ho]|].
    destruct o; cbn in *; [destruct Ho as [Hle Ho]; apply IH in Ho as [??]; [split; [done|lia]|lia]..|].
    by apply IH. }
  pose proof (failures_nonneg a ops). unfold max_attempts in Ha.
  destruct (apply_all_entry ops (<[a := {| last := t1; attempt := attempt info |}]> m) a
              {| last := t1; attempt := attempt info |}) as (i & Hi & Hai & Hli);
    [by rewrite lookup_insert_eq|cbn; lia..|done|done|]. cbn in Hai, Hli.
  rewrite (check_result _ a t2 i), expired_spec in Hc2 by (done || unfold max_attempts; lia).
  destruct (_ <? _) eqn:E; [|done]. zbool. unfold delay, max_attempts in *. lia.
Qed.

(** From an address that has no record, [n + 1] failures without a success
    shut it out for [(n - 3) * 300] seconds after the first of them, for every
    [n >= 4]; a reset lets it through at once. *)
Theorem repeated_failures_block m a t0 n t :
  m !! a = None -> 4 <= Z.of_nat n < counter_bound -> 0 <= t0 < 2 ^ 62 -> 0 <= t < 2 ^ 62 ->
  (check (apply_all m (repeat (MarkFailed a t0) (S n))) a t).1 = (delay (Z.of_nat n + 1) <? t - t0) /\
  (check (try_reset (apply_all m (repeat (MarkFailed a t0) (S n))) a) a t).1 = true.
Proof.
  intros Hm Hn Ht0 Ht. cbn [repeat]. unfold apply_all. cbn [fold_left apply].
  assert (mark_failed m a t0 = <[a := {| last := t0; attempt := 1 |}]> m) as ->
    by (unfold mark_failed; by rewrite Hm).
  assert (forall k, (k <= n)%nat -> apply_all (<[a := {| last := t0; attempt := 1 |}]> m)
            (repeat (MarkFailed a t0) k) !! a = Some {| last := t0; attempt := Z.of_nat k + 1 |}) as Hk.
  { intros k Hk. induction k as [|k IH]; [by apply lookup_insert_eq|].
    cbn [repeat]. rewrite repeat_cons. unfold apply_all in *.
    rewrite fold_left_app. cbn [fold_left apply]. unfold mark_failed at 1.
    rewrite IH by lia. rewrite lookup_insert_eq. do 2 f_equal. cbn.
    unfold counter_bound in Hn. change (2 ^ 32 / 300) with 14316557 in Hn.
    rewrite wrap_small; lia. }
  specialize (Hk n ltac:(lia)). unfold apply_all in Hk. split.
  - rewrite (check_result _ a t _ Hk), expired_spec by (cbn; unfold max_attempts; lia).
    cbn. by destruct (_ <? _).
  - unfold try_reset. rewrite Hk. unfold check. by rewrite lookup_delete_eq.
Qed.
End Manager.

(** ** Witnesses *)

Module Sample.
Definition m0 : gmap Z addr_info := {[ 7 := {| last := 1000; attempt := 5 |} ]}.

Lemma check_spec_witness :
  (check m0 7 1100).1 = negb ((max_attempts <? 5) && (1100 - 1000 <=? delay 5)) /\
  (check m0 7 1100).2 = (if (max_attempts <? 5) && (delay 5 <? 1100 - 1000)
     then <[7 := {| last := 1100; attempt := 5 |}]> m0 else m0).
Proof.
  apply (check_spec m0 7 1100 {| last := 1000; attempt := 5 |});
    [reflexivity | vm_compute; split; discriminate | lia | cbn; lia].
Defined.

Lemma throttle_backoff_witness : delay 5 < 3000 - 1500.
Proof.
  apply (throttle_backoff m0 7 1500 (check m0 7 1500).2 [MarkFailed 7 1600; TryReset 8] 3000
    {| last := 1000; attempt := 5 |}).
  - reflexivity.
  - reflexivity.
  - lia.
  - reflexivity.
  - vm_compute. discriminate.
  - repeat constructor.
  - cbn. lia.
  - reflexivity.
Defined.

Lemma repeated_failures_block_witness :
  (check (apply_all (∅ : gmap Z addr_info) (repeat (MarkFailed 7 1000) 5)) 7 1100).1
    = (delay (Z.of_nat 4 + 1) <? 1100 - 1000) /\
  (check (try_reset (apply_all (∅ : gmap Z addr_info) (repeat (MarkFailed 7 1000) 5)) 7) 7 1100).1 = true.
Proof.
  apply repeated_failures_block; [reflexivity | vm_compute; split; [discriminate | reflexivity] | lia | lia].
Defined.
End Sample.
