(* ===== verification/ConnectionPool.v ===== *)
(** The pool of connections to the proxy and tor nodes: class [socket_pool] of
    src/connection_pool.cpp and src/connection_pool.h.

    The source hands out iterators into [std::list]s, and an iterator keeps
    denoting its node when [splice] moves the node to another list.  A node has an
    identity here ([node]), fresh for each insertion, and a [pool_object] is the
    identity it denotes, [None] for [m_busy.end()].  The mutex makes every
    operation atomic; clock readings are arguments, in nanoseconds. *)

From Stdlib Require Import String.
From S2P Require Import Prelude.
Open Scope Z_scope.

Record ep_descr := {
  node : nat;
  ep : bytes;
  socket : Z;
  ttl : Z
}.

Record pool := {
  m_ready : list ep_descr;
  m_busy : list ep_descr;
  m_capacity : Z;
  m_enable : bool;
  (** The next unused identity. *)
  next_node : nat;
  (** The descriptors the pool itself has shut down and closed. *)
  closed : list Z
}.

Definition pool_object : Type := option nat.

Definition second : Z := 10 ^ 9.

Definition with_lists (p : pool) (ready busy : list ep_descr) : pool :=
  {| m_ready := ready; m_busy := busy; m_capacity := m_capacity p; m_enable := m_enable p;
     next_node := next_node p; closed := closed p |}.

(** The node a predicate finds first, and the list without it: [splice] and
    [erase] of the iterator the search loop stopped at. *)
Fixpoint extract (f : ep_descr -> bool) (l : list ep_descr) : option (ep_descr * list ep_descr) :=
  match l with
  | [] => None
  | d :: l' =>
      if f d then Some (d, l')
      else match extract f l' with
           | Some (x, r) => Some (x, d :: r)
           | None => None
           end
  end.

Definition enable (p : pool) : bool := m_enable p.
Definition set_enable (p : pool) (value : bool) : pool :=
  {| m_ready := m_ready p; m_busy := m_busy p; m_capacity := m_capacity p; m_enable := value;
     next_node := next_node p; closed := closed p |}.
Definition capacity (p : pool) (value : Z) : pool :=
  {| m_ready := m_ready p; m_busy := m_busy p; m_capacity := value; m_enable := m_enable p;
     next_node := next_node p; closed := closed p |}.

(** checkout: an idle connection to [host], or a new node while there is room.
    The exception thrown when the pool is disabled is caught by the function
    itself, which then returns the end iterator. *)
Definition checkout (p : pool) (host : bytes) : pool_object * pool :=
  if negb (m_enable p) then (None, p)
  else
    match extract (fun d => bool_decide (ep d = host)) (m_ready p) with
    | Some (d, ready) => (Some (node d), with_lists p ready (d :: m_busy p))
    | None =>
        if zlen (m_busy p) + zlen (m_ready p) <? m_capacity p then
          let d := {| node := next_node p; ep := c_str host; socket := -1; ttl := 0 |} in
          (Some (next_node p),
           {| m_ready := m_ready p; m_busy := d :: m_busy p; m_capacity := m_capacity p;
              m_enable := m_enable p; next_node := S (next_node p); closed := closed p |})
        else (None, p)
    end.

(** checkin, with [conn_pool_ttl] in seconds; [value] becomes the end iterator. *)
Definition checkin (p : pool) (value : pool_object) (now conn_pool_ttl : Z) : pool_object * pool :=
  (None,
   match extract (fun d => bool_decide (Some (node d) = value)) (m_busy p) with
   | Some (d, busy) =>
       if socket d =? -1 then with_lists p (m_ready p) busy
       else with_lists p ({| node := node d; ep := ep d; socket := socket d;
                             ttl := now + conn_pool_ttl * second |} :: m_ready p) busy
   | None => p
   end).

Definition valid (value : pool_object) : bool := bool_decide (value <> None).

Definition get_ready_size (p : pool) : Z := zlen (m_ready p).
Definition get_busy_size (p : pool) : Z := zlen (m_busy p).

(** The assignment [m_pool_obj->socket = s] of a holder of the object. *)
Definition set_socket (p : pool) (id : nat) (s : Z) : pool :=
  let upd := map (fun d => if bool_decide (node d = id)
                           then {| node := node d; ep := ep d; socket := s; ttl := ttl d |} else d) in
  with_lists p (upd (m_ready p)) (upd (m_busy p)).

(** Descriptors closed by a pass over [l]: [assigned s] tells whether
    [sock.assign] accepts the descriptor. *)
Definition closes (assigned : Z -> bool) (l : list ep_descr) : list Z :=
  filter (fun s => negb (s =? -1) && assigned s) (map socket l).

(** The locked block of routine: connections whose time is over are shut down
    and dropped. *)
Definition monitor (p : pool) (now : Z) (assigned : Z -> bool) : pool :=
  {| m_ready := filter (fun d => now < ttl d) (m_ready p);
     m_busy := m_busy p; m_capacity := m_capacity p; m_enable := m_enable p;
     next_node := next_node p;
     closed := closed p ++ closes assigned (filter (fun d => ~ now < ttl d) (m_ready p)) |}.

Definition cleanup (p : pool) (assigned : Z -> bool) : pool :=
  {| m_ready := []; m_busy := []; m_capacity := m_capacity p; m_enable := m_enable p;
     next_node := next_node p;
     closed := closed p ++ closes assigned (m_busy p) ++ closes assigned (m_ready p) |}.

(** One iteration of the loop of routine at clock reading [now]: the next time
    for a pass, and the pool. *)
Definition routine_step (tp : Z) (p : pool) (now : Z) (assigned : Z -> bool) : Z * pool :=
  if now <? tp then (tp, p) else (now + 30 * second, monitor p now assigned).

(** ** Operations as steps *)

Inductive op :=
| Checkout (host : bytes)
| Checkin (value : pool_object) (now conn_pool_ttl : Z)
| SetSocket (id : nat) (s : Z)
| Monitor (now : Z) (assigned : Z -> bool)
| Cleanup (assigned : Z -> bool)
| Enable (value : bool).

Definition apply (p : pool) (o : op) : pool :=
  match o with
  | Checkout host => (checkout p host).2
  | Checkin value now t => (checkin p value now t).2
  | SetSocket id s => set_socket p id s
  | Monitor now a => monitor p now a
  | Cleanup a => cleanup p a
  | Enable v => set_enable p v
  end.

Definition apply_all (p : pool) (ops : list op) : pool := fold_left apply ops p.

(** ** The invariant *)

Definition nodes (l : list ep_descr) : list nat := map node l.

Record wf (p : pool) : Prop := {
  wf_nodup : NoDup (nodes (m_busy p) ++ nodes (m_ready p));
  wf_fresh : Forall (fun i => (i < next_node p)%nat) (nodes (m_busy p) ++ nodes (m_ready p));
  wf_room : get_busy_size p + get_ready_size p <= m_capacity p;
  wf_live : Forall (fun d => socket d <> -1) (m_ready p)
}.

(** What the code asks of a holder: it assigns only to the object it holds. *)
Definition allowed (p : pool) (o : op) : Prop :=
  match o with SetSocket id _ => id ∈ nodes (m_busy p) | _ => True end.

Inductive allowed_all : pool -> list op -> Prop :=
| allowed_nil p : allowed_all p []
| allowed_cons p o ops : allowed p o -> allowed_all (apply p o) ops -> allowed_all p (o :: ops).

(** ** Lemmas *)

Lemma extract_Some f l x r :
  extract f l = Some (x, r) -> f x = true /\ l ≡ₚ x :: r.
Proof.
  revert r. induction l as [|d l IH]; intros r; cbn; [done|]. destruct (f d) eqn:E.
  - by intros [= -> ->].
  - destruct (extract f l) as [[y q]|]; [|done]. intros [= -> <-].
    destruct (IH q eq_refl) as [Hf Hp]. split; [done|]. rewrite Hp. apply Permutation_swap.
Qed.

Lemma extract_None f l : extract f l = None -> Forall (fun d => f d = false) l.
Proof.
  induction l as [|d l IH]; cbn; [done|]. destruct (f d) eqn:E; [done|].
  destruct (extract f l) as [[y q]|]; [done|]. auto.
Qed.

Lemma extract_is_Some f l : Exists (fun d => f d = true) l -> is_Some (extract f l).
Proof.
  induction 1 as [d l Hd|d l _ [[y q] Hy]]; cbn; [by rewrite Hd|].
  destruct (f d); [done|]. by rewrite Hy.
Qed.

(** The lists may only be rearranged, or lose nodes, for the invariant to survive. *)
Lemma wf_sublist p q :
  wf p -> nodes (m_busy q) ++ nodes (m_ready q) ⊆+ nodes (m_busy p) ++ nodes (m_ready p) ->
  next_node q = next_node p -> m_capacity q = m_capacity p ->
  Forall (fun d => socket d <> -1) (m_ready q) -> wf q.
Proof.
  intros [Hn Hf Hr Hl] Hs Hq Hc Hlq. split; [| | |done].
  - apply submseteq_Permutation in Hs as [k Hk]. rewrite Hk in Hn. by apply NoDup_app in Hn as [? _].
  - apply submseteq_Permutation in Hs as [k Hk]. rewrite Hq. rewrite Hk in Hf.
    by apply Forall_app in Hf as [? _].
  - apply submseteq_length in Hs. unfold nodes in Hs. rewrite !length_app, !length_map in Hs.
    unfold get_busy_size, get_ready_size, zlen in *. lia.
Qed.

Lemma nodes_perm l k : l ≡ₚ k -> nodes l ≡ₚ nodes k.
Proof. apply Permutation_map. Qed.

Lemma checkout_wf p host : wf p -> wf (checkout p host).2.
Proof.
  intros Hwf. unfold checkout. destruct (negb _); [done|].
  destruct (extract _ (m_ready p)) as [[d ready]|] eqn:E.
  - apply extract_Some in E as [_ Hp]. apply (wf_sublist p); [done| |done..|].
    + cbn. rewrite (nodes_perm _ _ Hp). cbn. by rewrite Permutation_middle.
    + cbn. pose proof (wf_live p Hwf) as Hl. rewrite Hp in Hl. by inversion Hl.
  - destruct (_ <? _) eqn:Hc; [|done]. zbool. destruct Hwf as [Hn Hf Hr Hl]. split; cbn.
    + apply NoDup_cons. split; [|done]. intros Hin. rewrite Forall_forall in Hf.
      apply Hf in Hin. lia.
    + constructor; [lia|]. eapply Forall_impl; [exact Hf|]. cbn. lia.
    + unfold get_busy_size, get_ready_size in *. cbn. rewrite zlen_cons. lia.
    + done.
Qed.

Lemma checkin_wf p v now t : wf p -> wf (checkin p v now t).2.
Proof.
  intros Hwf. unfold checkin. cbn [snd].
  destruct (extract _ (m_busy p)) as [[d busy]|] eqn:E; [|done].
  apply extract_Some in E as [_ Hp]. destruct (socket d =? -1) eqn:Hs; zbool.
  - apply (wf_sublist p); [done| |done..|apply Hwf]. cbn. rewrite (nodes_perm _ _ Hp). cbn.
    by apply submseteq_cons.
  - apply (wf_sublist p); [done| |done..|].
    + cbn. rewrite (nodes_perm _ _ Hp). cbn. by rewrite Permutation_middle.
    + cbn. constructor; [done|apply Hwf].
Qed.

Lemma nodes_set_socket id s l :
  nodes (map (fun d => if bool_decide (node d = id)
               then {| node := node d; ep := ep d; socket := s; ttl := ttl d |} else d) l) = nodes l.
Proof. unfold nodes. rewrite map_map. apply map_ext. intros d. by case_bool_decide. Qed.

Lemma set_socket_wf p id s : id ∈ nodes (m_busy p) -> wf p -> wf (set_socket p id s).
Proof.
  intros Hid Hwf. apply (wf_sublist p); [done| |done..|]; cbn; rewrite ?nodes_set_socket; [done|].
  destruct Hwf as [Hn _ _ Hl]. apply NoDup_app in Hn as (_ & Hd & _). apply Hd in Hid. clear -Hid Hl.
  induction (m_ready p) as [|d l IH]; [done|]. cbn in *. inversion Hl; subst.
  rewrite not_elem_of_cons in Hid. destruct Hid as [Hne Hid].
  rewrite bool_decide_eq_false_2 by done. auto.
Qed.

Lemma nodes_filter (P : ep_descr -> Prop) `{!forall d, Decision (P d)} l :
  nodes (filter P l) ⊆+ nodes l.
Proof.
  induction l as [|d l IH]; [done|]. rewrite filter_cons. case_decide; cbn.
  - by apply submseteq_skip.
  - by apply submseteq_cons.
Qed.

Lemma monitor_wf p now a : wf p -> wf (monitor p now a).
Proof.
  intros Hwf. apply (wf_sublist p); [done| |done..|]; cbn.
  - by apply submseteq_app, nodes_filter.
  - apply Forall_forall. intros d [_ Hd]%list_elem_of_filter. revert d Hd.
    apply Forall_forall, Hwf.
Qed.

Lemma cleanup_wf p a : wf p -> wf (cleanup p a).
Proof. intros Hwf. apply (wf_sublist p); [done|apply submseteq_nil_l|done..]. Qed.

Lemma apply_wf p o : allowed p o -> wf p -> wf (apply p o).
Proof.
  destruct o; cbn; intros Ha Hwf;
    [by apply checkout_wf | by apply checkin_wf | by apply set_socket_wf | by apply monitor_wf
    | by apply cleanup_wf | by destruct Hwf].
Qed.

Lemma apply_all_wf p ops : wf p -> allowed_all p ops -> wf (apply_all p ops).
Proof.
  intros Hwf Ha. revert Hwf. induction Ha as [|p o ops Ho Ha IH]; [done|].
  intros Hwf. by apply IH, apply_wf.
Qed.

Lemma wf_init cap : 0 <= cap -> wf {| m_ready := []; m_busy := []; m_capacity := cap; m_enable := false;
  next_node := 0; closed := [] |}.
Proof. split; cbn; [constructor|done|done|done]. Qed.

(** A node leaves [m_busy] only when it is checked in, or at the end. *)
Definition releases (id : nat) (o : op) : bool :=
  match o with
  | Checkin v _ _ => bool_decide (v = Some id)
  | Cleanup _ => true
  | _ => false
  end.

Lemma busy_kept p o id :
  id ∈ nodes (m_busy p) -> releases id o = false -> id ∈ nodes (m_busy (apply p o)).
Proof.
  intros Hid Hr. destruct o as [host|v now t|i s|now a|a|b]; cbn in *; try done.
  - unfold checkout. destruct (negb _); [done|]. destruct (extract _ _) as [[d r]|]; cbn.
    + by apply list_elem_of_further.
    + destruct (_ <? _); [|done]. cbn. by apply list_elem_of_further.
  - apply bool_decide_eq_false_1 in Hr.
    destruct (extract _ (m_busy p)) as [[d busy]|] eqn:E; [|done].
    apply extract_Some in E as [Hf Hp]. apply bool_decide_eq_true_1 in Hf.
    rewrite (nodes_perm _ _ Hp) in Hid. cbn in Hid. apply elem_of_cons in Hid as [->|Hid].
    + by rewrite Hf in Hr.
    + by destruct (_ =? _).
  - by rewrite nodes_set_socket.
Qed.

Lemma busy_kept_all p ops id :
  id ∈ nodes (m_busy p) -> Forall (fun o => releases id o = false) ops ->
  id ∈ nodes (m_busy (apply_all p ops)).
Proof.
  intros Hid Hr. revert p Hid. induction Hr as [|o ops Ho _ IH]; intros p Hid; [done|].
  by apply IH, busy_kept.
Qed.

Lemma checkout_busy p host id p' : checkout p host = (Some id, p') -> id ∈ nodes (m_busy p').
Proof.
  unfold checkout. destruct (negb _); [done|]. destruct (extract _ _) as [[d r]|].
  - intros [= <- <-]. apply list_elem_of_here.
  - destruct (_ <? _); [|done]. intros [= <- <-]. apply list_elem_of_here.
Qed.

Lemma checkout_not_busy p host id p' :
  wf p -> checkout p host = (Some id, p') -> id ∉ nodes (m_busy p).
Proof.
  intros [Hn Hf _ _]. unfold checkout. destruct (negb _); [done|].
  destruct (extract _ _) as [[d r]|] eqn:E.
  - apply extract_Some in E as [_ Hp]. intros [= <- <-] Hin.
    apply NoDup_app in Hn as (_ & Hd & _). apply (Hd _ Hin). rewrite (nodes_perm _ _ Hp).
    apply list_elem_of_here.
  - destruct (_ <? _); [|done]. intros [= <- <-] Hin. rewrite Forall_forall in Hf.
    specialize (Hf (next_node p)). rewrite elem_of_app in Hf. specialize (Hf (or_introl Hin)). lia.
Qed.

(** ** Theorems *)

Definition start (cap : Z) : pool :=
  {| m_ready := []; m_busy := []; m_capacity := cap; m_enable := false; next_node := 0; closed := [] |}.

(** C24: from an empty pool, no sequence of operations makes the pool hold more
    connections than its capacity, hold one connection twice, or offer a
    connection without a socket for reuse. *)
Theorem pool_invariant cap ops :
  0 <= cap -> allowed_all (start cap) ops -> wf (apply_all (start cap) ops).
Proof. intros Hc. by apply apply_all_wf, wf_init. Qed.

(** C19: an object that was handed out belongs to its holder: until it is checked
    in (or the pool shuts down) no other checkout returns it. *)
Theorem checkout_exclusive p host id p1 ops host' id' p2 :
  wf p -> checkout p host = (Some id, p1) -> allowed_all p1 ops ->
  Forall (fun o => releases id o = false) ops ->
  checkout (apply_all p1 ops) host' = (Some id', p2) -> id' <> id.
Proof.
  intros Hwf Hc Ha Hr Hc' ->.
  apply (checkout_not_busy (apply_all p1 ops) host' id p2); [|done|].
  - apply apply_all_wf; [|done]. replace p1 with (checkout p host).2 by by rewrite Hc.
    by apply checkout_wf.
  - apply busy_kept_all; [|done]. by eapply checkout_busy.
Qed.

(** What a checkout returns: nothing from a disabled pool; otherwise the most
    recently returned idle connection to that host, with its socket; otherwise
    a new connection while there is room, and nothing when the pool is full. *)
Theorem checkout_spec p host :
  let idle := filter (fun d => ep d = host) (m_ready p) in
  match checkout p host with
  | (Some id, p') =>
      m_enable p = true /\
      match idle with
      | d :: _ => id = node d /\ m_busy p' = d :: m_busy p /\ m_ready p ≡ₚ d :: m_ready p'
      | [] => id = next_node p /\ m_ready p' = m_ready p /\
              get_busy_size p + get_ready_size p < m_capacity p /\
              exists d, m_busy p' = d :: m_busy p /\ socket d = -1 /\ ep d = c_str host
      end
  | (None, p') =>
      p' = p /\ (m_enable p = false \/
                 idle = [] /\ m_capacity p <= get_busy_size p + get_ready_size p)
  end.
Proof.
  cbn zeta. unfold checkout. destruct (m_enable p); cbn [negb]; [|by split; [|left]].
  destruct (extract _ (m_ready p)) as [[d r]|] eqn:E.
  - split; [done|]. assert (exists k, filter (fun d => ep d = host) (m_ready p) = d :: k) as [k ->].
    { clear -E. revert r E. induction (m_ready p) as [|x l IH]; intros r; cbn [extract]; [done|].
      rewrite filter_cons. case_bool_decide as Hx; [rewrite decide_True by done|rewrite decide_False by done].
      - intros [= -> _]. eauto.
      - destruct (extract _ l) as [[y q]|]; [|done]. intros [= -> _]. by eapply IH. }
    split; [done|]. split; [done|]. by apply extract_Some in E as [_ ?].
  - apply extract_None in E.
    assert (filter (fun d => ep d = host) (m_ready p) = []) as ->.
    { clear -E. induction E as [|x l Hx _ IH]; [done|]. apply bool_decide_eq_false_1 in Hx.
      by rewrite filter_cons, decide_False. }
    unfold get_busy_size, get_ready_size. destruct (_ <? _) eqn:Hc; zbool; cbn.
    + do 4 (split; [done || lia|]). eexists. done.
    + split; [done|]. right. split; [done|lia].
Qed.

(** A connection returned with an open socket is reused: checking it in and
    checking out the same host, with passes of the monitor before its time is
    over in between, gives back the same object with the same socket. *)
Theorem checkin_checkout p d busy now t now' assigned :
  m_enable p = true -> m_busy p = d :: busy -> socket d <> -1 -> now' < now + t * second ->
  exists p' d', checkout (monitor (checkin p (Some (node d)) now t).2 now' assigned) (ep d)
    = (Some (node d), p') /\ m_busy p' = d' :: busy /\ socket d' = socket d /\
  closed p' = closed (monitor p now' assigned).
Proof.
  intros He Hb Hs Ht. unfold checkin. rewrite Hb. cbn [extract snd].
  rewrite bool_decide_eq_true_2 by done. ztest. unfold checkout, monitor.
  cbn [with_lists m_ready m_enable m_busy snd]. rewrite He. cbn [negb]. rewrite !filter_cons. cbn [ttl].
  rewrite decide_True by done. rewrite (decide_False (P := ~ _)) by (intros Hn; by apply Hn).
  cbn. rewrite bool_decide_eq_true_2 by done. eexists _, _. split; [done|]. done.
Qed.

(** The monitor drops exactly the idle connections whose time is over, closes
    each descriptor the system accepts, and never touches one that is in use;
    it does so at most once in thirty seconds. *)
Theorem monitor_spec tp p now assigned :
  let '(tp', p') := routine_step tp p now assigned in
  m_busy p' = m_busy p /\
  (now < tp -> p' = p /\ tp' = tp) /\
  (tp <= now -> tp' = now + 30 * second /\
     forall d, d ∈ m_ready p ->
       (d ∈ m_ready p' <-> now < ttl d) /\
       (ttl d <= now -> socket d <> -1 -> assigned (socket d) = true -> socket d ∈ closed p')).
Proof.
  unfold routine_step. destruct (now <? tp) eqn:E; zbool.
  - split; [done|]. split; [done|lia].
  - split; [done|]. split; [lia|]. intros _. split; [done|]. intros d Hd. cbn. split.
    + rewrite list_elem_of_filter. tauto.
    + intros Ht Hs Ha. apply elem_of_app. right. unfold closes. apply list_elem_of_filter.
      split; [|apply list_elem_of_fmap; exists d; split; [done|]; apply list_elem_of_filter; split; [lia|done]].
      rewrite Ha, andb_true_r. apply Is_true_eq_left. apply negb_true_iff. by apply Z.eqb_neq.
Qed.

(** Stopping the pool closes every descriptor it still has, idle or in use. *)
Theorem cleanup_closes_all p assigned d :
  d ∈ m_busy p ++ m_ready p -> socket d <> -1 -> assigned (socket d) = true ->
  socket d ∈ closed (cleanup p assigned) /\ m_busy (cleanup p assigned) = [] /\
  m_ready (cleanup p assigned) = [].
Proof.
  intros Hd Hs Ha. split; [|done]. cbn. rewrite !elem_of_app. right.
  assert (forall l, d ∈ l -> socket d ∈ closes assigned l) as Hc.
  { intros l Hl. unfold closes. apply list_elem_of_filter. split; [|by apply list_elem_of_fmap_2].
    rewrite Ha, andb_true_r. apply Is_true_eq_left. apply negb_true_iff. by apply Z.eqb_neq. }
  apply elem_of_app in Hd as [Hd|Hd]; auto.
Qed.

(** ** Witnesses *)

Module Sample.
Definition host : bytes := str "127.0.0.1:9999".
Definition ops : list op :=
  [Enable true; Checkout host; SetSocket 0 5; Checkin (Some 0%nat) 0 60; Monitor (10 * second) (fun _ => true)].
Lemma ops_allowed : allowed_all (start 2) ops.
Proof. repeat constructor. Defined.

Definition p0 : pool := apply_all (start 2) ops.
Definition d0 : ep_descr := {| node := 3; ep := host; socket := 7; ttl := 0 |}.

Lemma pool_invariant_witness : wf (apply_all (start 2) ops).
Proof. apply pool_invariant; [lia | exact ops_allowed]. Defined.

Lemma checkout_exclusive_witness : 1%nat <> 0%nat.
Proof.
  eapply (checkout_exclusive p0 host 0 (checkout p0 host).2 [Monitor 0 (fun _ => true)] host 1).
  - apply apply_all_wf; [by apply wf_init | exact ops_allowed].
  - vm_compute. reflexivity.
  - repeat constructor.
  - repeat constructor.
  - vm_compute. reflexivity.
Defined.

Definition p1 : pool := {| m_ready := []; m_busy := [d0]; m_capacity := 2; m_enable := true;
  next_node := 4; closed := [] |}.

Lemma checkin_checkout_witness :
  exists p' d', checkout (monitor (checkin p1 (Some 3%nat) 0 60).2 second (fun _ => true)) host
    = (Some 3%nat, p') /\ m_busy p' = [d'] /\ socket d' = 7 /\
  closed p' = closed (monitor p1 second (fun _ => true)).
Proof.
  apply (checkin_checkout p1 d0 [] 0 60 second (fun _ => true));
    [reflexivity | reflexivity | discriminate | vm_compute; reflexivity].
Defined.

Lemma cleanup_closes_all_witness :
  7 ∈ closed (cleanup p1 (fun _ => true)) /\ m_busy (cleanup p1 (fun _ => true)) = [] /\
  m_ready (cleanup p1 (fun _ => true)) = [].
Proof.
  apply (cleanup_closes_all p1 (fun _ => true) d0); [apply list_elem_of_here | discriminate | reflexivity].
Defined.
End Sample.
