(* ===== verification/WalletStorage.v ===== *)
(** The key store of src/wallet_storage/wallet_storage.cpp: class
    [storage::keys], a cache in memory over two files per wallet.

    The file system is a map from paths to contents.  Whether a path can be
    opened for writing is up to the operating system ([writable]); a file that
    exists can be read. *)

From Stdlib Require Import String.
From S2P Require Import Prelude.
Open Scope Z_scope.

Record crypt_keys := { pub_key : bytes; prv_key : bytes }.

#[export] Instance crypt_keys_eq_dec : EqDecision crypt_keys.
Proof. solve_decision. Defined.

Record store_state := {
  _storage : gmap bytes crypt_keys;
  files : gmap bytes bytes;
}.

Section Storage.
(** settings::system::wallet_stotage. *)
Variable wallet_stotage : bytes.
Variable writable : bytes -> bool.

(** The directory with its final slash. *)
Definition with_slash (path : bytes) : bytes :=
  if bool_decide (last path <> Some "/"%char) then path ++ str "/" else path.

Definition read_from_file (s : store_state) (file : bytes) : option bytes :=
  let path := wallet_stotage in
  if bool_decide (path = []) then None
  else files s !! (with_slash path ++ file).

(** write_to_file: success, and the file system after it.  Creating the
    directory is part of what decides [writable]. *)
Definition write_to_file (s : store_state) (file data : bytes) : bool * store_state :=
  let path := wallet_stotage in
  if bool_decide (path = []) then (false, s)
  else
    let path := with_slash path ++ file in
    if negb (writable path) then (false, s)
    else (true, {| _storage := _storage s; files := <[path := data]> (files s) |}).

(** keys::peek: the keys found, and the store with them cached. *)
Definition peek (s : store_state) (address : bytes) : option crypt_keys * store_state :=
  match _storage s !! address with
  | Some k => (Some k, s)
  | None =>
      match read_from_file s (address ++ str ".raw.prv") with
      | None => (None, s)
      | Some prv =>
          match read_from_file s (address ++ str ".raw.pub") with
          | None => (None, s)
          | Some pub =>
              let tmp := {| pub_key := pub; prv_key := prv |} in
              (Some tmp, {| _storage := <[address := tmp]> (_storage s); files := files s |})
          end
      end
  end.

Definition store (s : store_state) (address : bytes) (data : crypt_keys) : bool * store_state :=
  match _storage s !! address with
  | Some _ => (false, s)
  | None =>
      let (ok, s1) := write_to_file s (address ++ str ".raw.prv") (prv_key data) in
      if negb ok then (false, s1)
      else
        let (ok, s2) := write_to_file s1 (address ++ str ".raw.pub") (pub_key data) in
        if negb ok then (false, s2) else (true, s2)
  end.

(** ** Lemmas *)

Lemma suffix_inj (a b : bytes) s t : length s = length t -> a ++ s = b ++ t -> a = b /\ s = t.
Proof. intros Hl E. by apply app_inj_2. Qed.

Lemma prv_pub_ne a b : a ++ str ".raw.prv" <> b ++ str ".raw.pub".
Proof. by intros [_ E]%suffix_inj. Qed.

Lemma store_files s a k s' :
  store s a k = (true, s') ->
  wallet_stotage <> [] /\ _storage s !! a = None /\ _storage s' = _storage s /\
  files s' = <[with_slash wallet_stotage ++ a ++ str ".raw.pub" := pub_key k]>
             (<[with_slash wallet_stotage ++ a ++ str ".raw.prv" := prv_key k]> (files s)).
Proof.
  unfold store, write_to_file. destruct (_storage s !! a); [done|].
  case_bool_decide as He; [done|]. destruct (negb (writable _)); [done|]. cbn.
  destruct (negb (writable _)); [done|]. cbn. by intros [= <-].
Qed.

Lemma peek_file_frame s s' a b k :
  a <> b -> _storage s' !! b = _storage s !! b ->
  files s' = <[with_slash wallet_stotage ++ a ++ str ".raw.pub" := pub_key k]>
             (<[with_slash wallet_stotage ++ a ++ str ".raw.prv" := prv_key k]> (files s)) ->
  (peek s' b).1 = (peek s b).1.
Proof.
  intros Hab Hs Hf. unfold peek, read_from_file. rewrite Hs, Hf.
  destruct (_storage s !! b); [done|]. case_bool_decide; [done|].
  rewrite !lookup_insert_ne; [by repeat case_match|..]; intros E%app_inv_head;
    (by apply prv_pub_ne in E) || by (symmetry in E; apply prv_pub_ne in E) ||
    (apply suffix_inj in E as [E _]; done).
Qed.

Lemma peek_stored s a k s' :
  store s a k = (true, s') ->
  peek s' a = (Some k, {| _storage := <[a := k]> (_storage s'); files := files s' |}).
Proof.
  intros (Hw & Hn & Hs & Hf)%store_files. unfold peek. rewrite Hs, Hn. unfold read_from_file.
  rewrite bool_decide_eq_false_2, Hf by done.
  rewrite lookup_insert_ne by (intros E%app_inv_head; symmetry in E; by apply prv_pub_ne in E).
  rewrite !lookup_insert_eq. by destruct k.
Qed.

(** ** Theorems *)

(** Keys that were stored are the keys found afterwards, and from then on
    they come from memory: later changes of the files are not seen. *)
Theorem peek_store s a k s' :
  store s a k = (true, s') ->
  exists s'', peek s' a = (Some k, s'') /\
    forall fs, peek {| _storage := _storage s''; files := fs |} a
               = (Some k, {| _storage := _storage s''; files := fs |}).
Proof.
  intros Hs%peek_stored. eexists. split; [done|]. intros fs. unfold peek. cbn. by rewrite lookup_insert_eq.
Qed.

(** Storing keys under one address does not change what is found under another. *)
Theorem store_frame s a k s' b :
  store s a k = (true, s') -> a <> b -> (peek s' b).1 = (peek s b).1.
Proof.
  intros (_ & _ & Hs & Hf)%store_files Hab. apply (peek_file_frame s s' a b k); [done| |done].
  by rewrite Hs.
Qed.

(** Once keys were found for an address, no store replaces them. *)
Theorem store_keeps_cached s a k s' k' :
  peek s a = (Some k, s') -> store s' a k' = (false, s') /\ peek s' a = (Some k, s').
Proof.
  intros Hp. assert (_storage s' !! a = Some k) as Hk.
  { revert Hp. unfold peek. destruct (_storage s !! a) eqn:E; [by intros [= -> <-]|].
    destruct (read_from_file _ _); [|done]. destruct (read_from_file _ _); [|done].
    intros [= <- <-]. by apply lookup_insert_eq. }
  unfold store, peek. by rewrite Hk.
Qed.

(** A wallet is found in the files only when both its files are there. *)
Theorem peek_needs_both s a :
  _storage s !! a = None ->
  ((peek s a).1 <> None <->
   is_Some (read_from_file s (a ++ str ".raw.prv")) /\ is_Some (read_from_file s (a ++ str ".raw.pub"))).
Proof.
  intros Hn. unfold peek. rewrite Hn.
  destruct (read_from_file s (a ++ str ".raw.prv")), (read_from_file s (a ++ str ".raw.pub")); cbn;
    split; try done; intros [[? ?] [? ?]]; done.
Qed.
End Storage.

(** ** Witnesses *)

Module Sample.
Definition s0 : store_state := {| _storage := ∅; files := ∅ |}.
Definition k0 : crypt_keys := {| pub_key := str "aa"; prv_key := str "bb" |}.
Abbreviation st := (store (str "wallet") (fun _ => true) s0 (str "0x00") k0).

Lemma peek_store_witness :
  exists s'', peek (str "wallet") st.2 (str "0x00") = (Some k0, s'') /\
    forall fs, peek (str "wallet") {| _storage := _storage s''; files := fs |} (str "0x00")
               = (Some k0, {| _storage := _storage s''; files := fs |}).
Proof. apply (peek_store (str "wallet") (fun _ => true) s0). vm_compute. reflexivity. Defined.

Lemma store_frame_witness :
  (peek (str "wallet") st.2 (str "0x01")).1 = (peek (str "wallet") s0 (str "0x01")).1.
Proof.
  apply (store_frame (str "wallet") (fun _ => true) s0 (str "0x00") k0);
    [vm_compute; reflexivity | discriminate].
Defined.

Lemma store_keeps_cached_witness :
  let s := (peek (str "wallet") st.2 (str "0x00")).2 in
  store (str "wallet") (fun _ => true) s (str "0x00") k0 = (false, s) /\
  peek (str "wallet") s (str "0x00") = (Some k0, s).
Proof. apply (store_keeps_cached (str "wallet") (fun _ => true) st.2). vm_compute. reflexivity. Defined.

Lemma peek_needs_both_witness :
  (peek (str "wallet") s0 (str "a")).1 <> None <->
  is_Some (read_from_file (str "wallet") s0 (str "a" ++ str ".raw.prv")) /\
  is_Some (read_from_file (str "wallet") s0 (str "a" ++ str ".raw.pub")).
Proof. apply peek_needs_both. reflexivity. Defined.
End Sample.
