(* ===== verification/Json.v ===== *)
(** JSON documents and JSON-RPC messages: [json_rpc_reader], [json_rpc_writer]
    and [json_utils] of src/jsonrpc/json_rpc.cpp and src/jsonrpc/json_rpc.h.

    A document is a value of [json]; an object keeps its members in order, and
    may hold a name twice, as a RapidJSON object does.  RapidJSON's parser and
    printer are third-party code: [parse] and [print] are parameters where a
    definition needs them.  The writer's [get_value] returns a reference into
    the document, which the caller assigns to; here it takes the assignment as a
    function ([at_value]). *)

From Stdlib Require Import String.
From S2P Require Import Prelude Text.
Open Scope Z_scope.

(** ** Values *)

(** Numbers: integers between [-2^63] and [2^64 - 1], and others ([JDouble],
    kept as their text). *)
#[warnings="-register-all"]
Inductive json :=
| JNull
| JBool (b : bool)
| JInt (z : Z)
| JDouble (text : bytes)
| JStr (s : bytes)
| JArr (l : list json)
| JObj (l : list (bytes * json)).

Abbreviation members := (list (bytes * json)).

Definition IsObject (v : json) : bool := match v with JObj _ => true | _ => false end.
Definition IsArray (v : json) : bool := match v with JArr _ => true | _ => false end.
Definition IsString (v : json) : bool := match v with JStr _ => true | _ => false end.
Definition IsInt (v : json) : bool :=
  match v with JInt z => (- 2 ^ 31 <=? z) && (z <? 2 ^ 31) | _ => false end.
Definition IsUint (v : json) : bool := match v with JInt z => (0 <=? z) && (z <? 2 ^ 32) | _ => false end.
Definition IsInt64 (v : json) : bool :=
  match v with JInt z => (- 2 ^ 63 <=? z) && (z <? 2 ^ 63) | _ => false end.
Definition IsUint64 (v : json) : bool := match v with JInt z => (0 <=? z) && (z <? 2 ^ 64) | _ => false end.

(** rapidjson::Type, and the value [Value(type)] constructs. *)
Inductive jtype := kNullType | kStringType | kNumberType | kObjectType | kArrayType | kBoolType.
Definition default_of (t : jtype) : json :=
  match t with
  | kNullType => JNull
  | kStringType => JStr []
  | kNumberType => JInt 0
  | kObjectType => JObj []
  | kArrayType => JArr []
  | kBoolType => JBool false
  end.
Definition type_of (v : json) : jtype :=
  match v with
  | JNull => kNullType
  | JBool _ => kBoolType
  | JInt _ | JDouble _ => kNumberType
  | JStr _ => kStringType
  | JArr _ => kArrayType
  | JObj _ => kObjectType
  end.

(** [obj.FindMember(name)]: the first member of that name. *)
Fixpoint FindMember (name : bytes) (l : members) : option json :=
  match l with
  | [] => None
  | (n, v) :: l' => if bool_decide (n = name) then Some v else FindMember name l'
  end.

(** Replace the first member of that name. *)
Fixpoint set_member (name : bytes) (v : json) (l : members) : members :=
  match l with
  | [] => []
  | (n, w) :: l' => if bool_decide (n = name) then (n, v) :: l' else (n, w) :: set_member name v l'
  end.

(** ** Reader *)

Definition get (name : string) (root : json) : option json :=
  match root with JObj l => FindMember (str name) l | _ => None end.

Definition has_id (doc : json) : bool := bool_decide (get "id" doc <> None).

Definition get_id (doc : json) : res Z :=
  match get "id" doc with
  | Some (JStr s) => z ← stoi (c_str s); Ok (u32 z)
  | Some v =>
      match v with
      | JInt z => if IsInt v then Ok (u32 z) else if IsUint v then Ok z else Ok 0
      | _ => Ok 0
      end
  | None => Ok 0
  end.

(** The overloads of get_value: a string (as [std::string] or
    [std::string_view]) and the unsigned 64-bit numbers; [None] for [false]. *)
Definition get_value_str (root : json) (name : string) : option bytes :=
  match get name root with Some (JStr s) => Some s | _ => None end.
Definition get_value_u64 (root : json) (name : string) : option Z :=
  match get name root with
  | Some (JInt z) => if IsUint64 (JInt z) then Some z else None
  | _ => None
  end.

Definition get_method (doc : json) : bytes := default [] (get_value_str doc "method").
Definition get_error (doc : json) : option json := get "error" doc.
Definition get_result (doc : json) : option json := get "result" doc.
Definition get_params (doc : json) : option json := get "params" doc.

(** ** Writer *)

Definition members_of (root : json) : members := match root with JObj l => l | _ => [] end.

(** get_value(root, name, Type) followed by an assignment [f] to what it returns. *)
Definition at_value (root : json) (name : string) (t : jtype) (f : json -> json) : json :=
  let l := members_of root in
  match FindMember (str name) l with
  | Some v => JObj (set_member (str name) (f v) l)
  | None => JObj (l ++ [(str name, f (default_of t))])
  end.

Definition json_rpc_ver : bytes := str "2.0".

Definition reset (m_doc : json) : json :=
  let id := default JNull (get "id" m_doc) in
  let m_doc := JObj [] in
  let m_doc := at_value m_doc "jsonrpc" kStringType (fun _ => JStr json_rpc_ver) in
  at_value m_doc "id" kNullType (fun _ => id).

(** json_rpc_writer(). *)
Definition json_rpc_writer_new : json := reset (JObj []).

(** set_method(value) without a size: at most 30 characters, up to a NUL. *)
Definition set_method (m_doc : json) (value : bytes) : json :=
  at_value m_doc "method" kStringType (fun _ => JStr (take 30 (c_str value))).

Definition set_id (m_doc : json) (value : Z) : json :=
  if value =? 0 then at_value m_doc "id" kNullType (fun _ => JNull)
  else at_value m_doc "id" kNumberType (fun _ => JInt value).

Definition set_result (m_doc value : json) : json :=
  at_value m_doc "result" (type_of value) (fun _ => value).

Definition add_result (m_doc : json) (name : string) (value : json) : json :=
  at_value m_doc "result" kObjectType (fun result => at_value result name kNullType (fun _ => value)).

Definition add_param (m_doc : json) (name : string) (value : json) : json :=
  at_value m_doc "params" kObjectType (fun params => at_value params name kNullType (fun _ => value)).

Definition add_value (m_doc : json) (name : string) (value : json) : json :=
  at_value m_doc name (type_of value) (fun _ => value).

Definition is_error (m_doc : json) : bool := bool_decide (get "error" m_doc <> None).

Definition set_error_value (m_doc value : json) : json :=
  at_value m_doc "error" (type_of value) (fun _ => value).

Definition set_error (m_doc : json) (code : Z) (message : bytes) : json :=
  at_value m_doc "error" kObjectType (fun err =>
    at_value (at_value err "code" kNumberType (fun _ => JInt code))
      "message" kStringType (fun _ => JStr (c_str message))).

Definition set_error_data (m_doc value : json) : json :=
  at_value m_doc "error" kObjectType (fun err => at_value err "data" kObjectType (fun _ => value)).

Definition add_error_data (m_doc : json) (name : string) (value : json) : json :=
  at_value m_doc "error" kObjectType (fun err =>
    at_value err "data" kObjectType (fun data => at_value data name kNullType (fun _ => value))).

(** writer.get_params: the member, and the document it is a member of. *)
Definition writer_get_params (m_doc : json) : json * json :=
  match get "params" m_doc with
  | Some p => (p, m_doc)
  | None => (JObj [], at_value m_doc "params" kObjectType (fun v => v))
  end.

(** ** json_utils *)

(** [out << z] of a signed or unsigned integer. *)
Definition print_int (z : Z) : bytes := if z <? 0 then str "-" ++ to_string (- z) else to_string z.

(** val2str: the text, [None] for [false].  [value->GetString()] is read up to
    its first NUL. *)
Definition val2str (value : option json) : option bytes :=
  match value with
  | None => None
  | Some (JStr s) => if bool_decide (c_str s = []) then None else Some (c_str s)
  | Some v =>
      match v with
      | JInt z => if IsInt v || IsInt64 v || IsUint v || IsUint64 v then Some (print_int z) else None
      | _ => None
      end
  end.

(** [v.find(c, pos)] as the text before and after the first [c]. *)
Fixpoint split_at (c : ascii) (s : bytes) : option (bytes * bytes) :=
  match s with
  | [] => None
  | a :: s' =>
      if bool_decide (a = c) then Some ([], s')
      else match split_at c s' with Some (p, q) => Some (a :: p, q) | None => None end
  end.

(** One round of the loop of to_json on what is left of the list: the name and
    the value of a parameter, and the rest. *)
Definition next_param (s : bytes) : option (bytes * bytes * bytes) :=
  match split_at "="%char s with
  | None => None
  | Some (name, s) =>
      match split_at "&"%char s with
      | Some (value, rest) => Some (name, value, rest)
      | None => Some (name, s, [])
      end
  end.

(** [out.AddMember(name, "")], then [out[name].SetString(value)]: the first
    member of that name gets the value. *)
Definition add_member (out : members) (name value : bytes) : members :=
  set_member name (JStr value) (out ++ [(name, JStr [])]).

(** Each round consumes at least one character, so the length is enough fuel. *)
Fixpoint to_json_loop (fuel : nat) (s : bytes) (out : members) : members :=
  match fuel with
  | O => out
  | S f =>
      match s with
      | [] => out
      | _ =>
          match next_param s with
          | None => out
          | Some (name, value, rest) => to_json_loop f rest (add_member out name value)
          end
      end
  end.

Definition to_json (param_list : bytes) (out : json) : json :=
  match out with
  | JObj l => JObj (to_json_loop (length param_list) param_list l)
  | _ => out
  end.

(** ** Lemmas *)

Lemma FindMember_app name l k :
  FindMember name (l ++ k) = match FindMember name l with Some v => Some v | None => FindMember name k end.
Proof. induction l as [|[n v] l IH]; cbn; [done|]. by case_bool_decide. Qed.

Lemma FindMember_set_eq name v l : FindMember name l <> None -> FindMember name (set_member name v l) = Some v.
Proof.
  induction l as [|[n w] l IH]; cbn; [done|]. case_bool_decide as E; cbn; case_bool_decide; auto; done.
Qed.

Lemma FindMember_set_ne name name' v l :
  name <> name' -> FindMember name' (set_member name v l) = FindMember name' l.
Proof.
  intros Hn. induction l as [|[n w] l IH]; cbn; [done|].
  case_bool_decide as E; cbn; case_bool_decide as E'; congruence || done.
Qed.

Lemma get_at_value_eq root name t f :
  get name (at_value root name t f) = Some (f (default (default_of t) (get name root))).
Proof.
  unfold at_value. assert (get name root = FindMember (str name) (members_of root)) as Hg
    by by destruct root.
  rewrite Hg. destruct (FindMember (str name) (members_of root)) as [v|] eqn:E; cbn [get default].
  - by apply FindMember_set_eq; rewrite E.
  - rewrite FindMember_app, E. cbn. by rewrite bool_decide_eq_true_2.
Qed.

Lemma get_at_value_ne root name name' t f :
  name <> name' -> get name' (at_value root name t f) = get name' root.
Proof.
  intros Hn. assert (str name <> str name') as Hs by (intros E; by apply str_inj in E).
  unfold at_value. assert (get name' root = FindMember (str name') (members_of root)) as ->
    by by destruct root.
  destruct (FindMember (str name) (members_of root)) as [v|] eqn:E; cbn [get].
  - by apply FindMember_set_ne.
  - rewrite FindMember_app. destruct (FindMember (str name') _); [done|].
    cbn. by rewrite bool_decide_eq_false_2.
Qed.

Lemma default_Some {A} (d a : A) : default d (Some a) = a.
Proof. done. Qed.

Create Rewrite HintDb json.
#[export] Hint Rewrite get_at_value_eq @default_Some : json.
#[export] Hint Rewrite get_at_value_ne using discriminate : json.

(** ** Theorems *)

(** After [reset] the document is the version and the id it had before, and
    nothing else: no result, error or parameter survives. *)
Theorem reset_spec d :
  reset d = JObj [(str "jsonrpc", JStr (str "2.0")); (str "id", default JNull (get "id" d))].
Proof. done. Qed.

(** The operations of the writer touch only their own member: what a reader
    finds afterwards is what was written, and every other top-level member is as
    it was. *)
Theorem writer_reader d name v code msg id m :
  get name (default JNull (get_result (add_result d name v))) = Some v /\
  get name (default JNull (get_params (add_param d name v))) = Some v /\
  get_result (set_result d v) = Some v /\
  get "code" (default JNull (get_error (set_error d code msg))) = Some (JInt code) /\
  get "message" (default JNull (get_error (set_error d code msg))) = Some (JStr (c_str msg)) /\
  is_error (set_error d code msg) = true /\
  (0 <= id < 2 ^ 32 -> get_id (set_id d id) = Ok id) /\
  get_method (set_method d m) = take 30 (c_str m) /\
  (forall n, n <> "result" -> get n (add_result d name v) = get n d /\ get n (set_result d v) = get n d)%string /\
  (forall n, n <> "params" -> get n (add_param d name v) = get n d)%string /\
  (forall n, n <> "error" -> get n (set_error d code msg) = get n d)%string /\
  (forall n, n <> "id" -> get n (set_id d id) = get n d)%string.
Proof.
  unfold get_result, get_params, get_error, get_method, get_value_str, is_error, get_id,
    add_result, add_param, set_result, set_error, set_id, set_method.
  split_and!; autorewrite with json; try done.
  - intros Hid. destruct (id =? 0) eqn:E0; zbool; autorewrite with json; [by subst|].
    unfold IsInt, IsUint. ztest. cbn [andb].
    destruct (id <? 2 ^ 31) eqn:E1; zbool; [|done]. by rewrite wrap_small by lia.
  - intros n Hn. by rewrite !get_at_value_ne.
  - intros n Hn. by rewrite get_at_value_ne.
  - intros n Hn. by rewrite get_at_value_ne.
  - intros n Hn. destruct (id =? 0); by rewrite get_at_value_ne.
Qed.

(** An amount given as a JSON integer or as its decimal text reads as the same
    64-bit number. *)
Theorem val2str_amount z :
  0 <= z <= UINT64_MAX ->
  (exists s, val2str (Some (JInt z)) = Some s /\ stoull s = Ok z) /\
  val2str (Some (JStr (to_string z))) = val2str (Some (JInt z)).
Proof.
  unfold UINT64_MAX. intros Hz. cbn [val2str].
  assert (IsUint64 (JInt z) = true) as -> by (cbn; by ztest). rewrite !orb_true_r.
  unfold print_int. ztest. split.
  - eexists. split; [done|]. apply stoull_to_string. unfold UINT64_MAX. lia.
  - assert (c_str (to_string z) = to_string z) as ->.
    { destruct (to_string_digits z) as (_ & Hd & _); [lia|].
      induction Hd as [|c s Hc _ IH]; [done|]. cbn [c_str].
      rewrite bool_decide_eq_false_2 by (by intros ->). by rewrite IH. }
    rewrite bool_decide_eq_false_2; [done|]. apply to_string_nonempty. lia.
Qed.

(** ** Query strings *)

Definition render (ps : list (bytes * bytes)) : bytes :=
  foldr (fun p s => p.1 ++ str "=" ++ p.2 ++ (if bool_decide (s = []) then [] else str "&" ++ s)) [] ps.

Lemma split_at_app c p q : c ∉ p -> split_at c (p ++ c :: q) = Some (p, q).
Proof.
  induction p as [|a p IH]; cbn; intros Hp; [by rewrite bool_decide_eq_true_2|].
  apply not_elem_of_cons in Hp as [Ha Hp]. rewrite bool_decide_eq_false_2 by done. by rewrite IH.
Qed.

Lemma split_at_none c p : c ∉ p -> split_at c p = None.
Proof.
  induction p as [|a p IH]; cbn; intros Hp; [done|].
  apply not_elem_of_cons in Hp as [Ha Hp]. rewrite bool_decide_eq_false_2 by done. by rewrite IH.
Qed.

Lemma add_member_new out name v :
  FindMember name out = None -> add_member out name v = out ++ [(name, JStr v)].
Proof.
  unfold add_member. induction out as [|[n w] out IH]; cbn; [by rewrite bool_decide_eq_true_2|].
  case_bool_decide; [done|]. intros Hn. f_equal. auto.
Qed.

Lemma to_json_loop_render ps fuel out :
  (length (render ps) <= fuel)%nat ->
  Forall (fun p => ("="%char ∉ p.1) /\ ("&"%char ∉ p.2)) ps -> NoDup (map fst ps) ->
  Forall (fun p => FindMember p.1 out = None) ps ->
  to_json_loop fuel (render ps) out = out ++ map (fun p => (p.1, JStr p.2)) ps.
Proof.
  revert fuel out. induction ps as [|[n v] ps IH]; intros fuel out Hf Hok Hnd Hout.
  { destruct fuel; by rewrite app_nil_r. }
  inversion Hok as [|? ? [Hn Hv] Hok']; subst. inversion Hnd as [|? ? Hni Hnd']; subst.
  inversion Hout as [|? ? Ho Hout']; subst. cbn [fst snd] in *.
  assert (next_param (render ((n, v) :: ps)) = Some (n, v, render ps)) as Hnp.
  { unfold next_param. cbn [render foldr fst snd]. fold (render ps).
    cbn [str list_ascii_of_string app]. rewrite split_at_app by done.
    case_bool_decide as E.
    - rewrite app_nil_r, split_at_none by done. by rewrite E.
    - cbn [str list_ascii_of_string app]. by rewrite split_at_app. }
  assert ((length (render ps) < length (render ((n, v) :: ps)))%nat) as Hlt.
  { cbn [render foldr fst snd]. fold (render ps). rewrite !length_app. cbn [length str list_ascii_of_string].
    case_bool_decide as E; [rewrite E; cbn; lia|]. rewrite length_app. lia. }
  destruct fuel as [|f]; [lia|]. cbn [to_json_loop].
  destruct (render ((n, v) :: ps)) as [|a r] eqn:Er; [cbn in Hlt; lia|]. rewrite <- Er in *. rewrite Hnp.
  rewrite IH; [|lia|done|done|].
  - rewrite add_member_new by done. by rewrite <- app_assoc.
  - rewrite add_member_new by done. rewrite Forall_forall in Hout' |- *. intros [m w] Hm.
    pose proof (Hout' _ Hm) as Hx. cbn [fst] in *. rewrite FindMember_app, Hx. cbn.
    rewrite bool_decide_eq_false_2; [done|]. intros ->. apply Hni.
    apply list_elem_of_fmap. by exists (m, w).
Qed.

(** A query string of parameters with distinct names, no [=] in a name and no
    [&] in a value becomes the object with those members, in order. *)
Theorem to_json_render ps :
  Forall (fun p => ("="%char ∉ p.1) /\ ("&"%char ∉ p.2)) ps -> NoDup (map fst ps) ->
  to_json (render ps) (JObj []) = JObj (map (fun p => (p.1, JStr p.2)) ps).
Proof.
  intros Hok Hnd. unfold to_json. rewrite to_json_loop_render; [done|done|done|done|].
  by apply Forall_true.
Qed.

(** ** Witnesses *)

Lemma val2str_amount_witness :
  (exists s, val2str (Some (JInt 18446744073709551615)) = Some s /\ stoull s = Ok 18446744073709551615) /\
  val2str (Some (JStr (to_string 18446744073709551615))) = val2str (Some (JInt 18446744073709551615)).
Proof. apply val2str_amount. unfold UINT64_MAX. lia. Defined.

Lemma to_json_render_witness :
  to_json (str "id=1&address=0x00") (JObj [])
  = JObj [(str "id", JStr (str "1")); (str "address", JStr (str "0x00"))].
Proof.
  apply (to_json_render [(str "id", str "1"); (str "address", str "0x00")]).
  - repeat constructor; apply (bool_decide_unpack _); vm_compute; exact I.
  - apply (bool_decide_unpack _). vm_compute. exact I.
Defined.
