(* ===== verification/JsonText.v ===== *)
(** A printer of JSON values and a parser that reads back what it prints, and
    nothing else.  It is no JSON text: RapidJSON's printer and parser are
    parameters of the development, and this pair shows that what is assumed of
    them can hold. *)

From Stdlib Require Import String.
From stdpp Require Import countable.
From S2P Require Import Prelude Json.
Open Scope Z_scope.

(** A value as a tree: numbers, texts and truth values at its leaves. *)
Definition leaf_t : Type := bool + Z + bytes.

Fixpoint to_tree (v : json) : gen_tree leaf_t :=
  match v with
  | JNull => GenNode 0 []
  | JBool b => GenLeaf (inl (inl b))
  | JInt z => GenLeaf (inl (inr z))
  | JStr s => GenLeaf (inr s)
  | JDouble s => GenNode 1 [GenLeaf (inr s)]
  | JArr l => GenNode 2 (map to_tree l)
  | JObj l => GenNode 3 (map (fun p => GenNode 4 [GenLeaf (inr p.1); to_tree p.2]) l)
  end.

Fixpoint of_tree (t : gen_tree leaf_t) : json :=
  match t with
  | GenLeaf (inl (inl b)) => JBool b
  | GenLeaf (inl (inr z)) => JInt z
  | GenLeaf (inr s) => JStr s
  | GenNode 1 [GenLeaf (inr s)] => JDouble s
  | GenNode 2 l => JArr (map of_tree l)
  | GenNode 3 l =>
      JObj (map (fun t => match t with GenNode 4 [GenLeaf (inr n); v] => (n, of_tree v) | _ => ([], JNull) end) l)
  | _ => JNull
  end.

Lemma of_to_tree : forall v, of_tree (to_tree v) = v.
Proof.
  fix IH 1. intros [|b|z|s|s|l|l]; try reflexivity; cbn.
  - f_equal. induction l as [|v l IHl]; [reflexivity|]. cbn. by rewrite IH, IHl.
  - f_equal. induction l as [|[n v] l IHl]; [reflexivity|]. cbn. by rewrite IH, IHl.
Qed.

#[export] Instance json_eq_dec : EqDecision json.
Proof.
  intros v w. destruct (decide (to_tree v = to_tree w)) as [E|E]; [left|right; congruence].
  by rewrite <- (of_to_tree v), <- (of_to_tree w), E.
Defined.

#[export] Instance json_countable : Countable json := inj_countable' to_tree of_tree of_to_tree.

(** A positive number as text in base two, the last digit first. *)
Fixpoint bits (p : positive) : bytes :=
  match p with
  | xO p => "0"%char :: bits p
  | xI p => "1"%char :: bits p
  | xH => []
  end.
Fixpoint unbits (s : bytes) : option positive :=
  match s with
  | [] => Some xH
  | c :: s' =>
      match unbits s' with
      | Some p => if bool_decide (c = "0"%char) then Some (xO p) else if bool_decide (c = "1"%char) then Some (xI p) else None
      | None => None
      end
  end.

Lemma unbits_bits p : unbits (bits p) = Some p.
Proof. induction p as [p IH|p IH|]; cbn; [by rewrite IH..|done]. Qed.

Definition print_value (v : json) : bytes := bits (encode v).
Definition parse_value (s : bytes) : option json := p ← unbits s; decode p.

Lemma parse_print_value v : parse_value (print_value v) = Some v.
Proof. unfold parse_value, print_value. rewrite unbits_bits. apply decode_encode. Qed.
