(* ===== verification/Schema.v ===== *)
(** The validation of requests: class [jsonrpc_schema] of
    src/jsonrpc/json_rpc_schema.h and .cpp, the two schemas it loads from
    src/jsonrpc/schema/schema_request.json and schema_methods.json, and RapidJSON's
    validator as far as these schemas use it.

    A schema document is compiled as the constructor of RapidJSON's [Schema] does
    ([compile]); a keyword that the two documents do not use makes it fail, so that
    nothing is passed over in silence.  The validator then looks at a value
    ([validate]).  Two of its habits matter: the pattern of a string is matched
    against the text up to the first NUL or byte that is no UTF-8, and the length
    limits are not applied to a text that is no UTF-8.

    [enum] compares the 64-bit hash codes of the validator's [Hasher], not the
    values, so that a text that is not listed can pass for one that is
    ([Sample.collision]). *)

From Stdlib Require Import String.
From S2P Require Import Prelude Text Endian Json.
Open Scope Z_scope.

(** ** UTF-8 *)

Definition in_range (lo hi : Z) (c : ascii) : bool := (lo <=? uc c) && (uc c <=? hi).
(** A byte that continues a character. *)
Definition utf8_tail (c : ascii) : bool := in_range 128 191 c.

(** UTF8::Decode: the length of the first character, [None] when it is no UTF-8. *)
Definition utf8_len (s : bytes) : option nat :=
  match s with
  | [] => None
  | c :: r =>
      if in_range 0 127 c then Some 1%nat
      else
        match r with
        | [] => None
        | c1 :: r1 =>
            if in_range 194 223 c then if utf8_tail c1 then Some 2%nat else None
            else
              match r1 with
              | [] => None
              | c2 :: r2 =>
                  let three := if utf8_tail c2 then Some 3%nat else None in
                  if in_range 224 224 c then if in_range 160 191 c1 then three else None
                  else if in_range 237 237 c then if in_range 128 159 c1 then three else None
                  else if in_range 225 239 c then if utf8_tail c1 then three else None
                  else
                    match r2 with
                    | [] => None
                    | c3 :: _ =>
                        let four := if utf8_tail c2 && utf8_tail c3 then Some 4%nat else None in
                        if in_range 240 240 c then if in_range 144 191 c1 then four else None
                        else if in_range 241 243 c then if utf8_tail c1 then four else None
                        else if in_range 244 244 c then if in_range 128 143 c1 then four else None
                        else None
                    end
              end
        end
  end.

(** CountStringCodePoint; each round takes a character, so the length is enough
    fuel. *)
Fixpoint count_code_points (fuel : nat) (s : bytes) : option Z :=
  match s, fuel with
  | [], _ => Some 0
  | _, O => None
  | _, S fuel =>
      match utf8_len s with
      | Some n => option_map (Z.add 1) (count_code_points fuel (drop n s))
      | None => None
      end
  end.
Definition CountStringCodePoint (s : bytes) : option Z := count_code_points (length s) s.

(** What a regular expression is matched against. *)
Fixpoint decoded (fuel : nat) (s : bytes) : bytes :=
  match fuel with
  | O => []
  | S fuel =>
      match utf8_len s with
      | Some n =>
          if bool_decide (head s = Some (Ascii.ascii_of_nat 0)) then []
          else take n s ++ decoded fuel (drop n s)
      | None => []
      end
  end.
Definition regex_text (s : bytes) : bytes := decoded (length s) s.

(** ** Patterns *)

(** A group with or without [?], and a class with [*]. *)
Inductive piece := PGroup (text : bytes) (optional : bool) | PStar (class : list (ascii * ascii)).

Definition in_class (l : list (ascii * ascii)) (c : ascii) : bool :=
  existsb (fun r => in_range (uc r.1) (uc r.2) c) l.

Definition strip (p s : bytes) : option bytes :=
  if bool_decide (take (length p) s = p) then Some (drop (length p) s) else None.

(** The text from its beginning to its end. *)
Fixpoint matches (ps : list piece) (s : bytes) : bool :=
  match ps with
  | [] => bool_decide (s = [])
  | PGroup text optional :: ps' =>
      match strip text s with Some r => matches ps' r | None => false end || optional && matches ps' s
  | PStar class :: ps' =>
      (fix star (s : bytes) : bool :=
         matches ps' s || match s with c :: s' => in_class class c && star s' | [] => false end) s
  end.

Definition alnum (c : ascii) : bool := in_range 48 57 c || in_range 65 90 c || in_range 97 122 c.
Definition plain_char (c : ascii) : bool := alnum c || bool_decide (c = "-"%char).

(** The ranges of a class up to its [']'], and what follows. *)
Fixpoint parse_class (s : bytes) (l : list (ascii * ascii)) : option (list (ascii * ascii) * bytes) :=
  match s with
  | [] => None
  | c :: s' =>
      if bool_decide (c = "]"%char) then match l with [] => None | _ => Some (l, s') end
      else if negb (alnum c) then None
      else
        match s' with
        | d :: e :: s'' =>
            if bool_decide (d = "-"%char) then if alnum e then parse_class s'' (l ++ [(c, e)]) else None
            else parse_class s' (l ++ [(c, c)])
        | _ => None
        end
  end.

(** The pieces up to the [$] at the end. *)
Fixpoint parse_pieces (fuel : nat) (s : bytes) : option (list piece) :=
  match fuel with
  | O => None
  | S fuel =>
      match s with
      | [] => None
      | c :: s =>
          if bool_decide (c = "$"%char) then match s with [] => Some [] | _ => None end
          else if bool_decide (c = "("%char) then
            match split_at ")"%char s with
            | Some (text, rest) =>
                if forallb plain_char text then
                  match rest with
                  | d :: rest' =>
                      if bool_decide (d = "?"%char) then option_map (cons (PGroup text true)) (parse_pieces fuel rest')
                      else option_map (cons (PGroup text false)) (parse_pieces fuel rest)
                  | [] => None
                  end
                else None
            | None => None
            end
          else if bool_decide (c = "["%char) then
            match parse_class s [] with
            | Some (l, d :: rest) =>
                if bool_decide (d = "*"%char) then option_map (cons (PStar l)) (parse_pieces fuel rest) else None
            | _ => None
            end
          else None
      end
  end.

(** CreatePattern, for the patterns of the two schemas: anchored at both ends. *)
Definition parse_pattern (s : bytes) : option (list piece) :=
  match s with
  | c :: s => if bool_decide (c = "^"%char) then parse_pieces (length s) s else None
  | [] => None
  end.

(** ** Schemas *)

Inductive stype := TNull | TBoolean | TObject | TArray | TString | TInteger | TNumber.
#[export] Instance stype_eq_dec : EqDecision stype.
Proof. solve_decision. Defined.

(** The keywords that hold no schema. *)
Record keywords := {
  type_ : list stype;
  enum_ : option (list json);
  required : list bytes;
  dependencies : list (bytes * list bytes);
  additionalProperties_ : bool;
  minProperties_ : Z;
  maxProperties_ : Z;
  minItems_ : Z;
  minLength_ : Z;
  maxLength_ : Z;
  pattern_ : option (list piece);
  minimum_ : option Z
}.

#[warnings="-register-all"]
Inductive schema :=
| Schema (k : keywords) (oneOf_ : option (list schema)) (properties_ : list (bytes * schema)) (itemsList_ : option schema).

Definition unlimited : Z := 2 ^ 32 - 1.
Definition all_types : list stype := [TNull; TBoolean; TObject; TArray; TString; TInteger; TNumber].

Definition AddType (v : json) : list stype :=
  match v with
  | JStr s =>
      if bool_decide (s = str "null") then [TNull]
      else if bool_decide (s = str "boolean") then [TBoolean]
      else if bool_decide (s = str "object") then [TObject]
      else if bool_decide (s = str "array") then [TArray]
      else if bool_decide (s = str "string") then [TString]
      else if bool_decide (s = str "integer") then [TInteger]
      else if bool_decide (s = str "number") then [TNumber; TInteger]
      else []
  | _ => []
  end.

Definition texts (v : option json) : list bytes :=
  match v with Some (JArr l) => omap (fun x => match x with JStr s => Some s | _ => None end) l | _ => [] end.

(** AssignIfExist of a size. *)
Definition size_of (d : Z) (v : option json) : Z :=
  match v with Some (JInt z) => if (0 <=? z) && (z <=? unlimited) then z else d | _ => d end.

(** The keywords that are read; [exclusiveMaximum] is read when it is a truth value
    only, and has no effect without [maximum]. *)
Definition known_keywords : list bytes :=
  map str ["title"; "description"; "definitions"; "type"; "enum"; "oneOf"; "properties"; "required"; "dependencies";
           "additionalProperties"; "minProperties"; "maxProperties"; "items"; "minItems"; "minLength"; "maxLength";
           "pattern"; "minimum"; "exclusiveMaximum"; "$ref"]%string.

Definition supported (v : json) : bool :=
  forallb (fun m => bool_decide (m.1 ∈ known_keywords)) (members_of v) &&
  match get "exclusiveMaximum" v with Some (JBool _) => false | _ => true end.

Definition read_pattern (v : option json) : option (option (list piece)) :=
  match v with
  | Some (JStr s) => match parse_pattern s with Some p => Some (Some p) | None => None end
  | Some _ => None
  | None => Some None
  end.

Definition read_dependencies (v : option json) : list (bytes * list bytes) :=
  match v with Some (JObj l) => map (fun m => (m.1, texts (Some m.2))) l | _ => [] end.

(** [enum] is used with texts only. *)
Definition enum_of_texts (v : json) : bool :=
  match get "enum" v with
  | Some (JArr l) =>
      match get "type" v with Some (JStr t) => bool_decide (t = str "string") | _ => false end &&
      forallb (fun x => match x with JStr _ => true | _ => false end) l
  | Some _ => false
  | None => true
  end.

Definition read_keywords (v : json) : option keywords :=
  if supported v then
    match read_pattern (get "pattern" v) with
    | Some p =>
        if negb (enum_of_texts v) then None else
        Some {| type_ := match get "type" v with
                         | Some (JStr s) => AddType (JStr s)
                         | Some (JArr l) => concat (map AddType l)
                         | Some _ => []
                         | None => all_types
                         end;
                enum_ := match get "enum" v with Some (JArr (x :: l)) => Some (x :: l) | _ => None end;
                required := texts (get "required" v);
                dependencies := read_dependencies (get "dependencies" v);
                additionalProperties_ := match get "additionalProperties" v with Some (JBool b) => b | _ => true end;
                minProperties_ := size_of 0 (get "minProperties" v);
                maxProperties_ := size_of unlimited (get "maxProperties" v);
                minItems_ := size_of 0 (get "minItems" v);
                minLength_ := size_of 0 (get "minLength" v);
                maxLength_ := size_of unlimited (get "maxLength" v);
                pattern_ := p;
                minimum_ := match get "minimum" v with Some (JInt z) => Some z | _ => None end |}
    | None => None
    end
  else None.

(** [#/definitions/name]. *)
Definition resolve (document : json) (target : bytes) : option json :=
  match strip (str "#/definitions/") target with
  | Some name => match get "definitions" document with Some (JObj l) => FindMember name l | _ => None end
  | None => None
  end.

(** GenericSchemaDocument and Schema; [fuel] bounds how deep schemas are nested. *)
Fixpoint compile (fuel : nat) (document v : json) : option schema :=
  match fuel with
  | O => None
  | S fuel =>
      match get "$ref" v with
      | Some (JStr target) => match resolve document target with Some d => compile fuel document d | None => None end
      | Some _ => None
      | None =>
          k ← read_keywords v;
          one ← match get "oneOf" v with
                | Some (JArr []) => Some None
                | Some (JArr l) => option_map Some (mapM (compile fuel document) l)
                | Some _ => None
                | None => Some None
                end;
          props ← match get "properties" v with
                  | Some (JObj l) => mapM (fun m => option_map (pair m.1) (compile fuel document m.2)) l
                  | Some _ => None
                  | None => Some []
                  end;
          items ← match get "items" v with
                  | Some (JObj l) => option_map Some (compile fuel document (JObj l))
                  | Some _ => None
                  | None => Some None
                  end;
          Some (Schema k one props items)
      end
  end.
Definition depth : nat := 16.
Definition SchemaDocument (doc : json) : option schema := compile depth doc doc.

(** ** Hash codes *)

(** The handler that the validator feeds with a value; its stack holds the codes of
    the values that are complete. *)
Module Hasher.
Definition kPrime : Z := 0x100000001b3.
Definition Hash (h d : Z) : Z := u64 (Z.lxor h d * kPrime).

(** The numbers of [Type]. *)
Definition kNullType : Z := 0.
Definition kFalseType : Z := 1.
Definition kTrueType : Z := 2.
Definition kObjectType : Z := 3.
Definition kArrayType : Z := 4.
Definition kStringType : Z := 5.
Definition kNumberType : Z := 6.

Definition WriteBuffer (type : Z) (data : bytes) : Z :=
  fold_left (fun h c => Hash h (uc c)) data (Hash 0x84222325cbf29ce4 type).
Definition WriteType (type : Z) : Z := WriteBuffer type [].
Definition String (s : bytes) : Z := WriteBuffer kStringType s.

(** [static_cast<double>(z)]: the bits of the double next to an integer, of two as
    near as each other the even one. *)
Definition double_bits (z : Z) : Z :=
  let m := Z.abs z in
  let e := Z.log2 m in
  let half := 2 ^ (e - 53) in
  let q := m / 2 ^ (e - 52) in
  let r := m mod 2 ^ (e - 52) in
  let up := (half <? r) || (half =? r) && Z.odd q in
  let mantissa := if e <=? 52 then m * 2 ^ (52 - e) else if up then q + 1 else q in
  if z =? 0 then 0 else (if z <? 0 then 2 ^ 63 else 0) + (e + 1023) * 2 ^ 52 + (mantissa - 2 ^ 52).

(** Int, Uint, Int64 and Uint64: a [Number] is the integer and the double. *)
Definition WriteNumber (z : Z) : Z := WriteBuffer kNumberType (le_bytes 8 (u64 z) ++ le_bytes 8 (double_bits z)).

Definition EndObject (kv : list (Z * Z)) : Z :=
  fold_left (fun h e => Z.lxor h (Hash e.1 e.2)) kv (Hash 0 kObjectType).
Definition EndArray (e : list Z) : Z := fold_left Hash e (Hash 0 kArrayType).

(** [v.Accept(hasher)] and GetHashCode.  Numbers that are no integers are kept as
    text, so that they have no code here; no [enum] of the two schemas is asked for
    one ([enum_of_texts]). *)
Fixpoint hash_code (v : json) : option Z :=
  match v with
  | JNull => Some (WriteType kNullType)
  | JBool b => Some (WriteType (if b then kTrueType else kFalseType))
  | JInt z => Some (WriteNumber z)
  | JDouble _ => None
  | JStr s => Some (String s)
  | JArr l =>
      option_map EndArray
        ((fix codes (l : list json) : option (list Z) :=
            match l with
            | [] => Some []
            | x :: l => match hash_code x, codes l with Some h, Some hs => Some (h :: hs) | _, _ => None end
            end) l)
  | JObj ms =>
      option_map EndObject
        ((fix codes (ms : list (bytes * json)) : option (list (Z * Z)) :=
            match ms with
            | [] => Some []
            | m :: ms => match hash_code m.2, codes ms with Some h, Some hs => Some ((String m.1, h) :: hs) | _, _ => None end
            end) ms)
  end.
End Hasher.

Definition same_hash (a b : json) : bool :=
  match Hasher.hash_code a, Hasher.hash_code b with Some x, Some y => x =? y | _, _ => false end.

(** ** Validation *)

Definition accepts_type (types : list stype) (v : json) : bool :=
  let has t := bool_decide (t ∈ types) in
  match v with
  | JNull => has TNull
  | JBool _ => has TBoolean
  | JInt _ => has TInteger || has TNumber
  | JDouble _ => has TNumber
  | JStr _ => has TString
  | JArr _ => has TArray
  | JObj _ => has TObject
  end.

(** Schema::String. *)
Definition accepts_text (k : keywords) (s : bytes) : bool :=
  match CountStringCodePoint s with
  | Some n => (minLength_ k <=? n) && (n <=? maxLength_ k)
  | None => true
  end &&
  match pattern_ k with Some p => matches p (regex_text s) | None => true end.

Definition names (l : members) : list bytes := map fst l.

(** EndObject. *)
Definition accepts_members (k : keywords) (l : members) : bool :=
  let has n := bool_decide (n ∈ names l) in
  forallb has (required k) &&
  (minProperties_ k <=? zlen l) && (zlen l <=? maxProperties_ k) &&
  forallb (fun d => negb (has d.1) || forallb has d.2) (dependencies k).

(** The members a schema names beside its properties. *)
Definition named (k : keywords) : list bytes :=
  required k ++ concat (map (fun d => d.1 :: d.2) (dependencies k)).

Definition accepts_enum (k : keywords) (v : json) : bool :=
  match enum_ k with Some l => existsb (same_hash v) l | None => true end.

(** The checks that look at no other schema.  [minimum] of a [double] is a
    comparison of doubles: no schema here asks for it. *)
Definition accepts (k : keywords) (v : json) : bool :=
  accepts_type (type_ k) v && accepts_enum k v &&
  match v with
  | JInt z => match minimum_ k with Some m => m <=? z | None => true end
  | JStr s => accepts_text k s
  | JArr l => minItems_ k <=? zlen l
  | JObj l => accepts_members k l
  | _ => true
  end.

(** [doc.Accept(validator)]. *)
Fixpoint validate (sch : schema) (v : json) {struct sch} : bool :=
  match sch with
  | Schema k one props items =>
      accepts k v &&
      match one with
      | Some l => (fix count (l : list schema) : nat :=
                     match l with [] => 0 | s :: l' => (if validate s v then 1 else 0) + count l' end) l =? 1
      | None => true
      end%nat &&
      match v with
      | JObj ms =>
          forallb (fun m =>
            (fix property (ps : list (bytes * schema)) : bool :=
               match ps with
               | [] => additionalProperties_ k || bool_decide (m.1 ∈ named k)
               | (n, s) :: ps' => if bool_decide (n = m.1) then validate s m.2 else property ps'
               end) props) ms
      | JArr l => match items with Some s => forallb (validate s) l | None => true end
      | _ => true
      end
  end.

(** ** jsonrpc_schema *)

Inductive schema_type := type_request | type_methods.
#[export] Instance schema_type_eq_dec : EqDecision schema_type.
Proof. solve_decision. Defined.

(** m_schemas. *)
Definition schema_map : Type := list (schema_type * schema).

Definition get_schema (m_schemas : schema_map) (t : schema_type) : option schema :=
  option_map snd (List.find (fun e => bool_decide (e.1 = t)) m_schemas).

Section Load.
(** The two resources that are linked into the program. *)
Variable resource : schema_type -> bytes.
Variable parse_json : bytes -> option json.

(** load(schema_type): what it returns, and the map. *)
Definition load (t : schema_type) (m_schemas : schema_map) : option schema * schema_map :=
  match parse_json (resource t) with
  | None => (None, m_schemas)
  | Some doc =>
      match SchemaDocument doc with
      | None => (None, m_schemas)
      | Some s =>
          match get_schema m_schemas t with
          | Some _ => (None, m_schemas)
          | None => (Some s, m_schemas ++ [(t, s)])
          end
      end
  end.

(** jsonrpc_schema(). *)
Definition jsonrpc_schema_new : schema_map := (load type_methods (load type_request []).2).2.

(** What prepare and the session do with a schema: the error of a document that it
    does not accept.  [get_error] is the validator's GetError. *)
Variable get_error : schema -> json -> json.
Definition checker (t : schema_type) : option (json -> option json) :=
  option_map (fun s doc => if validate s doc then None else Some (get_error s doc)) (get_schema jsonrpc_schema_new t).
End Load.

(** ** The schemas *)

Definition txt (s : string) : json := JStr (str s).
Definition arr (l : list json) : json := JArr l.
Definition obj (l : list (string * json)) : json := JObj (map (fun m => (str m.1, m.2)) l).

Definition schema_request : json :=
  obj [
    ("title", txt "Metahash JSON-RPC Request Schema");
    ("description", txt "JSON-RPC request message");
    ("definitions", obj [
      ("request", obj [
        ("type", txt "object");
        ("properties", obj [
          ("jsonrpc", obj [("type", txt "string"); ("enum", arr [txt "1.0"; txt "2.0"])]);
          ("id", obj [
            ("oneOf", arr [
              obj [
                ("type", txt "string");
                ("minLength", JInt 1);
                ("maxLength", JInt 19);
                ("pattern", txt "^[0-9]*$")];
              obj [
                ("type", txt "integer");
                ("minimum", JInt 1);
                ("exclusiveMaximum", JInt 9223372036854775807)];
              obj [("type", txt "null")]])]);
          ("method", obj [
            ("type", txt "string");
            ("enum", arr [
              txt "generate";
              txt "create-tx";
              txt "create-tx2";
              txt "send-tx";
              txt "get-count-blocks";
              txt "get-last-txs";
              txt "get-block-by-hash";
              txt "get-block-by-number";
              txt "get-blocks";
              txt "get-dump-block-by-number";
              txt "get-dump-block-by-hash";
              txt "get-tx";
              txt "fetch-balance";
              txt "fetch-balances";
              txt "fetch-history";
              txt "fetch-history-filter";
              txt "status";
              txt "fetch-transaction";
              txt "validate"])]);
          ("params", obj [("oneOf", arr [obj [("type", txt "object")]; obj [("type", txt "array")]])])]);
        ("required", arr [txt "jsonrpc"; txt "method"]);
        ("additionalProperties", JBool false)])]);
    ("oneOf", arr [
      obj [("$ref", txt "#/definitions/request")];
      obj [("type", txt "array"); ("minItems", JInt 1); ("items", obj [("$ref", txt "#/definitions/request")])]])].

Definition schema_methods : json :=
  obj [
    ("title", txt "Metahash JSON-RPC Methods Schema");
    ("description", txt "JSON-RPC request message");
    ("definitions", obj [
      ("address", obj [
        ("type", txt "string");
        ("minLength", JInt 52);
        ("maxLength", JInt 52);
        ("pattern", txt "^(0x)[0-9aAbBcCdDeEfF]*$")]);
      ("hash", obj [
        ("type", txt "string");
        ("minLength", JInt 64);
        ("maxLength", JInt 64);
        ("pattern", txt "^[0-9aAbBcCdDeEfF]*$")]);
      ("unsigned_int", obj [("type", txt "integer"); ("minimum", JInt 0)]);
      ("unsigned_int_or_string", obj [
        ("oneOf", arr [
          obj [("$ref", txt "#/definitions/unsigned_int")];
          obj [("type", txt "string"); ("pattern", txt "^[0-9]*$")]])]);
      ("unsigned_int_or_p2p", obj [
        ("oneOf", arr [
          obj [("$ref", txt "#/definitions/unsigned_int")];
          obj [("type", txt "string"); ("pattern", txt "^(forP2P)$")]])])]);
    ("oneOf", arr [
      obj [
        ("type", txt "object");
        ("properties", obj [("method", obj [("type", txt "string"); ("pattern", txt "^(generate)$")])]);
        ("required", arr [txt "method"])];
      obj [
        ("type", txt "object");
        ("properties", obj [
          ("method", obj [("type", txt "string"); ("pattern", txt "^(validate)$")]);
          ("params", obj [
            ("type", txt "object");
            ("properties", obj [("address", obj [("$ref", txt "#/definitions/address")])]);
            ("required", arr [txt "address"]);
            ("additionalProperties", JBool false)])]);
        ("required", arr [txt "method"; txt "params"])];
      obj [
        ("type", txt "object");
        ("properties", obj [
          ("method", obj [("type", txt "string"); ("pattern", txt "^(fetch-balance)$")]);
          ("params", obj [
            ("type", txt "object");
            ("properties", obj [("address", obj [("$ref", txt "#/definitions/address")])]);
            ("required", arr [txt "address"]);
            ("additionalProperties", JBool false)])]);
        ("required", arr [txt "method"; txt "params"])];
      obj [
        ("type", txt "object");
        ("properties", obj [
          ("method", obj [("type", txt "string"); ("pattern", txt "^(fetch-balances)$")]);
          ("params", obj [
            ("type", txt "object");
            ("properties", obj [
              ("addresses", obj [
                ("type", txt "array");
                ("minItems", JInt 1);
                ("items", obj [("$ref", txt "#/definitions/address")])])]);
            ("required", arr [txt "addresses"]);
            ("additionalProperties", JBool false)])]);
        ("required", arr [txt "method"; txt "params"])];
      obj [
        ("type", txt "object");
        ("properties", obj [
          ("method", obj [("type", txt "string"); ("pattern", txt "^(fetch-history)$")]);
          ("params", obj [
            ("type", txt "object");
            ("properties", obj [
              ("address", obj [("$ref", txt "#/definitions/address")]);
              ("countTxs", obj [("$ref", txt "#/definitions/unsigned_int")]);
              ("beginTx", obj [("$ref", txt "#/definitions/unsigned_int")])]);
            ("required", arr [txt "address"]);
            ("additionalProperties", JBool false);
            ("dependencies", obj [("countTxs", arr [txt "beginTx"]); ("beginTx", arr [txt "countTxs"])])])]);
        ("required", arr [txt "method"; txt "params"])];
      obj [
        ("type", txt "object");
        ("properties", obj [
          ("method", obj [("type", txt "string"); ("pattern", txt "^(fetch-history-filter)$")]);
          ("params", obj [
            ("type", txt "object");
            ("properties", obj [
              ("address", obj [("$ref", txt "#/definitions/address")]);
              ("filters", obj [
                ("minProperties", JInt 1);
                ("maxProperties", JInt 6);
                ("type", txt "object");
                ("properties", obj [
                  ("isInput", obj [("type", txt "boolean")]);
                  ("isOutput", obj [("type", txt "boolean")]);
                  ("isSuccess", obj [("type", txt "boolean")]);
                  ("isForging", obj [("type", txt "boolean")]);
                  ("isTest", obj [("type", txt "boolean")]);
                  ("isDelegate", obj [("type", txt "boolean")])]);
                ("additionalProperties", JBool false)])]);
            ("required", arr [txt "address"; txt "filters"]);
            ("additionalProperties", JBool false)])]);
        ("required", arr [txt "method"; txt "params"])];
      obj [
        ("type", txt "object");
        ("properties", obj [
          ("method", obj [("type", txt "string"); ("pattern", txt "^(create-tx)(2)?$")]);
          ("params", obj [
            ("type", txt "object");
            ("properties", obj [
              ("address", obj [("$ref", txt "#/definitions/address")]);
              ("to", obj [("$ref", txt "#/definitions/address")]);
              ("value", obj [("$ref", txt "#/definitions/unsigned_int_or_string")]);
              ("fee", obj [("$ref", txt "#/definitions/unsigned_int_or_string")]);
              ("nonce", obj [("$ref", txt "#/definitions/unsigned_int_or_string")]);
              ("data", obj [("type", txt "string")])]);
            ("required", arr [txt "address"; txt "to"; txt "value"; txt "nonce"]);
            ("additionalProperties", JBool false)])]);
        ("required", arr [txt "method"; txt "params"])];
      obj [
        ("type", txt "object");
        ("properties", obj [
          ("method", obj [("type", txt "string"); ("pattern", txt "^(send-tx)$")]);
          ("params", obj [
            ("oneOf", arr [
              obj [
                ("type", txt "object");
                ("properties", obj [
                  ("address", obj [("$ref", txt "#/definitions/address")]);
                  ("to", obj [("$ref", txt "#/definitions/address")]);
                  ("value", obj [("$ref", txt "#/definitions/unsigned_int_or_string")]);
                  ("fee", obj [("$ref", txt "#/definitions/unsigned_int_or_string")]);
                  ("nonce", obj [("$ref", txt "#/definitions/unsigned_int_or_string")]);
                  ("data", obj [("type", txt "string")])]);
                ("required", arr [txt "address"; txt "to"; txt "value"]);
                ("additionalProperties", JBool false)];
              obj [
                ("type", txt "object");
                ("properties", obj [
                  ("address", obj [("$ref", txt "#/definitions/address")]);
                  ("transaction", obj [("type", txt "string")])]);
                ("required", arr [txt "address"; txt "transaction"]);
                ("additionalProperties", JBool false)]])])]);
        ("required", arr [txt "method"; txt "params"])];
      obj [
        ("type", txt "object");
        ("properties", obj [
          ("method", obj [("type", txt "string"); ("pattern", txt "^(get-block-by-hash)$")]);
          ("params", obj [
            ("type", txt "object");
            ("properties", obj [
              ("hash", obj [("$ref", txt "#/definitions/hash")]);
              ("type", obj [("$ref", txt "#/definitions/unsigned_int_or_p2p")]);
              ("countTxs", obj [("$ref", txt "#/definitions/unsigned_int")]);
              ("beginTx", obj [("$ref", txt "#/definitions/unsigned_int")])]);
            ("required", arr [txt "hash"]);
            ("dependencies", obj [("countTxs", arr [txt "beginTx"]); ("beginTx", arr [txt "countTxs"])]);
            ("additionalProperties", JBool false)])]);
        ("required", arr [txt "method"; txt "params"])];
      obj [
        ("type", txt "object");
        ("properties", obj [
          ("method", obj [("type", txt "string"); ("pattern", txt "^(get-block-by-number)$")]);
          ("params", obj [
            ("type", txt "object");
            ("properties", obj [
              ("number", obj [("$ref", txt "#/definitions/unsigned_int")]);
              ("type", obj [("$ref", txt "#/definitions/unsigned_int_or_p2p")]);
              ("countTxs", obj [("$ref", txt "#/definitions/unsigned_int")]);
              ("beginTx", obj [("$ref", txt "#/definitions/unsigned_int")])]);
            ("required", arr [txt "number"]);
            ("dependencies", obj [("countTxs", arr [txt "beginTx"]); ("beginTx", arr [txt "countTxs"])]);
            ("additionalProperties", JBool false)])]);
        ("required", arr [txt "method"; txt "params"])];
      obj [
        ("type", txt "object");
        ("properties", obj [("method", obj [("type", txt "string"); ("pattern", txt "^(get-count-blocks)$")])]);
        ("required", arr [txt "method"])];
      obj [
        ("type", txt "object");
        ("properties", obj [
          ("method", obj [("type", txt "string"); ("pattern", txt "^(get-dump-block-by-hash)$")]);
          ("params", obj [
            ("type", txt "object");
            ("properties", obj [
              ("hash", obj [("$ref", txt "#/definitions/hash")]);
              ("fromByte", obj [("$ref", txt "#/definitions/unsigned_int")]);
              ("toByte", obj [("$ref", txt "#/definitions/unsigned_int")])]);
            ("required", arr [txt "hash"]);
            ("dependencies", obj [("fromByte", arr [txt "toByte"]); ("toByte", arr [txt "fromByte"])]);
            ("additionalProperties", JBool false)])]);
        ("required", arr [txt "method"; txt "params"])];
      obj [
        ("type", txt "object");
        ("properties", obj [
          ("method", obj [("type", txt "string"); ("pattern", txt "^(get-dump-block-by-number)$")]);
          ("params", obj [
            ("type", txt "object");
            ("properties", obj [
              ("number", obj [("$ref", txt "#/definitions/unsigned_int")]);
              ("fromByte", obj [("$ref", txt "#/definitions/unsigned_int")]);
              ("toByte", obj [("$ref", txt "#/definitions/unsigned_int")])]);
            ("required", arr [txt "number"]);
            ("dependencies", obj [("fromByte", arr [txt "toByte"]); ("toByte", arr [txt "fromByte"])]);
            ("additionalProperties", JBool false)])]);
        ("required", arr [txt "method"; txt "params"])];
      obj [
        ("type", txt "object");
        ("properties", obj [
          ("method", obj [("type", txt "string"); ("pattern", txt "^(get-tx)$")]);
          ("params", obj [
            ("type", txt "object");
            ("properties", obj [("hash", obj [("$ref", txt "#/definitions/hash")])]);
            ("required", arr [txt "hash"]);
            ("additionalProperties", JBool false)])]);
        ("required", arr [txt "method"; txt "params"])];
      obj [
        ("type", txt "object");
        ("properties", obj [
          ("method", obj [("type", txt "string"); ("pattern", txt "^(fetch-transaction)$")]);
          ("params", obj [
            ("type", txt "object");
            ("properties", obj [("address", obj [("$ref", txt "#/definitions/address")]); ("data", obj [("type", txt "string")])]);
            ("required", arr [txt "address"; txt "data"]);
            ("additionalProperties", JBool false)])]);
        ("required", arr [txt "method"; txt "params"])];
      obj [
        ("type", txt "object");
        ("properties", obj [
          ("method", obj [("type", txt "string"); ("pattern", txt "^(status)$")]);
          ("params", obj [
            ("type", txt "object");
            ("properties", obj [("cmd", obj [("type", txt "string"); ("enum", arr [txt "keys"])])]);
            ("required", arr [txt "cmd"]);
            ("additionalProperties", JBool false)])]);
        ("required", arr [txt "method"])];
      obj [
        ("type", txt "object");
        ("properties", obj [("method", obj [("type", txt "string"); ("pattern", txt "^(get-last-txs)$")])]);
        ("required", arr [txt "method"])];
      obj [
        ("type", txt "object");
        ("properties", obj [
          ("method", obj [("type", txt "string"); ("pattern", txt "^(get-blocks)$")]);
          ("params", obj [
            ("type", txt "object");
            ("properties", obj [
              ("countBlocks", obj [("$ref", txt "#/definitions/unsigned_int")]);
              ("beginBlock", obj [("$ref", txt "#/definitions/unsigned_int")]);
              ("type", obj [("type", txt "string")]);
              ("direction", obj [("type", txt "string")])]);
            ("required", arr [txt "countBlocks"; txt "beginBlock"]);
            ("additionalProperties", JBool false)])]);
        ("required", arr [txt "method"])]])].

(** RapidJSON's [typeless_]: accepts everything. *)
Definition typeless : schema :=
  Schema {| type_ := all_types; enum_ := None; required := []; dependencies := []; additionalProperties_ := true;
            minProperties_ := 0; maxProperties_ := unlimited; minItems_ := 0; minLength_ := 0; maxLength_ := unlimited;
            pattern_ := None; minimum_ := None |} None [] None.

(** The two schemas as loaded. *)
Definition request_schema : schema := default typeless (SchemaDocument schema_request).
Definition methods_schema : schema := default typeless (SchemaDocument schema_methods).

(** ** Lemmas *)

(** A schema with [enum] accepts texts only, so that no other code is asked for. *)
Lemma enum_means_text v k l : read_keywords v = Some k -> enum_ k = Some l -> type_ k = [TString].
Proof.
  unfold read_keywords. destruct (supported v); [|done]. destruct (read_pattern _); [|done].
  unfold enum_of_texts. destruct (get "enum" v) as [[| | | | |e|]|]; try done; [|by intros [= <-]].
  destruct (get "type" v) as [[| | | |t| |]|]; try done. case_bool_decide as E; [|done]. subst t.
  destruct (forallb _ e); [|done]. by intros [= <-] _.
Qed.

(** What one double stands for. *)
Lemma double_bits_samples :
  map Hasher.double_bits [0; 1; -3; 2 ^ 53 + 1; 2 ^ 53 + 3; 2 ^ 64 - 1; - 2 ^ 63] =
  [0; 0x3ff0000000000000; 0xc008000000000000; 0x4340000000000000; 0x4340000000000002; 0x43f0000000000000; 0xc3e0000000000000].
Proof. vm_compute. reflexivity. Qed.

Lemma schemas_compile :
  SchemaDocument schema_request = Some request_schema /\ SchemaDocument schema_methods = Some methods_schema.
Proof. split; vm_compute; reflexivity. Qed.

Definition find_property (name : bytes) (props : list (bytes * schema)) : option schema :=
  option_map snd (List.find (fun p => bool_decide (p.1 = name)) props).

Definition valid_count (l : list schema) (v : json) : nat := length (List.filter (fun s => validate s v) l).

(** The member of an object. *)
Definition valid_member (k : keywords) (props : list (bytes * schema)) (m : bytes * json) : bool :=
  match find_property m.1 props with
  | Some s => validate s m.2
  | None => additionalProperties_ k || bool_decide (m.1 ∈ named k)
  end.

Lemma validate_eq k one props items v :
  validate (Schema k one props items) v =
  accepts k v && match one with Some l => valid_count l v =? 1 | None => true end%nat &&
  match v with
  | JObj ms => forallb (valid_member k props) ms
  | JArr l => match items with Some s => forallb (validate s) l | None => true end
  | _ => true
  end.
Proof.
  cbn [validate]. f_equal; [f_equal|].
  - destruct one as [l|]; [|done]. f_equal. unfold valid_count. induction l as [|s l IH]; [done|].
    cbn [List.filter]. destruct (validate s v); cbn [length]; rewrite IH; done.
  - destruct v as [| | | | |l|ms]; try done. induction ms as [|m ms IH]; [done|]. cbn [forallb]. f_equal; [|done].
    unfold valid_member, find_property. clear IH. induction props as [|[n s] props IHp]; [done|]. cbn [List.find fst].
    destruct (bool_decide (n = m.1)); [done|exact IHp].
Qed.

Lemma FindMember_elem name l v : FindMember name l = Some v -> (name, v) ∈ l.
Proof.
  induction l as [|[n w] l IH]; cbn; [done|]. case_bool_decide as E; [|intros H; constructor; by apply IH].
  intros [= ->]. subst. constructor.
Qed.

Lemma FindMember_names name l : name ∈ names l -> exists v, FindMember name l = Some v.
Proof.
  induction l as [|[n w] l IH]; cbn; [by intros ?%not_elem_of_nil|]. case_bool_decide as E; [by eexists|].
  intros [?|H]%elem_of_cons; [by subst|]. by apply IH.
Qed.

Lemma validate_type k one props items v :
  validate (Schema k one props items) v = true -> accepts_type (type_ k) v = true.
Proof. rewrite validate_eq. unfold accepts. by intros [[[[? ?]%andb_prop ?]%andb_prop ?]%andb_prop ?]%andb_prop. Qed.

(** A value of a type that is one of [ts]. *)
Lemma accepts_type_mono ts ts' v :
  forallb (fun t => bool_decide (t ∈ ts')) ts = true -> accepts_type ts v = true -> accepts_type ts' v = true.
Proof.
  intros Hs. assert (forall t, bool_decide (t ∈ ts) = true -> bool_decide (t ∈ ts') = true) as H.
  { intros t Ht%bool_decide_eq_true. rewrite forallb_forall in Hs. apply list_elem_of_In in Ht. by apply Hs in Ht. }
  destruct v; cbn; rewrite ?orb_true_iff; intuition.
Qed.

(** What a schema demands of a member of an object. *)
Definition demands (sch : schema) (name : bytes) : option schema :=
  match sch with
  | Schema k _ props _ =>
      if bool_decide (type_ k = [TObject]) && bool_decide (name ∈ required k) then find_property name props else None
  end.

Lemma demanded sch name s doc :
  demands sch (str name) = Some s -> validate sch doc = true ->
  exists v, get name doc = Some v /\ validate s v = true.
Proof.
  destruct sch as [k one props items]. unfold demands. intros Hd Hv.
  destruct (bool_decide (type_ k = [TObject])) eqn:Et; [|done]. apply bool_decide_eq_true in Et.
  destruct (bool_decide (str name ∈ required k)) eqn:Er; [|done]. apply bool_decide_eq_true in Er. cbn [andb] in Hd.
  pose proof (validate_type _ _ _ _ _ Hv) as Ht. rewrite Et in Ht.
  destruct doc as [| | | | | |ms]; try (vm_compute in Ht; discriminate).
  rewrite validate_eq in Hv. apply andb_prop in Hv as [Hv Hm]. apply andb_prop in Hv as [Ha _].
  unfold accepts in Ha. apply andb_prop in Ha as [_ Ha]. unfold accepts_members in Ha.
  repeat (apply andb_prop in Ha as [Ha _]). rewrite forallb_forall in Ha.
  apply list_elem_of_In in Er. apply Ha, bool_decide_eq_true, FindMember_names in Er as [v Hg].
  exists v. split; [done|]. rewrite forallb_forall in Hm.
  pose proof (FindMember_elem _ _ _ Hg) as Hin. apply list_elem_of_In, Hm in Hin. unfold valid_member in Hin.
  cbn [fst snd] in Hin. by rewrite Hd in Hin.
Qed.

Lemma validate_one k l props items v :
  validate (Schema k (Some l) props items) v = true -> exists s, s ∈ l /\ validate s v = true.
Proof.
  rewrite validate_eq. intros [[_ Hc]%andb_prop _]%andb_prop. apply Nat.eqb_eq in Hc. unfold valid_count in Hc.
  destruct (List.filter _ l) as [|s r] eqn:E; [done|]. assert (In s (s :: r)) as Hin by by left.
  rewrite <- E in Hin. apply filter_In in Hin as [Hin Hs]. exists s. by rewrite list_elem_of_In.
Qed.

(** A member that no schema knows. *)
Lemma validate_unknown k one props items ms name v :
  validate (Schema k one props items) (JObj ms) = true -> additionalProperties_ k = false -> (name, v) ∈ ms ->
  find_property name props = None -> name ∉ named k -> False.
Proof.
  rewrite validate_eq. intros [_ Hm]%andb_prop Ha Hin Hf Hn. rewrite forallb_forall in Hm.
  apply list_elem_of_In, Hm in Hin. unfold valid_member in Hin. cbn [fst] in Hin. rewrite Hf, Ha in Hin.
  by rewrite bool_decide_eq_false_2 in Hin.
Qed.
(** *** Texts *)

Lemma ascii_char c s : in_range 0 127 c = true -> utf8_len (c :: s) = Some 1%nat.
Proof. cbn [utf8_len]. by intros ->. Qed.

Lemma count_ascii s : Forall (fun c => in_range 0 127 c = true) s -> CountStringCodePoint s = Some (zlen s).
Proof.
  unfold CountStringCodePoint. induction 1 as [|c s Hc Hs IH]; [done|]. cbn [length count_code_points].
  rewrite ascii_char by done. change (drop 1 (c :: s)) with s. by rewrite IH, zlen_cons.
Qed.

(** A text without NUL and without characters beyond ASCII. *)
Definition plain (s : bytes) : Prop := Forall (fun c => in_range 1 127 c = true) s.

Lemma plain_ascii c : in_range 1 127 c = true -> in_range 0 127 c = true /\ c <> Ascii.ascii_of_nat 0.
Proof.
  unfold in_range. intros [H1 H2]%andb_prop. zbool. split; [apply andb_true_intro; split; apply Z.leb_le; lia|].
  intros ->. vm_compute in H1. by apply H1.
Qed.

Lemma regex_text_plain s : plain s -> regex_text s = s.
Proof.
  unfold regex_text. induction 1 as [|c s Hc Hs IH]; [done|]. cbn [length decoded].
  destruct (plain_ascii c Hc) as [Ha Hz]. rewrite ascii_char by done. cbn [head].
  rewrite bool_decide_eq_false_2 by congruence. change (drop 1 (c :: s)) with s. by rewrite IH.
Qed.

Lemma matches_star class s : matches [PStar class] s = true <-> Forall (fun c => in_class class c = true) s.
Proof.
  induction s as [|c s IH]; [done|]. rewrite Forall_cons, <- IH. cbn [matches]. rewrite bool_decide_eq_false_2 by done.
  cbn [orb]. by rewrite andb_true_iff.
Qed.

(** *** Hash codes *)

Module HasherFacts.
Import Hasher.

(** [kPrime] is odd. *)
Definition kInverse : Z := 0xce965057aff6957b.
Lemma kPrime_inverse : (kPrime * kInverse) mod 2 ^ 64 = 1.
Proof. vm_compute. reflexivity. Qed.

Lemma Hash_range h d : 0 <= Hash h d < 2 ^ 64.
Proof. by apply wrap_range. Qed.

Lemma mul_prime_inj a b :
  0 <= a < 2 ^ 64 -> 0 <= b < 2 ^ 64 -> u64 (a * kPrime) = u64 (b * kPrime) -> a = b.
Proof.
  intros Ha Hb E. unfold wrap in E.
  assert (forall x, 0 <= x < 2 ^ 64 -> ((x * kPrime) mod 2 ^ 64 * kInverse) mod 2 ^ 64 = x) as Hx.
  { intros x Hx. rewrite Z.mul_mod_idemp_l, <- Z.mul_assoc, <- Z.mul_mod_idemp_r, kPrime_inverse, Z.mul_1_r by done.
    by apply Z.mod_small. }
  by rewrite <- (Hx a Ha), E, Hx.
Qed.

Lemma lxor_u64 a b : 0 <= a < 2 ^ 64 -> 0 <= b < 2 ^ 64 -> 0 <= Z.lxor a b < 2 ^ 64.
Proof.
  intros Ha Hb. split; [by apply Z.lxor_nonneg; lia|].
  destruct (decide (Z.lxor a b = 0)) as [->|Hn]; [lia|].
  assert (0 <= Z.lxor a b) by (apply Z.lxor_nonneg; lia). apply Z.log2_lt_pow2; [lia|].
  pose proof (Z.log2_lxor a b ltac:(lia) ltac:(lia)).
  assert (forall x, 0 <= x < 2 ^ 64 -> Z.log2 x < 64) as Hl.
  { intros x Hx. destruct (decide (x = 0)) as [->|]; [done|]. apply Z.log2_lt_pow2; lia. }
  pose proof (Hl a Ha). pose proof (Hl b Hb). lia.
Qed.

(** A step loses nothing of either argument. *)
Lemma Hash_inj_l h h' d :
  0 <= h < 2 ^ 64 -> 0 <= h' < 2 ^ 64 -> 0 <= d < 2 ^ 64 -> Hash h d = Hash h' d -> h = h'.
Proof.
  intros Hh Hh' Hd E. apply mul_prime_inj in E; [|by apply lxor_u64..].
  apply (f_equal (fun x => Z.lxor x d)) in E. by rewrite !Z.lxor_assoc, Z.lxor_nilpotent, !Z.lxor_0_r in E.
Qed.

Lemma Hash_inj_r h d d' :
  0 <= h < 2 ^ 64 -> 0 <= d < 2 ^ 64 -> 0 <= d' < 2 ^ 64 -> Hash h d = Hash h d' -> d = d'.
Proof.
  intros Hh Hd Hd' E. apply mul_prime_inj in E; [|by apply lxor_u64..].
  apply (f_equal (Z.lxor h)) in E. by rewrite <- !Z.lxor_assoc, Z.lxor_nilpotent, !Z.lxor_0_l in E.
Qed.

Lemma fold_Hash_range s h : 0 <= h < 2 ^ 64 -> 0 <= fold_left (fun h c => Hash h (uc c)) s h < 2 ^ 64.
Proof. revert h. induction s as [|c s IH]; intros h Hh; [done|]. apply IH, Hash_range. Qed.

Lemma uc_u64 c : 0 <= uc c < 2 ^ 64.
Proof. pose proof (uc_range c). lia. Qed.

Lemma fold_Hash_inj s h h' :
  0 <= h < 2 ^ 64 -> 0 <= h' < 2 ^ 64 ->
  fold_left (fun h c => Hash h (uc c)) s h = fold_left (fun h c => Hash h (uc c)) s h' -> h = h'.
Proof.
  revert h h'. induction s as [|c s IH]; intros h h' Hh Hh' E; [done|]. cbn [fold_left] in E.
  apply IH in E; [|apply Hash_range..]. by eapply Hash_inj_l, E; [..|apply uc_u64].
Qed.

(** Two texts that differ in one byte have different codes. *)
Lemma one_byte_tells a c c' b : c <> c' -> String (a ++ c :: b) <> String (a ++ c' :: b).
Proof.
  intros Hc E. apply Hc. unfold String, WriteBuffer in E. rewrite !fold_left_app in E. cbn [fold_left] in E.
  apply fold_Hash_inj in E; [|apply Hash_range..].
  apply Hash_inj_r in E; [by apply uc_inj|apply fold_Hash_range, Hash_range|apply uc_u64..].
Qed.
End HasherFacts.

Module Sample.
(** A text that is no method and has the code of one. *)
Lemma collision : Hasher.String (str "ngivbpskWx7vr2") = Hasher.String (str "status").
Proof. vm_compute. reflexivity. Qed.

(** Members in another order have the same code, elements of an array do not. *)
Lemma order_of_members :
  same_hash (obj [("a", JInt 1); ("b", txt "2")]) (obj [("b", txt "2"); ("a", JInt 1)]) = true /\
  same_hash (arr [JInt 1; JNull]) (arr [JNull; JInt 1]) = false.
Proof. split; vm_compute; reflexivity. Qed.
End Sample.
