(* ===== verification/Helpers.v ===== *)
(** Helpers: src/common/stringUtils.h, jsonUtils.h, duration.h, parallel_for.h and
    src/sync/P2P/LimitArray.h. *)

From Stdlib Require Import String.
From S2P Require Import Prelude Text Json.
Open Scope Z_scope.

(** ** stringUtils.h *)

Fixpoint ltrim (s : bytes) : bytes :=
  match s with
  | c :: s' => if isspace c then ltrim s' else s
  | [] => []
  end.
Definition rtrim (s : bytes) : bytes := rev (ltrim (rev s)).
Definition trim (s : bytes) : bytes := ltrim (rtrim s).

(** first.find(second) == 0. *)
Definition beginWith (first second : bytes) : bool := bool_decide (take (length second) first = second).

(** A copy in small or capital letters. *)
Definition toLower (s : bytes) : bytes := map tolower s.
Definition toUpper (s : bytes) : bytes := map toupper s.

(** No space at either end. *)
Definition tight (s : bytes) : Prop :=
  (forall c, head s = Some c -> isspace c = false) /\ (forall c, head (rev s) = Some c -> isspace c = false).

Lemma ltrim_spec s : exists p, s = p ++ ltrim s /\ forallb isspace p = true /\ (forall c, head (ltrim s) = Some c -> isspace c = false).
Proof.
  induction s as [|c s (p & E1 & E2 & E3)]; [by exists []|]. cbn. destruct (isspace c) eqn:Ec.
  - exists (c :: p). cbn. rewrite Ec. split_and!; [by f_equal|done|done].
  - exists []. split_and!; [done|done|]. cbn. by intros d [= <-].
Qed.

(** ** jsonUtils.h *)

(** The types that getOpt reads, and what it returns. *)
Inductive json_type := TString | TInt | TUint | TLong | TUlong | TDouble | TBool | TArray | TObject.
Inductive json_read :=
| RString (s : bytes) | RNumber (z : Z) | RDouble (t : bytes) | RBool (b : bool) | RArray (l : list json) | RObject (l : members).

(** getOpt<T>(value): unsigned types are read through the signed accessors and
    converted; a text is cut at its first NUL. *)
Definition getOpt (t : json_type) (o : json) : option json_read :=
  match t, o with
  | TString, JStr s => Some (RString (c_str s))
  | TInt, JInt z => if IsInt o then Some (RNumber z) else None
  | TUint, JInt z => if IsInt o then Some (RNumber (u32 z)) else None
  | TLong, JInt z => if IsInt64 o then Some (RNumber z) else None
  | TUlong, JInt z => if IsInt64 o then Some (RNumber (u64 z)) else None
  | TDouble, JDouble d => Some (RDouble d)
  | TBool, JBool b => Some (RBool b)
  | TArray, JArr l => Some (RArray l)
  | TObject, JObj l => Some (RObject l)
  | _, _ => None
  end.

(** getOpt<T>(object, name) and get<T>(object, name). *)
Definition getOpt_member (t : json_type) (obj : members) (name : string) : option json_read :=
  match FindMember (str name) obj with Some v => getOpt t v | None => None end.
Definition get_member (t : json_type) (obj : members) (name : string) : res json_read :=
  match getOpt_member t obj name with
  | Some r => Ok r
  | None => Throw (UserException (str "Field " ++ str name ++ str " not found"))
  end.
(** The overloads for a document, which has to be an object. *)
Definition get_document (t : json_type) (doc : json) (name : string) : res json_read :=
  match doc with
  | JObj l => get_member t l name
  | _ => Throw (UserException (str "Json document not object"))
  end.

(** getOpt<T>(object, name, default) and get<T>(value). *)
Definition getOpt_default (t : json_type) (obj : members) (name : string) (defaultValue : json_read) : json_read :=
  default defaultValue (getOpt_member t obj name).
Definition get_value (t : json_type) (o : json) : res json_read :=
  match getOpt t o with
  | Some r => Ok r
  | None => Throw (UserException (str "Incorrect json"))
  end.

(** ** duration.h *)

(** The constructors of std::chrono::milliseconds and hours take a signed count. *)
Definition count64 (n : Z) : Z := swrap 64 n.
Definition getSecondNumber (millisecond : Z) : Z := u64 (Z.quot (count64 millisecond) 1000).
Definition getHourNumber (millisecond : Z) : Z := u64 (Z.quot (count64 millisecond) 3600000).
Definition getDayNumber (millisecond : Z) : Z := getHourNumber millisecond / 24.
(** The product of the conversion to milliseconds is signed. *)
Definition getTimestampForDay (dayNumber : Z) : res Z :=
  let hour := count64 (u64 (dayNumber * 24)) in
  let ms := hour * 3600000 in
  if (- 2 ^ 63 <=? ms) && (ms <? 2 ^ 63) then Ok (u64 ms) else Throw Undefined.

(** ** LimitArray.h *)

Record LimitArray := { limit : Z; arr : list Z }.
Definition LimitArray_new (n : Z) : LimitArray := {| limit := n; arr := [] |}.
Definition add (a : LimitArray) (element : Z) : LimitArray :=
  let l := arr a ++ [element] in
  {| limit := limit a; arr := if limit a <? zlen l then tail l else l |}.
Definition max (a : LimitArray) : Z :=
  match arr a with [] => 0 | x :: l => fold_left Z.max l x end.
Definition filled (a : LimitArray) : bool := zlen (arr a) =? limit a.

(** ** parallel_for.h *)

Section ParallelFor.
Context {A : Type}.

(** What the worker does with an element: it returns, the program is being stopped,
    or it throws. *)
Inductive outcome := Returned | Stopped | Threw (e : exn).
Variable worker : nat -> A -> outcome.

(** workerThrowWrapper on a range: the elements it hands to the worker and the
    exception it records. *)
Fixpoint worker_range (thread : nat) (l : list A) : list A * option exn :=
  match l with
  | [] => ([], None)
  | x :: l' =>
      match worker thread x with
      | Returned => let (done, e) := worker_range thread l' in (x :: done, e)
      | Stopped => ([x], None)
      | Threw e => ([x], Some e)
      end
  end.

(** The loop that creates the threads: the range of each, and what is left for the
    calling thread. *)
Fixpoint ranges (k : nat) (thread : nat) (step : nat) (l : list A) : list (nat * list A) :=
  match k with
  | O => [(0%nat, l)]
  | S k' => (thread, take step l) :: ranges k' (S thread) step (drop step l)
  end.

(** The ranges of all threads; [countThreads] of 0 divides by it. *)
Definition distribute (countThreads : Z) (l : list A) : res (list (nat * list A)) :=
  let n := zlen l in
  if n =? 0 then Ok []
  else
    let countThreads := swrap 32 (Z.min (u64 countThreads) n) in
    if countThreads =? 0 then Throw Undefined
    else
      let step := Z.quot n countThreads in
      CHECK (negb (step =? 0)) "step == 0";;
      Ok (ranges (Z.to_nat (countThreads - 1)) 1 (Z.to_nat step) l).

(** parallelFor, when the threads finish in the order [order] (positions in the list
    of ranges): what each did, and the exception that is thrown again, the last one
    that was recorded. *)
Definition parallelFor (countThreads : Z) (l : list A) (order : list nat) : res (list (list A) * option exn) :=
  rs ← distribute countThreads l;
  let results := map (fun r => worker_range r.1 r.2) rs in
  let error := fold_left (fun e i => match results !! i with Some (_, Some e') => Some e' | _ => e end) order None in
  Ok (map fst results, error).
End ParallelFor.

(** ** Lemmas *)

Lemma ranges_concat {A} k t step (l : list A) : concat (map snd (ranges k t step l)) = l.
Proof.
  revert t l. induction k as [|k IH]; intros t l; cbn; [by rewrite app_nil_r|]. by rewrite IH, take_drop.
Qed.

Lemma ranges_threads {A} k t step (l : list A) : map fst (ranges k t step l) = seq t k ++ [0%nat].
Proof. revert t l. induction k as [|k IH]; intros t l; cbn; [done|]. by rewrite IH. Qed.

Lemma ranges_nonempty {A} k t step (l : list A) :
  (0 < step)%nat -> (S k * step <= length l)%nat -> Forall (fun r => r.2 <> []) (ranges k t step l).
Proof.
  revert t l. induction k as [|k IH]; intros t l Hs Hl; cbn.
  - constructor; [|done]. cbn. destruct l; [cbn in Hl; lia|done].
  - constructor; [|apply IH; [done|rewrite length_drop; lia]]. cbn. destruct l, step; cbn in *; done || lia.
Qed.

Lemma worker_range_done {A} (worker : nat -> A -> outcome) t l :
  Forall (fun x => worker t x = Returned) l -> worker_range worker t l = (l, None).
Proof. induction 1 as [|x l Hx Hl IH]; [done|]. cbn. by rewrite Hx, IH. Qed.

Lemma c_str_clean s : zero ∉ c_str s.
Proof.
  induction s as [|c s IH]; cbn; [apply not_elem_of_nil|]. case_bool_decide; [apply not_elem_of_nil|].
  rewrite elem_of_cons. intros [E|E]; [congruence|done].
Qed.

(** ** Theorems *)

(** trim takes the spaces off both ends and nothing else. *)
Theorem trim_spec s :
  exists p q, s = p ++ trim s ++ q /\ forallb isspace p = true /\ forallb isspace q = true /\ tight (trim s).
Proof.
  unfold trim, rtrim. destruct (ltrim_spec (rev s)) as (q & E1 & E2 & E3).
  destruct (ltrim_spec (rev (ltrim (rev s)))) as (p & F1 & F2 & F3). exists p, (rev q). split_and!.
  - rewrite app_assoc, <- F1, <- rev_app_distr, <- E1. by rewrite rev_involutive.
  - done.
  - rewrite forallb_forall in E2 |- *. intros x Hx. apply E2. by apply in_rev.
  - split; [exact F3|]. intros c Hc. apply E3. set (r := ltrim (rev s)) in *.
    apply (f_equal (@rev ascii)) in F1. rewrite rev_involutive, rev_app_distr in F1. rewrite F1.
    destruct (rev (ltrim (rev r))) as [|d l]; [done|]. exact Hc.
Qed.

(** The values of the C++ types. *)
Definition has_type (t : json_type) (r : json_read) : Prop :=
  match t, r with
  | TString, RString s => zero ∉ s
  | TInt, RNumber z => - 2 ^ 31 <= z < 2 ^ 31
  | TUint, RNumber z => 0 <= z < 2 ^ 32
  | TLong, RNumber z => - 2 ^ 63 <= z < 2 ^ 63
  | TUlong, RNumber z => 0 <= z < 2 ^ 64
  | TDouble, RDouble _ | TBool, RBool _ | TArray, RArray _ | TObject, RObject _ => True
  | _, _ => False
  end.

(** The JSON value of what was read. *)
Definition value_of (r : json_read) : json :=
  match r with
  | RString s => JStr s | RNumber z => JInt z | RDouble d => JDouble d | RBool b => JBool b
  | RArray l => JArr l | RObject l => JObj l
  end.
Definition is_unsigned (t : json_type) : bool := match t with TUint | TUlong => true | _ => false end.

Lemma getOpt_typed t v r :
  getOpt t v = Some r ->
  has_type t r /\ (is_unsigned t = false -> v = value_of r \/ exists s, v = JStr s /\ r = RString (c_str s)).
Proof.
  destruct t, v; cbn [getOpt]; try done.
  all: try (unfold IsInt, IsInt64; destruct (_ && _) eqn:Er; [|done]; apply andb_true_iff in Er as [?%Z.leb_le ?%Z.ltb_lt]).
  all: intros [= <-]; split; [|try done; eauto]; cbn [has_type]; try done.
  - apply c_str_clean.
  - by apply wrap_range.
  - by apply wrap_range.
Qed.

Lemma getOpt_reads t r : is_unsigned t = false -> has_type t r -> getOpt t (value_of r) <> None.
Proof.
  destruct t, r; try done; cbn [has_type value_of getOpt]; unfold IsInt, IsInt64; intros _ Hr.
  all: by rewrite (proj2 (Z.leb_le _ _)), (proj2 (Z.ltb_lt _ _)) by lia.
Qed.

(** What get reads has the C++ type that was asked for, whatever the document, and
    every failure is a UserException.  For the types other than the unsigned ones, what
    was read is the value of the field, a text up to its first NUL; and when nothing
    was read, the document is not an object, the field is missing or it holds no value
    of the type. *)
Theorem get_typed t doc name :
  match get_document t doc name with
  | Ok r => has_type t r /\ exists l v, doc = JObj l /\ FindMember (str name) l = Some v /\
      (is_unsigned t = false -> v = value_of r \/ exists s, v = JStr s /\ r = RString (c_str s))
  | Throw e => (exists msg, e = UserException msg) /\
      (is_unsigned t = false -> forall l v r,
        doc = JObj l -> FindMember (str name) l = Some v -> has_type t r -> v <> value_of r)
  end.
Proof.
  unfold get_document, get_member, getOpt_member. destruct doc as [| | | | | |l]; try (split; [by eexists|done]).
  destruct (FindMember (str name) l) as [v|] eqn:Ef; [|split; [by eexists|]; intros _ l' v' r [= <-]; congruence].
  destruct (getOpt t v) as [r|] eqn:Eg.
  - destruct (getOpt_typed t v r Eg) as [Ht Hv]. split; [done|]. by exists l, v.
  - split; [by eexists|]. intros Hu l' v' r [= <-]. rewrite Ef. intros [= <-] Hr ->. exact (getOpt_reads t r Hu Hr Eg).
Qed.

(** A number that only an unsigned type holds is not read, and a negative one is
    taken modulo 2^32. *)
Theorem unsigned_read_as_signed z :
  (2 ^ 31 <= z -> getOpt TUint (JInt z) = None) /\
  (- 2 ^ 31 <= z < 0 -> getOpt TUint (JInt z) = Some (RNumber (2 ^ 32 + z))).
Proof.
  unfold getOpt, IsInt. split; intros Hz.
  - by rewrite (proj2 (Z.ltb_ge _ _) Hz), andb_false_r.
  - rewrite (proj2 (Z.leb_le _ _)), (proj2 (Z.ltb_lt _ _)) by lia. cbn [andb]. do 2 f_equal. unfold wrap.
    rewrite <- (Z_mod_plus_full _ 1), Z.mod_small; lia.
Qed.

(** The day of a time within a day whose first millisecond was computed. *)
Theorem day_roundtrip d r :
  0 <= d -> 0 <= r < 86400000 -> d * 86400000 + r < 2 ^ 63 ->
  exists t, getTimestampForDay d = Ok t /\ getDayNumber (t + r) = d.
Proof.
  intros Hd Hr Hb. unfold getTimestampForDay, getDayNumber, getHourNumber, count64.
  assert (u64 (d * 24) = d * 24) as -> by (apply wrap_small; lia). rewrite swrap_small by lia.
  rewrite (proj2 (Z.leb_le _ _)), (proj2 (Z.ltb_lt _ _)) by lia. cbn [andb]. eexists. split; [done|].
  rewrite (wrap_small 64 (d * 24 * 3600000)) by lia. rewrite swrap_small, Z.quot_div_nonneg by lia.
  assert (0 <= (d * 24 * 3600000 + r) / 3600000 < 2 ^ 63) as Hh.
  { split; [apply Z.div_pos; lia|]. apply Z.div_lt_upper_bound; lia. }
  rewrite wrap_small by lia. rewrite Z.div_div by lia. symmetry. apply (Z.div_unique _ _ _ r); lia.
Qed.

Lemma tail_drop {A} (l : list A) : tail l = drop 1 l.
Proof. by destruct l. Qed.

Lemma add_spec n l :
  0 <= n -> arr (fold_left add l (LimitArray_new n)) = drop (length l - Z.to_nat n) l /\
  limit (fold_left add l (LimitArray_new n)) = n.
Proof.
  intros Hn. induction l as [|x l [IH1 IH2]] using rev_ind; [done|]. rewrite fold_left_app. cbn [fold_left add arr limit].
  split; [|done]. rewrite IH1, IH2, length_app, tail_drop, <- drop_app_le, drop_drop by lia. unfold zlen.
  rewrite length_drop, length_app. cbn [length]. case_match eqn:E.
  - apply Z.ltb_lt in E. f_equal. lia.
  - apply Z.ltb_ge in E. f_equal. lia.
Qed.

Lemma fold_max_spec l x : x ≤ fold_left Z.max l x /\ fold_left Z.max l x ∈ x :: l /\ Forall (fun y => y <= fold_left Z.max l x) l.
Proof.
  revert x. induction l as [|y l IH]; intros x; cbn; [split_and!; [lia|constructor|done]|].
  destruct (IH (Z.max x y)) as (H1 & H2 & H3). split_and!; [lia| |constructor; [lia|done]].
  apply elem_of_cons in H2 as [H2|H2]; [|by do 2 constructor]. rewrite H2.
  destruct (Z.max_spec x y) as [[_ ->]|[_ ->]]; [constructor 2|]; constructor.
Qed.

(** A LimitArray holds the last [n] elements that were added; its maximum is that of
    those, and it is filled from the [n]-th on. *)
Theorem limit_array_spec n l :
  0 <= n ->
  let a := fold_left add l (LimitArray_new n) in
  let kept := drop (length l - Z.to_nat n) l in
  arr a = kept /\ (filled a = true <-> n <= zlen l) /\
  match kept with [] => max a = 0 | _ => max a ∈ kept /\ Forall (fun y => y <= max a) kept end.
Proof.
  intros Hn a kept. destruct (add_spec n l Hn) as [Ha Hl]. fold a in Ha, Hl. fold kept in Ha. split; [done|]. split.
  - unfold filled. rewrite Ha, Hl, Z.eqb_eq. unfold kept, zlen. rewrite length_drop. lia.
  - unfold max. rewrite Ha. destruct kept as [|x k]; [done|]. destruct (fold_max_spec k x) as (H1 & H2 & H3).
    split; [done|]. by constructor.
Qed.

(** C31: parallelFor hands every element to exactly one thread.  For a positive number
    of threads and elements, both below 2^31: the ranges of the threads follow each
    other and make up the whole, none is empty, there are as many as threads were
    asked for, or as elements when those are fewer, and the numbers of the threads
    are different.  When the worker returns on every element, each thread handles its
    range to the end and nothing is thrown.  (Without a thread it divides by zero.) *)
Theorem parallelFor_partition {A} (worker : nat -> A -> outcome) n (l : list A) order :
  0 < n < 2 ^ 31 -> l <> [] -> zlen l < 2 ^ 31 ->
  exists rs, distribute n l = Ok rs /\ concat (map snd rs) = l /\ Forall (fun r => r.2 <> []) rs /\
    zlen rs = Z.min n (zlen l) /\ NoDup (map fst rs) /\
    ((forall t x, worker t x = Returned) -> parallelFor worker n l order = Ok (map snd rs, None)).
Proof.
  intros Hn Hl Hz. assert (0 < zlen l) as Hp by (destruct l; [done|]; rewrite zlen_cons; pose proof (zlen_nonneg l); lia).
  set (k := Z.min n (zlen l)). assert (1 <= k <= zlen l) as Hk by lia.
  set (st := Z.to_nat (zlen l / k)). assert (distribute n l = Ok (ranges (Z.to_nat (k - 1)) 1 st l)) as E.
  { unfold distribute. rewrite (proj2 (Z.eqb_neq _ _)) by lia. rewrite (wrap_small 64) by lia.
    fold k. rewrite swrap_small by lia. rewrite (proj2 (Z.eqb_neq k 0)) by lia. rewrite Z.quot_div_nonneg by lia.
    assert (1 <= zlen l / k) by (apply Z.div_le_lower_bound; lia).
    by rewrite (proj2 (Z.eqb_neq _ 0)) by lia. }
  assert (1 <= zlen l / k) as Hst by (apply Z.div_le_lower_bound; lia).
  exists (ranges (Z.to_nat (k - 1)) 1 st l). split; [exact E|]. split; [apply ranges_concat|]. split; [|split; [|split]].
  - apply ranges_nonempty; [lia|]. pose proof (Z.mul_div_le (zlen l) k). unfold st, zlen in *. nia.
  - unfold zlen at 1. rewrite <- (length_map fst), ranges_threads, length_app, length_seq. cbn. lia.
  - rewrite ranges_threads. apply NoDup_app. split_and!; [apply NoDup_ListNoDup, seq_NoDup| |by apply NoDup_singleton].
    intros t Ht Hz'. apply list_elem_of_singleton in Hz' as ->. apply elem_of_seq in Ht. lia.
  - intros Hw. unfold parallelFor. rewrite E. cbn [mbind res_bind]. set (rs := ranges _ _ _ _).
    assert (map (fun r => worker_range worker r.1 r.2) rs = map (fun r => (r.2, None)) rs) as ->.
    { apply map_ext. intros r. apply worker_range_done. apply Forall_forall. auto. }
    rewrite map_map. cbn [fst]. do 2 f_equal. induction order as [|i order IH]; [done|]. cbn [fold_left].
    rewrite list_lookup_fmap. by destruct (rs !! i).
Qed.

(** With no thread at all it divides by zero. *)
Theorem parallelFor_no_threads {A} (worker : nat -> A -> outcome) (l : list A) order :
  l <> [] -> parallelFor worker 0 l order = Throw Undefined.
Proof.
  intros Hl. unfold parallelFor, distribute. assert (0 < zlen l) by (destruct l; [done|]; rewrite zlen_cons; pose proof (zlen_nonneg l); lia).
  rewrite (proj2 (Z.eqb_neq _ _)) by lia. change (u64 0) with 0. by rewrite Z.min_l by lia.
Qed.

(** ** Witnesses *)

Module Sample.
Lemma day_roundtrip_witness : exists t, getTimestampForDay 19000 = Ok t /\ getDayNumber (t + 5) = 19000.
Proof. apply (day_roundtrip 19000 5); lia. Defined.

Lemma limit_array_spec_witness :
  let a := fold_left add [4; 9; 2; 7] (LimitArray_new 3) in
  arr a = [9; 2; 7] /\ (filled a = true <-> 3 <= 4) /\ max a ∈ [9; 2; 7] /\ Forall (fun y => y <= max a) [9; 2; 7].
Proof. apply (limit_array_spec 3 [4; 9; 2; 7]). lia. Defined.

Lemma parallelFor_partition_witness :
  exists rs, distribute 2 [1; 2; 3] = Ok rs /\ concat (map snd rs) = [1; 2; 3] /\
    parallelFor (fun _ _ => Returned) 2 [1; 2; 3] [1%nat; 0%nat] = Ok (map snd rs, None).
Proof.
  destruct (parallelFor_partition (fun _ _ => Returned) 2 [1; 2; 3] [1%nat; 0%nat]) as (rs & H1 & H2 & _ & _ & _ & H3).
  - lia.
  - discriminate.
  - reflexivity.
  - exists rs. split; [exact H1|]. split; [exact H2|]. apply H3. reflexivity.
Defined.

Lemma parallelFor_no_threads_witness : parallelFor (fun _ (_ : Z) => Returned) 0 [1] [] = Throw Undefined.
Proof. apply (parallelFor_no_threads (fun _ _ => Returned) [1] []). discriminate. Defined.
End Sample.
