(* ===== verification/HistoryCache.v ===== *)
(** The cache of transaction histories: class [history_cache] of
    src/cache/history_cache.h and .cpp.

    For each watched address the cache keeps the names of its transactions, in
    memory and under the address in a database, and each transaction under its
    name.  LevelDB is a map, as in BlockStore.v: [put_ok i] tells whether the
    [i]-th write succeeds.  The worker asks a node for the number of transactions
    and then for pages of ten; a [reply] is what get_response gives after such a
    call.  RapidJSON asserts the type of a value it is asked for, so a document
    of another shape is outside the model ([Undefined]). *)

From Stdlib Require Import String.
From S2P Require Import Prelude Text Hex Crypto Transaction Json.
Open Scope Z_scope.

Record info := {
  begin : Z;
  tx_count : Z;
  addr : bytes;
  trx : json
}.
(** info(address). *)
Definition info_new (address : bytes) : info := {| begin := 0; tx_count := 0; addr := address; trx := JArr [] |}.
Definition with_begin (v : info) (b : Z) : info :=
  {| begin := b; tx_count := tx_count v; addr := addr v; trx := trx v |}.
Definition with_trx (v : info) (t : json) : info :=
  {| begin := begin v; tx_count := tx_count v; addr := addr v; trx := t |}.

(** The database, [None] before it is opened, with the number of writes so far. *)
Record database := { db_map : option (gmap bytes bytes); db_puts : nat }.

Record history_cache := {
  hst_run : bool;
  m_addrs : list info;
  hst_db : database
}.
Definition history_cache_new : history_cache :=
  {| hst_run := false; m_addrs := []; hst_db := {| db_map := None; db_puts := 0 |} |}.

(** What get_response returns: no object, or the body of the response. *)
Definition reply : Type := option bytes.

(** Accessors of a value that assert its type. *)
Definition Size (v : json) : res Z := match v with JArr l => Ok (zlen l) | _ => Throw Undefined end.
Definition GetArray (v : json) : res (list json) := match v with JArr l => Ok l | _ => Throw Undefined end.
Definition GetString (v : json) : res bytes := match v with JStr s => Ok s | _ => Throw Undefined end.
Definition GetUint (v : json) : res Z :=
  match v with JInt z => if IsUint (JInt z) then Ok z else Throw Undefined | _ => Throw Undefined end.
Definition find_member (v : json) (name : string) : res (option json) :=
  match v with JObj l => Ok (FindMember (str name) l) | _ => Throw Undefined end.

(** [strncmp(a, b, n) == 0]. *)
Definition strncmp_eq (a b : bytes) (n : nat) : bool :=
  bool_decide (take n (c_str a ++ [zero]) = take n (c_str b ++ [zero])).

Section History.
Context `{OpenSSL}.
Variable parse_json : bytes -> option json.
Variable stringify : json -> bytes.
Variable parse_error : bytes -> Z * bytes.
Variable put_ok : nat -> bool.

(** ** Writing *)

Definition db_put (d : database) (k v : bytes) : bool * database :=
  match db_map d with
  | None => (false, d)
  | Some m =>
      if put_ok (db_puts d) then (true, {| db_map := Some (<[k := v]> m); db_puts := S (db_puts d) |})
      else (false, {| db_map := Some m; db_puts := S (db_puts d) |})
  end.

(** save_transaction(name, trx), with the name as a C string. *)
Definition save_transaction (d : database) (name : bytes) (t : json) : bool * database :=
  db_put d (c_str name) (stringify t).

Definition save_history (d : database) (v : info) : bool * database := db_put d (addr v) (stringify (trx v)).

(** ** Starting *)

(** The addresses of the settings that are valid. *)
Fixpoint watched (l : list bytes) : res (list info) :=
  match l with
  | [] => Ok []
  | a :: l' =>
      ok ← validate_address a;
      r ← watched l';
      Ok (if ok : bool then info_new a :: r else r)
  end.

(** The loop that reads the names back. *)
Definition restore_info (m : gmap bytes bytes) (v : info) : res info :=
  match m !! addr v with
  | None => Ok v
  | Some text =>
      match parse_json text with
      | None => Ok (with_trx v JNull)
      | Some t => n ← Size t; Ok {| begin := begin v; tx_count := n; addr := addr v; trx := t |}
      end
  end.

Fixpoint restore_all (m : gmap bytes bytes) (l : list info) : res (list info) :=
  match l with
  | [] => Ok []
  | v :: l' => v' ← restore_info m v; r ← restore_all m l'; Ok (v' :: r)
  end.

(** start: [dirs] tells whether the two folders exist or could be created,
    [opened] is the content of the database when it opens. *)
Definition start (dirs : bool) (opened : option (gmap bytes bytes)) (addrs : list bytes) (c : history_cache)
  : res (bool * history_cache) :=
  if negb dirs then Ok (false, c)
  else
    match opened with
    | None => Ok (false, c)
    | Some m =>
        let d := {| db_map := Some m; db_puts := db_puts (hst_db c) |} in
        new ← watched addrs;
        let l := m_addrs c ++ new in
        if bool_decide (l = []) then Ok (false, {| hst_run := hst_run c; m_addrs := l; hst_db := d |})
        else
          l ← restore_all m l;
          Ok (true, {| hst_run := true; m_addrs := l; hst_db := d |})
    end.

(** ** The worker *)

(** The checks of a response that both loops make, up to its result. *)
Definition checked_reply (r : reply) : option json :=
  match r with
  | None => None
  | Some body =>
      if bool_decide (body = []) then None
      else
        match parse_json body with
        | None => None
        | Some doc => match get_error doc with Some _ => None | None => get_result doc end
        end
  end.

(** fetch-balance: the address with its new count, [None] when there is nothing
    to do for it in this pass. *)
Definition on_balance (v : info) (r : reply) : res (option info) :=
  match checked_reply r with
  | None => Ok None
  | Some result =>
      f ← find_member result "count_txs";
      match (f : option json) with
      | None => Ok None
      | Some count =>
          n ← GetUint count;
          size ← Size (trx v);
          Ok (if size =? n then None
              else Some {| begin := 0; tx_count := n; addr := addr v; trx := trx v |})
      end
  end.

(** Whether one of the names is the name of the transaction. *)
Fixpoint known (names : list json) (name : bytes) : res bool :=
  match names with
  | [] => Ok false
  | t :: rest =>
      s ← GetString t;
      if strncmp_eq s name (length s) then Ok true else known rest name
  end.

(** The loop over the transactions of a page. *)
Fixpoint add_page (v : info) (d : database) (l : list json) : res (info * database) :=
  match l with
  | [] => Ok (v, d)
  | t :: l' =>
      f ← find_member t "transaction";
      match (f : option json) with
      | None => add_page v d l'
      | Some value =>
          names ← GetArray (trx v);
          name ← GetString value;
          found ← known names name;
          if found : bool then add_page v d l'
          else
            let (ok, d) := save_transaction d name t in
            if ok then add_page (with_trx v (JArr (names ++ [JStr name]))) d l' else add_page v d l'
      end
  end.

(** The body of the loop over pages. *)
Definition on_page (v : info) (d : database) (r : reply) : res (info * database) :=
  match checked_reply r with
  | None => Ok (v, d)
  | Some (JArr []) => Ok (with_begin v 0, d)
  | Some (JArr l) =>
      r ← add_page v d l;
      let '(v, d) := (r : info * database) in
      Ok (with_begin v (u32 (begin v + 10)), d)
  | Some _ => Ok (v, d)
  end.

(** [while (v.begin < v.tx_count && v.trx.Size() < v.tx_count)]: each round takes
    one reply; [None] while the worker waits for the next. *)
Fixpoint pages (v : info) (d : database) (replies : list reply) : option (res (info * database * list reply)) :=
  match Size (trx v) with
  | Throw e => Some (Throw e)
  | Ok size =>
      if (begin v <? tx_count v) && (size <? tx_count v) then
        match replies with
        | [] => None
        | r :: rest =>
            match on_page v d r with
            | Throw e => Some (Throw e)
            | Ok (v, d) => pages v d rest
            end
        end
      else Some (Ok (v, d, replies))
  end.

(** The body of the loop over addresses. *)
Definition update (v : info) (d : database) (replies : list reply) : option (res (info * database * list reply)) :=
  match replies with
  | [] => None
  | r :: rest =>
      match on_balance v r with
      | Throw e => Some (Throw e)
      | Ok None => Some (Ok (v, d, rest))
      | Ok (Some v) =>
          match pages v d rest with
          | Some (Ok (v, d, rest)) => Some (Ok (v, (save_history d v).2, rest))
          | other => other
          end
      end
  end.

(** One pass of routine over the addresses. *)
Fixpoint pass (l : list info) (d : database) (replies : list reply)
  : option (res (list info * database * list reply)) :=
  match l with
  | [] => Some (Ok ([], d, replies))
  | v :: l' =>
      match update v d replies with
      | Some (Ok (v, d, rest)) =>
          match pass l' d rest with
          | Some (Ok (r, d, rest)) => Some (Ok (v :: r, d, rest))
          | other => other
          end
      | Some (Throw e) => Some (Throw e)
      | None => None
      end
  end.

(** ** Reading *)

(** rapidjson::Type as a number. *)
Definition type_number (v : json) : Z :=
  match v with
  | JNull => 0 | JBool false => 1 | JBool true => 2 | JObj _ => 3 | JArr _ => 4 | JStr _ => 5
  | JInt _ | JDouble _ => 6
  end.

(** The loop over the names: those that are missing, empty or no JSON are left out. *)
Fixpoint read_transactions (m : gmap bytes bytes) (names : list json) : res (list json) :=
  match names with
  | [] => Ok []
  | t :: rest =>
      name ← GetString t;
      r ← read_transactions m rest;
      Ok (match m !! c_str name with
          | None => r
          | Some [] => r
          | Some text => match parse_json text with Some d => d :: r | None => r end
          end)
  end.

(** get_history: its result and the document. *)
Definition get_history (c : history_cache) (address : bytes) : res (bool * json) :=
  let a := to_lower address in
  if negb (existsb (fun v => bool_decide (a = addr v)) (m_addrs c)) then
    Ok (false, JStr (str "Address is not found"))
  else
    match db_map (hst_db c) with
    | None => Ok (false, JStr (str "Database is not initialized"))
    | Some m =>
        match m !! a with
        | None => Ok (false, JStr (str_concat [str "Database error "; str "NotFound: "]))
        | Some text =>
            match parse_json text with
            | None => Ok (false, JStr (str_concat [str "History parse error "; to_string (parse_error text).1]))
            | Some (JArr names) => l ← read_transactions m names; Ok (true, JArr l)
            | Some v => Ok (false, JStr (str_concat [str "History has different format "; to_string (type_number v)]))
            end
        end
    end.
End History.

(** ** What is kept *)

Definition names_json (names : list bytes) : json := JArr (map JStr names).

Lemma names_json_inj l k : names_json l = names_json k -> l = k.
Proof.
  unfold names_json. intros [= E]. revert k E. induction l as [|a l IH]; intros [|b k]; cbn; try done.
  intros [= -> E]. by rewrite (IH k E).
Qed.

(** [t] is a transaction of that name that survives printing and parsing. *)
Definition stored_as (parse_json : bytes -> option json) (stringify : json -> bytes) (n : bytes) (t : json) : Prop :=
  (exists l, t = JObj l /\ FindMember (str "transaction") l = Some (JStr n)) /\
  parse_json (stringify t) = Some t /\ stringify t <> [].

Section Facts.
Context {parse_json : bytes -> option json} {stringify : json -> bytes}.
Context {parse_error : bytes -> Z * bytes} {put_ok : nat -> bool}.
Abbreviation stored := (stored_as parse_json stringify).

(** Every name is there once, with its transaction in the database. *)
Definition cached (m : gmap bytes bytes) (names : list bytes) : Prop :=
  NoDup names /\ Forall (fun n => c_str n = n /\ exists t, m !! n = Some (stringify t) /\ stored n t) names.

(** Transactions as a node lists them: with a name, which is not the address
    [a] whose history they belong to. *)
Definition listed (a : bytes) (t : json) : Prop := exists n, stored n t /\ c_str n = n /\ n <> a.

(** A reply that leads to nothing, or a page. *)
Definition fair_reply (a : bytes) (r : reply) : Prop :=
  match checked_reply parse_json r with Some (JArr l) => Forall (listed a) l | _ => True end.

Lemma c_str_prefix_eq s x :
  c_str s = s -> c_str x = x -> (strncmp_eq s x (length s) = true <-> s `prefix_of` x).
Proof.
  intros Hs Hx. unfold strncmp_eq. rewrite bool_decide_eq_true, Hs, Hx, take_app_length. split.
  - intros E. destruct (decide (length s <= length x)%nat).
    + rewrite take_app_le in E by done. exists (drop (length s) x). rewrite E at 1. by rewrite take_drop.
    + rewrite take_ge in E by (rewrite length_app; cbn; lia). subst s.
      exfalso. clear -Hs Hx. assert (c_str (x ++ [zero]) = c_str x) as E0.
      { clear Hs Hx. induction x as [|c x IH]; [done|]. cbn. case_bool_decide; [done|]. by rewrite IH. }
      rewrite E0, Hx in Hs. apply (f_equal length) in Hs. rewrite length_app in Hs. cbn in Hs. lia.
  - intros [k ->]. rewrite <- app_assoc. by rewrite take_app_length.
Qed.

Lemma known_spec names x :
  Forall (fun n => c_str n = n) names -> c_str x = x ->
  exists b, known (map JStr names) x = Ok b /\ (b = true <-> exists n, n ∈ names /\ n `prefix_of` x).
Proof.
  intros Hn Hx. induction Hn as [|n names Hc Hn (b & IH1 & IH2)]; cbn [map known].
  - exists false. split; [done|]. split; [done|]. intros (n & Hin & _). by apply not_elem_of_nil in Hin.
  - cbn [GetString mbind res_bind]. destruct (strncmp_eq n x (length n)) eqn:E.
    + exists true. split; [done|]. split; [|done]. intros _. apply c_str_prefix_eq in E; [|done..].
      exists n. split; [apply list_elem_of_here|done].
    + exists b. split; [done|]. rewrite IH2. split.
      * intros (k & Hk & Hp). exists k. split; [by apply list_elem_of_further|done].
      * intros (k & Hk & Hp). apply elem_of_cons in Hk as [->|Hk]; [|by exists k].
        apply c_str_prefix_eq in Hp; [congruence|done..].
Qed.

Lemma cached_plain m names : cached m names -> Forall (fun n => c_str n = n) names.
Proof. intros [_ H]. eapply Forall_impl; [exact H|]. by intros n [? _]. Qed.

(** Writing under a key that is no name changes nothing that is kept. *)
Lemma cached_insert m names k x : cached m names -> k ∉ names -> cached (<[k := x]> m) names.
Proof.
  intros [Hn Hf] Hk. split; [done|]. rewrite Forall_forall in Hf |- *. intros n Hin.
  destruct (Hf n Hin) as (Hc & t & Ht & Hs). split; [done|]. exists t. split; [|done].
  rewrite lookup_insert_ne by (intros ->; done). done.
Qed.

Lemma cached_add m names n t :
  cached m names -> n ∉ names -> c_str n = n -> stored n t -> cached (<[n := stringify t]> m) (names ++ [n]).
Proof.
  intros Hc Hn Hp Hs. destruct (cached_insert m names n (stringify t) Hc Hn) as [Hnd Hf]. split.
  - apply NoDup_app. split_and!; [done| |apply NoDup_singleton].
    intros x Hx Hx'. apply list_elem_of_singleton in Hx' as ->. done.
  - apply Forall_app. split; [done|]. constructor; [|done]. split; [done|]. exists t.
    by rewrite lookup_insert_eq.
Qed.

(** What pages with the transactions [seen] do: names are only added, each with a
    transaction of the pages that is stored under it; what is stored for the names
    that were there, and the record of the address, are not touched.  When every
    write succeeds, each transaction of the pages has its name in the list, or a
    beginning of its name. *)
Definition extends (a : bytes) (seen : list json) (v v' : info) (d d' : database) : Prop :=
  addr v' = addr v /\ tx_count v' = tx_count v /\
  exists m m' names new, db_map d = Some m /\ db_map d' = Some m' /\ trx v = names_json names /\
    trx v' = names_json (names ++ new) /\ cached m' (names ++ new) /\ (a ∉ names ++ new) /\ m' !! a = m !! a /\
    Forall (fun n => m' !! n = m !! n) names /\
    Forall (fun n => exists t, t ∈ seen /\ stored n t /\ m' !! n = Some (stringify t)) new /\
    ((forall i, put_ok i = true) ->
     Forall (fun t => exists n n', stored n t /\ n' ∈ names ++ new /\ n' `prefix_of` n) seen).

(** An address whose names are kept. *)
Definition good (a : bytes) (v : info) (d : database) : Prop :=
  exists m names, db_map d = Some m /\ trx v = names_json names /\ cached m names /\ (a ∉ names).

Lemma extends_refl a v d : good a v d -> extends a [] v v d d.
Proof.
  intros (m & names & H1 & H2 & H3 & H4). split; [done|]. split; [done|]. exists m, m, names, [].
  rewrite app_nil_r. split_and!; try done. by apply Forall_forall.
Qed.

Lemma extends_good a seen v v' d d' : extends a seen v v' d d' -> good a v' d'.
Proof. intros (_ & _ & m & m' & ns & new & H1 & H2 & H3 & H4 & H5 & H6 & _). by exists m', (ns ++ new). Qed.

Lemma extends_trans a s1 s2 v1 v2 v3 d1 d2 d3 :
  extends a s1 v1 v2 d1 d2 -> extends a s2 v2 v3 d2 d3 -> extends a (s1 ++ s2) v1 v3 d1 d3.
Proof.
  intros (A1 & A2 & m1 & m2 & n1 & k1 & H1 & H2 & H3 & H4 & H5 & H6 & H7 & H8 & H9 & H10)
         (B1 & B2 & m2' & m3 & n2 & k2 & K1 & K2 & K3 & K4 & K5 & K6 & K7 & K8 & K9 & K10).
  assert (m2' = m2) as -> by congruence. assert (n2 = n1 ++ k1) as -> by (apply names_json_inj; congruence).
  rewrite <- (app_assoc n1) in *. apply Forall_app in K8 as [K8 K8'].
  split; [congruence|]. split; [congruence|]. exists m1, m3, n1, (k1 ++ k2). split_and!; try done; [congruence|..].
  - rewrite Forall_forall in *. intros n Hn. by rewrite K8, H8.
  - rewrite Forall_app, !Forall_forall in *. split; intros n Hn.
    + destruct (H9 n Hn) as (t & Ht & Hs & Hm). exists t. rewrite K8' by done. rewrite elem_of_app. eauto.
    + destruct (K9 n Hn) as (t & Ht & Hs & Hm). exists t. rewrite elem_of_app. eauto.
  - intros Hok. apply Forall_app. split; [|by apply K10]. eapply Forall_impl; [by apply H10|].
    intros t (n & n' & Hs & Hn & Hp). exists n, n'. split_and!; [done| |done]. rewrite app_assoc, elem_of_app. by left.
Qed.

(** One transaction of a page. *)
Lemma add_one_extends a v d t :
  good a v d -> listed a t ->
  exists v' d', (forall l, add_page stringify put_ok v d (t :: l) = add_page stringify put_ok v' d' l) /\
    begin v' = begin v /\ extends a [t] v v' d d'.
Proof.
  intros (m & names & Hd & Hv & Hc & Ha) (n & Hs & Hp & Hna).
  assert (exists l0, t = JObj l0 /\ FindMember (str "transaction") l0 = Some (JStr n)) as (l0 & Et & Hf) by apply Hs.
  destruct (known_spec names n (cached_plain _ _ Hc) Hp) as (b & Hk & Hb).
  assert (forall l, add_page stringify put_ok v d (t :: l) =
    if b then add_page stringify put_ok v d l
    else let (ok, d) := save_transaction stringify put_ok d n t in
         if ok then add_page stringify put_ok (with_trx v (JArr (map JStr names ++ [JStr n]))) d l else add_page stringify put_ok v d l)
    as Hadd.
  { intros l. cbn [add_page]. rewrite Et at 1. cbn [find_member mbind res_bind]. rewrite Hf, Hv.
    cbn [names_json GetArray GetString mbind res_bind]. by rewrite Hk. }
  assert (forall d', db_map d' = Some m -> (exists n', (forall i, put_ok i = true) -> n' ∈ names /\ n' `prefix_of` n) ->
    extends a [t] v v d d') as Hsame.
  { intros d' Hd' [n' Hn']. split; [done|]. split; [done|]. exists m, m, names, []. rewrite app_nil_r.
    split_and!; try done; [by apply Forall_forall|]. intros Hok. constructor; [|done]. exists n, n'. by destruct (Hn' Hok). }
  destruct b.
  { exists v, d. split; [exact Hadd|]. split; [done|]. apply Hsame; [done|].
    destruct Hb as [Hb _]. destruct (Hb eq_refl) as (n' & Hn' & Hpre). by exists n'. }
  unfold save_transaction, db_put in Hadd. rewrite Hd, Hp in Hadd. destruct (put_ok (db_puts d)) eqn:Eo.
  2:{ exists v, {| db_map := Some m; db_puts := S (db_puts d) |}. split; [exact Hadd|]. split; [done|].
      apply Hsame; [done|]. exists n. intros Hok. by rewrite Hok in Eo. }
  assert (n ∉ names) as Hn by (intros Hin; assert (false = true); [apply Hb; by exists n|done]).
  eexists _, _. split; [exact Hadd|]. split; [done|]. split; [done|]. split; [done|].
  exists m, (<[n := stringify t]> m), names, [n]. split_and!; try done.
  - cbn. unfold names_json. by rewrite map_app.
  - by apply cached_add.
  - rewrite elem_of_app, list_elem_of_singleton. intros [?|E]; [done|]. by subst.
  - by rewrite lookup_insert_ne.
  - apply Forall_forall. intros x Hx. rewrite lookup_insert_ne; [done|]. by intros ->.
  - constructor; [|done]. exists t. rewrite lookup_insert_eq. split_and!; [apply list_elem_of_here|done|done].
  - intros _. constructor; [|done]. exists n, n. rewrite elem_of_app, list_elem_of_singleton. split_and!; [done|by right|done].
Qed.

Lemma add_page_extends a v d l :
  good a v d -> Forall (listed a) l ->
  exists v' d', add_page stringify put_ok v d l = Ok (v', d') /\ begin v' = begin v /\ extends a l v v' d d'.
Proof.
  intros Hg Hl. revert v d Hg. induction Hl as [|t l Ht Hl IH]; intros v d Hg.
  { exists v, d. split; [done|]. split; [done|]. by apply extends_refl. }
  destruct (add_one_extends a v d t Hg Ht) as (v1 & d1 & E & Hb & Hx). rewrite E.
  destruct (IH v1 d1 (extends_good _ _ _ _ _ _ Hx)) as (v2 & d2 & E2 & Hb2 & Hx2).
  exists v2, d2. split; [done|]. split; [congruence|]. exact (extends_trans _ [t] l _ _ _ _ _ _ Hx Hx2).
Qed.

Lemma on_balance_same v r v1 :
  on_balance parse_json v r = Ok (Some v1) -> addr v1 = addr v /\ trx v1 = trx v.
Proof.
  unfold on_balance. destruct (checked_reply _ _); [|done]. destruct (find_member _ _) as [[x|]|]; [|done..]. cbn [mbind res_bind].
  destruct (GetUint x); [|done]. cbn [mbind res_bind]. destruct (Size _); [|done]. cbn [mbind res_bind].
  destruct (_ =? _); [done|]. by intros [= <-].
Qed.

(** The transactions of a reply. *)
Definition page_of (r : reply) : list json :=
  match checked_reply parse_json r with Some (JArr l) => l | _ => [] end.

Lemma on_page_extends a v d r :
  good a v d -> fair_reply a r ->
  exists v' d', on_page parse_json stringify put_ok v d r = Ok (v', d') /\ extends a (page_of r) v v' d d'.
Proof.
  intros Hg Hr. pose proof (extends_refl a v d Hg) as He. unfold on_page, fair_reply, page_of in *.
  destruct (checked_reply parse_json r) as [[]|]; try by exists v, d.
  destruct l as [|t l]; [by exists (with_begin v 0), d|].
  destruct (add_page_extends a v d (t :: l) Hg Hr) as (v' & d' & -> & _ & Hx).
  by exists (with_begin v' (u32 (begin v' + 10))), d'.
Qed.

Lemma pages_extends a v d replies :
  good a v d -> Forall (fair_reply a) replies ->
  match pages parse_json stringify put_ok v d replies with
  | None => True
  | Some (Throw _) => False
  | Some (Ok (v', d', rest)) =>
      exists taken, replies = taken ++ rest /\ extends a (flat_map page_of taken) v v' d d'
  end.
Proof.
  intros Hg Hr. revert v d Hg. induction Hr as [|r replies Hfr Hr IH]; intros v d Hg; cbn [pages];
    (assert (exists names, trx v = names_json names) as [names Hn] by (by destruct Hg as (m & ns & _ & ? & _); eexists));
    rewrite Hn; cbn [names_json Size].
  - destruct (_ && _); [done|]. exists []. split; [done|]. by apply extends_refl.
  - destruct (_ && _); [|exists []; split; [done|]; by apply extends_refl].
    destruct (on_page_extends a v d r Hg Hfr) as (v1 & d1 & -> & He).
    specialize (IH v1 d1 (extends_good _ _ _ _ _ _ He)).
    destruct (pages _ _ _ v1 d1 replies) as [[[[v' d'] rest]|]|]; try done.
    destruct IH as (taken & -> & IH). exists (r :: taken). split; [done|]. by eapply extends_trans.
Qed.

(** Reading the transactions of names that are kept gives them back, in order. *)
Lemma read_transactions_cached m names :
  cached m names ->
  exists docs, read_transactions parse_json m (map JStr names) = Ok docs /\
    Forall2 (fun n t => m !! n = Some (stringify t) /\ stored n t) names docs.
Proof.
  intros [_ Hf]. induction Hf as [|n names (Hp & t & Hm & Hs) Hf (docs & IH1 & IH2)].
  - exists []. by split.
  - exists (t :: docs). split; [|by constructor]. cbn [map read_transactions GetString mbind res_bind].
    rewrite IH1. cbn [mbind res_bind]. rewrite Hp, Hm. destruct Hs as (_ & Hpr & Hne).
    destruct (stringify t) as [|c text]; [done|]. by rewrite Hpr.
Qed.

Lemma read_transactions_app m l k docs :
  read_transactions parse_json m (l ++ k) = Ok docs ->
  exists d1 d2, docs = d1 ++ d2 /\ read_transactions parse_json m l = Ok d1 /\ read_transactions parse_json m k = Ok d2.
Proof.
  revert docs. induction l as [|x l IH]; intros docs; [by exists [], docs|]. cbn [app read_transactions].
  intros (name & -> & (r & Hr & [= <-])%bind_Ok)%bind_Ok. cbn [mbind res_bind].
  destruct (IH r Hr) as (d1 & d2 & -> & -> & ->). cbn [mbind res_bind].
  destruct (m !! c_str name) as [[|c text]|]; [by exists d1, d2| |by exists d1, d2].
  destruct (parse_json (c :: text)) as [t|]; [by exists (t :: d1), d2|by exists d1, d2].
Qed.

Lemma read_transactions_same m m' names :
  Forall (fun n => c_str n = n) names -> Forall (fun n => m' !! n = m !! n) names ->
  read_transactions parse_json m' (map JStr names) = read_transactions parse_json m (map JStr names).
Proof.
  intros Hp. induction Hp as [|n names Hp Hps IH]; [done|]. intros [Hn Hs]%Forall_cons.
  cbn [map read_transactions GetString mbind res_bind]. by rewrite (IH Hs), Hp, Hn.
Qed.

(** The text of a document tells it. *)
Lemma stored_text n k t t' : stored n t -> stored k t' -> stringify t = stringify t' -> t = t'.
Proof. intros (_ & H1 & _) (_ & H2 & _) E. rewrite E, H2 in H1. by injection H1 as <-. Qed.

(** The documents of names that are kept, when some were added. *)
Lemma documents_served m m' names new (seen : list json) :
  cached m' (names ++ new) -> Forall (fun n => m' !! n = m !! n) names ->
  Forall (fun n => exists t, t ∈ seen /\ stored n t /\ m' !! n = Some (stringify t)) new ->
  exists before after,
    read_transactions parse_json m (map JStr names) = Ok before /\
    read_transactions parse_json m' (map JStr (names ++ new)) = Ok (before ++ after) /\
    Forall2 (fun n t => t ∈ seen /\ get "transaction" t = Some (JStr n)) new after.
Proof.
  intros Hc Hold Hnew. destruct (read_transactions_cached _ _ Hc) as (docs & Hdocs & Hall).
  pose proof Hdocs as Hsplit. rewrite map_app in Hsplit. apply read_transactions_app in Hsplit as (before & after & -> & Hb & Ha).
  exists before, after. split_and!; [|done|].
  - rewrite <- Hb. symmetry. apply read_transactions_same; [|done]. by apply cached_plain, Forall_app in Hc as [? _].
  - destruct Hc as [Hnd Hf]. apply Forall_app in Hf as [_ Hf].
    assert (cached m' new) as Hcn by (split; [by apply NoDup_app in Hnd as (_ & _ & ?)|done]).
    destruct (read_transactions_cached _ _ Hcn) as (docs' & Hd' & Hall'). rewrite Hd' in Ha. injection Ha as <-.
    clear - Hall' Hnew. induction Hall' as [|n t new docs [Hm Hs] Hall IH]; [constructor|].
    apply Forall_cons in Hnew as [(t' & Ht & Hs' & Hm') Hnew]. constructor; [|by apply IH].
    rewrite Hm in Hm'. assert (t = t') as <- by (injection Hm' as E; by eapply stored_text). split; [done|].
    destruct Hs as [(l & -> & Hn) _]. exact Hn.
Qed.

(** C29: What the worker stored is what a query returns.  When a pass over an
    address ends with its names written, get_history of the address gives first
    what it would have given before, document by document, and then the documents
    of the new names, each of which is one that the node listed on a page of this
    pass, whole and unchanged; each name is there once; and every transaction on
    these pages has its name in the list, unless a beginning of its name is there.
    Assumed are that the writes to the database succeed, that the documents
    survive printing and parsing, and that what the cache held and the node lists
    are transactions whose names have no NUL and are not the address itself (the
    names are keys of the same database). *)
Theorem history_served c v d m names r replies v' d' rest v1 a :
  db_map d = Some m -> trx v = names_json names -> cached m names -> addr v ∉ names ->
  (forall i, put_ok i = true) -> Forall (fair_reply (addr v)) replies ->
  on_balance parse_json v r = Ok (Some v1) ->
  update parse_json stringify put_ok v d (r :: replies) = Some (Ok (v', d', rest)) ->
  parse_json (stringify (trx v')) = Some (trx v') ->
  v' ∈ m_addrs c -> hst_db c = d' -> to_lower a = addr v ->
  exists taken new before after,
    replies = taken ++ rest /\ trx v' = names_json (names ++ new) /\ NoDup (names ++ new) /\
    read_transactions parse_json m (map JStr names) = Ok before /\
    get_history parse_json parse_error c a = Ok (true, JArr (before ++ after)) /\
    Forall2 (fun n t => t ∈ flat_map page_of taken /\ get "transaction" t = Some (JStr n)) new after /\
    Forall (fun t => exists n n', get "transaction" t = Some (JStr n) /\ n' ∈ names ++ new /\ n' `prefix_of` n)
      (flat_map page_of taken).
Proof.
  intros Hdm Hnames Hca Hna Hok Hr Hb Hu Hpr Hin Hd Ha. cbn [update] in Hu. rewrite Hb in Hu.
  assert (addr v1 = addr v /\ trx v1 = trx v) as [Hav Htv] by by eapply on_balance_same.
  assert (good (addr v) v1 d) as Hg1 by (exists m, names; rewrite Htv; by split_and!).
  pose proof (pages_extends (addr v) v1 d replies Hg1 Hr) as Hp.
  destruct (pages _ _ _ v1 d replies) as [[[[v2 d2] rest2]|]|]; [|done..].
  apply (inj Some), Ok_inj in Hu. injection Hu as -> Hd' ->.
  destruct Hp as (taken & -> & A1 & A2 & m0 & m' & ns & new & H1 & H2 & H3 & H4 & H5 & H6 & H7 & H8 & H9 & H10).
  assert (m0 = m) as -> by congruence. assert (ns = names) as -> by (apply names_json_inj; congruence).
  unfold save_history, db_put in Hd'. rewrite H2, Hok in Hd'. cbn [snd] in Hd'.
  destruct (documents_served m m' names new _ H5 H8 H9) as (before & after & D1 & D2 & D3).
  exists taken, new, before, after. split_and!; try done.
  - by destruct H5.
  - unfold get_history. rewrite Ha. assert (existsb (fun x => bool_decide (addr v = addr x)) (m_addrs c) = true) as ->.
    { apply existsb_exists. exists v'. split; [by apply list_elem_of_In|]. by rewrite bool_decide_eq_true_2 by congruence. }
    cbn [negb]. rewrite Hd, <- Hd'. cbn [db_map]. rewrite A1, Hav, lookup_insert_eq, Hpr, H4. cbn [names_json].
    rewrite (read_transactions_same m'), D2; [done|by eapply cached_plain|].
    apply Forall_forall. intros n Hn. rewrite lookup_insert_ne; [done|]. intros <-. by apply H6.
  - eapply Forall_impl; [by apply H10|]. intros t (n & n' & ((l & -> & Hn) & _) & Hn' & Hp). by exists n, n'.
Qed.

(** A page with a transaction on it. *)
Definition full_page (a : bytes) (r : reply) : Prop :=
  exists t l, checked_reply parse_json r = Some (JArr (t :: l)) /\ Forall (listed a) (t :: l).

(** Loading a history ends.  One page with a transaction on it for every ten
    transactions that were announced is enough, whatever the pages hold and
    whether writing them succeeds. *)
Theorem pages_end a v d replies :
  good a v d -> 0 <= begin v -> tx_count v < 2 ^ 32 - 10 -> Forall (full_page a) replies ->
  tx_count v <= begin v + 10 * zlen replies ->
  exists v' d' rest, pages parse_json stringify put_ok v d replies = Some (Ok (v', d', rest)).
Proof.
  intros Hg Hb Ht Hr. revert v d Hg Hb Ht.
  induction Hr as [|r replies (t & l & Hc & Hl) Hr IH]; intros v d Hg Hb Ht Hn; cbn [pages];
    (assert (exists names, trx v = names_json names) as [names Hx] by (by destruct Hg as (m & ns & _ & ? & _); eexists));
    rewrite Hx; cbn [names_json Size].
  - change (zlen (@nil reply)) with 0 in Hn. ztest. cbn [andb]. by eexists _, _, _.
  - destruct (_ && _) eqn:Ec; [|by eexists _, _, _]. zbool. unfold on_page. rewrite Hc.
    destruct (add_page_extends a v d (t :: l) Hg Hl) as (v' & d' & -> & Hbg & Hx').
    cbn [mbind res_bind]. rewrite zlen_cons in Hn.
    assert (u32 (begin v' + 10) = begin v + 10) as Hw by (rewrite Hbg; apply wrap_small; lia).
    pose proof Hx' as (_ & A2 & _). apply IH; cbn [with_begin begin tx_count]; try lia.
    exact (extends_good a _ v v' d d' Hx').
Qed.

(** An announced transaction that no page lists makes the worker ask for ever:
    an empty page starts the list again. *)
Theorem pages_endless v d replies names :
  trx v = names_json names -> zlen names < tx_count v -> begin v < tx_count v ->
  Forall (fun r => checked_reply parse_json r = Some (JArr [])) replies ->
  pages parse_json stringify put_ok v d replies = None.
Proof.
  intros Hx Hs Hb Hr. pose proof (zlen_nonneg names).
  assert (begin v < tx_count v /\ 0 < tx_count v) as [Hb1 Hb2] by lia. clear Hb.
  revert v Hx Hs Hb1 Hb2. induction Hr as [|r replies Hc Hr IH]; intros v Hx Hs Hb1 Hb2; cbn [pages]; rewrite Hx;
    cbn [names_json Size]; (assert (zlen (map JStr names) = zlen names) as -> by (unfold zlen; by rewrite length_map));
    ztest; cbn [andb]; [done|]. unfold on_page. rewrite Hc. by apply IH.
Qed.

(** A name is taken for known when it only begins with a known name. *)
Theorem shorter_name_hides_longer v d names n n' l t :
  trx v = names_json names -> n ∈ names -> n `prefix_of` n' -> Forall (fun x => c_str x = x) names -> c_str n' = n' ->
  t = JObj l -> FindMember (str "transaction") l = Some (JStr n') ->
  add_page stringify put_ok v d [t] = Ok (v, d).
Proof.
  intros Hx Hin Hp Hpl Hp' -> Hf. cbn [add_page find_member mbind res_bind]. rewrite Hf, Hx.
  cbn [names_json GetArray GetString mbind res_bind].
  destruct (known_spec names n' Hpl Hp') as (b & -> & Hb). assert (b = true) as -> by (apply Hb; by exists n).
  done.
Qed.
End Facts.

(** ** Witnesses *)

Module Sample.
Definition tx (n : string) : json := JObj [(str "transaction", JStr (str n)); (str "data", JStr (str "6869"))].
Definition page : json := JArr [tx "aa"; tx "bb"].
(** Texts of the documents that occur, told apart by their first character. *)
Definition print (d : json) : bytes :=
  match d with
  | JArr _ => str "N"
  | _ => match get "transaction" d with Some (JStr n) => n | _ => str "?" end
  end.
Definition parse (s : bytes) : option json :=
  if bool_decide (s = str "balance") then Some (JObj [(str "result", JObj [(str "count_txs", JInt 2)])])
  else if bool_decide (s = str "page") then Some (JObj [(str "result", page)])
  else if bool_decide (s = str "N") then Some (names_json [str "aa"; str "bb"])
  else if bool_decide (s = str "aa") then Some (tx "aa")
  else if bool_decide (s = str "bb") then Some (tx "bb") else None.
Definition a0 : bytes := str "0x00".
Definition v0 : info := info_new a0.
Definition d0 : database := {| db_map := Some ∅; db_puts := 0 |}.
Definition v1 : info := {| begin := 10; tx_count := 2; addr := a0; trx := names_json [str "aa"; str "bb"] |}.
Definition d1 : database :=
  {| db_map := Some (<[a0 := str "N"]> (<[str "bb" := str "bb"]> (<[str "aa" := str "aa"]> ∅))); db_puts := 3 |}.
Definition always (i : nat) : bool := true.

Lemma good0 : good (parse_json := parse) (stringify := print) a0 v0 d0.
Proof.
  exists ∅, []. split; [reflexivity|]. split; [reflexivity|]. split; [split; [constructor|done]|].
  by apply (bool_decide_unpack _).
Defined.

Lemma listed_tx n : (n = "aa" \/ n = "bb")%string -> listed (parse_json := parse) (stringify := print) a0 (tx n).
Proof.
  intros [-> | ->]; (eexists; split; [split; [eexists; split; reflexivity|by split]|by split]).
Defined.

Lemma fair0 : fair_reply (parse_json := parse) (stringify := print) a0 (Some (str "page")).
Proof. by repeat constructor; apply listed_tx; auto. Defined.

Lemma history_served_witness :
  exists taken new before after,
    [Some (str "page")] = taken ++ [] /\ trx v1 = names_json ([] ++ new) /\ NoDup ([] ++ new) /\
    read_transactions parse ∅ (map JStr []) = Ok before /\
    get_history parse (fun _ => (0, [])) {| hst_run := true; m_addrs := [v1]; hst_db := d1 |} (str "0X00")
      = Ok (true, JArr (before ++ after)) /\
    Forall2 (fun n t => t ∈ flat_map (page_of (parse_json := parse)) taken /\ get "transaction" t = Some (JStr n)) new after /\
    Forall (fun t => exists n n', get "transaction" t = Some (JStr n) /\ n' ∈ [] ++ new /\ n' `prefix_of` n)
      (flat_map (page_of (parse_json := parse)) taken).
Proof.
  refine (history_served (parse_json := parse) (stringify := print) (put_ok := always)
    {| hst_run := true; m_addrs := [v1]; hst_db := d1 |} v0 d0 ∅ [] (Some (str "balance")) [Some (str "page")]
    v1 d1 [] {| begin := 0; tx_count := 2; addr := a0; trx := JArr [] |} (str "0X00") _ _ _ _ _ _ _ _ _ _ _ _).
  - reflexivity.
  - reflexivity.
  - split; [constructor|done].
  - by apply (bool_decide_unpack _).
  - reflexivity.
  - constructor; [exact fair0|constructor].
  - reflexivity.
  - vm_compute. reflexivity.
  - reflexivity.
  - apply list_elem_of_here.
  - reflexivity.
  - vm_compute. reflexivity.
Defined.

Lemma pages_end_witness :
  exists v' d' rest, pages parse print always {| begin := 0; tx_count := 2; addr := a0; trx := JArr [] |} d0
    [Some (str "page")] = Some (Ok (v', d', rest)).
Proof.
  apply (pages_end (parse_json := parse) (stringify := print) (put_ok := always) a0); [exact good0|by vm_compute..| |by vm_compute].
  constructor; [|constructor]. exists (tx "aa"), [tx "bb"]. split; [reflexivity|exact fair0].
Defined.
End Sample.
