(* ===== verification/Settings.v ===== *)
(** The configuration: namespace [settings] of src/settings/settings.h and .cpp.

    The file is read into a boost::property_tree: a node has a text and named
    children, and a path of names leads to the first child of each name.  Boost's
    conversions of a text to a number or a truth value and the resolver of host
    names are parameters.  The static members are the fields of records. *)

From Stdlib Require Import String.
From S2P Require Import Prelude Text Hex.
Open Scope Z_scope.

(** ** Property trees *)

#[warnings="-register-all"]
Inductive ptree := PNode (data : bytes) (children : list (bytes * ptree)).
Definition data (t : ptree) : bytes := match t with PNode d _ => d end.
Definition children (t : ptree) : list (bytes * ptree) := match t with PNode _ l => l end.

Fixpoint find_child (name : bytes) (l : list (bytes * ptree)) : option ptree :=
  match l with
  | [] => None
  | (n, t) :: l' => if bool_decide (n = name) then Some t else find_child name l'
  end.

(** [tree.get_child_optional(section.name)]. *)
Definition lookup2 (t : ptree) (section name : string) : option ptree :=
  match find_child (str section) (children t) with
  | Some s => find_child (str name) (children s)
  | None => None
  end.

(** ** The settings *)

Record service_t := {
  any_conns : bool;
  port : Z;
  threads : Z;
  access : list bytes;
  srv_keep_alive : bool;
  auth_enable : bool;
  auth_key : bytes
}.
Record server_t := { torName : bytes; proxyName : bytes; tor : bytes; proxy : bytes }.
Record system_t := {
  wallet_stotage : bytes;
  jrpc_conn_timeout : Z;
  jrpc_timeout : Z;
  jrpc_attempts_count : Z;
  leveldbFolder : bytes;
  blocksFolder : bytes;
  validateBlocks : bool;
  allowStateBlocks : bool;
  useLocalDatabase : bool;
  conn_pool_enable : bool;
  conn_pool_ttl : Z;
  conn_pool_capacity : Z;
  blocks_cache_ver : Z;
  blocks_cache_enable : bool;
  blocks_cache_force : bool;
  blocks_cache_init_count : Z;
  blocks_cache_recv_data_size : Z;
  blocks_cache_recv_count : Z;
  blocks_cache_block_verification : bool;
  cores : list bytes;
  history_cache_enable : bool;
  history_cache_addrs : list bytes;
  validate_request : bool;
  validate_methods : bool
}.
Record statistic_t := {
  statisticNetwork : bytes;
  statisticGroup : bytes;
  statisticServer : bytes;
  latencyFile : bytes
}.
Record settings := {
  service : service_t;
  server : server_t;
  system : system_t;
  statistic : statistic_t
}.

Section Read.
(** Conversions of a text: an unsigned number up to a bound, a signed 32-bit
    number, a truth value; the addresses of a host. *)
Variable to_unsigned : Z -> bytes -> option Z.
Variable to_int : bytes -> option Z.
Variable to_bool : bytes -> option bool.
Variable resolve : bytes -> option (list bytes).

Definition to_text (s : bytes) : option bytes := Some s.
Definition to_uint : bytes -> option Z := to_unsigned UINT32_MAX.
Definition to_ushort : bytes -> option Z := to_unsigned UINT16_MAX.

(** [tree.get<T>(path, default)]: the default also when the text has another form. *)
Definition get_or {A} (conv : bytes -> option A) (t : ptree) (section name : string) (d : A) : A :=
  match lookup2 t section name with Some n => default d (conv (data n)) | None => d end.

(** [tree.get<T>(path)]. *)
Definition get_required {A} (conv : bytes -> option A) (t : ptree) (section name : string) : res A :=
  match lookup2 t section name with
  | Some n =>
      match conv (data n) with
      | Some a => Ok a
      | None => Throw (RuntimeError (str "conversion of data failed"))
      end
  | None => Throw (RuntimeError (str "No such node (" ++ str section ++ str "." ++ str name ++ str ")"))
  end.

(** [tree.get_child(path, empty)], its elements. *)
Definition elements (t : ptree) (section name : string) : list bytes :=
  match lookup2 t section name with Some n => map (fun c => data c.2) (children n) | None => [] end.

Definition read_service (s : service_t) (t : ptree) : service_t :=
  let key := get_or to_text t "service" "auth_key" [] in
  {| any_conns := any_conns s;
     port := get_or to_ushort t "service" "port" 9999;
     threads := get_or to_int t "service" "threads" 4;
     access := access s ++ concat (map (fun h => default [] (resolve h)) (elements t "service" "access"));
     srv_keep_alive := get_or to_bool t "service" "keep_alive" false;
     auth_enable := if bool_decide (key = []) then false else get_or to_bool t "service" "auth_enable" false;
     auth_key := key |}.

Definition read_server (s : server_t) (t : ptree) : server_t :=
  {| torName := get_or to_text t "server" "tor" (str "127.0.0.1");
     proxyName := get_or to_text t "server" "proxy" (str "127.0.0.1");
     tor := tor s; proxy := proxy s |}.

Definition read_system (s : system_t) (t : ptree) : res system_t :=
  folder ← get_required to_text t "system" "leveldb_folder";
  blocks ← get_required to_text t "system" "blocks_folder";
  validate ← get_required to_bool t "system" "validate_blocks";
  local ← get_required to_bool t "system" "use_local_database";
  let addrs := history_cache_addrs s ++ map to_lower (elements t "system" "history_cache_addresses") in
  Ok {| wallet_stotage := get_or to_text t "system" "wallets-storage" (str "./wallet");
        jrpc_conn_timeout := get_or to_uint t "system" "jrpc_conn_timeout" 1000;
        jrpc_timeout := get_or to_uint t "system" "jrpc_timeout" 60000;
        jrpc_attempts_count := get_or to_uint t "system" "jrpc_attempts_count" 2;
        leveldbFolder := folder;
        blocksFolder := blocks;
        validateBlocks := validate;
        allowStateBlocks := get_or to_bool t "system" "allow_state_blocks" false;
        useLocalDatabase := local;
        conn_pool_enable := get_or to_bool t "system" "conn_pool_enable" false;
        conn_pool_ttl := get_or to_uint t "system" "conn_pool_ttl" 60;
        conn_pool_capacity := get_or to_uint t "system" "conn_pool_capacity" 100;
        blocks_cache_ver := get_or to_uint t "system" "blocks_cache_ver" 2;
        blocks_cache_enable := get_or to_bool t "system" "blocks_cache_enable" false;
        blocks_cache_force := get_or to_bool t "system" "blocks_cache_force" true;
        blocks_cache_init_count := get_or to_uint t "system" "blocks_cache_init_count" 50000;
        blocks_cache_recv_data_size := get_or to_uint t "system" "blocks_cache_recv_data_size" 5;
        blocks_cache_recv_count := get_or to_uint t "system" "blocks_cache_recv_count" 100;
        blocks_cache_block_verification := get_or to_bool t "system" "blocks_cache_block_verification" true;
        cores := cores s ++ map to_lower (elements t "system" "cores");
        history_cache_enable :=
          if bool_decide (addrs = []) then false else get_or to_bool t "system" "history_cache_enable" false;
        history_cache_addrs := addrs;
        validate_request := get_or to_bool t "system" "validate_request" true;
        validate_methods := get_or to_bool t "system" "validate_methods" true |}.

Definition read_statistic (s : statistic_t) (t : ptree) : res statistic_t :=
  match find_child (str "statistic") (children t) with
  | None => Ok s
  | Some _ =>
      network ← get_required to_text t "statistic" "network";
      group ← get_required to_text t "statistic" "group";
      server ← get_required to_text t "statistic" "server";
      file ← get_required to_text t "statistic" "latency_file";
      Ok {| statisticNetwork := network; statisticGroup := group; statisticServer := server; latencyFile := file |}
  end.

(** read, on the tree of the file. *)
Definition read (s : settings) (t : ptree) : res settings :=
  sys ← read_system (system s) t;
  st ← read_statistic (statistic s) t;
  Ok {| service := read_service (service s) t; server := read_server (server s) t; system := sys; statistic := st |}.
End Read.

(** The static initialisers. *)
Definition initial : settings :=
  {| service := {| any_conns := false; port := 9999; threads := 4; access := []; srv_keep_alive := false;
                   auth_enable := false; auth_key := [] |};
     server := {| torName := []; proxyName := []; tor := []; proxy := [] |};
     system := {| wallet_stotage := str "./wallet"; jrpc_conn_timeout := 1000; jrpc_timeout := 60000;
                  jrpc_attempts_count := 2; leveldbFolder := str "leveldb/"; blocksFolder := str "blocks/";
                  validateBlocks := false; allowStateBlocks := false; useLocalDatabase := true;
                  conn_pool_enable := false; conn_pool_ttl := 60; conn_pool_capacity := 100;
                  blocks_cache_ver := 1; blocks_cache_enable := false; blocks_cache_force := true;
                  blocks_cache_init_count := 50000; blocks_cache_recv_data_size := 5;
                  blocks_cache_recv_count := 100; blocks_cache_block_verification := true; cores := [];
                  history_cache_enable := false; history_cache_addrs := []; validate_request := true;
                  validate_methods := true |};
     statistic := {| statisticNetwork := []; statisticGroup := []; statisticServer := []; latencyFile := [] |} |}.

(** ** What is read *)

(** An address in lower case. *)
Definition lower (s : bytes) : Prop := to_lower s = s.

(** The numbers among the settings of the system. *)
Definition numbers : list (system_t -> Z) :=
  [jrpc_conn_timeout; jrpc_timeout; jrpc_attempts_count; conn_pool_ttl; conn_pool_capacity; blocks_cache_ver;
   blocks_cache_init_count; blocks_cache_recv_data_size; blocks_cache_recv_count].

Section Bounds.
Context {to_unsigned : Z -> bytes -> option Z} {to_int : bytes -> option Z} {to_bool : bytes -> option bool}.
Context {resolve : bytes -> option (list bytes)}.
Hypothesis unsigned_range : forall max s n, to_unsigned max s = Some n -> 0 <= n <= max.

Lemma get_or_range t section name d max :
  0 <= d <= max -> 0 <= get_or (to_unsigned max) t section name d <= max.
Proof.
  intros Hd. unfold get_or. destruct (lookup2 _ _ _) as [n|]; [|done].
  destruct (to_unsigned max (data n)) as [z|] eqn:E; [|done]. by apply unsigned_range in E.
Qed.

Lemma to_lower_idem s : to_lower (to_lower s) = to_lower s.
Proof. unfold to_lower. rewrite map_map. apply map_ext. intros c. apply tolower_idem. Qed.

(** C32: Whatever the file holds, what is read can be used: numbers are in the range
    of their type, addresses are in lower case, authentication is on only with a
    key, and the history cache only with an address to watch. *)
Theorem read_usable t s :
  read to_unsigned to_int to_bool resolve initial t = Ok s ->
  0 <= port (service s) <= UINT16_MAX /\ Forall (fun f => 0 <= f (system s) <= UINT32_MAX) numbers /\
  Forall lower (cores (system s)) /\ Forall lower (history_cache_addrs (system s)) /\
  (auth_enable (service s) = true -> auth_key (service s) <> []) /\
  (history_cache_enable (system s) = true -> history_cache_addrs (system s) <> []).
Proof.
  unfold read. intros (sys & Hsys & (st & _ & Hr)%bind_Ok)%bind_Ok. apply Ok_inj in Hr as <-. cbn [service system].
  unfold read_system in Hsys. apply bind_Ok in Hsys as (f1 & _ & Hsys). apply bind_Ok in Hsys as (f2 & _ & Hsys).
  apply bind_Ok in Hsys as (f3 & _ & Hsys). apply bind_Ok in Hsys as (f4 & _ & Hsys). apply Ok_inj in Hsys as <-.
  assert (forall l, Forall lower (map to_lower l)) as Hl
    by (intros l; apply Forall_map, Forall_forall; intros x _; apply to_lower_idem).
  cbn [read_service port auth_enable auth_key cores history_cache_addrs history_cache_enable system initial app].
  split; [by apply get_or_range|]. split; [repeat constructor; cbn; by apply get_or_range|].
  split; [apply Hl|]. split; [apply Hl|].
  split; case_bool_decide; auto; done.
Qed.
End Bounds.

(** ** Witnesses *)

Module Sample.
(** Decimal numbers of at most ten digits, [true] and [false]. *)
Definition unsigned (max : Z) (s : bytes) : option Z :=
  match scan_number s with
  | Some (false, n) => if bool_decide (0 <= n <= max) then Some n else None
  | _ => None
  end.
Definition truth (s : bytes) : option bool :=
  if bool_decide (s = str "true") then Some true else if bool_decide (s = str "false") then Some false else None.

Lemma unsigned_bounds max s n : unsigned max s = Some n -> 0 <= n <= max.
Proof. unfold unsigned. destruct (scan_number s) as [[[] z]|]; try done. case_bool_decide; [|done]. by intros [= <-]. Qed.

(** The file of a node that serves one host with a key, asks one core and watches one
    address. *)
Definition leaf (s : string) : ptree := PNode (str s) [].
Definition array (l : list string) : ptree := PNode [] (map (fun s => ([], leaf s)) l).
Definition object (l : list (string * ptree)) : ptree := PNode [] (map (fun p => (str p.1, p.2)) l).
Definition file : ptree :=
  object [("service", object [("port", leaf "65535"); ("threads", leaf "8"); ("keep_alive", leaf "true");
             ("auth_enable", leaf "true"); ("auth_key", leaf "secret"); ("access", array ["localhost"])]);
          ("server", object [("tor", leaf "tor.net-main.metahashnetwork.com:5795"); ("proxy", leaf "proxy:9999")]);
          ("system", object [("wallets-storage", leaf "./w"); ("jrpc_conn_timeout", leaf "500");
             ("jrpc_timeout", leaf "4294967295"); ("jrpc_attempts_count", leaf "0"); ("leveldb_folder", leaf "db/");
             ("blocks_folder", leaf ""); ("validate_blocks", leaf "true"); ("use_local_database", leaf "false");
             ("allow_state_blocks", leaf "true"); ("conn_pool_enable", leaf "true"); ("conn_pool_ttl", leaf "30");
             ("conn_pool_capacity", leaf "7"); ("blocks_cache_ver", leaf "2"); ("blocks_cache_enable", leaf "true");
             ("blocks_cache_force", leaf "false"); ("blocks_cache_init_count", leaf "1");
             ("blocks_cache_recv_data_size", leaf "2"); ("blocks_cache_recv_count", leaf "3");
             ("blocks_cache_block_verification", leaf "false"); ("cores", array ["0x00AB"]);
             ("history_cache_enable", leaf "true"); ("history_cache_addresses", array ["0x00CD"]);
             ("validate_request", leaf "false"); ("validate_methods", leaf "no truth value")]);
          ("statistic", object [("network", leaf "n"); ("group", leaf "g"); ("server", leaf "s");
             ("latency_file", leaf "l")])]%string.

(** What is read from it: the addresses in lower case, the default for a text that is
    no truth value. *)
Definition example : settings :=
  {| service := {| any_conns := false; port := 65535; threads := 8; access := [str "localhost"]; srv_keep_alive := true;
                   auth_enable := true; auth_key := str "secret" |};
     server := {| torName := str "tor.net-main.metahashnetwork.com:5795"; proxyName := str "proxy:9999"; tor := []; proxy := [] |};
     system := {| wallet_stotage := str "./w"; jrpc_conn_timeout := 500; jrpc_timeout := 4294967295;
                  jrpc_attempts_count := 0; leveldbFolder := str "db/"; blocksFolder := [];
                  validateBlocks := true; allowStateBlocks := true; useLocalDatabase := false;
                  conn_pool_enable := true; conn_pool_ttl := 30; conn_pool_capacity := 7;
                  blocks_cache_ver := 2; blocks_cache_enable := true; blocks_cache_force := false;
                  blocks_cache_init_count := 1; blocks_cache_recv_data_size := 2;
                  blocks_cache_recv_count := 3; blocks_cache_block_verification := false; cores := [str "0x00ab"];
                  history_cache_enable := true; history_cache_addrs := [str "0x00cd"]; validate_request := false;
                  validate_methods := true |};
     statistic := {| statisticNetwork := str "n"; statisticGroup := str "g"; statisticServer := str "s"; latencyFile := str "l" |} |}.

Lemma file_read : read unsigned (unsigned INT_MAX) truth (fun h => Some [h]) initial file = Ok example.
Proof. vm_compute. reflexivity. Qed.

Lemma read_usable_witness : 0 <= port (service example) <= UINT16_MAX /\ auth_key (service example) <> [].
Proof.
  destruct (read_usable (to_int := unsigned INT_MAX) (to_bool := truth) (resolve := fun h => Some [h])
    unsigned_bounds file example) as (H1 & _ & _ & _ & H5 & _); [exact file_read|].
  exact (conj H1 (H5 eq_refl)).
Defined.
End Sample.
