(* ===== verification/BlockInfo.v ===== *)
(** The data of the block chain: the structures of src/sync/BlockInfo.h and
    src/sync/Address.h, with the constructors the header defines.

    The bodies of most member functions are in a library that the repository
    ships compiled ([libtorrent_node_lib.a]).  The class [TorrentLib] has one
    field per such function the client calls. *)

From Stdlib Require Import String.
From S2P Require Import Prelude.
Open Scope Z_scope.

(** ** Addresses and positions *)

Record Address := {
  address : bytes;
  isInitialW : bool;
  isSet : bool
}.

(** [Address() = default] and the constructor from a range of characters. *)
Definition Address_default : Address := {| address := []; isInitialW := false; isSet := false |}.
Definition Address_range (b : bytes) : Address := {| address := b; isInitialW := false; isSet := true |}.
Definition isSet_ (a : Address) : bool := isSet a.

#[export] Instance Address_eq_dec : EqDecision Address.
Proof. solve_decision. Defined.

Record FilePosition := { pos : Z; fileNameRelative : bytes }.

Record AddressInfo := {
  ai_filePos : FilePosition;
  ai_blockNumber : Z;
  ai_blockIndex : Z;
  undelegateValue : option Z
}.

(** AddressInfo(pos, fileName, blockNumber, index). *)
Definition AddressInfo_make (p : Z) (fileName : bytes) (blockNumber index : Z) : AddressInfo :=
  {| ai_filePos := {| pos := p; fileNameRelative := fileName |}; ai_blockNumber := blockNumber;
     ai_blockIndex := index; undelegateValue := None |}.

(** ** Transactions *)

Inductive tx_status :=
| SNone
| SDelegate
| SUnDelegate (value : Z) (delegateHash : bytes)
| SV8Status (isServerError isScriptError : bool) (compiledContractAddress : Address).

Record TransactionStatus := {
  isSuccess : bool;
  st_transaction : bytes;
  st_blockNumber : Z;
  st_status : tx_status
}.

Record Token := {
  tk_type : bytes;
  tk_owner : Address;
  tk_decimals : Z;
  beginValue : Z;
  allValue : Z;
  tk_symbol : bytes;
  tk_name : bytes;
  tk_emission : bool;
  txHash : bytes
}.

Record DelegateInfo := { di_value : Z; isDelegate : bool }.

Inductive ScriptType := script_compile | script_run | script_pay | script_unknown.
Record ScriptInfo := { txRaw : bytes; si_type : ScriptType }.

Inductive TokenInfo :=
| TCreate (type : bytes) (owner : Address) (decimals value : Z) (symbol name : bytes)
    (emission : bool) (beginDistribution : list (Address * Z))
| TChangeOwner (newOwner : Address)
| TChangeEmission (newEmission : bool)
| TAddTokens (toAddress : Address) (value : Z)
| TMoveTokens (toAddress : Address) (value : Z).

Record TransactionInfo := {
  tx_hash : bytes;
  fromAddress : Address;
  toAddress : Address;
  value : Z;
  fees : Z;
  tx_nonce : Z;
  tx_blockNumber : Z;
  tx_blockIndex : Z;
  sizeRawTx : Z;
  isSignBlockTx : bool;
  isModuleNotSet : bool;
  intStatus : option Z;
  sign : bytes;
  pubKey : bytes;
  data : bytes;
  allRawTx : bytes;
  tx_filePos : FilePosition;
  delegate : option DelegateInfo;
  scriptInfo : option ScriptInfo;
  tokenInfo : option TokenInfo;
  status : option TransactionStatus
}.

Definition isStatusNeed (tx : TransactionInfo) : bool :=
  bool_decide (is_Some (delegate tx)) || bool_decide (is_Some (scriptInfo tx)).

(** ** Balances *)

Record BalanceElement := { received_ : Z; spent_ : Z }.

Record DelegateBalance := {
  db_delegate : BalanceElement;
  db_delegated : BalanceElement;
  reserved : Z;
  db_countOp : Z
}.

Record ForgedBalance := { forged_sum : Z; fb_countOp : Z }.
Record TokenBalance := { tb_balance : BalanceElement; tb_countOp : Z }.

Record BalanceInfo := {
  balance : BalanceElement;
  countReceived : Z;
  countSpent : Z;
  countTxs : Z;
  bal_delegated : option DelegateBalance;
  bal_forged : option ForgedBalance;
  bal_hash : option Z;
  bal_blockNumber : Z;
  tokens : list (bytes * TokenBalance)
}.

(** ** Blocks *)

Record BlockHeader := {
  timestamp : Z;
  blockSize : Z;
  blockType : Z;
  hash : bytes;
  prevHash : bytes;
  txsHash : bytes;
  signature : bytes;
  bh_countTxs : Z;
  countSignTx : Z;
  bh_filePos : FilePosition;
  blockNumber : option Z;
  senderSign : bytes;
  senderPubkey : bytes;
  senderAddress : bytes
}.

(** [header.blockNumber = n]. *)
Definition with_number (h : BlockHeader) (n : Z) : BlockHeader :=
  {| timestamp := timestamp h; blockSize := blockSize h; blockType := blockType h; hash := hash h;
     prevHash := prevHash h; txsHash := txsHash h; signature := signature h;
     bh_countTxs := bh_countTxs h; countSignTx := countSignTx h; bh_filePos := bh_filePos h;
     blockNumber := Some n; senderSign := senderSign h; senderPubkey := senderPubkey h;
     senderAddress := senderAddress h |}.

(** [header.hash.clear()]. *)
Definition with_hash (h : BlockHeader) (x : bytes) : BlockHeader :=
  {| timestamp := timestamp h; blockSize := blockSize h; blockType := blockType h; hash := x;
     prevHash := prevHash h; txsHash := txsHash h; signature := signature h;
     bh_countTxs := bh_countTxs h; countSignTx := countSignTx h; bh_filePos := bh_filePos h;
     blockNumber := blockNumber h; senderSign := senderSign h; senderPubkey := senderPubkey h;
     senderAddress := senderAddress h |}.

Record MinimumBlockHeader := {
  mbh_number : Z;
  mbh_blockSize : Z;
  mbh_hash : bytes;
  parentHash : bytes;
  mbh_fileName : bytes;
  prevExtraBlocks : list bytes;
  nextExtraBlocks : list bytes
}.

Record SignBlockHeader := {
  sbh_timestamp : Z;
  sbh_blockSize : Z;
  sbh_hash : bytes;
  sbh_prevHash : bytes;
  sbh_filePos : FilePosition;
  sbh_senderSign : bytes;
  sbh_senderPubkey : bytes;
  sbh_senderAddress : bytes
}.

Record SignTransactionInfo := {
  sti_blockHash : bytes;
  sti_sign : bytes;
  sti_pubkey : bytes;
  sti_address : Address
}.

Record SignBlockInfo := { sb_header : SignBlockHeader; sb_txs : list SignTransactionInfo }.

Record RejectedTxsBlockHeader := { rh_blockSize : Z; rh_filePos : FilePosition }.
Record RejectedTxsBlockInfo := { rejected_header : RejectedTxsBlockHeader }.

Record BlockInfo := { header : BlockHeader; txs : list TransactionInfo }.

Definition bi_with_number (b : BlockInfo) (n : Z) : BlockInfo :=
  {| header := with_number (header b) n; txs := txs b |}.
Definition bi_with_hash (b : BlockInfo) (x : bytes) : BlockInfo :=
  {| header := with_hash (header b) x; txs := txs b |}.

(** BlockInfo::saveSenderInfo, BlockInfo::saveFilePath. *)
Definition saveSenderInfo (b : BlockInfo) (sgn pub addr : bytes) : BlockInfo :=
  let h := header b in
  {| header := {| timestamp := timestamp h; blockSize := blockSize h; blockType := blockType h;
       hash := hash h; prevHash := prevHash h; txsHash := txsHash h; signature := signature h;
       bh_countTxs := bh_countTxs h; countSignTx := countSignTx h; bh_filePos := bh_filePos h;
       blockNumber := blockNumber h; senderSign := sgn; senderPubkey := pub; senderAddress := addr |};
     txs := txs b |}.

Definition saveFilePath (b : BlockInfo) (path : bytes) : BlockInfo :=
  let h := header b in
  {| header := {| timestamp := timestamp h; blockSize := blockSize h; blockType := blockType h;
       hash := hash h; prevHash := prevHash h; txsHash := txsHash h; signature := signature h;
       bh_countTxs := bh_countTxs h; countSignTx := countSignTx h;
       bh_filePos := {| pos := pos (bh_filePos h); fileNameRelative := path |};
       blockNumber := blockNumber h; senderSign := senderSign h; senderPubkey := senderPubkey h;
       senderAddress := senderAddress h |};
     txs := txs b |}.

Definition no_position : FilePosition := {| pos := 0; fileNameRelative := [] |}.

(** A value-initialised [BlockInfo]. *)
Definition BlockInfo_default : BlockInfo :=
  {| header := {| timestamp := 0; blockSize := 0; blockType := 0; hash := []; prevHash := [];
       txsHash := []; signature := []; bh_countTxs := 0; countSignTx := 0; bh_filePos := no_position;
       blockNumber := None; senderSign := []; senderPubkey := []; senderAddress := [] |};
     txs := [] |}.

(** The [std::variant] that Sync::parseBlockDump returns. *)
Inductive some_block :=
| NoBlock
| ABlock (b : BlockInfo)
| ASignBlock (b : SignBlockInfo)
| ARejectedTxsBlock (b : RejectedTxsBlockInfo).

(** [std::get<BlockInfo>(v)]. *)
Definition get_BlockInfo (v : some_block) : res BlockInfo :=
  match v with ABlock b => Ok b | _ => Throw BadVariantAccess end.

(** ** The compiled library *)

Class TorrentLib := {
  (** [Address::operator==]. *)
  Address_eqb : Address -> Address -> bool;
  calcHexString : Address -> bytes;
  isStateBlock : BlockHeader -> bool;
  isForgingBlock : BlockHeader -> bool;
  getBlockType : BlockHeader -> bytes;
  (** [Sync::parseBlockDump(dump, isValidate)]; it may throw. *)
  parseBlockDump : bytes -> bool -> res some_block
}.
