(* ===== verification/BlockStore.v ===== *)
(** The database of the block cache: [init], [start], [save_block],
    [save_extra_data], [save_extra_block], [update_number],
    [update_last_signed] and the [get_...] functions of src/cache/blocks_cache.cpp.

    LevelDB is a map from keys to values.  A [Put] may fail; [put_ok i] tells
    whether the [i]-th one succeeds, and the statements hold for every such
    schedule.  A [Get] succeeds when the key is present.

    The keys share one name space: decimal block numbers, hexadecimal hashes,
    numbers with the suffixes [@data] and [@extra], and two names.  [key] is
    their abstract form, and [enc_inj] shows that no two of them collide, but for
    hashes whose hexadecimal text is a decimal number; without those the database
    refines a map on [key].  Digests of 32 bytes are too long to be such a text. *)

From Stdlib Require Import String.
From S2P Require Import Prelude Text Hex.
Open Scope Z_scope.

(** enum ext_data_value, stored in the first character of [ext_blk_data]. *)
Definition blk_not_checked : ascii := chr 0.
Definition blk_not_signed : ascii := chr 1.
Definition blk_awaiting_signature : ascii := chr 2.
Definition blk_signed : ascii := chr 3.

(** [ext_blk_data]: eight characters; [ext_data[0] = v] after [memset]. *)
Definition ext_zero : bytes := replicate 8 zero.
Definition set0 (v : ascii) (ext : bytes) : bytes := <[0%nat := v]> ext.

Record cache := {
  m_run : bool;
  m_nextblock : Z;
  m_last_signed_block : Z;
  m_db : gmap bytes bytes;
  (** The number of [Put] calls so far. *)
  puts : nat
}.

Definition with_run (c : cache) (b : bool) : cache :=
  {| m_run := b; m_nextblock := m_nextblock c; m_last_signed_block := m_last_signed_block c;
     m_db := m_db c; puts := puts c |}.
Definition with_next (c : cache) (n : Z) : cache :=
  {| m_run := m_run c; m_nextblock := n; m_last_signed_block := m_last_signed_block c;
     m_db := m_db c; puts := puts c |}.
Definition with_last (c : cache) (n : Z) : cache :=
  {| m_run := m_run c; m_nextblock := m_nextblock c; m_last_signed_block := n;
     m_db := m_db c; puts := puts c |}.

(** blocks_cache(). *)
Definition blocks_cache_new : cache :=
  {| m_run := false; m_nextblock := 0; m_last_signed_block := 0; m_db := ∅; puts := 0 |}.

(** Reading the counters back, once the database is open. *)
Definition restore (c : cache) : cache :=
  let c := match m_db c !! str "next_block" with
           | Some result => with_next c (u64 (atoi result))
           | None => c
           end in
  match m_db c !! str "last_signed_block" with
  | Some result => with_last c (u64 (atoi result))
  | None => c
  end.

(** init: [dirs] tells whether the two folders exist or could be created,
    [opened] is the content of the database when [leveldb::DB::Open] succeeds.
    The first component is the result, the second whether [m_db] is set. *)
Definition init (cache_init : bool) (dirs : bool) (opened : option (gmap bytes bytes)) (c : cache)
  : bool * bool * cache :=
  if cache_init then (true, true, c)
  else if negb dirs then (false, false, c)
  else
    match opened with
    | None => (false, false, c)
    | Some db =>
        (true, true,
         restore {| m_run := m_run c; m_nextblock := m_nextblock c;
                    m_last_signed_block := m_last_signed_block c; m_db := db; puts := puts c |})
    end.

(** start: its result, whether [m_db] is set in the thread it starts, and the
    cache that thread works on. *)
Definition start (cache_init dirs : bool) (opened : option (gmap bytes bytes)) (c : cache)
  : bool * bool * cache :=
  let '(_, has_db, c') := init cache_init dirs opened c in
  (true, has_db, c').

Section Database.
Variable put_ok : nat -> bool.

Definition Put (c : cache) (k v : bytes) : bool * cache :=
  if put_ok (puts c) then
    (true, {| m_run := m_run c; m_nextblock := m_nextblock c;
              m_last_signed_block := m_last_signed_block c; m_db := <[k := v]> (m_db c);
              puts := S (puts c) |})
  else
    (false, {| m_run := m_run c; m_nextblock := m_nextblock c;
               m_last_signed_block := m_last_signed_block c; m_db := m_db c;
               puts := S (puts c) |}).

Definition save_extra_data (c : cache) (number dump : bytes) : bool * cache :=
  Put c (str_concat [number; str "@data"]) dump.

Definition save_extra_block (c : cache) (number dump : bytes) : bool * cache :=
  Put c (str_concat [number; str "@extra"]) dump.

Definition save_block (c : cache) (number : Z) (hash dump ext_data : bytes) : bool * cache :=
  let num := to_string number in
  let (ok, c) := Put c num dump in
  if ok then
    if negb (bool_decide (hash = [])) then
      let (ok, c) := Put c hash num in
      if ok then save_extra_data c num ext_data else (false, c)
    else (false, c)
  else (false, c).

Definition update_number (c : cache) (number : Z) : bool * cache :=
  Put c (str "next_block") (to_string number).

Definition update_last_signed (c : cache) (number : Z) : bool * cache :=
  if m_last_signed_block c <? number then
    let (ok, c) := Put c (str "last_signed_block") (to_string number) in
    if negb ok then (false, c) else (true, with_last c number)
  else (true, c).
End Database.

Definition get_extra_data (c : cache) (number : Z) : option bytes :=
  m_db c !! str_concat [to_string number; str "@data"].

Definition get_extra_block_for (c : cache) (number : Z) : option bytes :=
  m_db c !! str_concat [to_string number; str "@extra"].

Definition get_block_num_by_hash (c : cache) (hash : bytes) : option bytes := m_db c !! hash.

(** The overload that takes the number as text. *)
Definition get_block_by_num_text (c : cache) (number : bytes) (verify : bool) : option bytes :=
  if verify then
    match m_db c !! str_concat [number; str "@data"] with
    | Some ext_data =>
        if negb (bool_decide (at_nul ext_data 0 = blk_signed)) then None else m_db c !! number
    | None => m_db c !! number
    end
  else m_db c !! number.

Definition get_block_by_num (c : cache) (number : Z) (verify : bool) : option bytes :=
  get_block_by_num_text c (to_string number) verify.

(** get_block_by_hash: the number as text and the dump. *)
Definition get_block_by_hash (c : cache) (hash : bytes) (verify : bool) : option (bytes * bytes) :=
  match get_block_num_by_hash c hash with
  | Some num =>
      if negb (bool_decide (num = [])) then
        match get_block_by_num_text c num verify with
        | Some result => Some (num, result)
        | None => None
        end
      else None
  | None => None
  end.

(** ** Keys *)

Inductive key :=
| KNum (n : Z)
| KHash (h : bytes)
| KData (n : Z)
| KExtra (n : Z)
| KNext
| KLast.

#[export] Instance key_eq_dec : EqDecision key.
Proof. solve_decision. Defined.

Definition enc (k : key) : bytes :=
  match k with
  | KNum n => to_string n
  | KHash h => bin2hex h
  | KData n => to_string n ++ str "@data"
  | KExtra n => to_string n ++ str "@extra"
  | KNext => str "next_block"
  | KLast => str "last_signed_block"
  end.

(** The text of the hash is not that of a block number. *)
Definition hash_key (h : bytes) : Prop := forall n, 0 <= n <= UINT64_MAX -> bin2hex h <> to_string n.

(** Block numbers are 64-bit, hashes are no texts of such numbers. *)
Definition valid_key (k : key) : Prop :=
  match k with
  | KNum n | KData n | KExtra n => 0 <= n <= UINT64_MAX
  | KHash h => hash_key h
  | KNext | KLast => True
  end.

(** What the database holds under an abstract key. *)
Definition look (c : cache) (k : key) : option bytes := m_db c !! enc k.

(** ** Keys do not collide *)

Lemma concat_data n : 0 <= n <= UINT64_MAX -> str_concat [to_string n; str "@data"] = enc (KData n).
Proof.
  intros Hn. rewrite str_concat_concat; [cbn [concat enc]; by rewrite app_nil_r|].
  cbn [concat]. rewrite app_nil_r, zlen_app. pose proof (to_string_length n Hn).
  unfold zlen. change (length (str "@data")) with 5%nat. unfold UINT64_MAX. lia.
Qed.

Lemma concat_extra n : 0 <= n <= UINT64_MAX -> str_concat [to_string n; str "@extra"] = enc (KExtra n).
Proof.
  intros Hn. rewrite str_concat_concat; [cbn [concat enc]; by rewrite app_nil_r|].
  cbn [concat]. rewrite app_nil_r, zlen_app. pose proof (to_string_length n Hn).
  unfold zlen. change (length (str "@extra")) with 6%nat. unfold UINT64_MAX. lia.
Qed.

(** The part of a key before the first character that is no digit. *)
Fixpoint digits_of (s : bytes) : bytes :=
  match s with
  | c :: s' => if isdigit c then c :: digits_of s' else []
  | [] => []
  end.

Lemma digits_of_app s t :
  Forall (fun c => isdigit c = true) s -> digits_of (s ++ t) = s ++ digits_of t.
Proof. induction 1 as [|c s Hc _ IH]; cbn; [done|]. by rewrite Hc, IH. Qed.

Lemma digits_of_number n t : 0 <= n -> digits_of (to_string n ++ t) = to_string n ++ digits_of t.
Proof. intros Hn. apply digits_of_app, (to_string_digits n Hn). Qed.

Lemma number_head n : 0 <= n -> exists c s, to_string n = c :: s /\ isdigit c = true.
Proof.
  intros Hn. destruct (to_string_digits n Hn) as (Hne & Hall & _).
  destruct (to_string n) as [|c s]; [done|]. inversion Hall; eauto.
Qed.

Lemma number_suffix_inj n m s t :
  0 <= n -> 0 <= m -> digits_of s = [] -> digits_of t = [] ->
  to_string n ++ s = to_string m ++ t -> n = m /\ s = t.
Proof.
  intros Hn Hm Hs Ht E. assert (to_string n = to_string m) as E'.
  { apply (f_equal digits_of) in E. by rewrite !digits_of_number, Hs, Ht, !app_nil_r in E. }
  split; [by apply to_string_inj|]. rewrite E' in E. by apply app_inv_head in E.
Qed.

(** The characters of a hash are hexadecimal digits, those of the suffixes are not. *)
Lemma hash_no_at h s t : bin2hex h <> s ++ "@"%char :: t.
Proof.
  intros E. pose proof (Forall_is_hex_bin2hex h) as Hf. rewrite E in Hf.
  apply Forall_app in Hf as [_ Hf]. by inversion Hf.
Qed.

Lemma digest_hash_key h : length h = 32%nat -> hash_key h.
Proof.
  intros Hh n Hn E. apply (f_equal length) in E. rewrite length_bin2hex, Hh in E.
  pose proof (to_string_length n Hn). lia.
Qed.
#[export] Hint Resolve digest_hash_key : fullnode.

Lemma hash_not_number h n s : hash_key h -> 0 <= n <= UINT64_MAX ->
  s = [] \/ s = str "@data" \/ s = str "@extra" -> bin2hex h <> to_string n ++ s.
Proof.
  intros Hh Hn Hs E. destruct Hs as [-> | [-> | ->]]; [|by apply hash_no_at in E..].
  rewrite app_nil_r in E. by apply (Hh n).
Qed.

(** The two names begin with letters that are no hexadecimal digits. *)
Lemma hash_not_name h c s : is_hex c = false -> bin2hex h <> c :: s.
Proof.
  intros Hc E. pose proof (Forall_is_hex_bin2hex h) as Hf. rewrite E in Hf. apply Forall_cons in Hf as [Hx _]. congruence.
Qed.

Lemma name_not_number c s n t : 0 <= n -> isdigit c = false -> c :: s <> to_string n ++ t.
Proof.
  intros Hn Hc E. destruct (number_head n Hn) as (d & r & Ed & Hd). rewrite Ed in E.
  injection E as -> _. by rewrite Hd in Hc.
Qed.

Lemma hash_inj g h : bin2hex g = bin2hex h -> g = h.
Proof. intros E%(f_equal hex2bin). by rewrite !hex2bin_bin2hex in E. Qed.

Lemma enc_inj k l : valid_key k -> valid_key l -> enc k = enc l -> k = l.
Proof.
  intros Hk Hl E.
  destruct k as [n|h|n|n| |], l as [m|g|m|m| |]; cbn [valid_key enc] in *; try done.
  all: match type of E with
       | to_string ?a ++ ?s = to_string ?b ++ ?t =>
           apply number_suffix_inj in E as [-> E]; (done || lia)
       | to_string ?a = to_string ?b ++ ?t =>
           destruct (number_suffix_inj a b [] t) as [_ E']; (done || lia || by rewrite app_nil_r)
       | to_string ?a ++ ?s = to_string ?b =>
           destruct (number_suffix_inj a b s []) as [_ E']; (done || lia || by rewrite app_nil_r)
       | to_string ?a = to_string ?b => apply to_string_inj in E as ->; (done || lia)
       | bin2hex ?h = to_string ?a ++ ?s => exfalso; apply (hash_not_number h a s); (done || tauto)
       | to_string ?a ++ ?s = bin2hex ?h => exfalso; apply (hash_not_number h a s); (done || tauto)
       | bin2hex ?h = to_string ?a =>
           exfalso; apply (hash_not_number h a []); (done || tauto || by rewrite app_nil_r)
       | to_string ?a = bin2hex ?h =>
           exfalso; apply (hash_not_number h a []); (done || tauto || by rewrite app_nil_r)
       | str _ = to_string _ => rewrite <- (app_nil_r (to_string _)) in E;
                                apply name_not_number in E; (done || lia)
       | to_string _ = str _ => symmetry in E; rewrite <- (app_nil_r (to_string _)) in E;
                                apply name_not_number in E; (done || lia)
       | str _ = _ => apply name_not_number in E; (done || lia)
       | to_string _ ++ _ = str _ => symmetry in E; apply name_not_number in E; (done || lia)
       | _ => idtac
       end.
  - by apply hash_inj in E as ->.
  - by apply hash_not_name in E.
  - by apply hash_not_name in E.
  - symmetry in E. by apply hash_not_name in E.
  - symmetry in E. by apply hash_not_name in E.
Qed.

(** ** The database as a map on abstract keys *)

Section Laws.
Context {put_ok : nat -> bool}.

(** Everything but the database and the call counter survives a [Put]. *)
Definition same_counters (c c' : cache) : Prop :=
  m_run c' = m_run c /\ m_nextblock c' = m_nextblock c /\
  m_last_signed_block c' = m_last_signed_block c.

Lemma Put_spec c k v b c' :
  Put put_ok c k v = (b, c') ->
  same_counters c c' /\ m_db c' = (if b then <[k := v]> (m_db c) else m_db c) /\
  b = put_ok (puts c) /\ puts c' = S (puts c).
Proof. unfold Put. destruct (put_ok (puts c)) eqn:E; intros [= <- <-]; done. Qed.

Lemma Put_look c k v b c' l :
  Put put_ok c (enc k) v = (b, c') -> valid_key k -> valid_key l ->
  look c' l = if b && bool_decide (l = k) then Some v else look c l.
Proof.
  intros HP Hk Hl. apply Put_spec in HP as (_ & Hdb & _). unfold look. rewrite Hdb.
  destruct b; [|done]. cbn [andb]. case_bool_decide as E.
  - subst. by rewrite lookup_insert_eq.
  - rewrite lookup_insert_ne; [done|]. intros E'. apply enc_inj in E'; by subst.
Qed.

Lemma save_extra_data_Put c n e : 0 <= n <= UINT64_MAX ->
  save_extra_data put_ok c (to_string n) e = Put put_ok c (enc (KData n)) e.
Proof. intros Hn. unfold save_extra_data. by rewrite concat_data. Qed.

Lemma save_extra_block_Put c n e : 0 <= n <= UINT64_MAX ->
  save_extra_block put_ok c (to_string n) e = Put put_ok c (enc (KExtra n)) e.
Proof. intros Hn. unfold save_extra_block. by rewrite concat_extra. Qed.

Lemma get_extra_data_look c n : 0 <= n <= UINT64_MAX -> get_extra_data c n = look c (KData n).
Proof. intros Hn. unfold get_extra_data, look. by rewrite concat_data. Qed.

Lemma get_extra_block_look c n : 0 <= n <= UINT64_MAX -> get_extra_block_for c n = look c (KExtra n).
Proof. intros Hn. unfold get_extra_block_for, look. by rewrite concat_extra. Qed.

(** A block is served when its status says so, or when it has no status. *)
Definition served (ext : option bytes) : bool :=
  match ext with Some e => bool_decide (at_nul e 0 = blk_signed) | None => true end.

Lemma get_block_by_num_look c n verify : 0 <= n <= UINT64_MAX ->
  get_block_by_num c n verify =
    if negb verify || served (look c (KData n)) then look c (KNum n) else None.
Proof.
  intros Hn. unfold get_block_by_num, get_block_by_num_text. rewrite concat_data by done.
  destruct verify; cbn [negb orb]; [|done]. fold (look c (KData n)).
  destruct (look c (KData n)) as [e|]; cbn [served]; [|done]. by case_bool_decide.
Qed.

(** The three writes of [save_block]: which of them took place, for any hash. *)
Lemma save_block_writes c n h d e b c' :
  save_block put_ok c n (bin2hex h) d e = (b, c') -> 0 <= n <= UINT64_MAX ->
  same_counters c c' /\
  exists w1 w2, (w2 = true -> w1 = true) /\ (b = true -> w2 = true) /\
    (forall k, valid_key k ->
      look c' k = if b && bool_decide (k = KData n) then Some e
                  else if w2 && bool_decide (enc k = bin2hex h) then Some (to_string n)
                  else if w1 && bool_decide (k = KNum n) then Some d else look c k) /\
    ((forall i, put_ok i = true) -> w1 = true /\ w2 = bool_decide (h <> []) /\ b = bool_decide (h <> [])).
Proof.
  intros Hs Hn. unfold save_block in Hs.
  destruct (Put put_ok c (to_string n) d) as [w1 c1] eqn:E1.
  pose proof (Put_look c (KNum n) d w1 c1) as L1. pose proof (Put_spec _ _ _ _ _ E1) as (S1 & _ & P1 & _).
  destruct w1; [|injection Hs as <- <-; split; [done|]; exists false, false; split_and!; try done;
                 [intros k Hk; by rewrite (L1 k E1)|intros Hp; by rewrite Hp in P1]].
  assert (bin2hex h = [] <-> h = []) as Hnil by (split; [intros E; by apply (hash_inj h [])|by intros ->]).
  case_bool_decide as Hh; cbn [negb] in Hs.
  { injection Hs as <- <-. split; [done|]. exists true, false. split_and!; try done; [intros k Hk; by rewrite (L1 k E1)|].
    intros _. rewrite bool_decide_eq_false_2 by tauto. done. }
  destruct (Put put_ok c1 (bin2hex h) (to_string n)) as [w2 c2] eqn:E2.
  pose proof (Put_spec _ _ _ _ _ E2) as (S2 & D2 & P2 & _).
  assert (same_counters c c2) as S12 by (unfold same_counters in *; intuition congruence).
  assert (forall k, valid_key k -> look c2 k = if w2 && bool_decide (enc k = bin2hex h) then Some (to_string n) else look c1 k) as L2.
  { intros k _. unfold look. rewrite D2. destruct w2; [|done]. cbn [andb]. case_bool_decide as E;
      [rewrite E; apply lookup_insert_eq|by rewrite lookup_insert_ne]. }
  destruct w2; [|injection Hs as <- <-; split; [done|]; exists true, false; split_and!; try done;
                 [intros k Hk; by rewrite L2, (L1 k E1)|intros Hp; by rewrite Hp in P2]].
  rewrite save_extra_data_Put in Hs by done.
  pose proof (Put_look c2 (KData n) e b c' ) as L3. pose proof (Put_spec _ _ _ _ _ Hs) as (S3 & _ & P3 & _).
  split; [unfold same_counters in *; intuition congruence|].
  exists true, true. split_and!; try done.
  - intros k Hk. by rewrite (L3 k Hs), L2, (L1 k E1).
  - intros Hp. rewrite Hp in P3. rewrite bool_decide_eq_true_2 by tauto. done.
Qed.

(** For digests, whose text is no other key. *)
Lemma save_block_look c n h d e b c' :
  save_block put_ok c n (bin2hex h) d e = (b, c') ->
  0 <= n <= UINT64_MAX -> length h = 32%nat ->
  same_counters c c' /\
  exists w1 w2 w3, b = w3 /\ (w2 = true -> w1 = true) /\ (w3 = true -> w2 = true) /\
    forall k, valid_key k ->
      look c' k = if w3 && bool_decide (k = KData n) then Some e
                  else if w2 && bool_decide (k = KHash h) then Some (to_string n)
                  else if w1 && bool_decide (k = KNum n) then Some d else look c k.
Proof.
  intros Hs Hn Hh. destruct (save_block_writes _ _ _ _ _ _ _ Hs Hn) as (S & w1 & w2 & H1 & H2 & L & _).
  split; [done|]. exists w1, w2, b. split_and!; try done. intros k Hk. rewrite L by done.
  by rewrite (bool_decide_ext (enc k = bin2hex h) (k = KHash h))
    by (split; [intros E; apply (enc_inj k (KHash h)); [done|by apply digest_hash_key|done]|by intros ->]).
Qed.

(** ** Theorems *)

(** A block that was saved is found by its number and by its hash, with its
    status; with verification on it is handed out exactly when the status is
    [blk_signed]; and nothing is changed under any other number, hash or name. *)
Theorem save_block_lookup c n h d e c' :
  save_block put_ok c n (bin2hex_vec h) d e = (true, c') ->
  0 <= n <= UINT64_MAX -> length h = 32%nat ->
  get_block_by_num c' n false = Some d /\
  get_block_num_by_hash c' (bin2hex_vec h) = Some (to_string n) /\
  get_extra_data c' n = Some e /\
  (forall verify, get_block_by_hash c' (bin2hex_vec h) verify =
     (fun r => (to_string n, r)) <$> get_block_by_num c' n verify) /\
  get_block_by_num c' n true = (if bool_decide (at_nul e 0 = blk_signed) then Some d else None) /\
  (forall k, valid_key k -> k <> KNum n -> k <> KHash h -> k <> KData n -> look c' k = look c k).
Proof.
  change (bin2hex_vec h) with (bin2hex h). intros Hs Hn Hh.
  assert (valid_key (KHash h)) as Hkey by by apply digest_hash_key.
  destruct (save_block_look _ _ _ _ _ _ _ Hs Hn Hh) as (_ & w1 & w2 & w3 & <- & H2 & H3 & L).
  rewrite (H2 (H3 eq_refl)), (H3 eq_refl) in L. cbn [andb] in L.
  assert (look c' (KNum n) = Some d) as L1 by (rewrite L by done; by repeat case_bool_decide).
  assert (look c' (KHash h) = Some (to_string n)) as L2 by (rewrite L by done; by repeat case_bool_decide).
  assert (look c' (KData n) = Some e) as L3 by (rewrite L by done; by repeat case_bool_decide).
  split_and!.
  - by rewrite get_block_by_num_look.
  - done.
  - by rewrite get_extra_data_look.
  - intros verify. unfold get_block_by_hash, get_block_num_by_hash.
    fold (look c' (KHash h)). change (m_db c' !! bin2hex h) with (look c' (KHash h)). rewrite L2.
    rewrite bool_decide_eq_false_2 by (apply to_string_nonempty; lia). cbn [negb].
    unfold get_block_by_num. by destruct (get_block_by_num_text _ _ _).
  - rewrite get_block_by_num_look by done. rewrite L3. cbn [negb orb served]. by case_bool_decide.
  - intros k Hk N1 N2 N3. rewrite L by done. by rewrite !bool_decide_eq_false_2.
Qed.

(** A save that fails while writing the status leaves the block without one,
    and such a block is handed out as if it were verified. *)
Theorem partial_save_served c n h d e c' :
  save_block put_ok c n (bin2hex_vec h) d e = (false, c') ->
  put_ok (puts c) = true -> put_ok (S (puts c)) = true ->
  0 <= n <= UINT64_MAX -> length h = 32%nat -> get_extra_data c n = None ->
  get_block_by_num c' n true = Some d.
Proof.
  change (bin2hex_vec h) with (bin2hex h). intros Hs P1 P2 Hn Hh Hx.
  assert (valid_key (KHash h)) as Hkey by by apply digest_hash_key.
  rewrite get_extra_data_look in Hx by done.
  unfold save_block in Hs.
  assert (bin2hex h <> []) as Hne by (intros E%(f_equal length); rewrite length_bin2hex, Hh in E; done).
  destruct (Put put_ok c (to_string n) d) as [w1 c1] eqn:E1.
  pose proof (Put_look c (KNum n) d w1 c1) as L1.
  destruct (Put_spec _ _ _ _ _ E1) as (_ & _ & -> & Hp1). rewrite P1 in *.
  rewrite (bool_decide_eq_false_2 (bin2hex h = [])) in Hs by done. cbn [negb] in Hs.
  destruct (Put put_ok c1 (bin2hex h) (to_string n)) as [w2 c2] eqn:E2.
  pose proof (Put_look c1 (KHash h) (to_string n) w2 c2) as L2.
  destruct (Put_spec _ _ _ _ _ E2) as (_ & _ & -> & _). rewrite Hp1, P2 in *.
  rewrite save_extra_data_Put in Hs by done.
  pose proof (Put_look c2 (KData n) e false c') as L3.
  rewrite get_block_by_num_look by done.
  rewrite !L3, !L2, !L1 by done. cbn [andb].
  rewrite !(bool_decide_eq_false_2 (KData n = _)), !(bool_decide_eq_false_2 (KNum n = KHash _)) by done.
  rewrite Hx. cbn [served negb orb]. by rewrite bool_decide_eq_true_2.
Qed.

(** The number of the last signed block never decreases, and a successful
    update brings it to at least the given number. *)
Theorem update_last_signed_monotone c n b c' :
  update_last_signed put_ok c n = (b, c') ->
  m_last_signed_block c <= m_last_signed_block c' /\
  (b = true -> m_last_signed_block c' = Z.max (m_last_signed_block c) n) /\
  m_nextblock c' = m_nextblock c.
Proof.
  unfold update_last_signed. destruct (_ <? _) eqn:E; zbool.
  - destruct (Put _ _ _ _) as [ok c1] eqn:EP. apply Put_spec in EP as ((_ & Hn & Hl) & _).
    destruct ok; cbn [negb]; intros [= <- <-]; cbn; split_and!; (done || lia).
  - intros [= <- <-]. split_and!; (done || lia).
Qed.

(** After a restart the cache goes on where it was: counters up to [2^31 - 1]
    that were written to the database are read back; a counter between [2^31]
    and [2^32] is not, because it goes through [atoi]. *)
Theorem restart_counters c n c' dirs :
  update_number put_ok c n = (true, c') ->
  dirs = true ->
  (0 <= n <= INT_MAX -> exists c'', init false dirs (Some (m_db c')) blocks_cache_new = (true, true, c'') /\
     m_nextblock c'' = n) /\
  (2 ^ 31 <= n < 2 ^ 32 -> exists c'', init false dirs (Some (m_db c')) blocks_cache_new = (true, true, c'') /\
     m_nextblock c'' <> n).
Proof.
  unfold update_number. intros (_ & Hdb & _)%Put_spec ->. cbn [init negb].
  assert (forall d, d !! str "next_block" = Some (to_string n) ->
    m_nextblock (restore {| m_run := false; m_nextblock := 0; m_last_signed_block := 0; m_db := d; puts := 0 |})
    = u64 (atoi (to_string n))) as HR.
  { intros d Hd. unfold restore. cbn [m_db]. rewrite Hd. cbn [with_next m_db].
    by destruct (d !! str "last_signed_block"). }
  assert (m_db c' !! str "next_block" = Some (to_string n)) as Hn by (rewrite Hdb; apply lookup_insert_eq).
  split; intros Hr; (eexists; split; [done|]); cbn [blocks_cache_new m_run m_nextblock m_last_signed_block puts];
    rewrite HR by done.
  - rewrite atoi_to_string by done. apply wrap_small. unfold INT_MAX in Hr. lia.
  - unfold atoi. rewrite scan_number_to_string by lia. rewrite Z.min_l, Z.max_r by lia.
    unfold swrap, wrap. change (2 ^ (32 - 1)) with (2 ^ 31).
    assert ((n + 2 ^ 31) mod 2 ^ 32 = n - 2 ^ 31) as ->
      by (symmetry; apply (Z.mod_unique_pos _ _ 1); lia).
    assert ((n - 2 ^ 31 - 2 ^ 31) mod 2 ^ 64 = n - 2 ^ 32 + 2 ^ 64) as ->
      by (symmetry; apply (Z.mod_unique_pos _ _ (-1)); lia). lia.
Qed.

(** [start] reports success and starts the worker even when the database
    could not be opened; the worker then has none. *)
Theorem start_without_database dirs c :
  start false dirs None c = (true, false, c).
Proof. unfold start, init. by destruct dirs. Qed.
End Laws.

(** ** Witnesses *)

Module Sample.
Definition h0 : bytes := replicate 32 "h"%char.
Abbreviation all_ok := (fun _ : nat => true).
Abbreviation c0 := blocks_cache_new.

Lemma save_block_lookup_witness :
  get_block_by_num (save_block all_ok c0 7 (bin2hex_vec h0) (str "dump") (set0 blk_signed ext_zero)).2 7 true
  = Some (str "dump").
Proof.
  destruct (save_block all_ok c0 7 (bin2hex_vec h0) (str "dump") (set0 blk_signed ext_zero))
    as [[] c'] eqn:E; [|discriminate].
  destruct (save_block_lookup _ _ _ _ _ _ E) as (_ & _ & _ & _ & H & _);
    [unfold UINT64_MAX; lia | reflexivity | exact H].
Defined.

Lemma partial_save_served_witness :
  get_block_by_num (save_block (fun i => (i <? 2)%nat) c0 7 (bin2hex_vec h0) (str "dump") ext_zero).2 7 true
  = Some (str "dump").
Proof.
  destruct (save_block (fun i => (i <? 2)%nat) c0 7 (bin2hex_vec h0) (str "dump") ext_zero)
    as [[] c'] eqn:E; [discriminate|].
  apply (partial_save_served _ _ _ _ _ _ E);
    [reflexivity | reflexivity | unfold UINT64_MAX; lia | reflexivity | reflexivity].
Defined.

Lemma update_last_signed_monotone_witness :
  m_last_signed_block c0 <= m_last_signed_block (update_last_signed all_ok c0 9).2.
Proof.
  destruct (update_last_signed all_ok c0 9) as [b c'] eqn:E.
  exact (proj1 (update_last_signed_monotone _ _ _ _ E)).
Defined.

Lemma restart_counters_witness :
  exists c'', init false true (Some (m_db (update_number all_ok c0 1000).2)) c0 = (true, true, c'') /\
    m_nextblock c'' = 1000.
Proof.
  destruct (update_number all_ok c0 1000) as [[] c'] eqn:E; [|discriminate].
  apply (restart_counters _ _ _ true E eq_refl). unfold INT_MAX. lia.
Defined.
End Sample.
