(* ===== verification/BlockRefine.v ===== *)
(** What the block cache promises: a specification of the store of
    src/cache/blocks_cache.cpp as four finite maps, and the proof that the
    operations on LevelDB implement it.

    BlockStore.v keeps everything in one map from texts to texts, as the code
    does; its keys are the decimal number, the hexadecimal hash and the number with
    a suffix.  Here the abstract store has a map for each kind of entry, and a step
    relation says what an operation may do to it, failed writes included. *)

From Stdlib Require Import String.
From S2P Require Import Prelude Text Hex BlockStore.
Open Scope Z_scope.

(** ** Specification *)

Record spec := {
  dumps : gmap Z bytes;
  statuses : gmap Z bytes;
  extras : gmap Z bytes;
  numbers : gmap bytes Z;
  next : option Z;
  last_signed : Z
}.

Definition spec_empty : spec :=
  {| dumps := ∅; statuses := ∅; extras := ∅; numbers := ∅; next := None; last_signed := 0 |}.

Definition set_dump (n : Z) (d : bytes) (a : spec) : spec :=
  {| dumps := <[n := d]> (dumps a); statuses := statuses a; extras := extras a; numbers := numbers a;
     next := next a; last_signed := last_signed a |}.
Definition set_status (n : Z) (e : bytes) (a : spec) : spec :=
  {| dumps := dumps a; statuses := <[n := e]> (statuses a); extras := extras a; numbers := numbers a;
     next := next a; last_signed := last_signed a |}.
Definition set_extra (n : Z) (d : bytes) (a : spec) : spec :=
  {| dumps := dumps a; statuses := statuses a; extras := <[n := d]> (extras a); numbers := numbers a;
     next := next a; last_signed := last_signed a |}.
Definition set_number (h : bytes) (n : Z) (a : spec) : spec :=
  {| dumps := dumps a; statuses := statuses a; extras := extras a; numbers := <[h := n]> (numbers a);
     next := next a; last_signed := last_signed a |}.
Definition set_next (n : Z) (a : spec) : spec :=
  {| dumps := dumps a; statuses := statuses a; extras := extras a; numbers := numbers a;
     next := Some n; last_signed := last_signed a |}.
Definition set_last (n : Z) (a : spec) : spec :=
  {| dumps := dumps a; statuses := statuses a; extras := extras a; numbers := numbers a;
     next := next a; last_signed := n |}.

(** The operations that change the store. *)
Inductive store_op :=
| SaveBlock (n : Z) (h d e : bytes)
| SaveStatus (n : Z) (e : bytes)
| SaveExtra (n : Z) (d : bytes)
| UpdateNumber (n : Z)
| UpdateLastSigned (n : Z).

Definition in_range (n : Z) : Prop := 0 <= n <= UINT64_MAX.
(** A block is saved under a hash whose text is not that of a block number. *)
Definition valid_op (o : store_op) : Prop :=
  match o with
  | SaveBlock n h _ _ => in_range n /\ hash_key h
  | SaveStatus n _ | SaveExtra n _ | UpdateNumber n | UpdateLastSigned n => in_range n
  end.

(** What an operation may do, with its result: saving a block is not atomic, and
    a failure leaves the writes that were made before it. *)
Inductive spec_step (a : spec) : store_op -> bool -> spec -> Prop :=
| StepSave n h d e : spec_step a (SaveBlock n h d e) true (set_status n e (set_number h n (set_dump n d a)))
| StepSaveNothing n h d e : spec_step a (SaveBlock n h d e) false a
| StepSaveDump n h d e : spec_step a (SaveBlock n h d e) false (set_dump n d a)
| StepSaveHash n h d e : spec_step a (SaveBlock n h d e) false (set_number h n (set_dump n d a))
| StepStatus n e : spec_step a (SaveStatus n e) true (set_status n e a)
| StepExtra n d : spec_step a (SaveExtra n d) true (set_extra n d a)
| StepNumber n : spec_step a (UpdateNumber n) true (set_next n a)
| StepLast n : last_signed a < n -> spec_step a (UpdateLastSigned n) true (set_last n a)
| StepLastOld n : n <= last_signed a -> spec_step a (UpdateLastSigned n) true a
| StepFail o : match o with SaveBlock _ _ _ _ => False | UpdateLastSigned n => last_signed a < n | _ => True end ->
    spec_step a o false a.

Inductive spec_steps (a : spec) : list store_op -> list bool -> spec -> Prop :=
| StepsNil : spec_steps a [] [] a
| StepsCons o b a' ops bs a'' :
    spec_step a o b a' -> spec_steps a' ops bs a'' -> spec_steps a (o :: ops) (b :: bs) a''.

(** The queries. *)
Definition spec_block (a : spec) (n : Z) (verify : bool) : option bytes :=
  if negb verify || served (statuses a !! n) then dumps a !! n else None.
Definition spec_block_by_hash (a : spec) (h : bytes) (verify : bool) : option (bytes * bytes) :=
  match numbers a !! h with
  | Some n => (fun d => (to_string n, d)) <$> spec_block a n verify
  | None => None
  end.

(** ** Implementation *)

Section Refine.
Variable put_ok : nat -> bool.

Definition apply_op (c : cache) (o : store_op) : bool * cache :=
  match o with
  | SaveBlock n h d e => save_block put_ok c n (bin2hex_vec h) d e
  | SaveStatus n e => save_extra_data put_ok c (to_string n) e
  | SaveExtra n d => save_extra_block put_ok c (to_string n) d
  | UpdateNumber n => update_number put_ok c n
  | UpdateLastSigned n => update_last_signed put_ok c n
  end.

Fixpoint apply_ops (c : cache) (ops : list store_op) : list bool * cache :=
  match ops with
  | [] => ([], c)
  | o :: ops' =>
      let (b, c) := apply_op c o in
      let (bs, c) := apply_ops c ops' in (b :: bs, c)
  end.

(** What the abstract store holds under a key of the database. *)
Definition entry (a : spec) (k : key) : option bytes :=
  match k with
  | KNum n => dumps a !! n
  | KData n => statuses a !! n
  | KExtra n => extras a !! n
  | KHash h => to_string <$> numbers a !! h
  | KNext => to_string <$> next a
  | KLast => None
  end.

Record represents (c : cache) (a : spec) : Prop := {
  rep_entry : forall k, valid_key k -> k <> KLast -> look c k = entry a k;
  rep_last : m_last_signed_block c = last_signed a;
  rep_numbers : forall h n, numbers a !! h = Some n -> in_range n
}.

(** One write that succeeds or not. *)
Lemma Put_represents c a k v b c' f :
  represents c a -> valid_key k -> k <> KLast -> Put put_ok c (enc k) v = (b, c') ->
  (forall l, valid_key l -> l <> KLast -> entry (f a) l = if bool_decide (l = k) then Some v else entry a l) ->
  last_signed (f a) = last_signed a ->
  (forall h n, numbers (f a) !! h = Some n -> in_range n) ->
  represents c' (if b then f a else a).
Proof.
  intros [R1 R2 R3] Hk Hk' HP Hf Hl Hn. pose proof (Put_spec _ _ _ _ _ HP) as ((_ & _ & Hs) & _). split.
  - intros l Hv Hne. rewrite (Put_look c k v b c' l HP Hk Hv), R1 by done.
    destruct b; [|done]. by rewrite Hf.
  - destruct b; congruence.
  - destruct b; [exact Hn|exact R3].
Qed.

Lemma entry_set_dump a n d l : entry (set_dump n d a) l = if bool_decide (l = KNum n) then Some d else entry a l.
Proof.
  destruct l as [m|h|m|m| |]; cbn; try done. case_bool_decide as E; [injection E as ->; apply lookup_insert_eq|].
  apply lookup_insert_ne. congruence.
Qed.
Lemma entry_set_status a n d l : entry (set_status n d a) l = if bool_decide (l = KData n) then Some d else entry a l.
Proof.
  destruct l as [m|h|m|m| |]; cbn; try done. case_bool_decide as E; [injection E as ->; apply lookup_insert_eq|].
  apply lookup_insert_ne. congruence.
Qed.
Lemma entry_set_extra a n d l : entry (set_extra n d a) l = if bool_decide (l = KExtra n) then Some d else entry a l.
Proof.
  destruct l as [m|h|m|m| |]; cbn; try done. case_bool_decide as E; [injection E as ->; apply lookup_insert_eq|].
  apply lookup_insert_ne. congruence.
Qed.
Lemma entry_set_number a h n l :
  entry (set_number h n a) l = if bool_decide (l = KHash h) then Some (to_string n) else entry a l.
Proof.
  destruct l as [m|g|m|m| |]; cbn; try done. case_bool_decide as E; [injection E as ->; by rewrite lookup_insert_eq|].
  by rewrite lookup_insert_ne by congruence.
Qed.

Lemma set_number_range a h n : in_range n -> (forall g m, numbers a !! g = Some m -> in_range m) ->
  forall g m, numbers (set_number h n a) !! g = Some m -> in_range m.
Proof.
  intros Hn Ha g m. cbn. destruct (decide (g = h)) as [->|Hne]; [rewrite lookup_insert_eq; by intros [= <-]|].
  rewrite lookup_insert_ne by done. apply Ha.
Qed.

Lemma save_block_refines c a n h d e b c' :
  represents c a -> in_range n -> hash_key h -> save_block put_ok c n (bin2hex h) d e = (b, c') ->
  exists a', spec_step a (SaveBlock n h d e) b a' /\ represents c' a'.
Proof.
  intros R Hn Hh Hs. unfold save_block in Hs.
  destruct (Put put_ok c (to_string n) d) as [w1 c1] eqn:E1.
  assert (represents c1 (if w1 then set_dump n d a else a)) as R1.
  { apply (Put_represents c a (KNum n) d w1 c1 (set_dump n d)); try done; [|apply R].
    intros l _ _. apply entry_set_dump. }
  destruct w1; [|injection Hs as <- <-; exists a; split; [constructor|done]].
  case_bool_decide; cbn [negb] in Hs; [injection Hs as <- <-; eexists; split; [apply StepSaveDump|done]|].
  destruct (Put put_ok c1 (bin2hex h) (to_string n)) as [w2 c2] eqn:E2.
  assert (represents c2 (if w2 then set_number h n (set_dump n d a) else set_dump n d a)) as R2.
  { apply (Put_represents c1 (set_dump n d a) (KHash h) (to_string n) w2 c2 (set_number h n)); try done.
    - intros l _ _. apply entry_set_number.
    - apply set_number_range; [done|apply R]. }
  destruct w2; [|injection Hs as <- <-; eexists; split; [apply StepSaveDump|done]].
  rewrite save_extra_data_Put in Hs by done.
  pose proof (Put_represents c2 (set_number h n (set_dump n d a)) (KData n) e b c' (set_status n e) R2 Hn) as R3.
  assert (represents c' (if b then set_status n e (set_number h n (set_dump n d a)) else set_number h n (set_dump n d a)))
    as R4 by (apply R3; try done; [intros l _ _; apply entry_set_status|apply R2]).
  destruct b; eexists; (split; [|exact R4]); constructor.
Qed.

Lemma update_last_signed_refines c a n b c' :
  represents c a -> update_last_signed put_ok c n = (b, c') ->
  exists a', spec_step a (UpdateLastSigned n) b a' /\ represents c' a'.
Proof.
  intros R. unfold update_last_signed. rewrite (rep_last c a R). destruct (_ <? _) eqn:El; zbool.
  - destruct (Put put_ok c (str "last_signed_block") (to_string n)) as [ok c1] eqn:E.
    pose proof (Put_spec _ _ _ _ _ E) as ((_ & _ & Hs) & _). destruct R as [R1 R2 R3].
    assert (forall k, valid_key k -> k <> KLast -> look c1 k = entry a k) as Hk.
    { intros k Hv Hne. rewrite (Put_look c KLast _ ok c1 k E) by done. rewrite bool_decide_eq_false_2 by done.
      rewrite andb_false_r. by apply R1. }
    destruct ok; cbn [negb]; intros [= <- <-].
    + exists (set_last n a). split; [by constructor|]. split; [|done|exact R3].
      intros k Hv Hne. change (look c1 k = entry a k). by apply Hk.
    + exists a. split; [by constructor|]. split; [done|congruence|done].
  - intros [= <- <-]. exists a. split; [by constructor|done].
Qed.

(** Forward simulation. *)
Lemma apply_op_refines c a o b c' :
  represents c a -> valid_op o -> apply_op c o = (b, c') -> exists a', spec_step a o b a' /\ represents c' a'.
Proof.
  intros R Hv. destruct o as [n h d e|n e|n d|n|n]; cbn [apply_op valid_op] in *.
  - destruct Hv. by apply save_block_refines.
  - rewrite save_extra_data_Put by done. intros E.
    pose proof (Put_represents c a (KData n) e b c' (set_status n e) R Hv) as R'.
    exists (if b then set_status n e a else a). split; [destruct b; by constructor|].
    apply R'; try done; [intros l _ _; apply entry_set_status|apply R].
  - rewrite save_extra_block_Put by done. intros E.
    pose proof (Put_represents c a (KExtra n) d b c' (set_extra n d) R Hv) as R'.
    exists (if b then set_extra n d a else a). split; [destruct b; by constructor|].
    apply R'; try done; [intros l _ _; apply entry_set_extra|apply R].
  - intros E. pose proof (Put_represents c a KNext (to_string n) b c' (set_next n) R I) as R'.
    exists (if b then set_next n a else a). split; [destruct b; by constructor|].
    apply R'; try done; [intros [] _ ?; done|apply R].
  - by apply update_last_signed_refines.
Qed.

Lemma apply_ops_refine ops c a bs c' :
  represents c a -> Forall valid_op ops -> apply_ops c ops = (bs, c') ->
  exists a', spec_steps a ops bs a' /\ represents c' a'.
Proof.
  intros R Hv. revert c a bs R. induction Hv as [|o ops Ho Hv IH]; intros c a bs R; cbn [apply_ops].
  - intros [= <- <-]. exists a. split; [constructor|done].
  - destruct (apply_op c o) as [b c1] eqn:E. destruct (apply_ops c1 ops) as [bs' c2] eqn:E'. intros [= <- <-].
    destruct (apply_op_refines c a o b c1 R Ho E) as (a1 & S1 & R1).
    destruct (IH c1 a1 bs' R1 E') as (a2 & S2 & R2). exists a2. split; [|done]. by econstructor.
Qed.
End Refine.

(** ** Theorems *)

Lemma represents_empty : represents blocks_cache_new spec_empty.
Proof.
  split; [|done|].
  - intros k _ _. unfold look. cbn. rewrite lookup_empty. destruct k; cbn; by rewrite ?lookup_empty.
  - intros h n. cbn. by rewrite lookup_empty.
Qed.

Lemma spec_block_refined c a n verify :
  represents c a -> in_range n -> get_block_by_num c n verify = spec_block a n verify.
Proof.
  intros [R _ _] Hn. rewrite get_block_by_num_look by done. unfold spec_block.
  by rewrite !(R (KData n)), !(R (KNum n)).
Qed.

Lemma spec_block_by_hash_refined c a h verify :
  represents c a -> hash_key h -> get_block_by_hash c (bin2hex_vec h) verify = spec_block_by_hash a h verify.
Proof.
  intros R Hh. unfold get_block_by_hash, get_block_num_by_hash, spec_block_by_hash.
  change (m_db c !! bin2hex_vec h) with (look c (KHash h)). rewrite (rep_entry c a R) by done. cbn [entry].
  destruct (numbers a !! h) as [n|] eqn:E; [|done]. cbn [fmap option_fmap option_map].
  pose proof (rep_numbers c a R h n E) as Hn. rewrite bool_decide_eq_false_2 by (apply to_string_nonempty; unfold in_range in Hn; lia).
  cbn [negb]. rewrite <- (spec_block_refined c a n verify R Hn). unfold get_block_by_num.
  by destruct (get_block_by_num_text _ _ _).
Qed.


(** A hash whose text is the number of another block takes the place of that block:
    it is then served with the text of the saved number as its dump, as verified when
    it had no status before. *)
Theorem colliding_hash_overwrites put_ok c n m h d e c' :
  save_block put_ok c n (bin2hex_vec h) d e = (true, c') -> in_range n -> in_range m -> n <> m ->
  bin2hex h = to_string m -> get_extra_data c m = None ->
  get_block_by_num c' m true = Some (to_string n).
Proof.
  change (bin2hex_vec h) with (bin2hex h). intros Hs Hn Hm Hne Hh Hx.
  destruct (save_block_writes _ _ _ _ _ _ _ Hs Hn) as (_ & w1 & w2 & _ & H2 & L & _). rewrite H2 in L by done.
  rewrite get_extra_data_look in Hx by done. rewrite get_block_by_num_look by done. rewrite !L by done. cbn [andb].
  rewrite (bool_decide_eq_false_2 (KData m = KData n)), (bool_decide_eq_false_2 (enc (KData m) = bin2hex h)),
    (bool_decide_eq_false_2 (KData m = KNum n)), !andb_false_r, Hx.
  - cbn [served negb orb]. rewrite bool_decide_eq_false_2 by done. by rewrite bool_decide_eq_true_2.
  - done.
  - rewrite Hh. intros E. by apply (enc_inj (KData m) (KNum m)) in E.
  - congruence.
Qed.

(** The last signed block of the specification never goes back. *)
Lemma spec_step_last a o b a' : spec_step a o b a' -> last_signed a <= last_signed a'.
Proof. destruct 1; cbn; lia. Qed.

(** ** Witnesses *)

Module Sample.
Definition h1 : bytes := replicate 32 "h"%char.
Definition ops : list store_op :=
  [SaveBlock 7 h1 (str "dump") (set0 blk_signed ext_zero); SaveExtra 7 (str "signs"); UpdateLastSigned 7;
   SaveBlock 8 (replicate 32 "i"%char) (str "next") ext_zero].
(** The second write of the last block fails. *)
Definition put_ok (i : nat) : bool := negb (i =? 6)%nat.


(** Block 1, announced with the three bytes 12 34 56, is served as block 123456. *)
Lemma colliding_hash_overwrites_witness :
  get_block_by_num (save_block (fun _ => true) blocks_cache_new 1 (bin2hex_vec [chr 18; chr 52; chr 86]) (str "dump")
    (set0 blk_signed ext_zero)).2 123456 true = Some (str "1").
Proof.
  destruct (save_block (fun _ => true) blocks_cache_new 1 (bin2hex_vec [chr 18; chr 52; chr 86]) (str "dump")
    (set0 blk_signed ext_zero)) as [[] c'] eqn:E; [|discriminate].
  apply (colliding_hash_overwrites _ _ _ _ _ _ _ _ E); [by split|by split|done|vm_compute; reflexivity|reflexivity].
Defined.
End Sample.
