(* ===== verification/BlockVerify.v ===== *)
(** Verification of blocks by the core nodes: [auto_signed_block] and the two
    overloads of [core_addr_verification] of src/cache/blocks_cache.cpp, with the
    table of src/cache/blocks_exceptions.h.

    The theorems characterise the loops by multisets: a block passes when the
    signing transactions among its first seven are all well formed and their
    senders are distinct entries of the configured core list. *)

From Stdlib Require Import String.
From S2P Require Import Prelude Text Hex BlockInfo.
Open Scope Z_scope.

Definition auto_signed_blocks : list (Z * Z) := [(1, 12890)].

Fixpoint auto_signed_in (table : list (Z * Z)) (number : Z) : bool :=
  match table with
  | [] => false
  | (first, second) :: table' =>
      if first =? number then true
      else if (first <? second) && (first <? number) && (number <=? second) then true
      else auto_signed_in table' number
  end.

Definition auto_signed_block (number : Z) : bool := auto_signed_in auto_signed_blocks number.

(** [cores.erase(it)] of the first entry equal to [from]; [None] when there is none. *)
Fixpoint erase_core (from : bytes) (cores : list bytes) : option (list bytes) :=
  match cores with
  | [] => None
  | c :: cores' =>
      if bool_decide (c = from) then Some cores'
      else match erase_core from cores' with Some r => Some (c :: r) | None => None end
  end.

Section Verify.
Context `{TorrentLib}.
(** settings::system::cores. *)
Variable cores : list bytes.

(** [calcHexString()] in lower case. *)
Definition core_name (a : Address) : bytes := map tolower (calcHexString a).

(** The loop over [bi.txs] from index [i]: [succ] and [cores] at its end. *)
Fixpoint verify_loop (i : nat) (l : list TransactionInfo) (cores : list bytes) (succ : bool)
  (prev_hash : bytes) : bool * list bytes :=
  match l with
  | [] => (succ, cores)
  | tx :: l' =>
      if (6 <? i)%nat then (succ, cores)
      else if negb (isSignBlockTx tx) then verify_loop (S i) l' cores true prev_hash
      else if negb (Address_eqb (toAddress tx) (fromAddress tx)) then (false, cores)
      else
        match erase_core (core_name (fromAddress tx)) cores with
        | None => (false, cores)
        | Some cores' =>
            if negb (bool_decide (bin2hex_vec (data tx) = prev_hash)) then (false, cores')
            else verify_loop (S i) l' cores' true prev_hash
        end
  end.

(** core_addr_verification(BlockInfo, prev_hash).  An absent block number makes
    [value()] throw, which the function turns into -1. *)
Definition core_addr_verification (bi : BlockInfo) (prev_hash : bytes) : Z :=
  let check_auto :=
    if isStateBlock (header bi) || isForgingBlock (header bi) then Some true
    else auto_signed_block <$> blockNumber (header bi) in
  match check_auto with
  | None => -1
  | Some true => INT_MAX
  | Some false =>
      let (succ, rest) := verify_loop 0 (txs bi) cores false prev_hash in
      if succ then i32 (u64 (zlen cores - zlen rest)) else -1
  end.

(** The loop and the function for a block of signatures. *)
Fixpoint verify_sign_loop (i : nat) (l : list SignTransactionInfo) (cores : list bytes) (succ : bool)
  : bool * list bytes :=
  match l with
  | [] => (succ, cores)
  | tx :: l' =>
      if (6 <? i)%nat then (succ, cores)
      else
        match erase_core (core_name (sti_address tx)) cores with
        | None => (false, cores)
        | Some cores' => verify_sign_loop (S i) l' cores' true
        end
  end.

Definition core_addr_verification_sign (bi : SignBlockInfo) : Z :=
  let (succ, rest) := verify_sign_loop 0 (sb_txs bi) cores false in
  if succ then i32 (u64 (zlen cores - zlen rest)) else -1.

(** ** What passes *)

(** The transactions that are looked at. *)
Definition checked {A} (l : list A) : list A := take 7 l.

(** The signing transactions among them, and what each must satisfy. *)
Definition signing (l : list TransactionInfo) : list TransactionInfo :=
  filter (fun tx => isSignBlockTx tx) (checked l).
Definition well_signed (prev_hash : bytes) (tx : TransactionInfo) : Prop :=
  Address_eqb (toAddress tx) (fromAddress tx) = true /\ bin2hex_vec (data tx) = prev_hash.
Definition signers (l : list TransactionInfo) : list bytes :=
  map (fun tx => core_name (fromAddress tx)) (signing l).

(** ** Lemmas *)

Lemma erase_core_Some from cs r : erase_core from cs = Some r -> cs ≡ₚ from :: r.
Proof.
  revert r. induction cs as [|c cs IH]; intros r; cbn; [done|]. case_bool_decide as E.
  - by intros [= <-]; subst.
  - destruct (erase_core from cs) as [q|]; [|done]. intros [= <-].
    rewrite (IH q eq_refl). apply Permutation_swap.
Qed.

Lemma erase_core_None from cs : erase_core from cs = None -> from ∉ cs.
Proof.
  induction cs as [|c cs IH]; cbn; [intros _; apply not_elem_of_nil|]. case_bool_decide as E; [done|].
  destruct (erase_core from cs); [done|]. intros _. apply not_elem_of_cons. split; [done|auto].
Qed.

(** From index [i], [7 - i] transactions are looked at; the loop succeeds
    exactly when there is one (or [succ] was set) and all signing ones pass. *)
Lemma verify_loop_spec prev l i cs succ b rest :
  verify_loop i l cs succ prev = (b, rest) ->
  let seen := take (7 - i) l in
  let sg := filter (fun tx => isSignBlockTx tx) seen in
  let names := map (fun tx => core_name (fromAddress tx)) sg in
  (b = true <->
   (succ = true \/ seen <> []) /\ Forall (well_signed prev) sg /\ names ⊆+ cs) /\
  (b = true -> cs ≡ₚ names ++ rest).
Proof.
  revert i cs succ. induction l as [|tx l IH]; intros i cs succ; cbn [verify_loop].
  { intros [= <- <-]. rewrite take_nil. cbn. split; [|done]. split; [|tauto].
    intros ->. split_and!; [by left|constructor|apply submseteq_nil_l]. }
  destruct (Nat.ltb_spec 6 i) as [Hi|Hi].
  { intros [= <- <-]. replace (7 - i)%nat with 0%nat by lia. cbn. split; [|done]. split; [|tauto].
    intros ->. split_and!; [by left|constructor|apply submseteq_nil_l]. }
  replace (7 - i)%nat with (S (7 - S i)) by lia. cbn [take]. rewrite filter_cons.
  destruct (isSignBlockTx tx) eqn:Hs; cbn [negb].
  - rewrite decide_True by done. cbn [map].
    destruct (Address_eqb (toAddress tx) (fromAddress tx)) eqn:Ha; cbn [negb].
    2: { intros [= <- <-]. split; [|done]. split; [done|]. intros (_ & Hf & _).
         inversion Hf as [|? ? [Hw _]]; congruence. }
    destruct (erase_core _ cs) as [cs'|] eqn:He.
    2: { intros [= <- <-]. split; [|done]. split; [done|]. intros (_ & _ & Hsub).
         apply erase_core_None in He. exfalso. apply He.
         apply (elem_of_submseteq _ _ _ (list_elem_of_here _ _) Hsub). }
    apply erase_core_Some in He. case_bool_decide as Hd; cbn [negb].
    + intros Hl. destruct (IH _ _ _ Hl) as [IH1 IH2]. split.
      * rewrite IH1, He. split.
        -- intros (_ & Hf & Hsub). split_and!; [by right|by constructor|by apply submseteq_skip].
        -- intros (_ & Hf & Hsub). inversion Hf; subst. split_and!; [by left|done|].
           by apply (submseteq_app_inv_l _ _ [_]) in Hsub.
      * intros Hb. rewrite He, (IH2 Hb). done.
    + intros [= <- <-]. split; [|done]. split; [done|]. intros (_ & Hf & _).
      inversion Hf as [|? ? [_ Hw]]; congruence.
  - rewrite decide_False by (cbn; tauto). intros Hl. destruct (IH _ _ _ Hl) as [IH1 IH2].
    split; [|done]. rewrite IH1. split; intros (_ & Hf & Hsub); split_and!; (done || (by left) || (by right)).
Qed.

Lemma verify_sign_loop_spec l i cs succ b rest :
  verify_sign_loop i l cs succ = (b, rest) ->
  let seen := take (7 - i) l in
  let names := map (fun tx => core_name (sti_address tx)) seen in
  (b = true <-> (succ = true \/ seen <> []) /\ names ⊆+ cs) /\
  (b = true -> cs ≡ₚ names ++ rest).
Proof.
  revert i cs succ. induction l as [|tx l IH]; intros i cs succ; cbn [verify_sign_loop].
  { intros [= <- <-]. rewrite take_nil. cbn. split; [|done]. split; [|tauto].
    intros ->. split; [by left|apply submseteq_nil_l]. }
  destruct (Nat.ltb_spec 6 i) as [Hi|Hi].
  { intros [= <- <-]. replace (7 - i)%nat with 0%nat by lia. cbn. split; [|done]. split; [|tauto].
    intros ->. split; [by left|apply submseteq_nil_l]. }
  replace (7 - i)%nat with (S (7 - S i)) by lia. cbn [take map].
  destruct (erase_core _ cs) as [cs'|] eqn:He.
  - apply erase_core_Some in He. intros Hl. destruct (IH _ _ _ Hl) as [IH1 IH2]. split.
    + rewrite IH1, He. split.
      * intros (_ & Hsub). split; [by right|by apply submseteq_skip].
      * intros (_ & Hsub). split; [by left|]. by apply (submseteq_app_inv_l _ _ [_]) in Hsub.
    + intros Hb. rewrite He, (IH2 Hb). done.
  - intros [= <- <-]. split; [|done]. split; [done|]. intros (_ & Hsub).
    apply erase_core_None in He. exfalso. apply He.
    apply (elem_of_submseteq _ _ _ (list_elem_of_here _ _) Hsub).
Qed.

(** The count that is returned: entries of the core list that were used up. *)
Lemma used_up (cs names rest : list bytes) :
  cs ≡ₚ names ++ rest -> (length names <= 7)%nat ->
  i32 (u64 (zlen cs - zlen rest)) = zlen names.
Proof.
  intros Hp%Permutation_length Hc. rewrite length_app in Hp. unfold zlen in *.
  rewrite wrap_small by lia. rewrite swrap_small by lia. lia.
Qed.

Lemma signers_few l : (length (signers l) <= 7)%nat.
Proof.
  unfold signers, signing. rewrite length_map. eapply Nat.le_trans; [apply length_filter|].
  unfold checked. rewrite length_take. lia.
Qed.

(** Blocks that need no signature. *)
Definition exempt (bi : BlockInfo) (n : Z) : bool :=
  isStateBlock (header bi) || isForgingBlock (header bi) || auto_signed_block n.

(** The verdict [INT_MAX] is given to exempt blocks only. *)
Lemma verdict_max bi prev :
  core_addr_verification bi prev = INT_MAX ->
  exists n, exempt bi n = true /\ (forall m, blockNumber (header bi) = Some m -> m = n).
Proof.
  unfold core_addr_verification, exempt.
  destruct (isStateBlock (header bi) || isForgingBlock (header bi)); cbn [orb].
  { intros _. exists (default 0 (blockNumber (header bi))). split; [done|]. by intros m ->. }
  destruct (blockNumber (header bi)) as [n|]; cbn [fmap option_fmap option_map]; [|done].
  destruct (auto_signed_block n) eqn:E; [intros _; exists n; split; [done|by intros m [= ->]]|].
  destruct (verify_loop 0 (txs bi) cores false prev) as [b rest] eqn:Ev.
  apply verify_loop_spec in Ev as [_ E2]. cbn [Nat.sub] in E2. destruct b; [|done].
  rewrite (used_up _ _ _ (E2 eq_refl) (signers_few (txs bi))).
  pose proof (signers_few (txs bi)) as Hf. unfold signers, signing, checked in Hf.
  unfold zlen, INT_MAX. lia.
Qed.

(** ** Theorems *)

(** C11: the verdict on a numbered block.  It is [INT_MAX] for a state block, a
    forging block or a block of the exception table.  Otherwise it is the number
    of signing transactions among the first seven, provided there is a
    transaction, each signing one is sent to its own sender, repeats the hash of
    the previous block, and their senders are distinct core nodes; and -1 when
    one of these conditions fails. *)
Theorem core_addr_verification_spec bi n prev :
  blockNumber (header bi) = Some n ->
  (exempt bi n = true -> core_addr_verification bi prev = INT_MAX) /\
  (exempt bi n = false ->
   let ok := checked (txs bi) <> [] /\ Forall (well_signed prev) (signing (txs bi)) /\
             signers (txs bi) ⊆+ cores in
   (ok -> core_addr_verification bi prev = zlen (signing (txs bi))) /\
   (~ ok -> core_addr_verification bi prev = -1)).
Proof.
  intros Hn. unfold core_addr_verification, exempt. rewrite Hn. cbn [fmap option_fmap option_map].
  destruct (isStateBlock (header bi) || isForgingBlock (header bi)); cbn [orb]; [done|].
  destruct (auto_signed_block n); [done|]. split; [done|]. intros _.
  destruct (verify_loop 0 (txs bi) cores false prev) as [b rest] eqn:E.
  apply verify_loop_spec in E as [E1 E2]. cbn [Nat.sub] in *. split.
  - intros Hok. assert (b = true) as ->.
    { apply E1. destruct Hok as (H1 & H2 & H3). split_and!; [by right|done|done]. }
    rewrite (used_up _ _ _ (E2 eq_refl) (signers_few (txs bi))). unfold signing, zlen. by rewrite length_map.
  - intros Hok. destruct b; [|done]. destruct Hok. destruct E1 as [E1 _].
    destruct (E1 eq_refl) as ([?|?] & ? & ?); done.
Qed.

(** The verdict on a block of signatures: the number of its first seven
    signatures when there is one and they come from distinct core nodes, -1
    otherwise. *)
Theorem sign_block_verification_spec bi :
  let ok := checked (sb_txs bi) <> [] /\
            map (fun tx => core_name (sti_address tx)) (checked (sb_txs bi)) ⊆+ cores in
  (ok -> core_addr_verification_sign bi = zlen (checked (sb_txs bi))) /\
  (~ ok -> core_addr_verification_sign bi = -1).
Proof.
  unfold core_addr_verification_sign.
  destruct (verify_sign_loop 0 (sb_txs bi) cores false) as [b rest] eqn:E.
  apply verify_sign_loop_spec in E as [E1 E2]. cbn [Nat.sub] in *. cbn zeta. split.
  - intros Hok. assert (b = true) as ->.
    { apply E1. destruct Hok as (H1 & H2). split; [by right|done]. }
    rewrite (used_up _ _ _ (E2 eq_refl)) by (rewrite length_map, length_take; lia).
    unfold checked, zlen. by rewrite length_map.
  - intros Hok. destruct b; [|done]. destruct Hok. destruct E1 as [E1 _].
    destruct (E1 eq_refl) as ([?|?] & ?); done.
Qed.
End Verify.

(** The blocks that pass without signatures by number are exactly those from
    1 to 12890. *)
Theorem auto_signed_block_spec n : auto_signed_block n = true <-> 1 <= n <= 12890.
Proof.
  unfold auto_signed_block, auto_signed_blocks. cbn [auto_signed_in].
  change (1 <? 12890) with true. cbn [andb].
  destruct (1 =? n) eqn:E1; zbool; [split; [lia|done]|].
  destruct ((1 <? n) && (n <=? 12890)) eqn:E2; [zbool; split; [lia|done]|].
  split; [done|]. intros Hn. apply andb_false_iff in E2 as [E2|E2]; zbool; lia.
Qed.

(** ** Witnesses *)

Module Sample.
Definition addr (c : ascii) : Address := Address_range [c].

#[export] Instance lib : TorrentLib := {|
  Address_eqb a b := bool_decide (a = b);
  calcHexString a := bin2hex (address a);
  isStateBlock h := blockType h =? 1;
  isForgingBlock h := blockType h =? 2;
  getBlockType _ := str "block";
  parseBlockDump b _ := Ok NoBlock
|}.

Definition sign_tx (c : ascii) (prev : bytes) : TransactionInfo :=
  {| tx_hash := []; fromAddress := addr c; toAddress := addr c; value := 0; fees := 0; tx_nonce := 0;
     tx_blockNumber := 0; tx_blockIndex := 0; sizeRawTx := 0; isSignBlockTx := true;
     isModuleNotSet := false; intStatus := None; sign := []; pubKey := []; data := prev;
     allRawTx := []; tx_filePos := no_position; delegate := None; scriptInfo := None;
     tokenInfo := None; status := None |}.

Definition cores : list bytes := [str "61"; str "62"; str "63"].

Definition signed_by (l : list ascii) (n : Z) (h prev : bytes) : BlockInfo :=
  {| header := {| timestamp := 0; blockSize := 0; blockType := 0; hash := h; prevHash := prev;
       txsHash := []; signature := []; bh_countTxs := 0; countSignTx := 0; bh_filePos := no_position;
       blockNumber := Some n; senderSign := []; senderPubkey := []; senderAddress := [] |};
     txs := map (fun c => sign_tx c prev) l |}.

Lemma core_addr_verification_spec_witness :
  core_addr_verification cores (signed_by ["b"%char; "a"%char] 20000 (str "h") (str "p")) (bin2hex_vec (str "p")) = 2.
Proof.
  destruct (core_addr_verification_spec cores (signed_by ["b"%char; "a"%char] 20000 (str "h") (str "p")) 20000
    (bin2hex_vec (str "p"))) as [_ H]; [reflexivity|].
  apply H; [reflexivity|]. split; [discriminate|]. split.
  - repeat constructor.
  - apply (submseteq_trans _ [str "61"; str "62"]); [apply submseteq_swap|].
    apply submseteq_skip, submseteq_skip, submseteq_nil_l.
Defined.

Definition sign_block (l : list ascii) (prev : bytes) : SignBlockInfo :=
  {| sb_header := {| sbh_timestamp := 0; sbh_blockSize := 0; sbh_hash := []; sbh_prevHash := prev;
       sbh_filePos := no_position; sbh_senderSign := []; sbh_senderPubkey := []; sbh_senderAddress := [] |};
     sb_txs := map (fun c => {| sti_blockHash := prev; sti_sign := []; sti_pubkey := []; sti_address := addr c |}) l |}.

Lemma sign_block_verification_spec_witness :
  core_addr_verification_sign cores (sign_block ["z"%char] (str "p")) = -1.
Proof.
  apply (sign_block_verification_spec cores (sign_block ["z"%char] (str "p"))).
  intros [_ Hs]. apply singleton_submseteq_l in Hs. vm_compute in Hs.
  by repeat (apply elem_of_cons in Hs as [Hs|Hs]; [discriminate|]); apply not_elem_of_nil in Hs.
Defined.
End Sample.
