(* ===== verification/BlockWorker.v ===== *)
(** The worker of the block cache: [get_block] and [routine_2] of
    src/cache/blocks_cache.cpp, with [load_extra_blocks].

    The torrent node is the environment.  [fetch i n] is the response to the request
    [get-dump-block-by-number] for block [n] that is made after [i] writes to the
    database: its body, or [None] when get_response returns a null pointer, which
    [get_block] does not test.  No two such requests of a round have the same [i] and
    [n], so every one of them may be answered differently.  The responses to the
    other requests are arguments of the definitions that receive them.  RapidJSON's [parse] and the
    LZ4 decoder are parameters, as are the settings.

    A response is processed block by block.  [block_step] is one iteration of the
    loop over a response, [extra_step] one iteration of the loop over the blocks
    of signatures; [process_blocks] and [process_extra] are the loops over the
    received buffer, where a length field is not compared with the size of the
    buffer: reading past it is [Undefined]. *)

From Stdlib Require Import String.
From S2P Require Import Prelude Text Hex Endian Compress Json BlockInfo BlockStore BlockVerify.
Open Scope Z_scope.

(** struct blk_info; names carry the prefix [bk_]. *)
Record blk_info := { bk_number : Z; bk_hash : bytes; bk_extra : list bytes }.

Record wstate := {
  w_cache : cache;
  bi_prev : BlockInfo;
  prev_ext_data : bytes
}.

Definition w_with_cache (w : wstate) (c : cache) : wstate :=
  {| w_cache := c; bi_prev := bi_prev w; prev_ext_data := prev_ext_data w |}.

(** The locals of routine_2 before the loop: [prev_ext_data = {-1}]. *)
Definition wstate_new (c : cache) : wstate :=
  {| w_cache := c; bi_prev := BlockInfo_default; prev_ext_data := set0 (chr 255) ext_zero |}.

(** How an iteration ends: with the next element, or with [break]. *)
Inductive outcome := Next (w : wstate) | Break (w : wstate).
Definition outcome_state (o : outcome) : wstate := match o with Next w | Break w => w end.

Section Worker.
Context `{TorrentLib}.
Variable put_ok : nat -> bool.
Variable cores : list bytes.
(** settings::system::blocks_cache_block_verification. *)
Variable block_verification : bool.
Variable parse_json : bytes -> option json.
Variable LZ4_decompress_safe : bytes -> bytes -> Z * bytes.

(** [memcpy(exdata, s.c_str(), 8)], which needs seven characters and the NUL. *)
Definition copy_ext (s : bytes) : res bytes :=
  if zlen s <? 7 then Throw Undefined else Ok (take 8 (s ++ [zero])).

Section Fetching.
Variable fetch : nat -> Z -> option bytes.

(** get_block: success, and the outputs [result] and [exdata]. *)
Definition get_block (c : cache) (num : Z) (result : BlockInfo) (exdata : bytes)
  : res (bool * BlockInfo * bytes) :=
  exdata ← match get_extra_data c num with Some s => copy_ext s | None => Ok exdata end;
  match get_block_by_num c num false with
  | Some dump =>
      v ← parseBlockDump dump false;
      b ← get_BlockInfo v;
      Ok (true, bi_with_number b num, exdata)
  | None =>
      match fetch (puts c) num with
      | None => Throw Undefined
      | Some body =>
          if bool_decide (body = []) then Ok (false, result, exdata)
          else match parse_json body with
               | Some _ => Ok (false, result, exdata)
               | None =>
                   v ← parseBlockDump (decompress LZ4_decompress_safe body) false;
                   match v with
                   | ABlock b => Ok (true, bi_with_number b num, exdata)
                   | _ => Ok (false, result, exdata)
                   end
               end
      end
  end.

(** [ext[0] = blk_signed], its [save_extra_data] and [update_last_signed]. *)
Definition mark_signed (c : cache) (n : Z) (ext : bytes) : cache :=
  let c := (save_extra_data put_ok c (to_string n) ext).2 in
  (update_last_signed put_ok c n).2.

(** "check for broken blocks": the block before the previous one is signed when
    it carries signatures of its own predecessor. *)
Definition repair (c : cache) (prev : BlockInfo) (pn : Z) : res cache :=
  r1 ← get_block c (u64 (pn - 1)) BlockInfo_default ext_zero;
  let '(ok1, b1, ex1) := (r1 : bool * BlockInfo * bytes) in
  if ok1 && negb (bool_decide (at_nul ex1 0 = blk_signed))
     && bool_decide (prevHash (header prev) = hash (header b1)) then
    r2 ← get_block c (u64 (pn - 2)) BlockInfo_default ext_zero;
    let '(ok2, b2, _) := (r2 : bool * BlockInfo * bytes) in
    if ok2 && bool_decide (prevHash (header b1) = hash (header b2))
       && (0 <? core_addr_verification cores b1 (bin2hex_vec (hash (header b2)))) then
      Ok (mark_signed c (u64 (pn - 1)) (set0 blk_signed ex1))
    else Ok c
  else Ok c.

(** The previous block becomes signed, [if (blockNumber > 0)]. *)
Definition sign_previous (c : cache) (prev : BlockInfo) (prev_ext : bytes) : res cache :=
  match blockNumber (header prev) with
  | Some pn =>
      if 0 <? pn then
        c ← (if bool_decide (at_nul prev_ext 0 = blk_awaiting_signature) then repair c prev pn else Ok c);
        Ok (mark_signed c pn (set0 blk_signed prev_ext))
      else Ok c
  | None => Ok c
  end.

(** What follows a saved block with verdict [verify]: the cache, and the status
    [ext_data] of the block. *)
Definition settle (c : cache) (num verify : Z) (prev : BlockInfo) (prev_ext : bytes)
  : res (cache * bytes) :=
  if 0 <? verify then
    if verify =? INT_MAX then
      let ext := set0 blk_signed ext_zero in
      let c := mark_signed c num ext in
      if negb (bool_decide (at_nul prev_ext 0 = blk_not_signed))
         && negb (bool_decide (at_nul prev_ext 0 = blk_not_checked))
      then Ok (c, ext)
      else c ← sign_previous c prev prev_ext; Ok (c, ext)
    else c ← sign_previous c prev prev_ext; Ok (c, ext_zero)
  else if verify =? 0 then
    let ext := set0 blk_awaiting_signature ext_zero in
    Ok ((save_extra_data put_ok c (to_string num) ext).2, ext)
  else Ok (c, ext_zero).

(** The previous block: the one processed before in this response, or the one
    [get_block] finds; [None] for the [break]. *)
Definition previous (w : wstate) (num : Z) : res (option BlockInfo * bytes) :=
  if bool_decide (hash (header (bi_prev w)) = []) then
    r ← get_block (w_cache w) (u64 (num - 1)) (bi_prev w) (prev_ext_data w);
    let '(ok, b, ext) := (r : bool * BlockInfo * bytes) in
    Ok (if ok then Some b else None, ext)
  else Ok (Some (bi_prev w), prev_ext_data w).

(** A block with a previous block at hand: checks, verdict, saving. *)
Definition accept (w : wstate) (prev : BlockInfo) (prev_ext : bytes) (it : blk_info) (dump : bytes)
  : res outcome :=
  let num := bk_number it in
  let stopped c := Break {| w_cache := c; bi_prev := prev; prev_ext_data := prev_ext |} in
  v ← parseBlockDump dump false;
  b ← get_BlockInfo v;
  let bi := bi_with_number b num in
  if negb (bool_decide (hash (header bi) = bk_hash it)) then Ok (stopped (w_cache w))
  else if negb (bool_decide (prevHash (header bi) = hash (header prev))) then Ok (stopped (w_cache w))
  else
    let verify := core_addr_verification cores bi (bin2hex_vec (hash (header prev))) in
    if verify =? -1 then Ok (stopped (w_cache w))
    else
      let (ok, c) := save_block put_ok (w_cache w) num (bin2hex_vec (hash (header bi))) dump ext_zero in
      if negb ok then Ok (stopped c)
      else
        let c := with_next c (u64 (num + 1)) in
        let c := (update_number put_ok c (u64 (num + 1))).2 in
        r ← settle c num verify prev prev_ext;
        let '(c, ext) := (r : cache * bytes) in
        Ok (Next {| w_cache := c; bi_prev := bi; prev_ext_data := ext |}).

(** One iteration of the loop over a response. *)
Definition block_step (w : wstate) (it : blk_info) (dump : bytes) : res outcome :=
  let num := bk_number it in
  if block_verification && (1 <? num) then
    r ← previous w num;
    let '(prev, prev_ext) := (r : option BlockInfo * bytes) in
    match prev with
    | None => Ok (Break {| w_cache := w_cache w; bi_prev := bi_prev w; prev_ext_data := prev_ext |})
    | Some prev => accept w prev prev_ext it dump
    end
  else
    let ext := set0 (if num =? 1 then blk_signed else blk_not_checked) ext_zero in
    let (ok, c) := save_block put_ok (w_cache w) num (bin2hex_vec (bk_hash it)) dump ext in
    if ok then
      let c := with_next c (u64 (num + 1)) in
      let c := (update_number put_ok c (u64 (num + 1))).2 in
      Ok (Next (w_with_cache w c))
    else Ok (Break (w_with_cache w c)).

(** ** The loop over the buffer *)

(** A length field and the bytes it announces: [None] for length 0, the dump and
    the rest of the buffer otherwise.  [p] is the part of the buffer that is left;
    the NUL behind it, which [c_str] guarantees, can still be read. *)
Definition next_dump (p : bytes) : res (option (bytes * bytes)) :=
  let q := p ++ [zero] in
  if zlen q <? 8 then Throw Undefined
  else
    let blk_size := be_value (take 8 q) in
    if blk_size =? 0 then Ok None
    else if zlen (drop 8 q) <? blk_size then Throw Undefined
    else Ok (Some (take (Z.to_nat blk_size) (drop 8 q), drop (Z.to_nat blk_size) (drop 8 p))).

(** [while (p < buf + resp_size && iter != hashes.end())]: the state, and the
    elements before [iter]. *)
Fixpoint process_blocks (w : wstate) (hashes : list blk_info) (p : bytes)
  : res (wstate * list blk_info) :=
  match hashes with
  | [] => Ok (w, [])
  | it :: hashes' =>
      if bool_decide (p = []) then Ok (w, [])
      else
        d ← next_dump p;
        match (d : option (bytes * bytes)) with
        | None => Ok (w, [])
        | Some (dump, rest) =>
            o ← block_step w it dump;
            match o with
            | Break w => Ok (w, [])
            | Next w =>
                r ← process_blocks w hashes' rest;
                let '(w, done) := (r : wstate * list blk_info) in
                Ok (w, it :: done)
            end
        end
  end.

(** [bi_prev.header.hash.clear()], then the loop. *)
Definition process_response (w : wstate) (hashes : list blk_info) (decompressed : bytes)
  : res (wstate * list blk_info) :=
  process_blocks {| w_cache := w_cache w; bi_prev := bi_with_hash (bi_prev w) [];
                    prev_ext_data := prev_ext_data w |} hashes decompressed.

End Fetching.

(** ** Blocks of signatures *)

(** One iteration of the loop of load_extra_blocks; it never leaves the loop. *)
Definition extra_step (c : cache) (dump : bytes) : res cache :=
  v ← parseBlockDump dump false;
  match v with
  | ASignBlock sign_block =>
      let ext := set0 (if 0 <? core_addr_verification_sign cores sign_block then blk_signed
                       else blk_not_signed) ext_zero in
      match get_block_num_by_hash c (bin2hex_vec (sbh_prevHash (sb_header sign_block))) with
      | Some tmp_str =>
          let c := (save_extra_data put_ok c tmp_str ext).2 in
          let c := (save_extra_block put_ok c tmp_str dump).2 in
          let number := u64 (atoi tmp_str) in
          if bool_decide (at_nul ext 0 = blk_signed)
          then Ok (update_last_signed put_ok c number).2 else Ok c
      | None => Ok c
      end
  | _ => Ok c
  end.

(** [while (p < buf + resp_size && it != hashes.cend())], over the elements of
    [hashes]. *)
Fixpoint process_extra (c : cache) (hashes : list blk_info) (p : bytes) : res cache :=
  match hashes with
  | [] => Ok c
  | _ :: hashes' =>
      if bool_decide (p = []) then Ok c
      else
        d ← next_dump p;
        match (d : option (bytes * bytes)) with
        | None => Ok c
        | Some (dump, rest) => c ← extra_step c dump; process_extra c hashes' rest
        end
  end.

(** ** The list of blocks in an answer to get-blocks *)

Definition from_hex (v : json) : res bytes :=
  match v with
  | JStr s => match fromHex s with Some b => Ok b | None => Throw Undefined end
  | _ => Throw Undefined
  end.

Fixpoint from_hex_all (l : list json) : res (list bytes) :=
  match l with
  | [] => Ok []
  | v :: l' => b ← from_hex v; r ← from_hex_all l'; Ok (b :: r)
  end.

(** [it->value.GetUint()]: a number that is no [unsigned] is outside what the
    library defines. *)
Definition GetUint (v : json) : res Z :=
  match v with JInt z => if IsUint v then Ok z else Throw Undefined | _ => Throw Undefined end.

(** The loop over the array: [hashes], after the sizes so far. *)
Fixpoint collect (blocks_max_size : Z) (l : list json) (blocks_size : Z) (hashes : list blk_info)
  : res (list blk_info) :=
  match l with
  | [] => Ok hashes
  | JObj m :: l' =>
      size ← match FindMember (str "size") m with
             | Some v => z ← GetUint v; Ok (Some z)
             | None => Ok None
             end;
      let blocks_size := match size with Some z => u32 (blocks_size + z) | None => blocks_size end in
      if bool_decide (size <> None)
         && (if block_verification then 1 <? zlen hashes else 0 <? zlen hashes)
         && (blocks_max_size <? blocks_size)
      then Ok hashes
      else
        match FindMember (str "number") m with
        | None => Ok []
        | Some v =>
            number ← GetUint v;
            match FindMember (str "hash") m with
            | None => Ok []
            | Some h =>
                hash ← from_hex h;
                extra ← match FindMember (str "prev_extra_blocks") m with
                        | Some (JArr a) => from_hex_all a
                        | _ => Ok []
                        end;
                collect blocks_max_size l' blocks_size
                  (hashes ++ [{| bk_number := number; bk_hash := hash; bk_extra := extra |}])
            end
        end
  | _ :: l' => collect blocks_max_size l' blocks_size hashes
  end.

(** ** Loading the blocks of signatures *)

(** The inner [for] over [iter->extra]: the text and the count. *)
Fixpoint extra_items (first : bool) (extra : list bytes) (json : bytes) (count : Z) : bytes * Z :=
  match extra with
  | [] => (json, count)
  | h :: extra' =>
      let json := if first then json else json ++ str "," in
      extra_items first extra' (json ++ [chr 34] ++ bin2hex_vec h ++ [chr 34]) (count + 1)
  end.

(** The outer [for]: the text, the count and the position of [iter] after it. *)
Fixpoint extra_request (recv_count : Z) (first : bool) (hashes : list blk_info) (json : bytes)
  (count : Z) (iter : nat) : bytes * Z * nat :=
  match hashes with
  | [] => (json, count, iter)
  | it :: hashes' =>
      let '(json, count) := extra_items first (bk_extra it) json count in
      if recv_count <=? count then (json, count, iter)
      else extra_request recv_count false hashes' json count (S iter)
  end.

(** The list between the brackets of the request. *)
Definition extra_hashes (recv_count : Z) (hashes : list blk_info) : bytes * Z * nat :=
  extra_request recv_count true hashes [] 0 0.

(** The answer to one request for blocks of signatures. *)
Definition receive_extra (c : cache) (hashes : list blk_info) (body : option bytes) : res cache :=
  match body with
  | None => Ok c
  | Some body =>
      if bool_decide (body = []) then Ok c
      else match parse_json body with
           | Some _ => Ok c
           | None => process_extra c hashes (decompress LZ4_decompress_safe body)
           end
  end.

(** load_extra_blocks: [answer] gives the body for a list of hashes.  [None] when
    [fuel] rounds of the [while] were not enough. *)
Fixpoint load_extra_blocks (fuel : nat) (recv_count : Z) (answer : bytes -> option bytes)
  (c : cache) (hashes : list blk_info) : option (res cache) :=
  match fuel with
  | O => None
  | S f =>
      match hashes with
      | [] => Some (Ok c)
      | _ =>
          let '(json, count, iter) := extra_hashes recv_count hashes in
          if count =? 0 then Some (Ok c)
          else
            match receive_extra c hashes (answer json) with
            | Throw e => Some (Throw e)
            | Ok c => load_extra_blocks f recv_count answer c (drop iter hashes)
            end
      end
  end.

(** ** One round of routine_2 *)

(** The responses of the torrent node in one round, [None] for a null pointer. *)
Record answers := {
  a_get_blocks : option bytes;
  a_get_count : option bytes;
  a_get_dumps : bytes -> option bytes;
  a_fetch : nat -> Z -> option bytes
}.

(** The request list for the dumps. *)
Definition dump_hashes (hashes : list blk_info) : bytes :=
  match hashes with
  | [] => []
  | it :: rest =>
      fold_left (fun json i => json ++ str "," ++ [chr 34] ++ bin2hex_vec (bk_hash i) ++ [chr 34]) rest
        ([chr 34] ++ bin2hex_vec (bk_hash it) ++ [chr 34])
  end.

(** The branch for an empty array: only signatures may be missing.  The response
    is used without a test for the null pointer. *)
Definition no_new_blocks (fuel : nat) (recv_count : Z) (a : answers) (w : wstate) : option (res wstate) :=
  match a_get_count a with
  | None => Some (Throw Undefined)
  | Some body =>
      if bool_decide (body = []) then Some (Ok w)
      else
        match parse_json body with
        | None => Some (Ok w)
        | Some doc =>
            match get_result doc with
            | None => Some (Ok w)
            | Some tmp =>
                match get_value_u64 tmp "count_blocks" with
                | None => Some (Ok w)
                | Some count_blocks =>
                    if count_blocks =? m_last_signed_block (w_cache w) then Some (Ok w)
                    else
                      match (match get "next_extra_blocks" tmp with
                             | Some (JArr l) => from_hex_all l
                             | _ => Ok []
                             end) with
                      | Throw e => Some (Throw e)
                      | Ok extra =>
                          (fun r => c ← r; Ok (w_with_cache w c)) <$>
                          load_extra_blocks fuel recv_count (a_get_dumps a) (w_cache w)
                            [{| bk_number := count_blocks; bk_hash := []; bk_extra := extra |}]
                      end
                end
            end
        end
  end.

(** The branch for a non-empty array. *)
Definition new_blocks (fuel : nat) (recv_count : Z) (a : answers) (hashes : list blk_info) (w : wstate)
  : option (res wstate) :=
  match a_get_dumps a (dump_hashes hashes) with
  | None => Some (Ok w)
  | Some body =>
      if bool_decide (body = []) then Some (Ok w)
      else
        let refused := match parse_json body with
                       | Some doc => bool_decide (get_error doc <> None) || bool_decide (get_result doc <> None)
                       | None => false
                       end in
        if refused then Some (Ok w)
        else
          let decompressed := decompress LZ4_decompress_safe body in
          if bool_decide (decompressed = []) then Some (Ok w)
          else
            match process_response (a_fetch a) w hashes decompressed with
            | Throw e => Some (Throw e)
            | Ok (w, done) =>
                (fun r => c ← r; Ok (w_with_cache w c)) <$>
                load_extra_blocks fuel recv_count (a_get_dumps a) (w_cache w) done
            end
  end.

(** The body of [while (m_run)], after its timing. *)
Definition round (fuel : nat) (recv_count blocks_max_size : Z) (a : answers) (w : wstate)
  : option (res wstate) :=
  match a_get_blocks a with
  | None => Some (Ok w)
  | Some body =>
      if bool_decide (body = []) then Some (Ok w)
      else
        match parse_json body with
        | None => Some (Ok w)
        | Some doc =>
            if bool_decide (get_error doc <> None) then Some (Ok w)
            else
              match get_result doc with
              | Some (JArr []) => no_new_blocks fuel recv_count a w
              | Some (JArr l) =>
                  match collect blocks_max_size l 0 [] with
                  | Throw e => Some (Throw e)
                  | Ok [] => Some (Ok w)
                  | Ok hashes => new_blocks fuel recv_count a hashes w
                  end
              | _ => Some (Ok w)
              end
        end
  end.

(** The first value of [m_nextblock] in routine_2, given the answer to
    get-count-blocks ([None] when it has no count). *)
Definition first_block (init_count : Z) (count : option Z) : Z :=
  if init_count =? 0 then 1
  else match count with
       | Some count_blocks =>
           if init_count <? count_blocks then u64 (count_blocks - init_count) else count_blocks
       | None => 1
       end.

(** The same in routine, where the difference is compared with 0 after it was
    computed without sign. *)
Definition first_block_v1 (init_count count_blocks : Z) : Z :=
  if 0 <? u64 (count_blocks - init_count) then u64 (count_blocks - init_count) else 1.

(** One pass of the inner loop of routine for block [m_nextblock]: [false] for
    the [break]. *)
Definition routine_block (c : cache) (body : bytes) : res (bool * cache) :=
  if bool_decide (body = []) then Ok (false, c)
  else match parse_json body with
       | Some _ => Ok (false, c)
       | None =>
           v ← parseBlockDump (decompress LZ4_decompress_safe body) false;
           match v with
           | ABlock b =>
               let (ok, c) := save_block put_ok c (m_nextblock c) (bin2hex_vec (hash (header b))) body ext_zero in
               if ok then
                 let c := with_next c (u64 (m_nextblock c + 1)) in
                 Ok (true, (update_number put_ok c (m_nextblock c)).2)
               else Ok (true, c)
           | _ => Ok (true, c)
           end
       end.
End Worker.
