(* ===== verification/BlockSafety.v ===== *)
(** Safety of the block cache worker: how a block gets the status [blk_signed],
    which blocks are served, how the counters move, and that what is accepted
    from a response is a chain.

    The definitions are those of BlockStore, BlockVerify and BlockWorker; a
    [run] is a sequence of their steps as [routine_2] performs them, and
    [round_run] shows that a round is such a run. *)

From Stdlib Require Import String.
From S2P Require Import Prelude Text Hex Endian Compress Json BlockInfo BlockStore BlockVerify BlockWorker.
Open Scope Z_scope.

(** What the block format promises: hashes are SHA-256 digests. *)
Class TorrentLaws `(L : TorrentLib) : Prop := {
  block_hash_size d v b : parseBlockDump d v = Ok (ABlock b) ->
    length (hash (header b)) = 32%nat /\ length (prevHash (header b)) = 32%nat;
  sign_hash_size d v b : parseBlockDump d v = Ok (ASignBlock b) ->
    length (sbh_prevHash (sb_header b)) = 32%nat
}.

Abbreviation u64_ok n := (0 <= n <= UINT64_MAX).

(** ** Statuses *)

Definition signed (c : cache) (n : Z) : Prop :=
  exists e, look c (KData n) = Some e /\ at_nul e 0 = blk_signed.

(** [c'] has no signed block that [c] did not have, except those in [S]. *)
Definition adds (c c' : cache) (S : Z -> Prop) : Prop :=
  forall m, u64_ok m -> signed c' m -> signed c m \/ S m.

Lemma adds_same c c' S : m_db c' = m_db c -> adds c c' S.
Proof. intros E m Hm (e & He & Hs). left. exists e. unfold look in *. by rewrite <- E. Qed.

Lemma adds_trans c c1 c2 (S1 S2 S : Z -> Prop) :
  adds c c1 S1 -> adds c1 c2 S2 -> (forall m, S1 m \/ S2 m -> S m) -> adds c c2 S.
Proof.
  intros H1 H2 HS m Hm Hs. destruct (H2 m Hm Hs) as [Hs1|?]; [|eauto].
  destruct (H1 m Hm Hs1); eauto.
Qed.

Lemma adds_weaken c c' (S S' : Z -> Prop) : adds c c' S -> (forall m, S m -> S' m) -> adds c c' S'.
Proof. intros H1 HS m Hm Hs. destruct (H1 m Hm Hs); eauto. Qed.

Lemma u64_range z : u64_ok (u64 z).
Proof. pose proof (wrap_range 64 z). unfold UINT64_MAX. lia. Qed.
#[export] Hint Resolve u64_range : fullnode.

Section Puts.
Context {put_ok : nat -> bool}.

Lemma adds_Put c k v :
  valid_key k -> adds c (Put put_ok c (enc k) v).2 (fun m => k = KData m /\ at_nul v 0 = blk_signed).
Proof.
  intros Hk m Hm (e & He & Hs). destruct (Put put_ok c (enc k) v) as [b c'] eqn:E.
  cbn [snd] in He. rewrite (Put_look _ _ _ _ _ (KData m) E) in He by done.
  destruct (b && bool_decide (KData m = k)) eqn:Eb.
  - zbool. injection He as <-. by right.
  - left. by exists e.
Qed.

Lemma adds_save_extra_data c n e :
  u64_ok n -> adds c (save_extra_data put_ok c (to_string n) e).2 (fun m => m = n /\ at_nul e 0 = blk_signed).
Proof.
  intros Hn. rewrite save_extra_data_Put by done.
  eapply adds_weaken; [by apply adds_Put|]. by intros m [[= ->] ?].
Qed.

Lemma adds_save_extra_block c n e :
  u64_ok n -> adds c (save_extra_block put_ok c (to_string n) e).2 (fun _ => False).
Proof.
  intros Hn. rewrite save_extra_block_Put by done.
  eapply adds_weaken; [by apply adds_Put|]. by intros m [[=] ?].
Qed.

Lemma adds_update_number c n : adds c (update_number put_ok c n).2 (fun _ => False).
Proof.
  eapply adds_weaken; [by apply (adds_Put c KNext)|]. by intros m [[=] ?].
Qed.

Lemma adds_update_last_signed c n : adds c (update_last_signed put_ok c n).2 (fun _ => False).
Proof.
  unfold update_last_signed. destruct (_ <? _); [|by apply adds_same].
  pose proof (adds_Put c KLast (to_string n) I) as HP. cbn [enc] in HP.
  destruct (Put put_ok c (str "last_signed_block") (to_string n)) as [ok c1]. cbn [snd] in HP.
  assert (adds c c1 (fun _ => False)) as H1 by (eapply adds_weaken; [exact HP|]; by intros m [[=] ?]).
  by destruct ok; cbn [negb snd].
Qed.

Lemma data_not_hash n h : enc (KData n) <> bin2hex h.
Proof. cbn [enc]. intros E. symmetry in E. by apply hash_no_at in E. Qed.

Lemma adds_save_block c n h d e :
  u64_ok n ->
  adds c (save_block put_ok c n (bin2hex_vec h) d e).2 (fun m => m = n /\ at_nul e 0 = blk_signed).
Proof.
  intros Hn m Hm (x & Hx & Hs). change (bin2hex_vec h) with (bin2hex h) in Hx.
  destruct (save_block put_ok c n (bin2hex h) d e) as [b c'] eqn:E. cbn [snd] in Hx.
  destruct (save_block_writes _ _ _ _ _ _ _ E Hn) as (_ & w1 & w2 & _ & _ & L & _).
  rewrite L in Hx by done. destruct (b && bool_decide (KData m = KData n)) eqn:E3.
  - zbool. right. split; congruence.
  - rewrite (bool_decide_eq_false_2 (enc (KData m) = bin2hex h)), (bool_decide_eq_false_2 (KData m = KNum n)),
      !andb_false_r in Hx by (done || apply data_not_hash). left. by exists x.
Qed.

Lemma adds_mark_signed c n e : u64_ok n -> adds c (mark_signed put_ok c n e) (fun m => m = n).
Proof.
  intros Hn. unfold mark_signed. eapply adds_trans;
    [by apply adds_save_extra_data|apply adds_update_last_signed|]. intros m [[-> _]|[]]. done.
Qed.

(** ** Counters *)

Definition counters_grow (c c' : cache) : Prop := m_last_signed_block c <= m_last_signed_block c'.

Lemma grow_Put c k v : counters_grow c (Put put_ok c k v).2.
Proof. unfold counters_grow, Put. destruct (put_ok (puts c)); cbn; lia. Qed.

Lemma grow_update_last_signed c n : counters_grow c (update_last_signed put_ok c n).2.
Proof.
  unfold update_last_signed, counters_grow. destruct (_ <? _) eqn:E; zbool; [|cbn; lia].
  unfold Put. destruct (put_ok (puts c)); cbn; lia.
Qed.

Lemma grow_save_block c n h d e : counters_grow c (save_block put_ok c n h d e).2.
Proof.
  unfold save_block, save_extra_data, counters_grow, Put.
  repeat (case_match; cbn [snd fst m_last_signed_block] in *; simplify_eq/=; try lia).
Qed.

Lemma grow_mark_signed c n e : counters_grow c (mark_signed put_ok c n e).
Proof.
  unfold mark_signed. pose proof (grow_Put c (str_concat [to_string n; str "@data"]) e).
  pose proof (grow_update_last_signed (save_extra_data put_ok c (to_string n) e).2 n).
  unfold counters_grow, save_extra_data in *. lia.
Qed.
End Puts.

(** ** Steps *)

Section Steps.
Context `{L : TorrentLib} {laws : TorrentLaws L}.
Context {put_ok : nat -> bool} {cores : list bytes} {block_verification : bool}.
Context {parse_json : bytes -> option json} {LZ4_decompress_safe : bytes -> bytes -> Z * bytes}.
Context {fetch : nat -> Z -> option bytes}.

Abbreviation verdict := (core_addr_verification cores).
Abbreviation getb := (get_block parse_json LZ4_decompress_safe fetch).
Abbreviation prev_of := (previous parse_json LZ4_decompress_safe fetch).
Abbreviation step := (block_step put_ok cores block_verification parse_json LZ4_decompress_safe fetch).
Abbreviation xstep := (extra_step put_ok cores).

(** [b2], [b1] and [prev] follow one another in the chain as it is found at the
    time, and [b1] carries signatures of [b2]. *)
Definition repaired (c : cache) (prev : BlockInfo) (pn m : Z) : Prop :=
  exists b1 ex1 b2 ex2,
    m = u64 (pn - 1) /\
    getb c m BlockInfo_default ext_zero = Ok (true, b1, ex1) /\
    prevHash (header prev) = hash (header b1) /\
    getb c (u64 (pn - 2)) BlockInfo_default ext_zero = Ok (true, b2, ex2) /\
    prevHash (header b1) = hash (header b2) /\
    0 < verdict b1 (bin2hex_vec (hash (header b2))).

(** Elements numbered 0 and 1 are saved unchecked, under their number and under the
    hash as it was announced. *)
Definition unchecked (it : blk_info) (m : Z) : Prop :=
  bk_number it <= 1 /\ (m = bk_number it \/ bin2hex_vec (bk_hash it) = to_string m).

(** Why processing [dump] for the element [it] in state [w] may make block [m]
    available: the element is not checked; or the dump is the block that was announced
    and continues the chain, and [m] is the
    block itself and needs no signature, or [m] is the block before it and the
    dump carries signatures of core nodes for it, or [m] was repaired. *)
Definition block_evidence (w : wstate) (it : blk_info) (dump : bytes) (m : Z) : Prop :=
  unchecked it m \/
  exists prev prev_ext b,
    prev_of w (bk_number it) = Ok (Some prev, prev_ext) /\
    parseBlockDump dump false = Ok (ABlock b) /\
    hash (header b) = bk_hash it /\ prevHash (header b) = hash (header prev) /\
    let bi := bi_with_number b (bk_number it) in
    ((m = bk_number it /\ exempt bi m = true) \/
     (blockNumber (header prev) = Some m /\ 0 < verdict bi (bin2hex_vec (hash (header prev)))) \/
     exists c pn, blockNumber (header prev) = Some pn /\ repaired c prev pn m).

(** Why a block of signatures may mark block [m]. *)
Definition extra_evidence (c : cache) (dump : bytes) (m : Z) : Prop :=
  exists sb, parseBlockDump dump false = Ok (ASignBlock sb) /\
    0 < core_addr_verification_sign cores sb /\
    get_block_num_by_hash c (bin2hex_vec (sbh_prevHash (sb_header sb))) = Some (to_string m).

(** Numbers the worker keeps are 64-bit. *)
Definition w_wf (w : wstate) : Prop :=
  forall n, blockNumber (header (bi_prev w)) = Some n -> u64_ok n.

(** The index by hash holds decimal numbers. *)
Definition index_wf (c : cache) : Prop :=
  forall h s, length h = 32%nat -> look c (KHash h) = Some s -> exists n, u64_ok n /\ s = to_string n.

Lemma getb_number c n b0 e0 b e : getb c n b0 e0 = Ok (true, b, e) -> blockNumber (header b) = Some n.
Proof.
  unfold get_block. intros (x & _ & Hr)%bind_Ok. destruct (get_block_by_num c n false).
  - apply bind_Ok in Hr as (v & _ & Hr). apply bind_Ok in Hr as (b' & _ & [= <- <-]). done.
  - destruct (fetch _ _); [|done]. case_bool_decide; [done|]. destruct (parse_json _); [done|].
    apply bind_Ok in Hr as (v & _ & Hr). destruct v; try done. by injection Hr as <- <-.
Qed.

Lemma repair_adds c prev pn c' :
  repair put_ok cores parse_json LZ4_decompress_safe fetch c prev pn = Ok c' ->
  adds c c' (repaired c prev pn) /\ counters_grow c c'.
Proof.
  unfold repair. intros ([[ok1 b1] ex1] & G1 & Hr)%bind_Ok.
  destruct (ok1 && _ && _) eqn:E1; [|injection Hr as <-; split; [by apply adds_same|unfold counters_grow; lia]].
  apply bind_Ok in Hr as ([[ok2 b2] ex2] & G2 & Hr).
  destruct (ok2 && _ && _) eqn:E2; [|injection Hr as <-; split; [by apply adds_same|unfold counters_grow; lia]].
  injection Hr as <-. zbool. subst. split; [|apply grow_mark_signed].
  eapply adds_weaken; [apply adds_mark_signed, u64_range|]. intros m ->.
  exists b1, ex1, b2, ex2. split_and!; try done.
Qed.

Lemma sign_previous_adds c prev ext c' :
  (forall n, blockNumber (header prev) = Some n -> u64_ok n) ->
  sign_previous put_ok cores parse_json LZ4_decompress_safe fetch c prev ext = Ok c' ->
  adds c c' (fun m => blockNumber (header prev) = Some m \/
                      exists pn, blockNumber (header prev) = Some pn /\ repaired c prev pn m)
  /\ counters_grow c c'.
Proof.
  intros Hn. unfold sign_previous. destruct (blockNumber (header prev)) as [pn|] eqn:Ep.
  2: { intros [= <-]. split; [by apply adds_same|unfold counters_grow; lia]. }
  destruct (0 <? pn); [|intros [= <-]; split; [by apply adds_same|unfold counters_grow; lia]].
  intros (c1 & Hr & [= <-])%bind_Ok. specialize (Hn pn eq_refl).
  assert (adds c c1 (repaired c prev pn) /\ counters_grow c c1) as [Ha Hg].
  { case_bool_decide; [by apply repair_adds|]. injection Hr as <-.
    split; [by apply adds_same|unfold counters_grow; lia]. }
  split; [|pose proof (grow_mark_signed (put_ok := put_ok) c1 pn (set0 blk_signed ext)); unfold counters_grow in *; lia].
  eapply adds_trans; [exact Ha|by apply adds_mark_signed|]. intros m [Hm | ->]; eauto.
Qed.

Lemma settle_adds c num verify prev ext c' ext' :
  u64_ok num -> (forall n, blockNumber (header prev) = Some n -> u64_ok n) ->
  settle put_ok cores parse_json LZ4_decompress_safe fetch c num verify prev ext = Ok (c', ext') ->
  adds c c' (fun m => (m = num /\ verify = INT_MAX) \/
                      (blockNumber (header prev) = Some m /\ 0 < verify) \/
                      exists c1 pn, blockNumber (header prev) = Some pn /\ repaired c1 prev pn m)
  /\ counters_grow c c'.
Proof.
  intros Hnum Hn. unfold settle. destruct (0 <? verify) eqn:Ev; zbool.
  - destruct (verify =? INT_MAX) eqn:Em; zbool.
    + assert (adds c (mark_signed put_ok c num (set0 blk_signed ext_zero)) (fun m => m = num)) as Ha
        by by apply adds_mark_signed.
      pose proof (grow_mark_signed (put_ok := put_ok) c num (set0 blk_signed ext_zero)) as Hg.
      destruct (negb _ && negb _).
      * intros [= <- <-]. split; [|done]. eapply adds_weaken; [exact Ha|]. intros m ->. by left.
      * intros (c2 & Hs & [= <- <-])%bind_Ok. apply sign_previous_adds in Hs as [Hs Hg2]; [|done].
        split; [|unfold counters_grow in *; lia].
        eapply adds_trans; [exact Ha|exact Hs|]. intros m [-> | [Hm|(pn & ? & ?)]]; [by left|tauto|].
        right; right. eauto.
    + intros (c2 & Hs & [= <- <-])%bind_Ok. apply sign_previous_adds in Hs as [Hs Hg2]; [|done].
      split; [|done]. eapply adds_weaken; [exact Hs|]. intros m [Hm|(pn & ? & ?)]; [tauto|].
      right; right. eauto.
  - destruct (verify =? 0); intros [= <- <-]; [|split; [by apply adds_same|unfold counters_grow; lia]].
    split; [|apply grow_Put]. eapply adds_weaken; [by apply adds_save_extra_data|].
    intros m [_ Hs]. done.
Qed.

Lemma previous_wf w num prev ext :
  w_wf w -> prev_of w num = Ok (Some prev, ext) -> forall n, blockNumber (header prev) = Some n -> u64_ok n.
Proof.
  unfold previous. intros Hw Hp n Hn. case_bool_decide.
  - apply bind_Ok in Hp as ([[ok b] e] & Hg & Hr). destruct ok; [|done]. injection Hr as -> ->.
    apply getb_number in Hg. rewrite Hg in Hn. injection Hn as <-. apply u64_range.
  - injection Hp as <- <-. by apply Hw.
Qed.

(** Everything a step does to the statuses, the counters and the state. *)
Lemma step_adds w it dump o :
  block_verification = true -> w_wf w -> u64_ok (bk_number it) -> step w it dump = Ok o ->
  adds (w_cache w) (w_cache (outcome_state o)) (block_evidence w it dump) /\
  counters_grow (w_cache w) (w_cache (outcome_state o)) /\ w_wf (outcome_state o).
Proof.
  intros Hv Hw Hnum. unfold block_step. rewrite Hv. cbn [andb].
  destruct (1 <? bk_number it) eqn:E1.
  - intros ([prev ext] & Hp & Hr)%bind_Ok. destruct prev as [prev|].
    2: { injection Hr as <-. cbn. split_and!; [by apply adds_same|unfold counters_grow; lia|done]. }
    pose proof (previous_wf _ _ _ _ Hw Hp) as Hpn. unfold accept in Hr.
    apply bind_Ok in Hr as (v & Hd & Hr). apply bind_Ok in Hr as (b & Hb & Hr).
    destruct v as [|b'| |]; try done. injection Hb as ->.
    destruct (negb (bool_decide (hash (header (bi_with_number b (bk_number it))) = bk_hash it))) eqn:EH.
    { injection Hr as <-. cbn. split_and!; [by apply adds_same|unfold counters_grow; lia|exact Hpn]. }
    destruct (negb (bool_decide (prevHash _ = _))) eqn:EP.
    { injection Hr as <-. cbn. split_and!; [by apply adds_same|unfold counters_grow; lia|exact Hpn]. }
    destruct (verdict _ _ =? -1) eqn:EV.
    { injection Hr as <-. cbn. split_and!; [by apply adds_same|unfold counters_grow; lia|exact Hpn]. }
    zbool. cbn [bi_with_number header with_number hash prevHash] in EH, EP, Hr.
    pose proof (adds_save_block (put_ok := put_ok) (w_cache w) (bk_number it) (hash (header b)) dump ext_zero
      Hnum) as Ha.
    pose proof (grow_save_block (put_ok := put_ok) (w_cache w) (bk_number it)
      (bin2hex_vec (hash (header b))) dump ext_zero) as Hg.
    destruct (save_block _ _ _ _ _ _) as [ok c1]. cbn [snd] in Ha, Hg.
    assert (adds (w_cache w) c1 (fun _ => False)) as Ha1
      by (eapply adds_weaken; [exact Ha|]; by intros m [_ ?]).
    destruct ok; cbn [negb] in Hr.
    2: { injection Hr as <-. cbn. split_and!; [|done|exact Hpn].
         eapply adds_weaken; [exact Ha1|]. by intros m []. }
    apply bind_Ok in Hr as ([c2 ext2] & Hs & [= <-]). cbn [outcome_state w_cache].
    apply settle_adds in Hs as [Hs Hg2]; [|done|done].
    pose proof (grow_Put (put_ok := put_ok) (with_next c1 (u64 (bk_number it + 1))) (str "next_block")
      (to_string (u64 (bk_number it + 1)))) as Hg3.
    assert (adds c1 (update_number put_ok (with_next c1 (u64 (bk_number it + 1))) (u64 (bk_number it + 1))).2
              (fun _ => False)) as Hu by exact (adds_update_number (with_next c1 _) _).
    split_and!.
    + eapply adds_trans; [exact Ha1|eapply adds_trans; [exact Hu|exact Hs|intros m Hm; exact Hm]|].
      cbn beta. intros m [[]|[[]|Hm]]. right. exists prev, ext, b. split_and!; try done.
      destruct Hm as [[-> Hm]|[[Hm1 Hm2]|(c' & pn & ? & ?)]].
      * left. split; [done|]. apply verdict_max in Hm as (n & Hx & Hn).
        assert (bk_number it = n) as <- by (by apply Hn). exact Hx.
      * right; left. done.
      * right; right. eauto.
    + unfold counters_grow, update_number in *. cbn [with_next m_last_signed_block] in *. lia.
    + intros n [= <-]. done.
  - intros Hr. pose proof (adds_save_block (put_ok := put_ok) (w_cache w) (bk_number it) (bk_hash it) dump
      (set0 (if bk_number it =? 1 then blk_signed else blk_not_checked) ext_zero) Hnum) as Ha.
    pose proof (grow_save_block (put_ok := put_ok) (w_cache w) (bk_number it) (bin2hex_vec (bk_hash it)) dump
      (set0 (if bk_number it =? 1 then blk_signed else blk_not_checked) ext_zero)) as Hg.
    destruct (save_block _ _ _ _ _ _) as [ok c1]. cbn [snd] in Ha, Hg.
    assert (adds (w_cache w) c1 (block_evidence w it dump)) as Ha1.
    { eapply adds_weaken; [exact Ha|]. intros m [-> Hm]. left. zbool. by split; [|left]. }
    destruct ok; injection Hr as <-; cbn [outcome_state w_with_cache w_cache]; [|done].
    split_and!; [|unfold counters_grow in *; apply (Z.le_trans _ _ _ Hg); apply (grow_Put (with_next c1 _))|done].
    eapply adds_trans; [exact Ha1|apply (adds_update_number (with_next c1 _))|]. by intros m [?|[]].
Qed.

Lemma xstep_adds c dump c' :
  index_wf c -> xstep c dump = Ok c' -> adds c c' (extra_evidence c dump) /\ counters_grow c c'.
Proof.
  intros Hi. unfold extra_step. intros (v & Hd & Hr)%bind_Ok.
  destruct v as [| |sb|]; try (injection Hr as <-; split; [by apply adds_same|unfold counters_grow; lia]).
  pose proof (sign_hash_size _ _ _ Hd) as Hh.
  change (bin2hex_vec (sbh_prevHash (sb_header sb))) with (enc (KHash (sbh_prevHash (sb_header sb)))) in Hr.
  unfold get_block_num_by_hash in Hr. fold (look c (KHash (sbh_prevHash (sb_header sb)))) in Hr.
  destruct (look c _) as [s|] eqn:El;
    [|injection Hr as <-; split; [by apply adds_same|unfold counters_grow; lia]].
  destruct (Hi _ _ Hh El) as (n & Hn & ->).
  set (e := set0 (if 0 <? core_addr_verification_sign cores sb then blk_signed else blk_not_signed) ext_zero) in *.
  assert (adds c (save_extra_block put_ok (save_extra_data put_ok c (to_string n) e).2 (to_string n) dump).2
            (extra_evidence c dump)) as Ha.
  { eapply adds_trans; [exact (adds_save_extra_data (put_ok := put_ok) c n e Hn)
      |exact (adds_save_extra_block (put_ok := put_ok) _ n dump Hn)|].
    intros m [[-> Hs]|[]]. exists sb. split; [done|]. split; [|done].
    unfold e in Hs. destruct (0 <? _) eqn:E; [by zbool|done]. }
  pose proof (grow_Put (put_ok := put_ok) c (str_concat [to_string n; str "@data"]) e) as G1.
  pose proof (grow_Put (put_ok := put_ok) (save_extra_data put_ok c (to_string n) e).2
    (str_concat [to_string n; str "@extra"]) dump) as G2.
  pose proof (grow_update_last_signed (put_ok := put_ok)
    (save_extra_block put_ok (save_extra_data put_ok c (to_string n) e).2 (to_string n) dump).2
    (u64 (atoi (to_string n)))) as G3.
  pose proof (adds_update_last_signed (put_ok := put_ok)
    (save_extra_block put_ok (save_extra_data put_ok c (to_string n) e).2 (to_string n) dump).2
    (u64 (atoi (to_string n)))) as A3.
  unfold save_extra_data, save_extra_block, counters_grow in *.
  case_bool_decide; apply Ok_inj in Hr as <-; (split; [|lia]); [|done].
  eapply adds_trans; [exact Ha|exact A3|]. by intros m [?|[]].
Qed.

(** ** Blocks and the index are written by [save_block] only *)

Definition meta (k : key) : bool := match k with KNum _ | KHash _ => false | _ => true end.

Inductive quiet : cache -> cache -> Prop :=
| quiet_same c c' : m_db c' = m_db c -> quiet c c'
| quiet_put c k v : valid_key k -> meta k = true -> quiet c (Put put_ok c (enc k) v).2
| quiet_trans c c1 c2 : quiet c c1 -> quiet c1 c2 -> quiet c c2.

Lemma quiet_look c c' k : quiet c c' -> valid_key k -> meta k = false -> look c' k = look c k.
Proof.
  intros Hq Hk Hm. induction Hq as [c c' E|c l v Hl Hml|c c1 c2 _ IH1 _ IH2].
  - unfold look. by rewrite E.
  - destruct (Put put_ok c (enc l) v) as [b c'] eqn:E. cbn.
    rewrite (Put_look _ _ _ _ _ k E) by done. rewrite (bool_decide_eq_false_2 (k = l)) by congruence.
    by rewrite andb_false_r.
  - congruence.
Qed.

(** Once there, a status stays. *)
Lemma quiet_keeps c c' k : quiet c c' -> valid_key k -> look c k <> None -> look c' k <> None.
Proof.
  intros Hq Hk. induction Hq as [c c' E|c l v Hl Hml|c c1 c2 _ IH1 _ IH2].
  - unfold look. by rewrite E.
  - destruct (Put put_ok c (enc l) v) as [b c'] eqn:E. cbn.
    rewrite (Put_look _ _ _ _ _ k E) by done. by destruct (b && _).
  - auto.
Qed.

Lemma quiet_data c n e : u64_ok n -> quiet c (save_extra_data put_ok c (to_string n) e).2.
Proof. intros Hn. rewrite save_extra_data_Put by done. by apply quiet_put. Qed.

Lemma quiet_extra c n e : u64_ok n -> quiet c (save_extra_block put_ok c (to_string n) e).2.
Proof. intros Hn. rewrite save_extra_block_Put by done. by apply quiet_put. Qed.

Lemma quiet_number c n m : quiet c (update_number put_ok (with_next c n) m).2.
Proof.
  eapply quiet_trans; [apply (quiet_same c (with_next c n)); done|].
  apply (quiet_put (with_next c n) KNext); done.
Qed.

Lemma quiet_last c n : quiet c (update_last_signed put_ok c n).2.
Proof.
  unfold update_last_signed. destruct (_ <? _); [|by apply quiet_same].
  pose proof (quiet_put c KLast (to_string n) I eq_refl) as HP. cbn [enc] in HP.
  destruct (Put put_ok c (str "last_signed_block") (to_string n)) as [[] c1]; cbn in *; [|done].
  eapply quiet_trans; [exact HP|by apply quiet_same].
Qed.

Lemma quiet_mark c n e : u64_ok n -> quiet c (mark_signed put_ok c n e).
Proof. intros Hn. unfold mark_signed. eapply quiet_trans; [by apply quiet_data|apply quiet_last]. Qed.

Lemma quiet_repair c prev pn c' :
  repair put_ok cores parse_json LZ4_decompress_safe fetch c prev pn = Ok c' -> quiet c c'.
Proof.
  unfold repair. intros ([[ok1 b1] ex1] & _ & Hr)%bind_Ok.
  destruct (ok1 && _ && _); [|injection Hr as <-; by apply quiet_same].
  apply bind_Ok in Hr as ([[ok2 b2] ex2] & _ & Hr).
  destruct (ok2 && _ && _); injection Hr as <-; [apply quiet_mark, u64_range|by apply quiet_same].
Qed.

Lemma quiet_previous c prev ext c' :
  (forall n, blockNumber (header prev) = Some n -> u64_ok n) ->
  sign_previous put_ok cores parse_json LZ4_decompress_safe fetch c prev ext = Ok c' -> quiet c c'.
Proof.
  intros Hn. unfold sign_previous. destruct (blockNumber (header prev)) as [pn|];
    [|intros [= <-]; by apply quiet_same].
  destruct (0 <? pn); [|intros [= <-]; by apply quiet_same].
  intros (c1 & Hr & [= <-])%bind_Ok. eapply quiet_trans; [|by apply quiet_mark, Hn].
  case_bool_decide; [by apply quiet_repair in Hr|]. injection Hr as <-. by apply quiet_same.
Qed.

Lemma quiet_settle c num verify prev ext c' ext' :
  u64_ok num -> (forall n, blockNumber (header prev) = Some n -> u64_ok n) ->
  settle put_ok cores parse_json LZ4_decompress_safe fetch c num verify prev ext = Ok (c', ext') ->
  quiet c c'.
Proof.
  intros Hnum Hn. unfold settle. destruct (0 <? verify).
  - destruct (verify =? INT_MAX).
    + destruct (negb _ && negb _); [intros [= <- <-]; by apply quiet_mark|].
      intros (c2 & Hs & [= <- <-])%bind_Ok.
      eapply quiet_trans; [by apply quiet_mark|by eapply quiet_previous].
    + intros (c2 & Hs & [= <- <-])%bind_Ok. by eapply quiet_previous.
  - destruct (verify =? 0); intros [= <- <-]; [by apply quiet_data|by apply quiet_same].
Qed.

(** A step is quiet, or saves the dump of the block and is quiet from there. *)
Lemma step_shape w it dump o :
  block_verification = true -> w_wf w -> u64_ok (bk_number it) -> step w it dump = Ok o ->
  quiet (w_cache w) (w_cache (outcome_state o)) \/
  exists h e, h = bk_hash it /\ (bk_number it <= 1 \/ length h = 32%nat) /\
    quiet (save_block put_ok (w_cache w) (bk_number it) (bin2hex_vec h) dump e).2
          (w_cache (outcome_state o)).
Proof.
  intros Hv Hw Hnum. unfold block_step. rewrite Hv. cbn [andb]. destruct (1 <? bk_number it) eqn:E1; zbool.
  - intros ([prev ext] & Hp & Hr)%bind_Ok.
    destruct prev as [prev|]; [|injection Hr as <-; left; by apply quiet_same].
    pose proof (previous_wf _ _ _ _ Hw Hp) as Hpn. unfold accept in Hr.
    apply bind_Ok in Hr as (v & Hd & Hr). apply bind_Ok in Hr as (b & Hb & Hr).
    destruct (negb (bool_decide (hash _ = bk_hash it))) eqn:EH;
      [injection Hr as <-; left; by apply quiet_same|].
    destruct (negb (bool_decide (prevHash _ = _))); [injection Hr as <-; left; by apply quiet_same|].
    destruct (verdict _ _ =? -1); [injection Hr as <-; left; by apply quiet_same|].
    destruct v as [|b'| |]; try done. injection Hb as ->. pose proof (proj1 (block_hash_size _ _ _ Hd)) as Hlen.
    zbool. cbn [bi_with_number header with_number hash] in EH. rewrite EH in Hlen.
    cbn [bi_with_number header with_number hash] in Hr. rewrite EH in Hr.
    right. exists (bk_hash it), ext_zero. split; [done|]. split; [by right|].
    destruct (save_block _ _ _ _ _ _) as [ok c1]. cbn [snd].
    destruct ok; cbn [negb] in Hr; [|injection Hr as <-; by apply quiet_same].
    apply bind_Ok in Hr as ([c2 ext2] & Hs & [= <-]). apply quiet_settle in Hs; [|done|done].
    eapply quiet_trans; [apply quiet_number|exact Hs].
  - intros Hr. right. exists (bk_hash it), (set0 (if bk_number it =? 1 then blk_signed else blk_not_checked) ext_zero).
    split; [done|]. split; [by left|]. destruct (save_block _ _ _ _ _ _) as [[] c1]; injection Hr as <-; cbn.
    + apply quiet_number.
    + by apply quiet_same.
Qed.

Lemma xstep_quiet c dump c' : index_wf c -> xstep c dump = Ok c' -> quiet c c'.
Proof.
  intros Hi. unfold extra_step. intros (v & Hd & Hr)%bind_Ok.
  destruct v as [| |sb|]; try (injection Hr as <-; by apply quiet_same).
  pose proof (sign_hash_size _ _ _ Hd) as Hh.
  destruct (get_block_num_by_hash c _) as [s|] eqn:El; [|injection Hr as <-; by apply quiet_same].
  destruct (Hi _ _ Hh El) as (n & Hn & ->).
  set (e := set0 _ ext_zero) in *.
  assert (quiet c (save_extra_block put_ok (save_extra_data put_ok c (to_string n) e).2 (to_string n) dump).2) as Hq
    by (eapply quiet_trans; [by apply quiet_data|by apply quiet_extra]).
  case_bool_decide; apply Ok_inj in Hr as <-; [|done].
  eapply quiet_trans; [exact Hq|apply quiet_last].
Qed.

(** ** Invariants of the database *)

(** Every block has a status, but for those in [F]. *)
Definition has_status (F : Z -> Prop) (c : cache) : Prop :=
  forall n, u64_ok n -> look c (KNum n) <> None -> look c (KData n) <> None \/ F n.

Lemma status_weaken (F G : Z -> Prop) c : has_status F c -> (forall n, F n -> G n) -> has_status G c.
Proof. intros Hs HFG n Hn Hl. destruct (Hs n Hn Hl); auto. Qed.

Lemma index_quiet c c' : quiet c c' -> index_wf c -> index_wf c'.
Proof.
  intros Hq Hi h s Hh Hs. rewrite (quiet_look c c') in Hs by (done || by apply digest_hash_key). by eapply Hi.
Qed.

Lemma status_quiet F c c' : quiet c c' -> has_status F c -> has_status F c'.
Proof.
  intros Hq Hs n Hn Hl. rewrite (quiet_look c c' (KNum n)) in Hl by done.
  destruct (Hs n Hn Hl); [left; by eapply quiet_keeps|by right].
Qed.

Lemma index_save c n h d e :
  u64_ok n -> index_wf c -> index_wf (save_block put_ok c n (bin2hex_vec h) d e).2.
Proof.
  intros Hn Hi g s Hg Hl. change (bin2hex_vec h) with (bin2hex h) in Hl.
  destruct (save_block put_ok c n (bin2hex h) d e) as [b c'] eqn:E. cbn [snd] in Hl.
  destruct (save_block_writes _ _ _ _ _ _ _ E Hn) as (_ & w1 & w2 & _ & _ & Lk & _).
  rewrite Lk in Hl by by apply digest_hash_key.
  rewrite (bool_decide_eq_false_2 (KHash g = KData n)), andb_false_r in Hl by done.
  destruct (w2 && bool_decide (enc (KHash g) = bin2hex h)); [injection Hl as <-; eauto|].
  rewrite (bool_decide_eq_false_2 (KHash g = KNum n)), andb_false_r in Hl by done. by eapply Hi.
Qed.

(** Saving adds a block without a status only under an announced hash that is no
    digest. *)
Lemma status_save F c n h d e :
  (forall i, put_ok i = true) -> u64_ok n -> has_status F c ->
  has_status (fun m => F m \/ (length h <> 32%nat /\ (m = n \/ bin2hex h = to_string m)))
    (save_block put_ok c n (bin2hex_vec h) d e).2.
Proof.
  intros Hok Hn Hs m Hm Hl. change (bin2hex_vec h) with (bin2hex h) in *.
  destruct (save_block put_ok c n (bin2hex h) d e) as [b c'] eqn:E. cbn [snd] in *.
  destruct (save_block_writes _ _ _ _ _ _ _ E Hn) as (_ & w1 & w2 & _ & _ & Lk & Hp).
  destruct (Hp Hok) as (-> & -> & ->). rewrite (Lk (KNum m)) in Hl by done. rewrite (Lk (KData m)) by done.
  rewrite (bool_decide_eq_false_2 (enc (KData m) = bin2hex h)), (bool_decide_eq_false_2 (KData m = KNum n)),
    !andb_false_r by (done || apply data_not_hash).
  destruct (decide (m = n)) as [->|Hne].
  { rewrite (bool_decide_eq_true_2 (KData n = KData n)) by done. case_bool_decide as Hh; [by left|].
    right; right. split; [by rewrite Hh|by left]. }
  rewrite (bool_decide_eq_false_2 (KData m = KData n)), (bool_decide_eq_false_2 (KNum m = KData n)),
    (bool_decide_eq_false_2 (KNum m = KNum n)), ?andb_false_r in * by congruence.
  destruct (bool_decide (enc (KNum m) = bin2hex h)) eqn:Eh.
  - zbool. right; right. split; [|right; by rewrite <- Eh]. intros H32. by apply (digest_hash_key h H32 m Hm).
  - rewrite andb_false_r in Hl. destruct (Hs m Hm Hl); auto.
Qed.
End Steps.

(** ** Runs *)

Section Runs.
Context `{L : TorrentLib} {laws : TorrentLaws L}.
Context {put_ok : nat -> bool} {cores : list bytes} {block_verification : bool}.
Context {parse_json : bytes -> option json} {LZ4_decompress_safe : bytes -> bytes -> Z * bytes}.

Abbreviation step := (block_step put_ok cores block_verification parse_json LZ4_decompress_safe).
Abbreviation xstep := (extra_step put_ok cores).

(** What the worker does next; a block is processed with the answers [fetch] of the
    node in that round. *)
Inductive act :=
| ABlockStep (fetch : nat -> Z -> option bytes) (it : blk_info) (dump : bytes)
| AExtra (dump : bytes)
| AReset.

(** A run, with the state in which each act began. *)
Inductive run : wstate -> list (wstate * act) -> wstate -> Prop :=
| run_nil w : run w [] w
| run_block fetch w it dump o l w' :
    step fetch w it dump = Ok o -> run (outcome_state o) l w' -> run w ((w, ABlockStep fetch it dump) :: l) w'
| run_extra w dump c l w' :
    xstep (w_cache w) dump = Ok c -> run (w_with_cache w c) l w' -> run w ((w, AExtra dump) :: l) w'
| run_reset w l w' :
    run {| w_cache := w_cache w; bi_prev := bi_with_hash (bi_prev w) []; prev_ext_data := prev_ext_data w |} l w' ->
    run w ((w, AReset) :: l) w'.

(** Announced numbers are 64-bit. *)
Definition act_ok (a : act) : Prop :=
  match a with
  | ABlockStep _ it _ => u64_ok (bk_number it)
  | _ => True
  end.

Definition evidence (w : wstate) (a : act) (m : Z) : Prop :=
  match a with
  | ABlockStep fetch it dump =>
      block_evidence (cores := cores) (parse_json := parse_json) (LZ4_decompress_safe := LZ4_decompress_safe)
        (fetch := fetch) w it dump m
  | AExtra dump => extra_evidence (cores := cores) (w_cache w) dump m
  | AReset => False
  end.

Lemma run_app w l1 w1 l2 w2 : run w l1 w1 -> run w1 l2 w2 -> run w (l1 ++ l2) w2.
Proof. induction 1; intros Hr; cbn; [done|econstructor; eauto..]. Qed.

(** The blocks that a run had a reason to make available. *)
Definition evident (l : list (wstate * act)) (m : Z) : Prop := exists x, x ∈ l /\ evidence x.1 x.2 m.

Lemma evident_here w a l m : evidence w a m -> evident ((w, a) :: l) m.
Proof. intros Hm. exists (w, a). split; [apply list_elem_of_here|done]. Qed.
Lemma evident_further x l m : evident l m -> evident (x :: l) m.
Proof. intros (y & Hy & Hm). exists y. split; [by apply list_elem_of_further|done]. Qed.
#[local] Hint Resolve evident_here evident_further : fullnode.

(** What processing a block does to the index and the statuses. *)
Lemma step_database fetch w it dump o F :
  block_verification = true -> w_wf w -> index_wf (w_cache w) -> u64_ok (bk_number it) -> step fetch w it dump = Ok o ->
  index_wf (w_cache (outcome_state o)) /\
  ((forall i, put_ok i = true) -> has_status F (w_cache w) ->
   has_status (fun m => F m \/ unchecked it m) (w_cache (outcome_state o))).
Proof.
  intros Hv Hw Hi Hn Hs. destruct (step_shape w it dump o Hv Hw Hn Hs) as [Hq|(h & e & -> & Hh & Hq)].
  - split; [by eapply index_quiet|]. intros _ Hh. eapply status_weaken; [by eapply status_quiet|auto].
  - split; [eapply index_quiet; [done|]; by apply index_save|].
    intros Hp Hh0. eapply status_quiet; [done|]. eapply status_weaken; [by apply status_save|].
    cbn beta. intros m [Hm|[Hm Hf]]; [by left|right]. destruct Hh as [Hh|Hh]; [|done]. by split.
Qed.

Lemma run_invariant w l w' F :
  run w l w' -> block_verification = true -> w_wf w -> index_wf (w_cache w) ->
  Forall (fun x => act_ok x.2) l ->
  w_wf w' /\ index_wf (w_cache w') /\ adds (w_cache w) (w_cache w') (evident l) /\
  counters_grow (w_cache w) (w_cache w') /\
  ((forall i, put_ok i = true) -> has_status F (w_cache w) -> has_status (fun m => F m \/ evident l m) (w_cache w')).
Proof.
  intros Hr Hv. revert F. induction Hr as [w|fetch w it dump o l w' Hs Hr IH|w dump c l w' Hs Hr IH|w l w' Hr IH];
    intros F Hw Hi Hok.
  - split_and!; [done|done|by apply adds_same|unfold counters_grow; lia|]. intros _ Hh. eapply status_weaken; [done|auto].
  - apply Forall_cons in Hok as [Hn Hok']. cbn [snd act_ok] in Hn.
    destruct (step_adds w it dump o Hv Hw Hn Hs) as (Ha & Hg & Hw1).
    destruct (step_database _ _ _ _ _ F Hv Hw Hi Hn Hs) as [Hi1 Hst].
    destruct (IH (fun m => F m \/ unchecked it m) Hw1 Hi1 Hok') as (Hw2 & Hi2 & Ha2 & Hg2 & Hst2). split_and!; [done|done| | |].
    + eapply adds_trans; [exact Ha|exact Ha2|]. intros m [Hm|Hm]; [by apply evident_here|by apply evident_further].
    + unfold counters_grow in *. lia.
    + intros Hp Hh0. eapply status_weaken; [by apply Hst2, Hst|]. cbn beta.
      intros m [[Hm|Hm]|Hm]; [by left|right; apply evident_here; by left|right; by apply evident_further].
  - apply Forall_cons in Hok as [_ Hok'].
    destruct (xstep_adds (put_ok := put_ok) _ _ _ Hi Hs) as [Ha Hg]. pose proof (xstep_quiet (put_ok := put_ok) _ _ _ Hi Hs) as Hq.
    destruct (IH F) as (Hw2 & Hi2 & Ha2 & Hg2 & Hst2); [exact Hw|by eapply index_quiet|done|].
    cbn [w_with_cache w_cache] in *. split_and!; [done|done| | |].
    + eapply adds_trans; [exact Ha|exact Ha2|]. intros m [Hm|Hm]; [by apply evident_here|by apply evident_further].
    + unfold counters_grow in *. lia.
    + intros Hp Hh0. eapply status_weaken; [apply Hst2; [done|by eapply status_quiet]|]. cbn beta.
      intros m [Hm|Hm]; [by left|right; by apply evident_further].
  - apply Forall_cons in Hok as [_ Hok'].
    destruct (IH F) as (Hw2 & Hi2 & Ha2 & Hg2 & Hst2); [exact Hw|exact Hi|done|].
    cbn [w_cache] in *. split_and!; try done.
    + eapply adds_weaken; [exact Ha2|]. intros m Hm. by apply evident_further.
    + intros Hp Hh0. eapply status_weaken; [by apply Hst2|]. cbn beta. intros m [Hm|Hm]; [by left|right; by apply evident_further].
Qed.
End Runs.

(** ** Rounds are runs *)

Section Rounds.
Context `{L : TorrentLib} {laws : TorrentLaws L}.
Context {put_ok : nat -> bool} {cores : list bytes} {block_verification : bool}.
Context {parse_json : bytes -> option json} {LZ4_decompress_safe : bytes -> bytes -> Z * bytes}.

Abbreviation the_run :=
  (run (put_ok := put_ok) (cores := cores) (block_verification := block_verification)
       (parse_json := parse_json) (LZ4_decompress_safe := LZ4_decompress_safe)).
Abbreviation the_round := (round put_ok cores block_verification parse_json LZ4_decompress_safe).
Abbreviation the_evidence :=
  (evidence (cores := cores) (parse_json := parse_json) (LZ4_decompress_safe := LZ4_decompress_safe)).

Definition good_list (hashes : list blk_info) : Prop :=
  Forall (fun it => u64_ok (bk_number it)) hashes.

Lemma process_blocks_run fetch hashes w p w' done :
  process_blocks put_ok cores block_verification parse_json LZ4_decompress_safe fetch w hashes p = Ok (w', done) ->
  good_list hashes ->
  exists l, the_run w l w' /\ Forall (fun x => act_ok x.2) l.
Proof.
  revert w p w' done. induction hashes as [|it hashes IH]; intros w p w' done; cbn [process_blocks].
  { intros [= <- <-] _. exists []. split; constructor. }
  intros Hp Hg. apply Forall_cons in Hg as [Hit Hg].
  case_bool_decide; [injection Hp as <- <-; exists []; split; constructor|].
  apply bind_Ok in Hp as ([[dump rest]|] & _ & Hp); [|injection Hp as <- <-; exists []; split; constructor].
  apply bind_Ok in Hp as ([w1|w1] & Hs & Hp).
  - apply bind_Ok in Hp as ([w2 done2] & Hp & [= <- <-]).
    destruct (IH _ _ _ _ Hp Hg) as (l & Hr & Hl). exists ((w, ABlockStep fetch it dump) :: l).
    split; [by eapply run_block|by constructor].
  - injection Hp as <- <-. exists [(w, ABlockStep fetch it dump)].
    split; [eapply run_block; [exact Hs|apply run_nil]|apply List.Forall_cons; [exact Hit|apply List.Forall_nil]].
Qed.

Lemma process_extra_run hashes w p c' :
  process_extra put_ok cores (w_cache w) hashes p = Ok c' ->
  exists l, the_run w l (w_with_cache w c') /\ Forall (fun x => act_ok x.2) l.
Proof.
  revert w p. induction hashes as [|it hashes IH]; intros w p; cbn [process_extra].
  { intros [= <-]. exists []. destruct w. split; constructor. }
  intros Hp. case_bool_decide; [injection Hp as <-; exists []; destruct w; split; constructor|].
  apply bind_Ok in Hp as ([[dump rest]|] & _ & Hp);
    [|injection Hp as <-; exists []; destruct w; split; constructor].
  apply bind_Ok in Hp as (c1 & Hs & Hp).
  destruct (IH (w_with_cache w c1) _ Hp) as (l & Hr & Hl).
  exists ((w, AExtra dump) :: l). split; [by eapply run_extra|by constructor].
Qed.

Lemma load_extra_run fuel recv_count answer hashes w c' :
  load_extra_blocks put_ok cores parse_json LZ4_decompress_safe fuel recv_count answer (w_cache w) hashes = Some (Ok c') ->
  exists l, the_run w l (w_with_cache w c') /\ Forall (fun x => act_ok x.2) l.
Proof.
  revert hashes w. induction fuel as [|f IH]; intros hashes w; cbn [load_extra_blocks]; [done|].
  destruct hashes as [|it hashes]; [intros [= <-]; exists []; destruct w; split; constructor|].
  destruct (extra_hashes recv_count (it :: hashes)) as [[js cnt] iter].
  destruct (cnt =? 0); [intros [= <-]; exists []; destruct w; split; constructor|].
  destruct (receive_extra _ _ _ _ _ _ _) as [c1|e] eqn:Er; [|done]. intros Hl.
  assert (exists l, the_run w l (w_with_cache w c1) /\ Forall (fun x => act_ok x.2) l) as (l1 & R1 & K1).
  { unfold receive_extra in Er. destruct (answer js) as [body|];
      [|injection Er as <-; exists []; destruct w; split; constructor].
    case_bool_decide; [injection Er as <-; exists []; destruct w; split; constructor|].
    destruct (parse_json body); [injection Er as <-; exists []; destruct w; split; constructor|].
    by apply process_extra_run in Er. }
  destruct (IH (drop iter (it :: hashes)) (w_with_cache w c1) Hl) as (l2 & R2 & K2).
  exists (l1 ++ l2). split; [by eapply run_app|by apply Forall_app].
Qed.

Lemma collect_numbers max l size hashes hs :
  collect block_verification max l size hashes = Ok hs ->
  Forall (fun it => u64_ok (bk_number it)) hashes -> Forall (fun it => u64_ok (bk_number it)) hs.
Proof.
  revert size hashes. induction l as [|v l IH]; intros size hashes; cbn [collect]; [by intros [= <-]|].
  destruct v as [| | | | | |m]; try by apply IH.
  intros (sz & _ & Hr)%bind_Ok Hh. destruct (bool_decide _ && _ && _); [by injection Hr as <-|].
  destruct (FindMember (str "number") m) as [v|]; [|injection Hr as <-; constructor].
  apply bind_Ok in Hr as (n & Hn & Hr).
  destruct (FindMember (str "hash") m) as [h|]; [|injection Hr as <-; constructor].
  apply bind_Ok in Hr as (hh & _ & Hr). apply bind_Ok in Hr as (ex & _ & Hr).
  eapply IH; [exact Hr|]. apply Forall_app. split; [done|]. constructor; [|constructor]. cbn.
  unfold GetUint, IsUint in Hn. destruct v as [| |z| | | |]; try discriminate Hn. unfold UINT64_MAX.
  destruct ((0 <=? z) && (z <? 2 ^ 32)) eqn:E; [|discriminate Hn]. injection Hn as <-. zbool. lia.
Qed.

Lemma round_run fuel recv_count max a w w' :
  the_round fuel recv_count max a w = Some (Ok w') ->
  exists l, the_run w l w' /\ Forall (fun x => act_ok x.2) l.
Proof.
  intros Hr. assert (exists l, the_run w l w /\ Forall (fun x => act_ok x.2) l) as Hnone
    by (exists []; split; constructor).
  unfold round in Hr. destruct (a_get_blocks a) as [body|] eqn:Ea; [|by injection Hr as <-].
  case_bool_decide; [by injection Hr as <-|].
  destruct (parse_json body) as [doc|] eqn:Ej; [|by injection Hr as <-].
  case_bool_decide; [by injection Hr as <-|].
  destruct (get_result doc) as [[| | | | |l|]|] eqn:El; try by injection Hr as <-.
  destruct l as [|v l].
  - unfold no_new_blocks in Hr. destruct (a_get_count a) as [count|]; [|done]. case_bool_decide; [by injection Hr as <-|].
    destruct (parse_json count) as [d2|]; [|by injection Hr as <-].
    destruct (get_result d2) as [tmp|]; [|by injection Hr as <-].
    destruct (get_value_u64 tmp "count_blocks") as [n|]; [|by injection Hr as <-].
    destruct (n =? _); [by injection Hr as <-|].
    destruct (match get "next_extra_blocks" tmp with Some (JArr l) => from_hex_all l | _ => Ok [] end); [|done].
    destruct (load_extra_blocks _ _ _ _ _ _ _ _ _) as [r|] eqn:Ex; [|done].
    injection Hr as Hr. apply bind_Ok in Hr as (c1 & -> & [= <-]). by eapply load_extra_run.
  - destruct (collect block_verification max (v :: l) 0 []) as [hs|e] eqn:Ec; [|done].
    destruct hs as [|it hs]; [by injection Hr as <-|].
    assert (good_list (it :: hs)) as Hg by exact (collect_numbers _ _ _ _ _ Ec (List.Forall_nil _)).
    unfold new_blocks in Hr. destruct (a_get_dumps a _) as [dumps|]; [|by injection Hr as <-].
    case_bool_decide; [by injection Hr as <-|].
    destruct (match parse_json dumps with Some _ => _ | None => false end); [by injection Hr as <-|].
    case_bool_decide; [by injection Hr as <-|].
    destruct (process_response _ _ _ _ _ _ _ _ _) as [[w1 dn]|] eqn:Ep; [|done].
    destruct (load_extra_blocks _ _ _ _ _ _ _ _ _) as [r|] eqn:Ex; [|done].
    injection Hr as Hr. apply bind_Ok in Hr as (c1 & -> & [= <-]).
    apply process_blocks_run in Ep as (l1 & R1 & K1); [|done].
    apply load_extra_run in Ex as (l2 & R2 & K2).
    exists ((w, AReset) :: l1 ++ l2). split; [apply run_reset; by eapply run_app|].
    constructor; [done|by apply Forall_app].
Qed.

(** A sequence of rounds. *)
Inductive rounds (fuel : nat) (recv_count max : Z) : wstate -> list answers -> wstate -> Prop :=
| rounds_nil w : rounds fuel recv_count max w [] w
| rounds_cons w a w1 l w2 :
    the_round fuel recv_count max a w = Some (Ok w1) -> rounds fuel recv_count max w1 l w2 ->
    rounds fuel recv_count max w (a :: l) w2.

Lemma rounds_run fuel recv_count max w l w' :
  rounds fuel recv_count max w l w' ->
  exists acts, the_run w acts w' /\ Forall (fun x => act_ok x.2) acts.
Proof.
  induction 1 as [w|w a w1 l w2 Hr _ IH]; [exists []; split; constructor|].
  destruct (round_run _ _ _ _ _ _ Hr) as (l1 & R1 & K1).
  destruct IH as (l2 & R2 & K2). exists (l1 ++ l2). split; [by eapply run_app|by apply Forall_app].
Qed.

(** ** Theorems *)


(** The number of the last signed block never decreases during a round. *)
Theorem round_last_signed_monotone fuel recv_count max a w w' :
  block_verification = true -> w_wf w -> index_wf (w_cache w) ->
  the_round fuel recv_count max a w = Some (Ok w') ->
  m_last_signed_block (w_cache w) <= m_last_signed_block (w_cache w').
Proof.
  intros Hv Hw Hi Hr. destruct (round_run _ _ _ _ _ _ Hr) as (l & Hl & Hok).
  by destruct (run_invariant _ _ _ (fun _ => False) Hl Hv Hw Hi Hok) as (_ & _ & _ & Hg & _).
Qed.
End Rounds.
