(* ===== verification/BlockChain.v ===== *)
(** Progress of the block cache worker: what is accepted from a response is a
    chain and moves the counter, which loops end, and where the requests and the
    first block number go wrong.  Definitions: BlockWorker. *)

From Stdlib Require Import String.
From S2P Require Import Prelude Text Hex Endian Compress Json BlockInfo BlockStore BlockVerify BlockWorker BlockSafety.
Open Scope Z_scope.

(** ** Buffers *)

(** Dumps as the node sends them: each behind its length. *)
Definition frames (dumps : list bytes) : bytes := flat_map (fun d => be_bytes 8 (zlen d) ++ d) dumps.

Lemma next_dump_frame p dump rest :
  next_dump p = Ok (Some (dump, rest)) ->
  exists tail, p ++ [zero] = be_bytes 8 (zlen dump) ++ dump ++ tail /\ (rest = [] \/ tail = rest ++ [zero]).
Proof.
  unfold next_dump. set (q := p ++ [zero]). destruct (zlen q <? 8) eqn:E1; [done|]. zbool.
  destruct (be_value (take 8 q) =? 0); [done|].
  destruct (zlen (drop 8 q) <? be_value (take 8 q)) eqn:E2; [done|]. zbool.
  intros [= <- <-]. pose proof (be_value_range (take 8 q)) as Hr.
  set (n := Z.to_nat (be_value (take 8 q))) in *.
  assert (length q = S (length p)) as Hq by (unfold q; rewrite length_app; cbn; lia).
  assert (8 <= length q /\ n <= length q - 8)%nat as [H8 Hn].
  { unfold zlen in *. rewrite length_drop in E2. lia. }
  exists (drop n (drop 8 q)). split.
  - assert (zlen (take n (drop 8 q)) = be_value (take 8 q)) as ->.
    { unfold zlen. rewrite length_take, length_drop. lia. }
    pose proof (be_bytes_be_value (take 8 q)) as Hb. rewrite length_take_le in Hb by lia.
    by rewrite Hb, !take_drop.
  - rewrite !drop_drop. destruct (decide (8 + n <= length p)%nat).
    + right. unfold q. by rewrite drop_app_le by lia.
    + left. apply drop_ge. lia.
Qed.

(** ** Accepted blocks *)

Section Chain.
Context `{L : TorrentLib} {laws : TorrentLaws L}.
Context {put_ok : nat -> bool} {cores : list bytes}.
Context {parse_json : bytes -> option json} {LZ4_decompress_safe : bytes -> bytes -> Z * bytes}.
Context {fetch : nat -> Z -> option bytes}.

Abbreviation step := (block_step put_ok cores true parse_json LZ4_decompress_safe fetch).
Abbreviation process := (process_blocks put_ok cores true parse_json LZ4_decompress_safe fetch).

(** Dumps that are the announced blocks, each one naming the hash of the one
    before it; the first names [h]. *)
Inductive linked : bytes -> list (blk_info * bytes) -> Prop :=
| linked_nil h : linked h []
| linked_cons h it dump b l :
    parseBlockDump dump false = Ok (ABlock b) ->
    hash (header b) = bk_hash it -> prevHash (header b) = h ->
    linked (bk_hash it) l -> linked h ((it, dump) :: l).

(** The counter after a list of accepted elements. *)
Definition counter_after (n : Z) (done : list blk_info) : Z :=
  match last done with Some it => u64 (bk_number it + 1) | None => n end.

(** [m_nextblock] is moved by the step itself, not by what it calls. *)
Lemma next_Put c k v : m_nextblock (Put put_ok c k v).2 = m_nextblock c.
Proof. unfold Put. by destruct (put_ok _). Qed.

Lemma next_update_last c n : m_nextblock (update_last_signed put_ok c n).2 = m_nextblock c.
Proof.
  unfold update_last_signed. destruct (_ <? _); [|done]. unfold Put. by destruct (put_ok _).
Qed.

Lemma next_mark c n e : m_nextblock (mark_signed put_ok c n e) = m_nextblock c.
Proof. unfold mark_signed, save_extra_data. by rewrite next_update_last, next_Put. Qed.

Lemma next_save c n h d e : m_nextblock (save_block put_ok c n h d e).2 = m_nextblock c.
Proof.
  unfold save_block, save_extra_data, Put.
  repeat (case_match; cbn [snd fst m_nextblock] in *; simplify_eq/=; try done).
Qed.

Lemma next_previous c prev ext c' :
  sign_previous put_ok cores parse_json LZ4_decompress_safe fetch c prev ext = Ok c' ->
  m_nextblock c' = m_nextblock c.
Proof.
  unfold sign_previous, repair. destruct (blockNumber (header prev)); [|by intros [= <-]].
  destruct (0 <? _); [|by intros [= <-]].
  intros (c1 & Hr & [= <-])%bind_Ok. rewrite next_mark. case_bool_decide; [|by injection Hr as <-].
  apply bind_Ok in Hr as ([[ok1 b1] ex1] & _ & Hr). destruct (ok1 && _ && _); [|by injection Hr as <-].
  apply bind_Ok in Hr as ([[ok2 b2] ex2] & _ & Hr). destruct (ok2 && _ && _); injection Hr as <-; [|done].
  apply next_mark.
Qed.

Lemma next_settle c num v prev ext c' ext' :
  settle put_ok cores parse_json LZ4_decompress_safe fetch c num v prev ext = Ok (c', ext') ->
  m_nextblock c' = m_nextblock c.
Proof.
  unfold settle, save_extra_data. repeat case_match; intros Hs;
    try (apply bind_Ok in Hs as (c1 & Hp & [= <- <-]); rewrite (next_previous _ _ _ _ Hp));
    try (injection Hs as <- <-); rewrite ?next_mark, ?next_Put; done.
Qed.

(** [h] is the hash of the block before [it]: of the block processed before it in
    the same response, otherwise of the block the cache or the node gives. *)
Definition predecessor (w : wstate) (it : blk_info) (h : bytes) : Prop :=
  exists prev ext,
    previous parse_json LZ4_decompress_safe fetch w (bk_number it) = Ok (Some prev, ext) /\
    h = hash (header prev).

Lemma predecessor_processed w it h :
  hash (header (bi_prev w)) <> [] -> predecessor w it h -> h = hash (header (bi_prev w)).
Proof.
  intros Hne (prev & ext & Hp & ->). unfold previous in Hp.
  rewrite bool_decide_eq_false_2 in Hp by done. by injection Hp as <- <-.
Qed.

(** What a step establishes. *)
Lemma step_chain w it dump o :
  1 < bk_number it -> step w it dump = Ok o ->
  match o with
  | Break w' => m_nextblock (w_cache w') = m_nextblock (w_cache w)
  | Next w' =>
      m_nextblock (w_cache w') = u64 (bk_number it + 1) /\
      hash (header (bi_prev w')) = bk_hash it /\ bk_hash it <> [] /\
      exists b, parseBlockDump dump false = Ok (ABlock b) /\ hash (header b) = bk_hash it /\
        predecessor w it (prevHash (header b))
  end.
Proof.
  intros Hn. unfold block_step. cbn [andb]. ztest.
  intros ([prev ext] & Hp & Hr)%bind_Ok. destruct prev as [prev|]; [|by injection Hr as <-].
  unfold accept in Hr. apply bind_Ok in Hr as (v & Hd & Hr). apply bind_Ok in Hr as (b & Hb & Hr).
  destruct v as [|b'| |]; try done. injection Hb as ->.
  destruct (negb (bool_decide (hash _ = bk_hash it))) eqn:EH; [by injection Hr as <-|].
  destruct (negb (bool_decide (prevHash _ = _))) eqn:EP; [by injection Hr as <-|].
  destruct (_ =? -1); [by injection Hr as <-|]. zbool.
  pose proof (next_save (w_cache w) (bk_number it)
    (bin2hex_vec (hash (header (bi_with_number b (bk_number it))))) dump ext_zero) as Hs.
  destruct (save_block _ _ _ _ _ _) as [ok c1]. cbn [snd] in Hs.
  destruct ok; cbn [negb] in Hr; [|by injection Hr as <-].
  apply bind_Ok in Hr as ([c2 ext2] & Hst & [= <-]). cbn [w_cache bi_prev].
  rewrite (next_settle _ _ _ _ _ _ _ Hst). unfold update_number. rewrite next_Put.
  cbn [bi_with_number header with_number hash prevHash] in EH, EP |- *.
  split_and!; [done|done| |exists b; split_and!; [done|done|]].
  - destruct (block_hash_size _ _ _ Hd) as [Hh _]. rewrite EH in Hh.
    intros E. by rewrite E in Hh.
  - by exists prev, ext.
Qed.

Lemma counter_after_cons n it done :
  counter_after (u64 (bk_number it + 1)) done = counter_after n (it :: done).
Proof. unfold counter_after. rewrite last_cons. by destruct (last done). Qed.

(** Elements numbered 0 and 1 are saved as they come. *)
Definition is_checked (it : blk_info) : bool := 1 <? bk_number it.
Definition checked (l : list (blk_info * bytes)) : list (blk_info * bytes) := List.filter (fun x => is_checked x.1) l.

Lemma step_unchecked w it dump o :
  is_checked it = false -> step w it dump = Ok o ->
  match o with
  | Break w' => m_nextblock (w_cache w') = m_nextblock (w_cache w)
  | Next w' => m_nextblock (w_cache w') = u64 (bk_number it + 1) /\ bi_prev w' = bi_prev w
  end.
Proof.
  unfold is_checked. intros Hn. unfold block_step. rewrite Hn. cbn [andb].
  match goal with |- context [save_block ?ok ?c ?n ?h ?d ?e] => pose proof (next_save c n h d e) as Hs;
    destruct (save_block ok c n h d e) as [[] c1] end; cbn [snd] in Hs; intros [= <-]; cbn; [|done].
  split; [|done]. apply (next_Put (with_next c1 _)).
Qed.

(** [it] is the first checked element of [done], and [w1] the state in which its turn
    comes, behind the unchecked ones. *)
Definition first_checked (w : wstate) (p : bytes) (done : list blk_info) (it : blk_info) (w1 : wstate) : Prop :=
  exists pre rest, done = pre ++ it :: rest /\ Forall (fun x => is_checked x = false) pre /\ is_checked it = true /\
    process w pre p = Ok (w1, pre).

Lemma process_unchecked_prev pre w p w1 dn :
  Forall (fun x => is_checked x = false) pre -> process w pre p = Ok (w1, dn) -> dn = pre -> bi_prev w1 = bi_prev w.
Proof.
  intros Hf. revert w p dn. induction Hf as [|it pre Hit Hf IH]; intros w p dn; cbn [process_blocks]; [by intros [= <- <-]|].
  case_bool_decide; [by intros [= <- <-]|].
  intros ([[dump rest]|] & _ & Hp)%bind_Ok; [|by injection Hp as <- <-].
  apply bind_Ok in Hp as (o & Hs & Hp). pose proof (step_unchecked _ _ _ _ Hit Hs) as Hc.
  destruct o as [w2|w2]; [|by injection Hp as <- <-].
  apply bind_Ok in Hp as ([w3 done2] & Hp & [= <- <-]). intros [= ->]. rewrite (IH _ _ _ Hp eq_refl). by destruct Hc.
Qed.

(** The accepted elements and their dumps, after state [w] on buffer [p]. *)
Definition accepted (w : wstate) (hashes : list blk_info) (p : bytes) (done : list blk_info) : Prop :=
  exists dumps rest h0,
    p ++ [zero] = frames dumps ++ rest /\ length dumps = length done /\ done `prefix_of` hashes /\
    linked h0 (checked (zip done dumps)) /\
    (checked (zip done dumps) <> [] -> exists it w1, first_checked w p done it w1 /\ predecessor w1 it h0).

Lemma accepted_nil w hashes p : accepted w hashes p [].
Proof. exists [], (p ++ [zero]), []. split_and!; try done; [apply prefix_nil|constructor]. Qed.

Lemma process_nil hashes w p w' done : process w hashes p = Ok (w', done) -> p = [] -> done = [].
Proof. intros Hp ->. destruct hashes; by injection Hp as <- <-. Qed.

(** One frame in front of the accepted elements. *)
Lemma accepted_frames p dump rest w1 hashes w2 done2 dumps rest2 :
  next_dump p = Ok (Some (dump, rest)) -> process w1 hashes rest = Ok (w2, done2) -> length dumps = length done2 ->
  rest ++ [zero] = frames dumps ++ rest2 -> exists rest3, p ++ [zero] = frames (dump :: dumps) ++ rest3.
Proof.
  intros Hd Hp Hl Hf. apply next_dump_frame in Hd as (tail & Hd & Ht).
  assert (exists rest3, tail = frames dumps ++ rest3) as [rest3 Hr3].
  { destruct Ht as [-> | ->]; [|eauto].
    pose proof (process_nil _ _ _ _ _ Hp eq_refl) as ->. destruct dumps; [|done]. by exists tail. }
  exists rest3. rewrite Hd, Hr3. cbn [frames flat_map]. by rewrite <- !app_assoc.
Qed.

Lemma first_checked_cons w p it dump rest w1 done x w2 :
  p <> [] -> next_dump p = Ok (Some (dump, rest)) -> is_checked it = false -> step w it dump = Ok (Next w1) ->
  first_checked w1 rest done x w2 -> first_checked w p (it :: done) x w2.
Proof.
  intros Hp Hd Hc Hs (pre & tl & -> & Hf & Hx & Hr). exists (it :: pre), tl. split_and!; [done|by constructor|done|].
  cbn [process_blocks]. rewrite bool_decide_eq_false_2 by done. rewrite Hd. cbn [mbind res_bind]. rewrite Hs.
  cbn [mbind res_bind]. by rewrite Hr.
Qed.

Lemma process_chain hashes w p w' done :
  process w hashes p = Ok (w', done) ->
  accepted w hashes p done /\
  m_nextblock (w_cache w') = counter_after (m_nextblock (w_cache w)) done.
Proof.
  revert w p w' done. induction hashes as [|it hashes IH]; intros w p w' done; cbn [process_blocks].
  { intros [= <- <-]. split; [apply accepted_nil|done]. }
  case_bool_decide as Hne0; [intros [= <- <-]; split; [apply accepted_nil|done]|].
  intros ([[dump rest]|] & Hd & Hp)%bind_Ok; [|injection Hp as <- <-; split; [apply accepted_nil|done]].
  apply bind_Ok in Hp as (o & Hs & Hp). destruct (is_checked it) eqn:Eit.
  - pose proof (step_chain _ _ _ _ (proj1 (Z.ltb_lt _ _) Eit) Hs) as Hc.
    destruct o as [w1|w1]; [|injection Hp as <- <-; split; [apply accepted_nil|done]].
    apply bind_Ok in Hp as ([w2 done2] & Hp & [= <- <-]).
    destruct Hc as (Hnx & Hh & Hne & b & Hb & Hbh & Hpred).
    destruct (IH _ _ _ _ Hp) as [(dumps & rest2 & h1 & Hf & Hl & Hpre & Hlk & Hh1) Hcnt].
    split; [|rewrite Hcnt, Hnx; apply counter_after_cons].
    destruct (accepted_frames _ _ _ _ _ _ _ _ _ Hd Hp Hl Hf) as [rest3 Hr3].
    exists (dump :: dumps), rest3, (prevHash (header b)). split_and!; [done|cbn; lia|by apply prefix_cons| |].
    + cbn. rewrite Eit. econstructor; [done|done|done|].
      destruct (checked (zip done2 dumps)) as [|c2 l2] eqn:E2; unfold checked in E2; rewrite E2 in *; [constructor|].
      destruct Hh1 as (it2 & w3 & (pre & tl & -> & Hpf & Hx & Hpr) & Hp2); [done|].
      pose proof (process_unchecked_prev _ _ _ _ _ Hpf Hpr eq_refl) as Ebp.
      apply predecessor_processed in Hp2; [|by rewrite Ebp, Hh]. by rewrite <- Hh, <- Ebp, <- Hp2.
    + intros _. exists it, w. split; [|done]. by exists [], done2.
  - pose proof (step_unchecked _ _ _ _ Eit Hs) as Hc.
    destruct o as [w1|w1]; [|injection Hp as <- <-; split; [apply accepted_nil|done]].
    apply bind_Ok in Hp as ([w2 done2] & Hp & [= <- <-]). destruct Hc as [Hnx Hbp].
    destruct (IH _ _ _ _ Hp) as [(dumps & rest2 & h1 & Hf & Hl & Hpre & Hlk & Hh1) Hcnt].
    split; [|rewrite Hcnt, Hnx; apply counter_after_cons].
    destruct (accepted_frames _ _ _ _ _ _ _ _ _ Hd Hp Hl Hf) as [rest3 Hr3].
    exists (dump :: dumps), rest3, h1. split_and!; [done|cbn; lia|by apply prefix_cons| |].
    + cbn. by rewrite Eit.
    + cbn. rewrite Eit. intros Hx. destruct (Hh1 Hx) as (x & w3 & Hfc & Hpr). exists x, w3. split; [|done].
      by eapply first_checked_cons.
Qed.

(** C4: with verification on, what a response adds is a chain, but for the elements
    numbered 0 and 1, which are saved unchecked.  The accepted
    elements are a prefix of the announced list and their dumps are the frames at the
    start of the buffer (with the NUL behind it).  Of the elements numbered above 1, each
    dump parses to the block with the
    announced hash and names the hash of the one before it, and the first one
    names the hash of the block that the cache, behind the unchecked elements before it,
    or the node gives for the number before
    its own.  The number of the next block becomes the one after the last accepted
    element and is unchanged when none is. *)
Theorem response_is_chain w hashes buf w' done :
  process_response put_ok cores true parse_json LZ4_decompress_safe fetch w hashes buf = Ok (w', done) ->
  (exists dumps rest h0,
    buf ++ [zero] = frames dumps ++ rest /\ length dumps = length done /\ done `prefix_of` hashes /\
    linked h0 (checked (zip done dumps)) /\
    (checked (zip done dumps) <> [] ->
     exists pre it tl w1 b ext,
       done = pre ++ it :: tl /\ Forall (fun x => bk_number x <= 1) pre /\ 1 < bk_number it /\
       process_response put_ok cores true parse_json LZ4_decompress_safe fetch w pre buf = Ok (w1, pre) /\
       get_block parse_json LZ4_decompress_safe fetch (w_cache w1) (u64 (bk_number it - 1))
         (bi_with_hash (bi_prev w) []) (prev_ext_data w1) = Ok (true, b, ext) /\
       h0 = hash (header b))) /\
  m_nextblock (w_cache w') = counter_after (m_nextblock (w_cache w)) done.
Proof.
  intros Hp. destruct (process_chain _ _ _ _ _ Hp) as [(dumps & rest & h0 & H1 & H2 & H3 & H4 & H5) H6].
  split; [|done]. exists dumps, rest, h0. split_and!; try done. intros Hx.
  destruct (H5 Hx) as (it & w1 & (pre & tl & -> & Hf & Hit & Hr) & prev & ext & Hpr & ->).
  pose proof (process_unchecked_prev _ _ _ _ _ Hf Hr eq_refl) as Ebp. cbn [bi_prev] in Ebp.
  unfold previous in Hpr. rewrite Ebp in Hpr.
  rewrite bool_decide_eq_true_2 in Hpr by done.
  apply bind_Ok in Hpr as ([[ok b] ext1] & Hg & Hpr). destruct ok; [|done]. injection Hpr as -> ->.
  exists pre, it, tl, w1, prev, ext. split_and!; try done.
  - eapply Forall_impl; [exact Hf|]. unfold is_checked. cbn beta. intros x E. zbool. lia.
  - unfold is_checked in Hit. by zbool.
Qed.

(** A dump in the place of a block that does not hold a block (a block of
    signatures, say) is not skipped: the step throws, which ends [routine_2] and
    with it the worker. *)
Theorem unexpected_dump_ends_worker w it dump v prev ext :
  1 < bk_number it ->
  previous parse_json LZ4_decompress_safe fetch w (bk_number it) = Ok (Some prev, ext) ->
  parseBlockDump dump false = Ok v -> (forall b, v <> ABlock b) ->
  step w it dump = Throw BadVariantAccess.
Proof.
  intros Hn Hp Hd Hv. unfold block_step. cbn [andb]. ztest. rewrite Hp. cbn [mbind res_bind].
  unfold accept. rewrite Hd. cbn [mbind res_bind].
  destruct v as [|b| |]; try done. by destruct (Hv b).
Qed.

(** ** Loading signatures *)

Lemma extra_items_count first extra js count :
  (extra_items first extra js count).2 = count + zlen extra.
Proof.
  revert js count. induction extra as [|h extra IH]; intros js count; cbn [extra_items].
  - cbn [snd]. rewrite zlen_nil. lia.
  - rewrite IH, zlen_cons. lia.
Qed.

Lemma extra_request_iter recv first hashes js count i js' count' i' :
  extra_request recv first hashes js count i = (js', count', i') ->
  (i <= i')%nat /\
  match hashes with
  | it :: _ => count + zlen (bk_extra it) < recv -> (S i <= i')%nat
  | [] => True
  end.
Proof.
  revert first js count i. induction hashes as [|it hashes IH]; intros first js count i; cbn [extra_request].
  { intros [= <- <- <-]. lia. }
  pose proof (extra_items_count first (bk_extra it) js count) as Hc.
  destruct (extra_items first (bk_extra it) js count) as [js1 count1]. cbn [snd] in Hc. subst.
  destruct (recv <=? _) eqn:E; zbool; [intros [= <- <- <-]; lia|].
  intros [Hi _]%IH. lia.
Qed.

Lemma load_extra_fuel recv answer fuel c hashes :
  Forall (fun it => zlen (bk_extra it) < recv) hashes -> (length hashes < fuel)%nat ->
  load_extra_blocks put_ok cores parse_json LZ4_decompress_safe fuel recv answer c hashes <> None.
Proof.
  revert c hashes. induction fuel as [|f IH]; intros c hashes Hx Hf; [lia|]. cbn [load_extra_blocks].
  destruct hashes as [|it hashes]; [done|].
  destruct (extra_hashes recv (it :: hashes)) as [[js cnt] iter] eqn:E.
  destruct (cnt =? 0); [done|]. destruct (receive_extra _ _ _ _ _ _ _) as [c1|e]; [|done].
  apply extra_request_iter in E as [_ Hi]. apply Forall_cons in Hx as Hx'. destruct Hx' as [Hit _].
  apply IH; [by apply Forall_drop|]. rewrite length_drop. cbn [length] in *. lia.
Qed.

(** C39: loading signatures ends: one round per announced block is enough when no
    block has as many blocks of signatures as one request may hold. *)
Theorem load_extra_terminates recv answer c hashes :
  Forall (fun it => zlen (bk_extra it) < recv) hashes ->
  exists r, load_extra_blocks put_ok cores parse_json LZ4_decompress_safe (S (length hashes)) recv answer c hashes
            = Some r.
Proof.
  intros Hx. destruct (load_extra_blocks _ _ _ _ _ _ _ _ _) as [r|] eqn:E; [by exists r|].
  by apply load_extra_fuel in E; [|done|lia].
Qed.

(** A block with that many makes the loop run for ever: the same request is
    sent again and again, without a pause. *)
Theorem load_extra_endless recv c it hashes fuel :
  0 < recv <= zlen (bk_extra it) ->
  load_extra_blocks put_ok cores parse_json LZ4_decompress_safe fuel recv (fun _ => None) c (it :: hashes) = None.
Proof.
  intros Hr. revert c. induction fuel as [|f IH]; intros c; cbn [load_extra_blocks]; [done|].
  unfold extra_hashes. cbn [extra_request].
  pose proof (extra_items_count true (bk_extra it) [] 0) as Hc.
  destruct (extra_items true (bk_extra it) [] 0) as [js cnt]. cbn [snd] in Hc. subst. ztest.
  cbn [receive_extra drop]. apply IH.
Qed.
End Chain.

(** The hashes of blocks of signatures are listed with commas only behind the
    first block of the list: two of them under the first block run together, and
    without any under the first block the list begins with a comma. *)
Theorem extra_request_separators recv n a b x :
  2 < recv ->
  (extra_hashes recv [{| bk_number := n; bk_hash := x; bk_extra := [a; b] |}]).1.1
  = [chr 34] ++ bin2hex_vec a ++ [chr 34] ++ [chr 34] ++ bin2hex_vec b ++ [chr 34] /\
  (extra_hashes recv [{| bk_number := n; bk_hash := x; bk_extra := [] |};
                      {| bk_number := n + 1; bk_hash := x; bk_extra := [a] |}]).1.1
  = str "," ++ [chr 34] ++ bin2hex_vec a ++ [chr 34].
Proof.
  intros Hr. unfold extra_hashes. cbn [extra_request bk_extra extra_items]. ztest.
  cbn [extra_request bk_extra extra_items]. ztest. cbn [fst].
  split; by rewrite <- ?app_assoc.
Qed.

(** The first block of version 1.  With fewer blocks than [init_count] in the
    chain the unsigned difference wraps around: the worker waits for a block
    beyond the end of the chain, where version 2 starts at the last block. *)
Theorem first_block_wraps init_count count_blocks :
  0 < count_blocks < init_count -> init_count < 2 ^ 32 ->
  count_blocks < first_block_v1 init_count count_blocks /\
  first_block init_count (Some count_blocks) = count_blocks.
Proof.
  intros Hc Hi. unfold first_block_v1, first_block.
  assert (u64 (count_blocks - init_count) = count_blocks - init_count + 2 ^ 64) as ->.
  { symmetry. apply (Z.mod_unique_pos _ _ (-1)); lia. }
  ztest. split; [lia|done].
Qed.

(** ** Witnesses

    A small instance of the environment: a dump is its kind, the hash, the
    previous hash and one character per signing transaction; the node answers
    with two blocks, of which the second is signed by the core node [a]. *)
Module Sample.
Import BlockVerify.Sample.

Definition toy_parse (d : bytes) (_ : bool) : res some_block :=
  match d with
  | k :: d =>
      let h := take 32 d in
      let prev := take 32 (drop 32 d) in
      let sg := drop 64 d in
      if negb (zlen d <? 64) then
        if bool_decide (k = "b"%char) then Ok (ABlock (signed_by sg 0 h prev))
        else if bool_decide (k = "s"%char) then Ok (ASignBlock (sign_block sg prev))
        else Ok NoBlock
      else Ok NoBlock
  | [] => Ok NoBlock
  end.

#[export] Instance lib : TorrentLib := {|
  Address_eqb a b := bool_decide (a = b);
  calcHexString a := bin2hex (address a);
  isStateBlock h := blockType h =? 1;
  isForgingBlock h := blockType h =? 2;
  getBlockType _ := str "block";
  parseBlockDump := toy_parse
|}.

#[export] Instance lib_laws : TorrentLaws lib.
Proof.
  split; intros [|k d] v b Hd; cbn -[take drop length zlen Z.ltb] in Hd; try discriminate.
  all: destruct (zlen d <? 64) eqn:E; cbn -[take drop length] in Hd; [discriminate|]; zbool; unfold zlen in E.
  all: destruct (bool_decide (k = "b"%char)); [|destruct (bool_decide (k = "s"%char))]; try discriminate.
  all: injection Hd as <-; cbn -[take drop length]; rewrite ?length_take, ?length_drop; lia.
Qed.

Definition h (c : ascii) : bytes := replicate 32 c.
Definition dump (c p : ascii) (sg : bytes) : bytes := "b"%char :: h c ++ h p ++ sg.
Definition packed (b : bytes) : bytes := le_bytes 4 (zlen b) ++ b.

Definition announce (n : Z) (c : ascii) : json :=
  JObj [(str "number", JInt n); (str "hash", JStr (bin2hex (h c)))].
Definition doc : json := JObj [(str "result", JArr [announce 20000 "1"; announce 20001 "2"])].
Definition parse_json (b : bytes) : option json := if bool_decide (b = str "B") then Some doc else None.
Definition fetch (i : nat) (n : Z) : option bytes := Some (packed (dump "0" "z" (str "a"))).
Definition buf : bytes := frames [dump "1" "0" (str "b"); dump "2" "1" (str "a")].

Definition answer : answers :=
  {| a_get_blocks := Some (str "B"); a_get_count := Some []; a_get_dumps := fun _ => Some (packed buf);
     a_fetch := fetch |}.

Abbreviation all_ok := (fun _ : nat => true).
Definition w0 : wstate := wstate_new blocks_cache_new.
Definition final : option (res wstate) :=
  round all_ok cores true parse_json Stored.copy 5 100 1000000 answer w0.
Definition w1 : wstate := match final with Some (Ok w) => w | _ => w0 end.

Lemma final_ok : final = Some (Ok w1).
Proof. vm_compute. reflexivity. Qed.


Lemma round_last_signed_monotone_witness :
  m_last_signed_block (w_cache w0) <= m_last_signed_block (w_cache w1).
Proof.
  apply (round_last_signed_monotone (laws := lib_laws) (put_ok := all_ok) (cores := cores)
    (block_verification := true) (parse_json := parse_json) (LZ4_decompress_safe := Stored.copy) 5 100 1000000 answer).
  - reflexivity.
  - discriminate.
  - intros g s _ Hs. discriminate.
  - exact final_ok.
Defined.

Definition hs : list blk_info :=
  [{| bk_number := 20000; bk_hash := h "1"; bk_extra := [] |};
   {| bk_number := 20001; bk_hash := h "2"; bk_extra := [] |}].

(** An unchecked block 1 in front of two checked ones. *)
Definition hs2 : list blk_info := {| bk_number := 1; bk_hash := h "0"; bk_extra := [] |} :: hs.
Definition buf2 : bytes := frames [dump "0" "z" (str "x"); dump "1" "0" (str "b"); dump "2" "1" (str "a")].

Lemma response_is_chain_witness :
  exists w',
  (exists dumps rest h0,
    buf2 ++ [zero] = frames dumps ++ rest /\ length dumps = length hs2 /\ hs2 `prefix_of` hs2 /\
    linked h0 (checked (zip hs2 dumps)) /\
    (checked (zip hs2 dumps) <> [] ->
     exists pre it tl w1 b ext,
       hs2 = pre ++ it :: tl /\ Forall (fun x => bk_number x <= 1) pre /\ 1 < bk_number it /\
       process_response all_ok cores true parse_json Stored.copy fetch w0 pre buf2 = Ok (w1, pre) /\
       get_block parse_json Stored.copy fetch (w_cache w1) (u64 (bk_number it - 1))
         (bi_with_hash (bi_prev w0) []) (prev_ext_data w1) = Ok (true, b, ext) /\
       h0 = hash (header b))) /\
  m_nextblock (w_cache w') = counter_after (m_nextblock (w_cache w0)) hs2.
Proof.
  eexists. eapply (response_is_chain (laws := lib_laws) (put_ok := all_ok) (cores := cores)
    (parse_json := parse_json) (LZ4_decompress_safe := Stored.copy) (fetch := fetch) w0 hs2 buf2 _ hs2).
  vm_compute. reflexivity.
Defined.

Lemma unexpected_dump_ends_worker_witness :
  block_step all_ok cores true parse_json Stored.copy fetch w0
    {| bk_number := 20000; bk_hash := h "1"; bk_extra := [] |} (str "junk") = Throw BadVariantAccess.
Proof.
  eapply (unexpected_dump_ends_worker w0 {| bk_number := 20000; bk_hash := h "1"; bk_extra := [] |}
    (str "junk") NoBlock).
  - reflexivity.
  - vm_compute. reflexivity.
  - reflexivity.
  - intros b. discriminate.
Defined.

(** Blocks with signatures, two to a request; the answer is a block of signatures. *)
Definition hs3 : list blk_info :=
  map (fun n => {| bk_number := n; bk_hash := h "1"; bk_extra := [h "s"; h "t"] |}) [20000; 20001; 20002].
Definition extra_answer (_ : bytes) : option bytes := Some (packed (frames ["s"%char :: h "9" ++ h "1" ++ str "a"])).

Lemma load_extra_terminates_witness :
  exists r, load_extra_blocks all_ok cores parse_json Stored.copy 4 3 extra_answer (w_cache w1) hs3 = Some r.
Proof. apply (load_extra_terminates 3 extra_answer (w_cache w1) hs3). repeat constructor. Defined.

Lemma load_extra_endless_witness :
  load_extra_blocks all_ok cores parse_json Stored.copy 1000 1 (fun _ => None) blocks_cache_new
    [{| bk_number := 7; bk_hash := []; bk_extra := [h "1"] |}] = None.
Proof. apply load_extra_endless. vm_compute. split; [reflexivity | discriminate]. Defined.

Lemma extra_request_separators_witness :
  (extra_hashes 100 [{| bk_number := 7; bk_hash := []; bk_extra := [str "a"; str "b"] |}]).1.1
  = [chr 34] ++ bin2hex_vec (str "a") ++ [chr 34] ++ [chr 34] ++ bin2hex_vec (str "b") ++ [chr 34].
Proof. apply (extra_request_separators 100 7 (str "a") (str "b") []). lia. Defined.

Lemma first_block_wraps_witness :
  1000 < first_block_v1 50000 1000 /\ first_block 50000 (Some 1000) = 1000.
Proof. apply first_block_wraps; lia. Defined.
End Sample.
