(* ===== verification/BlockLoader.v ===== *)
(** Version 1 of the worker of the block cache: routine of src/cache/blocks_cache.cpp,
    which asks for one block after the other and does not look at signatures.  Here
    is what it does with the node's answers, [None] being a call that left no
    response; SyncCall.v has its loops over the calls. *)

From Stdlib Require Import String.
From S2P Require Import Prelude Text Hex Endian Compress Json BlockInfo BlockStore BlockVerify BlockWorker BlockSafety.
Open Scope Z_scope.

Section Routine.
Variable parse_json : bytes -> option json.

(** The number of blocks, when the answer has it. *)
Definition read_count (response : option bytes) : option Z :=
  match response with
  | None => None
  | Some body =>
      if bool_decide (body = []) then None
      else match parse_json body with
           | None => None
           | Some doc =>
               match get_result doc with
               | None => None
               | Some r => get_value_u64 r "count_blocks"
               end
           end
  end.

End Routine.

(** ** Lemmas *)

Section Facts.
Context `{L : TorrentLib} {laws : TorrentLaws L}.
Context {parse_json : bytes -> option json} {LZ4_decompress_safe : bytes -> bytes -> Z * bytes}.

Abbreviation ok := (fun _ : nat => true).

(** The text is a compressed dump of a block. *)
Definition good_dump (body : bytes) : Prop :=
  body <> [] /\ parse_json body = None /\
  exists b, parseBlockDump (decompress LZ4_decompress_safe body) false = Ok (ABlock b).

(** One block is loaded. *)
Lemma routine_block_loads c body :
  good_dump body -> 0 <= m_nextblock c < UINT64_MAX ->
  exists c', routine_block ok parse_json LZ4_decompress_safe c body = Ok (true, c') /\
    m_nextblock c' = m_nextblock c + 1 /\
    look c' (KNum (m_nextblock c)) = Some body /\ look c' (KData (m_nextblock c)) = Some ext_zero /\
    forall n, 0 <= n <= UINT64_MAX -> n <> m_nextblock c ->
      look c' (KNum n) = look c (KNum n) /\ look c' (KData n) = look c (KData n).
Proof.
  intros (Hne & Hp & b & Hb) Hn. unfold routine_block. rewrite bool_decide_eq_false_2, Hp, Hb by done. cbn [mbind res_bind].
  set (n := m_nextblock c) in *. destruct (save_block ok c n (bin2hex_vec (hash (header b))) body ext_zero) as [w c1] eqn:Es.
  assert (length (hash (header b)) = 32%nat) as Hh by by apply (block_hash_size _ _ _ Hb).
  change (bin2hex_vec (hash (header b))) with (bin2hex (hash (header b))) in Es.
  assert (w = true) as ->.
  { revert Es. unfold save_block, save_extra_data, Put. cbv beta iota zeta. rewrite bool_decide_eq_false_2; [by intros [= <- <-]|].
    intros E%(f_equal length). rewrite length_bin2hex, Hh in E. done. }
  destruct (save_block_look (put_ok := ok) c n _ body ext_zero true c1 Es ltac:(lia) Hh) as ((_ & Hnext & _) & w1 & w2 & w3 & <- & H2 & H3 & Hl).
  rewrite (H2 (H3 eq_refl)), (H3 eq_refl) in Hl. cbn [andb] in Hl.
  assert (u64 (m_nextblock c1 + 1) = n + 1) as En by (rewrite Hnext; apply wrap_small; unfold UINT64_MAX in *; lia).
  rewrite En. set (c2 := with_next c1 (n + 1)). eexists. split; [reflexivity|].
  destruct (update_number ok c2 (m_nextblock c2)) as [w c3] eqn:Eu. cbn [snd].
  pose proof (Put_spec (put_ok := ok) _ _ _ _ _ Eu) as ((_ & Hn3 & _) & _ & -> & _). split; [exact Hn3|].
  assert (forall k, valid_key k -> k <> KNext -> look c3 k = look c1 k) as Hk.
  { intros k Hv Hk. rewrite (Put_look (put_ok := ok) c2 KNext _ _ c3 k Eu I Hv). by rewrite bool_decide_eq_false_2. }
  split_and!; [| |intros m Hm Hmn; split]; rewrite Hk, Hl by (done || cbn; unfold UINT64_MAX in *; lia);
    repeat case_bool_decide; congruence.
Qed.

End Facts.

(** ** Witnesses *)

Module Sample.
Import BlockVerify.Sample.

(** Texts that are dumps, and the answer to get-count-blocks. *)
Definition toy_parse (d : bytes) (_ : bool) : res some_block :=
  match d with
  | x :: _ => if bool_decide (x = "b"%char) then Ok (ABlock (signed_by [] 0 (replicate 32 x) (replicate 32 x))) else Ok NoBlock
  | [] => Ok NoBlock
  end.

#[export] Instance lib : TorrentLib := {|
  Address_eqb a b := bool_decide (a = b);
  calcHexString a := bin2hex (address a);
  isStateBlock h := blockType h =? 1;
  isForgingBlock h := blockType h =? 2;
  getBlockType _ := str "block";
  parseBlockDump := toy_parse
|}.

#[export] Instance lib_laws : TorrentLaws lib.
Proof.
  split; intros [|x d] v b; cbn [parseBlockDump lib toy_parse]; try discriminate;
    destruct (bool_decide (x = "b"%char)); try discriminate. intros [= <-]. done.
Qed.

Definition lz4 : bytes -> bytes -> Z * bytes := Compress.Stored.copy.
Definition packed (b : bytes) : bytes := le_bytes 4 (zlen b) ++ b.
Definition parse (b : bytes) : option json :=
  if bool_decide (b = str "two") then Some (JObj [(str "result", JObj [(str "count_blocks", JInt 2)])]) else None.
Definition c0 : cache := with_next blocks_cache_new 1.

End Sample.
