(* ===== verification/BatchRequest.v ===== *)
(** Batches of requests: src/json_batch_request.cpp.

    RapidJSON's parser and printer are parameters; a document whose parse fails
    keeps what it held, so the two documents that the elements share are handed on from
    one element to the next.  [handlers method] is the
    entry of post_handlers for [method] (with the setting useLocalDatabase), [None]
    when there is none.  A call of an entry gets the text of the request, may change
    the state of the process ([St]) and returns its handler_result, whose first
    component says that the answer comes later, through [send_json].  perform lets
    no exception out of an entry; what is left is undefined behaviour.

    [process] holds the lock of the batch from its first line to its last, and
    [send_json] takes it too, so the answers that come later are serialised behind
    [process]: a run is [process] followed by a list of [send_json]. *)

From Stdlib Require Import String.
From S2P Require Import Prelude Text Json.
Open Scope Z_scope.

(** The fields of batch_json_request that change, and the texts handed to
    [m_ctx->send_json]. *)
Record batch := {
  m_size : Z;
  m_result : list json;
  sent : list bytes
}.

Definition batch_new : batch := {| m_size := 0; m_result := []; sent := [] |}.

(** [writer.reset(); writer.set_id(id); writer.set_error(code, message)]. *)
Definition error_doc (writer : json) (id code : Z) (message : bytes) : json :=
  set_error (set_id (reset writer) id) code message.

(** [m_result.PushBack]. *)
Definition push (b : batch) (v : json) : batch :=
  {| m_size := m_size b; m_result := m_result b ++ [v]; sent := sent b |}.

(** An entry of the table of methods over the state [St]. *)
Definition entry (St : Type) : Type := bytes -> St -> res (St * (bool * bytes)).

Section Batch.
Context {St : Type}.
Variable parse_json : bytes -> option json.
Variable stringify : json -> bytes.
Variable handlers : bytes -> option (entry St).

(** The document [doc] after [Parse]. *)
Definition parsed (doc : json) (text : bytes) : json := default doc (parse_json text).

(** The documents [tmp] and [writer]. *)
Definition documents : Type := json * json.

Definition send_response (b : batch) : batch :=
  {| m_size := m_size b; m_result := m_result b; sent := sent b ++ [stringify (JArr (m_result b))] |}.

(** [if (m_size == m_result.Size()) send_response()]. *)
Definition complete (b : batch) : batch :=
  if m_size b =? zlen (m_result b) then send_response b else b.

(** The document that [send_json] adds. *)
Definition response_doc (data : bytes) : json :=
  match parse_json data with
  | Some doc => doc
  | None => error_doc JNull 0 (-32603) (str "Could not parse json response")
  end.

Definition send_json (b : batch) (data : bytes) : batch := complete (push b (response_doc data)).

(** One element of the array, with the documents before and after it. *)
Definition process_item (s : St) (b : batch) (d : documents) (v : json) : res (St * batch * documents) :=
  let json := stringify v in
  let tmp := parsed d.1 json in
  let writer := d.2 in
  if negb (IsObject tmp) then
    let writer := error_doc writer 0 (-32600) (str "Invalid request") in
    Ok (s, push b writer, (tmp, writer))
  else
    match get_value_str tmp "method" with
    | None =>
        let writer := error_doc writer 0 (-32600) (str "JSON method is not provided") in
        Ok (s, push b writer, (tmp, writer))
    | Some method =>
        if negb (has_id tmp) then
          Ok (s, {| m_size := u32 (m_size b - 1); m_result := m_result b; sent := sent b |}, (tmp, writer))
        else
          match handlers (c_str method) with
          | None =>
              id ← get_id tmp;
              let writer := error_doc writer id (-32601)
                              (str "Method '" ++ method ++ str "' does not exist") in
              Ok (s, push b writer, (tmp, writer))
          | Some call =>
              r ← call (c_str json) s;
              let '(s, (async, text)) := (r : St * (bool * bytes)) in
              if async then Ok (s, b, (tmp, writer))
              else let writer := parsed writer text in Ok (s, push b writer, (tmp, writer))
          end
    end.

(** The loop; [false] when an exception left it. *)
Fixpoint process_loop (s : St) (b : batch) (d : documents) (l : list json) : res (St * batch * bool) :=
  match l with
  | [] => Ok (s, b, true)
  | v :: l' =>
      match process_item s b d v with
      | Ok (s, b, d) => process_loop s b d l'
      | Throw Undefined => Throw Undefined
      | Throw _ => Ok (s, b, false)
      end
  end.

(** The documents before the first element. *)
Definition documents_new : documents := (JNull, json_rpc_writer_new).

(** process, on the elements of the array. *)
Definition process (s : St) (b : batch) (l : list json) : res (St * batch) :=
  if bool_decide (l = []) then
    Ok (s, {| m_size := 0; m_result := m_result b;
              sent := sent b ++ [stringify (set_error (set_id json_rpc_writer_new 0) (-32600)
                                              (str "Invalid batch request"))] |})
  else
    let b := {| m_size := u32 (zlen l); m_result := []; sent := sent b |} in
    r ← process_loop s b documents_new l;
    let '(s, b, ok) := (r : St * batch * bool) in
    Ok (s, if ok then complete b else b).

(** ** What a request asks of the batch *)

(** The kinds of elements: answered at once, a notification, answered later, or
    left by an exception. *)
Inductive kind := Answered (v : json) | Notification | Later | Stuck.

Definition kind_of (s : St) (d : documents) (v : json) : res (St * documents * kind) :=
  let tmp := parsed d.1 (stringify v) in
  let error id code message := Ok (s, (tmp, error_doc JNull id code message), Answered (error_doc JNull id code message)) in
  if negb (IsObject tmp) then error 0 (-32600) (str "Invalid request")
  else
    match get_value_str tmp "method" with
    | None => error 0 (-32600) (str "JSON method is not provided")
    | Some method =>
        if negb (has_id tmp) then Ok (s, (tmp, d.2), Notification)
        else
          match handlers (c_str method) with
          | None =>
              match get_id tmp with
              | Ok id => error id (-32601) (str "Method '" ++ method ++ str "' does not exist")
              | Throw _ => Ok (s, (tmp, d.2), Stuck)
              end
          | Some call =>
              r ← call (c_str (stringify v)) s;
              let '(s, (async, text)) := (r : St * (bool * bytes)) in
              if async : bool then Ok (s, (tmp, d.2), Later)
              else Ok (s, (tmp, parsed d.2 text), Answered (parsed d.2 text))
          end
    end.

(** The kinds of the elements of a batch, each in the state and with the documents
    the ones before it left. *)
Fixpoint kinds_from (s : St) (d : documents) (l : list json) : res (St * documents * list kind) :=
  match l with
  | [] => Ok (s, d, [])
  | v :: l' =>
      r ← kind_of s d v;
      let '(s, d, k) := (r : St * documents * kind) in
      r' ← kinds_from s d l';
      let '(s, d, ks) := (r' : St * documents * list kind) in
      Ok (s, d, k :: ks)
  end.
Definition kinds (s : St) (l : list json) : res (St * list kind) :=
  r ← kinds_from s documents_new l; Ok (r.1.1, r.2).

Definition is_later (k : kind) : bool := match k with Later => true | _ => false end.
Definition is_notification (k : kind) : bool := match k with Notification => true | _ => false end.
Definition answers_now (k : kind) : list json := match k with Answered a => [a] | _ => [] end.

(** The number of answers that come later, the answers that are there after
    [process], and the entries the response has. *)
Definition count_later (l : list kind) : Z := zlen (List.filter is_later l).
Definition immediate (l : list kind) : list json := flat_map answers_now l.
Definition expected (l : list kind) : Z := zlen l - zlen (List.filter is_notification l).

(** ** Lemmas *)

Lemma error_doc_writer w w' id code msg : error_doc w id code msg = error_doc w' id code msg.
Proof. unfold error_doc, reset, set_id, at_value. cbn. by destruct (id =? 0). Qed.

(** What an element of a kind does to the batch. *)
Definition apply_kind (b : batch) (k : kind) : batch :=
  match k with
  | Answered a => push b a
  | Notification => {| m_size := u32 (m_size b - 1); m_result := m_result b; sent := sent b |}
  | Later | Stuck => b
  end.

(** An item does to the batch what its kind says. *)
Lemma process_item_kind s b d v s' d' k :
  kind_of s d v = Ok (s', d', k) ->
  match k with
  | Stuck => exists e, process_item s b d v = Throw e
  | _ => process_item s b d v = Ok (s', apply_kind b k, d')
  end.
Proof.
  unfold kind_of, process_item. destruct (negb (IsObject _)).
  { intros [= <- <- <-]. by rewrite (error_doc_writer JNull d.2). }
  destruct (get_value_str _ _) as [m|].
  2:{ intros [= <- <- <-]. by rewrite (error_doc_writer JNull d.2). }
  destruct (negb (has_id _)); [by intros [= <- <- <-]|]. destruct (handlers _) as [call|].
  - intros ([s1 [[] t]] & -> & [= <- <- <-])%bind_Ok; done.
  - destruct (get_id _) as [id|e]; intros [= <- <- <-]; cbn; [|eauto].
    by rewrite (error_doc_writer JNull d.2).
Qed.

(** No element has an id that cannot be read while its method does not exist. *)
Definition steady (k : kind) : Prop := k <> Stuck.

Lemma process_loop_steady s d l s' d' ks b more :
  kinds_from s d l = Ok (s', d', ks) -> Forall steady ks -> zlen l <= m_size b < 2 ^ 32 ->
  process_loop s b d (l ++ more) =
    process_loop s' {| m_size := m_size b - zlen (List.filter is_notification ks);
                       m_result := m_result b ++ immediate ks; sent := sent b |} d' more.
Proof.
  revert s d s' d' ks b. induction l as [|v l IH]; intros s d s' d' ks b Hk Hs Hb.
  { injection Hk as <- <- <-. destruct b. cbn. by rewrite Z.sub_0_r, app_nil_r. }
  cbn [kinds_from] in Hk. apply bind_Ok in Hk as ([[s1 d1] k] & Hv & Hk).
  apply bind_Ok in Hk as ([[s2 d2] ks'] & Hl & [= <- <- <-]).
  apply Forall_cons in Hs as [Hsv Hs]. rewrite zlen_cons in Hb. pose proof (zlen_nonneg l).
  pose proof (process_item_kind s b d v s1 d1 k Hv) as Hp. unfold immediate. cbn [app process_loop flat_map List.filter].
  destruct k as [a| | |]; [| | |done]; rewrite Hp; cbn [apply_kind is_notification answers_now].
  - rewrite (IH s1 d1 s2 d2 ks' (push b a) Hl Hs) by (cbn; lia). cbn. by rewrite <- app_assoc.
  - assert (u32 (m_size b - 1) = m_size b - 1) as -> by (apply Z.mod_small; lia).
    rewrite (IH s1 d1 s2 d2 ks') by (done || cbn; lia). cbn [m_size m_result sent app].
    rewrite zlen_cons. do 2 f_equal. lia.
  - rewrite (IH s1 d1 s2 d2 ks' b Hl Hs) by lia. done.
Qed.

Lemma kinds_from_length s d l s' d' ks : kinds_from s d l = Ok (s', d', ks) -> length ks = length l.
Proof.
  revert s d s' d' ks. induction l as [|v l IH]; intros s d s' d' ks; [by intros [= <- <- <-]|]. cbn [kinds_from].
  intros ([[s1 d1] k] & _ & Hk)%bind_Ok. apply bind_Ok in Hk as ([[s2 d2] ks'] & Hl & [= <- <- <-]). cbn. f_equal. by eapply IH.
Qed.

Lemma kinds_run s l s' ks : kinds s l = Ok (s', ks) -> exists d, kinds_from s documents_new l = Ok (s', d, ks).
Proof. intros ([[s1 d] ks1] & Hk & [= <- <-])%bind_Ok. by exists d. Qed.

Lemma kinds_length s l s' ks : kinds s l = Ok (s', ks) -> length ks = length l.
Proof. intros [d Hk]%kinds_run. by eapply kinds_from_length. Qed.

(** Every element is answered, a notification or answered later. *)
Lemma expected_spec l :
  Forall steady l -> expected l = zlen (immediate l) + count_later l.
Proof.
  induction l as [|v l IH]; intros Hs; [done|]. apply Forall_cons in Hs as [Hv Hl].
  specialize (IH Hl). unfold expected, count_later, immediate, is_notification, is_later, answers_now, steady in *.
  cbn [flat_map List.filter]. rewrite zlen_cons.
  destruct v; rewrite ?zlen_app, ?zlen_cons, ?zlen_nil; try lia. done.
Qed.

Definition entries (l : list kind) (ts : list bytes) : list json :=
  immediate l ++ map response_doc ts.

Lemma process_spec s l s' ks :
  kinds s l = Ok (s', ks) -> l <> [] -> Forall steady ks -> zlen l < 2 ^ 32 ->
  process s batch_new l = Ok (s', complete {| m_size := expected ks; m_result := immediate ks; sent := [] |}).
Proof.
  intros Hk Hne Hs Hl. unfold process. rewrite bool_decide_eq_false_2 by done.
  pose proof (zlen_nonneg l).
  assert (u32 (zlen l) = zlen l) as -> by (apply Z.mod_small; lia).
  destruct (kinds_run _ _ _ _ Hk) as [d Hd].
  pose proof (process_loop_steady s documents_new l s' d ks {| m_size := zlen l; m_result := []; sent := [] |} [] Hd Hs
    ltac:(cbn; lia)) as Hp. rewrite app_nil_r in Hp. cbn [batch_new sent]. rewrite Hp. cbn.
  unfold expected. assert (zlen ks = zlen l) as -> by (unfold zlen; by rewrite (kinds_length _ _ _ _ Hk)). done.
Qed.

Lemma entries_snoc l ts t : entries l ts ++ [response_doc t] = entries l (ts ++ [t]).
Proof. unfold entries. by rewrite map_app, app_assoc. Qed.

Lemma zlen_entries l ts : zlen (entries l ts) = zlen (immediate l) + zlen ts.
Proof. unfold entries, zlen. rewrite length_app, length_map. lia. Qed.

(** The batch after [process] and the later answers [ts]. *)
Lemma later_spec ks ts :
  Forall steady ks ->
  fold_left send_json ts (complete {| m_size := expected ks; m_result := immediate ks; sent := [] |}) =
    {| m_size := expected ks; m_result := entries ks ts;
       sent := if zlen ts <? count_later ks then []
               else [stringify (JArr (entries ks (take (Z.to_nat (count_later ks)) ts)))] |}.
Proof.
  intros Hs. pose proof (expected_spec ks Hs) as He.
  assert (0 <= count_later ks) as Hc by (unfold count_later; apply zlen_nonneg).
  induction ts as [|t ts IH] using rev_ind.
  - cbn [fold_left]. unfold complete, entries. cbn [map].
    rewrite take_nil, zlen_nil. cbn [m_size m_result].
    destruct (Z.eqb_spec (expected ks) (zlen (immediate ks))); destruct (Z.ltb_spec 0 (count_later ks));
      try lia; cbn; by rewrite ?app_nil_r.
  - rewrite fold_left_app. cbn [fold_left]. rewrite IH.
    unfold send_json, complete, push, send_response. cbn [m_size m_result sent].
    rewrite entries_snoc, zlen_entries, zlen_app, zlen_cons, zlen_nil. f_equal.
    destruct (Z.eqb_spec (expected ks) (zlen (immediate ks) + (zlen ts + (1 + 0))));
      destruct (Z.ltb_spec (zlen ts) (count_later ks)); destruct (Z.ltb_spec (zlen ts + (1 + 0)) (count_later ks));
      try lia; cbn [m_size m_result sent app]; f_equal.
    + rewrite take_ge by (rewrite length_app; unfold zlen in *; cbn; lia). done.
    + rewrite take_app_le by (unfold zlen in *; lia). done.
Qed.

Lemma send_json_below b data :
  zlen (m_result b) + 1 < m_size b ->
  sent (send_json b data) = sent b /\ m_size (send_json b data) = m_size b /\
  zlen (m_result (send_json b data)) = zlen (m_result b) + 1.
Proof.
  intros Hb. unfold send_json, complete. cbn [push m_size m_result].
  rewrite zlen_app, zlen_cons, zlen_nil. ztest. cbn. split_and!; [done|done|].
  rewrite zlen_app, zlen_cons, zlen_nil. lia.
Qed.

Lemma send_all_below ts b :
  zlen (m_result b) + zlen ts < m_size b -> sent (fold_left send_json ts b) = sent b.
Proof.
  revert b. induction ts as [|t ts IH]; intros b Hb; [done|]. rewrite zlen_cons in Hb.
  pose proof (zlen_nonneg ts). destruct (send_json_below b t) as (H1 & H2 & H3); [lia|].
  cbn [fold_left]. rewrite IH; [done|]. lia.
Qed.

(** ** Theorems *)

(** C16: a batch is answered once.  The requests are handled in order, each in the
    state of the process that the ones before it left, and none makes [process]
    throw ([kinds]): the notifications get no entry, [count_later ks] requests are
    answered later; as long as fewer answers than that came, in whatever order,
    nothing is sent; then one text is sent, which holds an entry for each request
    that is no notification: those that were ready first, then the later ones in
    the order they came.  Answers beyond that change nothing of what was sent. *)
Theorem batch_answered_once s l s' ks ts :
  l <> [] -> zlen l < 2 ^ 32 -> kinds s l = Ok (s', ks) -> Forall steady ks ->
  let answered := immediate ks ++ map response_doc (take (Z.to_nat (count_later ks)) ts) in
  exists b, process s batch_new l = Ok (s', b) /\
    sent (fold_left send_json ts b) =
      (if zlen ts <? count_later ks then [] else [stringify (JArr answered)]) /\
    (count_later ks <= zlen ts -> zlen answered = zlen l - zlen (List.filter is_notification ks)).
Proof.
  intros Hne Hl Hk Hs answered. eexists. split; [by apply process_spec|]. split.
  - by rewrite later_spec.
  - intros Hts. unfold answered. fold (entries ks (take (Z.to_nat (count_later ks)) ts)).
    assert (zlen l = zlen ks) as -> by (unfold zlen; by rewrite (kinds_length _ _ _ _ Hk)).
    fold (expected ks). rewrite zlen_entries, (expected_spec ks Hs).
    assert (0 <= count_later ks) by (unfold count_later; apply zlen_nonneg).
    unfold zlen at 2. rewrite length_take. unfold zlen in Hts. lia.
Qed.

(** One request whose method does not exist and whose id is a text that is no
    number makes [process] throw, and then nothing is ever sent: not even for the
    requests before it, whose later answers still come. *)
Theorem batch_bad_id_never_answered s l1 s' ks v l2 doc m t e ts :
  kinds s l1 = Ok (s', ks) -> Forall steady ks -> zlen (l1 ++ v :: l2) < 2 ^ 32 ->
  parse_json (stringify v) = Some doc ->
  get_value_str doc "method" = Some m -> get "id" doc = Some (JStr t) -> stoi (c_str t) = Throw e -> e <> Undefined ->
  handlers (c_str m) = None ->
  zlen ts <= count_later ks ->
  exists b, process s batch_new (l1 ++ v :: l2) = Ok (s', b) /\ sent (fold_left send_json ts b) = [].
Proof.
  intros Hk Hs Hl Hd Hm Hi Ht He Hh Hts.
  assert (forall b w, process_item s' b w v = Throw e) as Hthrow.
  { intros b w. unfold process_item, parsed. rewrite Hd. change (default w.1 (Some doc)) with doc.
    assert (IsObject doc = true) as -> by (destruct doc; done). cbn [negb]. rewrite Hm.
    unfold has_id. rewrite Hi. rewrite bool_decide_eq_true_2 by done. cbn [negb]. rewrite Hh.
    unfold get_id. rewrite Hi, Ht. done. }
  rewrite zlen_app, zlen_cons in Hl. pose proof (zlen_nonneg l1). pose proof (zlen_nonneg l2).
  unfold process. rewrite bool_decide_eq_false_2 by (by destruct l1).
  assert (u32 (zlen (l1 ++ v :: l2)) = zlen l1 + (1 + zlen l2)) as ->.
  { rewrite zlen_app, zlen_cons. apply Z.mod_small. lia. }
  destruct (kinds_run _ _ _ _ Hk) as [d Hkd].
  pose proof (process_loop_steady s documents_new l1 s' d ks
    {| m_size := zlen l1 + (1 + zlen l2); m_result := []; sent := [] |} (v :: l2) Hkd Hs ltac:(cbn; lia)) as Hp. cbn [batch_new sent]. rewrite Hp.
  cbn [process_loop]. rewrite Hthrow. eexists. split; [by destruct e|].
  rewrite send_all_below; [done|]. cbn [m_size m_result app].
  pose proof (expected_spec ks Hs) as Hx. unfold expected in Hx.
  assert (zlen ks = zlen l1) by (unfold zlen; by rewrite (kinds_length _ _ _ _ Hk)). lia.
Qed.
End Batch.

(** ** A batch of four requests *)

Module Sample.
(** Objects printed by their method; the parser knows six texts. *)
Definition stringify (v : json) : bytes :=
  match v with JArr _ => str "array" | _ => default (str "null") (get_value_str v "method") end.
Definition request (m : string) (id : option json) : json :=
  JObj ((str "method", JStr (str m)) :: match id with Some v => [(str "id", v)] | None => [] end).
Definition parse_json (t : bytes) : option json :=
  if bool_decide (t = str "later") then Some (request "later" (Some (JInt 1)))
  else if bool_decide (t = str "now") then Some (request "now" (Some (JInt 2)))
  else if bool_decide (t = str "note") then Some (request "note" None)
  else if bool_decide (t = str "bad") then Some (request "bad" (Some (JStr (str "x"))))
  else if bool_decide (t = str "done") then Some (JBool true)
  else if bool_decide (t = str "null") then Some JNull
  else None.
(** The state counts the calls. *)
Definition handlers (m : bytes) : option (entry Z) :=
  if bool_decide (m = str "later") then Some (fun _ n => Ok (n + 1, (true, [])))
  else if bool_decide (m = str "now") then Some (fun _ n => Ok (n + 1, (false, str "done")))
  else None.

Definition requests : list json :=
  [request "later" (Some (JInt 1)); JNull; request "note" None; request "now" (Some (JInt 2))].

Definition kinds0 : list kind :=
  [Later; Answered (error_doc JNull 0 (-32600) (str "Invalid request")); Notification; Answered (JBool true)].

Lemma batch_answered_once_witness :
  exists b, process parse_json stringify handlers 0 batch_new requests = Ok (2, b) /\
    sent (fold_left (send_json parse_json stringify) [str "done"; str "done"] b) = [str "array"] /\
    zlen (immediate kinds0 ++ [JBool true]) = 3.
Proof.
  destruct (batch_answered_once parse_json stringify handlers 0 requests 2 kinds0 [str "done"; str "done"])
    as (b & H1 & H2 & H3).
  - discriminate.
  - reflexivity.
  - vm_compute. reflexivity.
  - repeat constructor; discriminate.
  - exists b. split; [exact H1|]. split; [exact H2|]. apply H3. discriminate.
Defined.

Lemma batch_bad_id_never_answered_witness :
  exists b, process parse_json stringify handlers 0 batch_new
      ([request "later" (Some (JInt 1))] ++ request "bad" (Some (JStr (str "x"))) :: [JNull]) = Ok (1, b) /\
    sent (fold_left (send_json parse_json stringify) [str "done"] b) = [].
Proof.
  eapply (batch_bad_id_never_answered parse_json stringify handlers 0 [request "later" (Some (JInt 1))] 1 [Later]);
    try reflexivity; [|discriminate].
  repeat constructor. discriminate.
Defined.
End Sample.
