(* ===== verification/HttpRequest.v ===== *)
(** One JSON-RPC call to a node: class [http_json_rpc_request] of
    src/http_json_rpc_request.h and .cpp.

    The object resolves the host, connects, shakes hands, writes the request and
    reads the response by asynchronous operations of Boost.Asio, while a timer
    runs in a thread of its own; a failed attempt is repeated.  The state is the
    object's members; an event is the completion of an outstanding operation,
    with the outcome the library reports, or the expiry of the timer, and [step]
    is the handler that runs then.  Handlers are atomic: on_timeout holds
    [m_locker] for all of its body, the others test and set the flags under it in
    error_handler, and a time-out that comes behind that test finds the handler's
    own operation outstanding, exactly as if it came behind the handler.  The
    second release of [m_locker] in error_handler (by the guard, after the
    explicit one) has no effect here.

    Sockets are their native handles, [-1] when closed.  The pool of connections
    is the one of ConnectionPool.v.  Clock readings, the state of pooled
    descriptors and the outcomes of operations are inputs. *)

From Stdlib Require Import String.
From S2P Require Import Prelude Text Json ConnectionPool ParseAddress.
Open Scope Z_scope.

(** ** State *)

(** http::request and http::response, as far as the code uses them. *)
Record http_request := {
  target : bytes;
  req_host : bytes;
  (** The field Connection: close. *)
  connection_close : bool;
  req_body : bytes
}.
Record response := {
  rsp_status : Z;
  rsp_version : Z;
  rsp_connection : option bytes;
  (** keep_alive() of the message. *)
  rsp_keep_alive : bool;
  rsp_body : bytes
}.
(** json_response_type(): version 1.1, status 200 and no body. *)
Definition response_new : response :=
  {| rsp_status := 200; rsp_version := 11; rsp_connection := None; rsp_keep_alive := true; rsp_body := [] |}.

Inductive timeout := TimeoutRequest | TimeoutConnection.

(** The asynchronous operations: what the resolver is asked for, and how many
    endpoints a connect has not tried yet. *)
Inductive operation := OpResolve (addr port : bytes) | OpConnect (eps : nat) | OpHandshake | OpWrite | OpRead.

Record links := {
  m_socket : Z;
  m_ssl_socket : Z;
  m_pool_obj : pool_object;
  the_pool : pool
}.

Record request := {
  (** The number of the current attempt, and the limits. *)
  m_attempt : Z;
  m_timeout : Z;
  m_conn_timeout : Z;
  m_attempts_count : Z;
  (** The object's own io_context, when it has one, and whether it is stopped. *)
  m_io_ctx : option bool;
  m_host : bytes;
  m_use_ssl : bool;
  m_req : http_request;
  (** [None] before the first attempt. *)
  m_response : option response;
  m_result : json;
  (** Whether a callback is set. *)
  m_callback : bool;
  m_canceled : bool;
  m_rerun : bool;
  (** The two sockets and the pool. *)
  link : links;
  (** The time-out that is running. *)
  m_timer : option timeout;
  (** The operations that were started and whose handler has not run. *)
  pending : list operation;
  (** What get_result returned each time the callback was called. *)
  called : list bytes
}.

Definition set_m_attempt (v : Z) (s : request) : request :=
  {| m_attempt := v; m_timeout := m_timeout s; m_conn_timeout := m_conn_timeout s;
     m_attempts_count := m_attempts_count s; m_io_ctx := m_io_ctx s; m_host := m_host s;
     m_use_ssl := m_use_ssl s; m_req := m_req s; m_response := m_response s;
     m_result := m_result s; m_callback := m_callback s; m_canceled := m_canceled s;
     m_rerun := m_rerun s; link := link s; m_timer := m_timer s; pending := pending s;
     called := called s |}.
Definition set_m_io_ctx (v : option bool) (s : request) : request :=
  {| m_attempt := m_attempt s; m_timeout := m_timeout s; m_conn_timeout := m_conn_timeout s;
     m_attempts_count := m_attempts_count s; m_io_ctx := v; m_host := m_host s;
     m_use_ssl := m_use_ssl s; m_req := m_req s; m_response := m_response s;
     m_result := m_result s; m_callback := m_callback s; m_canceled := m_canceled s;
     m_rerun := m_rerun s; link := link s; m_timer := m_timer s; pending := pending s;
     called := called s |}.
Definition set_m_use_ssl (v : bool) (s : request) : request :=
  {| m_attempt := m_attempt s; m_timeout := m_timeout s; m_conn_timeout := m_conn_timeout s;
     m_attempts_count := m_attempts_count s; m_io_ctx := m_io_ctx s; m_host := m_host s;
     m_use_ssl := v; m_req := m_req s; m_response := m_response s; m_result := m_result s;
     m_callback := m_callback s; m_canceled := m_canceled s; m_rerun := m_rerun s; link := link s;
     m_timer := m_timer s; pending := pending s; called := called s |}.
Definition set_m_req (v : http_request) (s : request) : request :=
  {| m_attempt := m_attempt s; m_timeout := m_timeout s; m_conn_timeout := m_conn_timeout s;
     m_attempts_count := m_attempts_count s; m_io_ctx := m_io_ctx s; m_host := m_host s;
     m_use_ssl := m_use_ssl s; m_req := v; m_response := m_response s; m_result := m_result s;
     m_callback := m_callback s; m_canceled := m_canceled s; m_rerun := m_rerun s; link := link s;
     m_timer := m_timer s; pending := pending s; called := called s |}.
Definition set_m_response (v : option response) (s : request) : request :=
  {| m_attempt := m_attempt s; m_timeout := m_timeout s; m_conn_timeout := m_conn_timeout s;
     m_attempts_count := m_attempts_count s; m_io_ctx := m_io_ctx s; m_host := m_host s;
     m_use_ssl := m_use_ssl s; m_req := m_req s; m_response := v; m_result := m_result s;
     m_callback := m_callback s; m_canceled := m_canceled s; m_rerun := m_rerun s; link := link s;
     m_timer := m_timer s; pending := pending s; called := called s |}.
Definition set_m_result (v : json) (s : request) : request :=
  {| m_attempt := m_attempt s; m_timeout := m_timeout s; m_conn_timeout := m_conn_timeout s;
     m_attempts_count := m_attempts_count s; m_io_ctx := m_io_ctx s; m_host := m_host s;
     m_use_ssl := m_use_ssl s; m_req := m_req s; m_response := m_response s; m_result := v;
     m_callback := m_callback s; m_canceled := m_canceled s; m_rerun := m_rerun s; link := link s;
     m_timer := m_timer s; pending := pending s; called := called s |}.
Definition set_m_callback (v : bool) (s : request) : request :=
  {| m_attempt := m_attempt s; m_timeout := m_timeout s; m_conn_timeout := m_conn_timeout s;
     m_attempts_count := m_attempts_count s; m_io_ctx := m_io_ctx s; m_host := m_host s;
     m_use_ssl := m_use_ssl s; m_req := m_req s; m_response := m_response s;
     m_result := m_result s; m_callback := v; m_canceled := m_canceled s; m_rerun := m_rerun s;
     link := link s; m_timer := m_timer s; pending := pending s; called := called s |}.
Definition set_m_canceled (v : bool) (s : request) : request :=
  {| m_attempt := m_attempt s; m_timeout := m_timeout s; m_conn_timeout := m_conn_timeout s;
     m_attempts_count := m_attempts_count s; m_io_ctx := m_io_ctx s; m_host := m_host s;
     m_use_ssl := m_use_ssl s; m_req := m_req s; m_response := m_response s;
     m_result := m_result s; m_callback := m_callback s; m_canceled := v; m_rerun := m_rerun s;
     link := link s; m_timer := m_timer s; pending := pending s; called := called s |}.
Definition set_m_rerun (v : bool) (s : request) : request :=
  {| m_attempt := m_attempt s; m_timeout := m_timeout s; m_conn_timeout := m_conn_timeout s;
     m_attempts_count := m_attempts_count s; m_io_ctx := m_io_ctx s; m_host := m_host s;
     m_use_ssl := m_use_ssl s; m_req := m_req s; m_response := m_response s;
     m_result := m_result s; m_callback := m_callback s; m_canceled := m_canceled s; m_rerun := v;
     link := link s; m_timer := m_timer s; pending := pending s; called := called s |}.
Definition set_link (v : links) (s : request) : request :=
  {| m_attempt := m_attempt s; m_timeout := m_timeout s; m_conn_timeout := m_conn_timeout s;
     m_attempts_count := m_attempts_count s; m_io_ctx := m_io_ctx s; m_host := m_host s;
     m_use_ssl := m_use_ssl s; m_req := m_req s; m_response := m_response s;
     m_result := m_result s; m_callback := m_callback s; m_canceled := m_canceled s;
     m_rerun := m_rerun s; link := v; m_timer := m_timer s; pending := pending s;
     called := called s |}.
Definition set_m_timer (v : option timeout) (s : request) : request :=
  {| m_attempt := m_attempt s; m_timeout := m_timeout s; m_conn_timeout := m_conn_timeout s;
     m_attempts_count := m_attempts_count s; m_io_ctx := m_io_ctx s; m_host := m_host s;
     m_use_ssl := m_use_ssl s; m_req := m_req s; m_response := m_response s;
     m_result := m_result s; m_callback := m_callback s; m_canceled := m_canceled s;
     m_rerun := m_rerun s; link := link s; m_timer := v; pending := pending s;
     called := called s |}.
Definition set_pending (v : list operation) (s : request) : request :=
  {| m_attempt := m_attempt s; m_timeout := m_timeout s; m_conn_timeout := m_conn_timeout s;
     m_attempts_count := m_attempts_count s; m_io_ctx := m_io_ctx s; m_host := m_host s;
     m_use_ssl := m_use_ssl s; m_req := m_req s; m_response := m_response s;
     m_result := m_result s; m_callback := m_callback s; m_canceled := m_canceled s;
     m_rerun := m_rerun s; link := link s; m_timer := m_timer s; pending := v;
     called := called s |}.
Definition set_called (v : list bytes) (s : request) : request :=
  {| m_attempt := m_attempt s; m_timeout := m_timeout s; m_conn_timeout := m_conn_timeout s;
     m_attempts_count := m_attempts_count s; m_io_ctx := m_io_ctx s; m_host := m_host s;
     m_use_ssl := m_use_ssl s; m_req := m_req s; m_response := m_response s;
     m_result := m_result s; m_callback := m_callback s; m_canceled := m_canceled s;
     m_rerun := m_rerun s; link := link s; m_timer := m_timer s; pending := pending s;
     called := v |}.

(** A boost::system::error_code: no error, or a value and its message. *)
Definition error_code : Type := option (Z * bytes).
(** [if (e)]. *)
Definition failed (e : error_code) : bool := match e with Some _ => true | None => false end.
Definition value (e : error_code) : Z := match e with Some (v, _) => v | None => 0 end.
Definition message (e : error_code) : bytes := match e with Some (_, m) => m | None => str "Success" end.

(** What a handler finds outside: the clock and the descriptors that are still
    connected. *)
Record env := { now : Z; alive : Z -> bool }.

Section Request.
Variable parse_json : bytes -> option json.
Variable stringify : json -> bytes.
Variable conn_pool_ttl : Z.

(** ** Helpers *)

(** [m_pool_obj->socket]. *)
Definition object_socket (p : pool) (id : nat) : Z :=
  match list_find (fun d => node d = id) (m_busy p) with Some (_, d) => socket d | None => -1 end.

(** close(force). *)
Definition close_links (use_ssl force : bool) (t : Z) (l : links) : links :=
  match m_pool_obj l with
  | Some id =>
      if enable (the_pool l) then
        let sock := if force then -1 else m_socket l in
        let p := set_socket (the_pool l) id (if use_ssl then m_ssl_socket l else sock) in
        let (o, p) := checkin p (Some id) t conn_pool_ttl in
        {| m_socket := -1; m_ssl_socket := if use_ssl then -1 else m_ssl_socket l;
           m_pool_obj := o; the_pool := p |}
      else {| m_socket := -1; m_ssl_socket := m_ssl_socket l; m_pool_obj := Some id; the_pool := the_pool l |}
  | None => {| m_socket := -1; m_ssl_socket := m_ssl_socket l; m_pool_obj := None; the_pool := the_pool l |}
  end.
Definition close (force : bool) (ev : env) (s : request) : request :=
  set_link (close_links (m_use_ssl s) force (now ev) (link s)) s.

Definition get_result (s : request) : bytes := stringify (m_result s).

Definition perform_callback (s : request) : request :=
  if m_callback s then set_m_callback false (set_called (called s ++ [get_result s]) s) else s.

(** [if (m_io_ctx.get() && !m_io_ctx->stopped()) m_io_ctx->stop()]. *)
Definition stop_ctx (s : request) : request :=
  match m_io_ctx s with Some _ => set_m_io_ctx (Some true) s | None => s end.

Definition start_operation (o : operation) (s : request) : request := set_pending (pending s ++ [o]) s.

Definition set_request_close (b : bool) (s : request) : request :=
  set_m_req {| target := target (m_req s); req_host := req_host (m_req s); connection_close := b;
               req_body := req_body (m_req s) |} s.

(** ** Construction and preparation *)

(** The constructor; [jrpc] are the settings for the time-outs and the number of
    attempts. *)
Definition http_json_rpc_request_new (host : bytes) (own_ctx : bool) (tmo conn_tmo attempts_count : Z)
  (jrpc_timeout jrpc_conn_timeout jrpc_attempts_count : Z) (p : pool) : request :=
  let a := parse_address host [] [] false in
  {| m_attempt := 0;
     m_timeout := if 0 <? tmo then tmo else jrpc_timeout;
     m_conn_timeout := if 0 <? conn_tmo then conn_tmo else jrpc_conn_timeout;
     m_attempts_count := if 0 <? attempts_count then attempts_count else jrpc_attempts_count;
     m_io_ctx := if own_ctx then Some false else None;
     m_host := host;
     m_use_ssl := if bool_decide (host = []) then false else na_use_ssl a;
     m_req := {| target := str "/"; req_host := if bool_decide (host = []) then [] else na_host a;
                 connection_close := false; req_body := [] |};
     m_response := None; m_result := json_rpc_writer_new; m_callback := false; m_canceled := false;
     m_rerun := false;
     link := {| m_socket := -1; m_ssl_socket := -1; m_pool_obj := None; the_pool := p |};
     m_timer := None; pending := []; called := [] |}.

(** set_path(path), the text up to a NUL. *)
Definition set_path (path : bytes) (s : request) : request :=
  let path := c_str path in
  let t := if bool_decide (head path = Some "/"%char) then path else str "/" ++ path in
  set_m_req {| target := t; req_host := req_host (m_req s); connection_close := connection_close (m_req s);
               req_body := req_body (m_req s) |} s.

(** set_host(host). *)
Definition set_host (host : bytes) (s : request) : request :=
  let a := parse_address host [] [] (m_use_ssl s) in
  {| m_attempt := m_attempt s; m_timeout := m_timeout s; m_conn_timeout := m_conn_timeout s;
     m_attempts_count := m_attempts_count s; m_io_ctx := m_io_ctx s; m_host := host;
     m_use_ssl := na_use_ssl a;
     m_req := {| target := target (m_req s); req_host := na_host a;
                 connection_close := connection_close (m_req s); req_body := req_body (m_req s) |};
     m_response := m_response s; m_result := m_result s; m_callback := m_callback s;
     m_canceled := m_canceled s; m_rerun := m_rerun s; link := link s; m_timer := m_timer s;
     pending := pending s; called := called s |}.

(** What JRPC_END does with an exception of the standard library. *)
Definition jrpc_caught (ev : env) (s : request) : request :=
  let s := set_m_result (set_error (m_result s) (-32603)
             (str "Json-rpc std exception. Check log for extra information.")) s in
  set_m_canceled true (close false ev s).

(** set_body(body): the answer gets the id of the request. *)
Definition set_body (body : bytes) (ev : env) (s : request) : request :=
  let s := set_m_req {| target := target (m_req s); req_host := req_host (m_req s);
                        connection_close := connection_close (m_req s); req_body := body |} s in
  match parse_json body with
  | Some doc =>
      match get_id doc with
      | Ok id => set_m_result (set_id (m_result s) id) s
      | Throw _ => jrpc_caught ev s
      end
  | None => s
  end.

Definition reset_attempts (s : request) : request := set_m_attempt 0 s.

(** ** An attempt *)

(** The block [if (need_connect)]. *)
Definition start_resolve (s : request) : request :=
  let a := parse_address (m_host s) [] [] (m_use_ssl s) in
  start_operation (OpResolve (na_host a) (na_port a)) (set_m_use_ssl (na_use_ssl a) s).

(** [assign] of a descriptor to a socket and its [remote_endpoint]. *)
Definition assign_ok (ev : env) (handle fd : Z) : bool := (handle =? -1) && alive ev fd.

(** The use of a pooled connection. *)
Definition reuse (ev : env) (fd : Z) (s : request) : request :=
  let l := link s in
  let handle := if m_use_ssl s then m_ssl_socket l else m_socket l in
  if assign_ok ev handle fd then
    let l := {| m_socket := if m_use_ssl s then m_socket l else fd;
                m_ssl_socket := if m_use_ssl s then fd else m_ssl_socket l;
                m_pool_obj := m_pool_obj l; the_pool := the_pool l |} in
    start_operation OpWrite (set_m_timer (Some TimeoutRequest) (set_link l s))
  else
    start_resolve (set_link {| m_socket := -1; m_ssl_socket := -1; m_pool_obj := m_pool_obj l;
                               the_pool := the_pool l |} s).

(** The part of execute behind the reset of the members. *)
Definition connect (ev : env) (s : request) : request :=
  let l := link s in
  if enable (the_pool l) then
    let (o, p) := checkout (the_pool l) (m_host s) in
    let s := set_link {| m_socket := m_socket l; m_ssl_socket := m_ssl_socket l; m_pool_obj := o;
                         the_pool := p |} s in
    match o with
    | None => start_resolve (set_request_close true s)
    | Some id => if object_socket p id =? -1 then start_resolve s else reuse ev (object_socket p id) s
    end
  else start_resolve (set_request_close true s).

(** The part of execute before it: the members of a new attempt. *)
Definition begin_attempt (callback : bool) (s : request) : request :=
  let s := set_m_attempt (u32 (m_attempt s + 1)) s in
  let s := match m_io_ctx s with
           | Some _ => if m_attempt s =? 1 then set_m_io_ctx (Some false) s else s
           | None => s
           end in
  let s := if callback then set_m_callback true s else s in
  let s := set_m_canceled false s in
  let s := set_m_result (reset (m_result s)) s in
  let s := set_m_response (Some response_new) s in
  set_request_close false s.

(** execute(callback); [m_io_ctx->run()] of an own context is the sequence of
    steps that follows. *)
Definition execute (callback : bool) (ev : env) (s : request) : request :=
  connect ev (begin_attempt callback s).

(** error_handler(e, from): whether the caller returns. *)
Definition error_handler (e : error_code) (from : string) (ev : env) (s : request) : bool * request :=
  if negb (m_rerun s) && m_canceled s then (true, s)
  else if negb (m_rerun s) && negb (failed e) then (false, s)
  else
    let s := set_m_canceled true (set_m_rerun false s) in
    let s := close true ev (set_m_timer None s) in
    if m_attempt s <? m_attempts_count s then (true, execute (m_callback s) ev s)
    else
      let msg := str "Json-rpc error " ++ to_string (value e) ++ str " : " ++ message e in
      let d := set_error (m_result s) (-32603) msg in
      let d := add_error_data d "where" (JStr (str from)) in
      let d := add_error_data d "host" (JStr (m_host s)) in
      (true, stop_ctx (perform_callback (set_m_result d s))).

(** ** Handlers *)

Definition timeout_message (t : timeout) (s : request) : bytes :=
  match t with
  | TimeoutRequest => str "Json-rpc timeout " ++ to_string (m_timeout s) ++ str " ms"
  | TimeoutConnection => str "Json-rpc connection timeout " ++ to_string (m_conn_timeout s) ++ str " ms"
  end.

Definition on_timeout (t : timeout) (ev : env) (s : request) : request :=
  if m_canceled s then s
  else
    let s := close true ev (set_m_canceled true s) in
    if m_attempt s <? m_attempts_count s then set_m_rerun true s
    else
      let d := set_error (m_result s) (-32603) (timeout_message t s) in
      let d := add_error_data d "host" (JStr (m_host s)) in
      stop_ctx (perform_callback (set_m_result d s)).

(** [if (error_handler(e, __func__)) return;] and the rest of the handler. *)
Definition unless_error (e : error_code) (from : string) (ev : env) (s : request)
  (rest : request -> request) : request :=
  let (stop, s) := error_handler e from ev s in if stop then s else rest s.

Definition on_resolve (e : error_code) (eps : nat) (ev : env) (s : request) : request :=
  unless_error e "on_resolve" ev s (fun s =>
    start_operation (OpConnect eps) (set_m_timer (Some TimeoutConnection) s)).

(** A connect in progress opens the handle [fd] for the next endpoint. *)
Definition opened (fd : Z) (s : request) : request :=
  let l := link s in
  set_link {| m_socket := if m_use_ssl s then m_socket l else fd;
              m_ssl_socket := if m_use_ssl s then fd else m_ssl_socket l;
              m_pool_obj := m_pool_obj l; the_pool := the_pool l |} s.

Definition on_connect (e : error_code) (ev : env) (s : request) : request :=
  unless_error e "on_connect" ev (set_m_timer None s) (fun s =>
    start_operation (if m_use_ssl s then OpHandshake else OpWrite) (set_m_timer (Some TimeoutRequest) s)).

Definition on_handshake (e : error_code) (ev : env) (s : request) : request :=
  unless_error e "on_handshake" ev s (start_operation OpWrite).

Definition on_write (e : error_code) (ev : env) (s : request) : request :=
  unless_error e "on_write" ev s (start_operation OpRead).

(** The loop of on_read that decides about the connection. *)
Definition keep_alive (r : response) : bool :=
  if bool_decide (rsp_connection r = Some (str "close")) then false
  else if rsp_version r =? 11 then true
  else rsp_keep_alive r.

(** The result on_read leaves, from the result [d] before. *)
Definition read_result (r : response) (d : json) : json :=
  match parse_json (rsp_body r) with
  | Some doc => doc
  | None =>
      if rsp_status r =? 200 then d
      else set_error d (-32603) (str "Incorrect response http status: " ++ to_string (rsp_status r))
  end.

Definition on_read (e : error_code) (ev : env) (s : request) : request :=
  unless_error e "on_read" ev (set_m_timer None s) (fun s =>
    let r := default response_new (m_response s) in
    let s := close (negb (keep_alive r)) ev s in
    stop_ctx (perform_callback (set_m_result (read_result r (m_result s)) s))).

(** ** Steps *)

(** The completion of the [i]-th outstanding operation, with the error, the number
    of endpoints that were resolved and what a read received; a connect that turns
    to the next endpoint; or the expiry of the timer, with the part of the response
    that a read under way has received by then. *)
Inductive event :=
| Completed (i : nat) (e : error_code) (eps : nat) (r : response)
| Opened (i : nat) (fd : Z)
| Expired (part : response).

Definition handle (o : operation) (e : error_code) (eps : nat) (r : response) (ev : env) (s : request) : request :=
  match o with
  | OpResolve _ _ => on_resolve e eps ev s
  | OpConnect _ => on_connect e ev s
  | OpHandshake => on_handshake e ev s
  | OpWrite => on_write e ev s
  | OpRead => on_read e ev (set_m_response (Some r) s)
  end.

(** A read stores what it receives in the response as it comes. *)
Definition arrived (part : response) (s : request) : request :=
  if existsb (fun o => match o with OpRead => true | _ => false end) (pending s)
  then set_m_response (Some part) s else s.

(** [None]: the event cannot happen.  A stopped context runs no handler. *)
Definition step (ev : env) (a : event) (s : request) : option request :=
  match a with
  | Completed i e eps r =>
      match pending s !! i with
      | Some o =>
          if bool_decide (m_io_ctx s = Some true) then None
          else Some (handle o e eps r ev (set_pending (delete i (pending s)) s))
      | None => None
      end
  | Opened i fd =>
      match pending s !! i with
      | Some (OpConnect (S n)) => Some (opened fd (set_pending (<[i := OpConnect n]> (pending s)) s))
      | _ => None
      end
  | Expired part =>
      match m_timer s with
      | Some t => Some (on_timeout t ev (set_m_timer None (arrived part s)))
      | None => None
      end
  end.

Fixpoint run (l : list (env * event)) (s : request) : option request :=
  match l with
  | [] => Some s
  | (ev, a) :: l' => match step ev a s with Some s' => run l' s' | None => None end
  end.
End Request.
