(* ===== verification/RequestLife.v ===== *)
(** The life of a JSON-RPC call: what HttpRequest.v does in every order of
    completions and time-outs.

    A request is waiting for an operation, about to be repeated after a time-out,
    or finished.  Every event keeps it in one of the three stages and decreases a
    measure, so it ends; the callback is called on the way to the last stage and
    the pooled connection is back then. *)

From Stdlib Require Import String.
From S2P Require Import Prelude Text Json ConnectionPool ParseAddress HttpRequest.
Open Scope Z_scope.

(** ** Lemmas *)

(** Reduces projections of updated states. *)
Ltac rq :=
  cbn [m_attempt m_timeout m_conn_timeout m_attempts_count m_io_ctx m_host m_use_ssl m_req m_response
       m_result m_callback m_canceled m_rerun link m_timer pending called m_socket m_ssl_socket m_pool_obj
       the_pool set_m_attempt set_m_io_ctx set_m_use_ssl set_m_req set_m_response set_m_result
       set_m_callback set_m_canceled set_m_rerun set_link set_m_timer set_pending set_called
       close start_operation set_request_close start_resolve fst snd negb andb orb app] in *.

(** *** The pool *)

Section PoolFacts.
Variable conn_pool_ttl : Z.

(** Of the pool's busy objects, [n] are others' and one is the request's own when
    it has one. *)
Definition pool_inv (n : Z) (l : links) : Prop :=
  wf (the_pool l) /\
  match m_pool_obj l with
  | Some id => id ∈ nodes (m_busy (the_pool l)) /\ enable (the_pool l) = true /\ get_busy_size (the_pool l) = n + 1
  | None => get_busy_size (the_pool l) = n
  end.

Lemma set_socket_busy p id s :
  nodes (m_busy (set_socket p id s)) = nodes (m_busy p) /\ get_busy_size (set_socket p id s) = get_busy_size p.
Proof.
  unfold get_busy_size, zlen. cbn. rewrite nodes_set_socket, length_map. done.
Qed.

Lemma checkin_busy p id t ttl :
  id ∈ nodes (m_busy p) -> get_busy_size (checkin p (Some id) t ttl).2 = get_busy_size p - 1.
Proof.
  intros Hid. unfold checkin. cbn [snd].
  destruct (extract _ (m_busy p)) as [[d busy]|] eqn:E.
  - apply extract_Some in E as [_ Hp]. unfold get_busy_size, zlen.
    rewrite (Permutation_length Hp). cbn [length]. destruct (_ =? _); cbn [with_lists m_busy]; lia.
  - apply extract_None in E. exfalso. unfold nodes in Hid. apply list_elem_of_fmap in Hid as (d & -> & Hd).
    rewrite Forall_forall in E. apply E in Hd. by rewrite bool_decide_eq_true_2 in Hd.
Qed.

Lemma checkout_busy_size p host o p' :
  checkout p host = (o, p') ->
  get_busy_size p' = get_busy_size p + (match o with Some _ => 1 | None => 0 end) /\ enable p' = enable p.
Proof.
  unfold checkout, get_busy_size, enable. destruct (negb _); [intros [= <- <-]; split; [lia|done]|].
  destruct (extract _ _) as [[d r]|]; [|destruct (_ <? _)]; intros [= <- <-]; cbn;
    rewrite ?zlen_cons; split; (lia || done).
Qed.

Lemma close_pool n ssl force t l :
  pool_inv n l ->
  pool_inv n (close_links conn_pool_ttl ssl force t l) /\ m_pool_obj (close_links conn_pool_ttl ssl force t l) = None.
Proof.
  intros [Hwf Ho]. unfold close_links. destruct (m_pool_obj l) as [id|].
  - destruct Ho as (Hid & He & Hn). rewrite He.
    set (v := if ssl then _ else _). destruct (set_socket_busy (the_pool l) id v) as [Hb Hs].
    pose proof (checkin_busy (set_socket (the_pool l) id v) id t conn_pool_ttl) as Hc.
    rewrite Hb in Hc. specialize (Hc Hid).
    destruct (checkin _ _ _ _) as [o p'] eqn:Ec. assert (o = None) as -> by by injection Ec.
    split; [|done]. split; rq.
    + pose proof (checkin_wf (set_socket (the_pool l) id v) (Some id) t conn_pool_ttl) as Hw.
      rewrite Ec in Hw. by apply Hw, set_socket_wf.
    + lia.
  - split; [|done]. by split.
Qed.

Lemma checkout_pool n l host o p' :
  pool_inv n l -> m_pool_obj l = None -> enable (the_pool l) = true -> checkout (the_pool l) host = (o, p') ->
  forall a b, pool_inv n {| m_socket := a; m_ssl_socket := b; m_pool_obj := o; the_pool := p' |}.
Proof.
  intros [Hwf Ho] Hnone He Hc a b. rewrite Hnone in Ho.
  destruct (checkout_busy_size _ _ _ _ Hc) as [Hs He']. split; rq.
  - pose proof (checkout_wf (the_pool l) host) as Hw. rewrite Hc in Hw. by apply Hw.
  - destruct o as [id|]; [|lia]. split; [by eapply checkout_busy|]. split; [congruence|lia].
Qed.
End PoolFacts.

(** *** The life of a request *)

Section Facts.
Context {parse_json : bytes -> option json} {stringify : json -> bytes} {conn_pool_ttl : Z}.
Abbreviation step := (step parse_json stringify conn_pool_ttl).
Abbreviation run := (run parse_json stringify conn_pool_ttl).

(** The number of attempts, the empty answer with the id of the request, whether
    a callback was given and the context is the object's own, the objects of the pool that others hold, and a bound on
    the endpoints of a host. *)
Context {N : Z} {base : json} {cb own : bool} {others : Z} {E : nat}.
Hypothesis N_range : 0 <= N <= UINT32_MAX.
Hypothesis base_reset : reset base = base.

(** The context before and after the answer. *)
Definition live_ctx : option bool := if own then Some false else None.
Definition done_ctx : option bool := if own then Some true else None.

(** What starting an attempt does not touch. *)
Definition frame (s s' : request) : Prop :=
  m_attempt s' = m_attempt s /\ m_attempts_count s' = m_attempts_count s /\ m_canceled s' = m_canceled s /\
  m_rerun s' = m_rerun s /\ m_callback s' = m_callback s /\ called s' = called s /\
  m_result s' = m_result s /\ m_io_ctx s' = m_io_ctx s.

(** Weights for termination: what one operation can still cause in its attempt. *)
Definition weight (o : operation) : nat :=
  match o with OpResolve _ _ => E + 10 | OpConnect k => k + 8 | OpHandshake => 6 | OpWrite => 4 | OpRead => 2 end.
Definition armed (s : request) : nat := match m_timer s with Some _ => 1 | None => 0 end.
Definition measure (s : request) : nat :=
  (E + 10) * Z.to_nat (N - m_attempt s) + list_sum (map weight (pending s)) + armed s.

Definition op_ok (o : operation) : Prop := match o with OpConnect k => (k <= E)%nat | _ => True end.
Definition one_pending (s : request) : Prop := exists o, pending s = [o] /\ op_ok o.

Definition started (s s' : request) : Prop :=
  frame s s' /\ pool_inv others (link s') /\
  exists o, pending s' = [o] /\ op_ok o /\ (weight o + armed s' <= E + 10)%nat.

Lemma start_resolve_started s :
  pending s = [] -> m_timer s = None -> pool_inv others (link s) -> started s (start_resolve s).
Proof.
  intros Hp Ht Hl. unfold start_resolve. split; [by split_and!|]. split; [done|]. rq. rewrite Hp.
  eexists. split; [done|]. split; [done|]. unfold armed. rq. rewrite Ht. cbn. lia.
Qed.

Lemma frame_trans s1 s2 s3 : frame s1 s2 -> frame s2 s3 -> frame s1 s3.
Proof. unfold frame. intuition congruence. Qed.

Lemma connect_started ev s :
  pending s = [] -> m_timer s = None -> pool_inv others (link s) -> m_pool_obj (link s) = None ->
  started s (connect ev s).
Proof.
  intros Hp Ht Hl Ho. unfold connect. destruct (enable (the_pool (link s))) eqn:He.
  2: { destruct (start_resolve_started (set_request_close true s)) as (Hf & ? & ?); [done..|]. by split. }
  destruct (checkout (the_pool (link s)) (m_host s)) as [o p] eqn:Hc.
  pose proof (checkout_pool _ _ _ _ _ Hl Ho He Hc) as Hq.
  set (s1 := set_link _ s). assert (pool_inv others (link s1)) as Hl1 by apply Hq.
  destruct o as [id|].
  2: { destruct (start_resolve_started (set_request_close true s1)) as (Hf & ? & ?); [done..|]. by split. }
  destruct (object_socket p id =? -1).
  { destruct (start_resolve_started s1) as (Hf & ? & ?); [done..|]. by split. }
  unfold reuse. destruct (assign_ok _ _ _).
  - split; [by split_and!|]. split; [apply Hq|]. unfold s1. rq. rewrite Hp. eexists. split; [done|]. split; [done|].
    unfold armed. rq. cbn. lia.
  - set (s2 := set_link _ s1). destruct (start_resolve_started s2) as (Hf & ? & ?); [done|done|apply Hq|]. by split.
Qed.

(** *** The three stages *)

(** What the answer can be: an error with the id of the request, or what a
    response that arrived holds. *)
Definition outcome (seen : list response) (d : json) : Prop :=
  (is_error d = true /\ get "id" d = get "id" base) \/ exists r, r ∈ seen /\ d = read_result parse_json r base.

Definition steady (s : request) : Prop :=
  m_attempts_count s = N /\ 1 <= m_attempt s <= Z.max 1 N /\ pool_inv others (link s).

(** An attempt is under way. *)
Definition waiting (s : request) : Prop :=
  steady s /\ m_canceled s = false /\ m_rerun s = false /\ one_pending s /\ m_callback s = cb /\
  called s = [] /\ m_result s = base /\ m_io_ctx s = live_ctx.

(** The timer ended the attempt; the handler of its operation starts the next. *)
Definition rerunning (s : request) : Prop :=
  steady s /\ m_canceled s = true /\ m_rerun s = true /\ one_pending s /\ m_timer s = None /\
  m_callback s = cb /\ called s = [] /\ m_result s = base /\ m_io_ctx s = live_ctx /\
  m_pool_obj (link s) = None /\ m_attempt s < N.

(** The answer was delivered. *)
Definition finished (seen : list response) (s : request) : Prop :=
  steady s /\ m_rerun s = false /\ m_callback s = false /\
  called s = (if cb then [stringify (m_result s)] else []) /\
  ((m_canceled s = true /\ ((exists o, pending s = [o]) \/ pending s = [])) \/ pending s = []) /\
  outcome seen (m_result s) /\ m_pool_obj (link s) = None /\ m_io_ctx s = done_ctx /\ m_timer s = None.

Definition alive_inv (seen : list response) (s : request) : Prop :=
  waiting s \/ rerunning s \/ finished seen s.

Lemma begin_attempt_spec callback s :
  0 <= m_attempt s < Z.max 1 N -> m_io_ctx s = live_ctx ->
  let s' := begin_attempt callback s in
  m_attempt s' = m_attempt s + 1 /\ m_attempts_count s' = m_attempts_count s /\ m_canceled s' = false /\
  m_rerun s' = m_rerun s /\ m_callback s' = callback || m_callback s /\ called s' = called s /\
  m_result s' = reset (m_result s) /\ m_io_ctx s' = live_ctx /\ pending s' = pending s /\
  m_timer s' = m_timer s /\ link s' = link s.
Proof.
  intros Ha Hctx. cbv zeta. unfold begin_attempt.
  assert (u32 (m_attempt s + 1) = m_attempt s + 1) as Hu
    by (apply wrap_small; unfold UINT32_MAX in *; lia). rq. rewrite Hu.
  unfold live_ctx in *.
  destruct own, (m_io_ctx s) as [c|] eqn:Ec; try done; [destruct (m_attempt s + 1 =? 1)|];
    destruct callback; rq; split_and!; done || congruence.
Qed.

Lemma execute_waiting callback ev s :
  pending s = [] -> m_timer s = None -> pool_inv others (link s) -> m_pool_obj (link s) = None ->
  m_attempts_count s = N -> 0 <= m_attempt s < Z.max 1 N -> m_rerun s = false ->
  callback || m_callback s = cb -> called s = [] -> reset (m_result s) = base ->
  m_io_ctx s = live_ctx ->
  let s' := execute callback ev s in
  waiting s' /\ m_attempt s' = m_attempt s + 1 /\
  (measure s' <= (E + 10) * Z.to_nat (N - (m_attempt s + 1)) + (E + 10))%nat.
Proof.
  intros Hp Ht Hl Ho HN Ha Hr Hc Hca Hre Hctx. cbv zeta. unfold execute.
  destruct (begin_attempt_spec callback s Ha Hctx) as (S1 & S2 & S3 & S4 & S5 & S6 & S7 & S8 & S9 & S10 & S11).
  set (s2 := begin_attempt callback s) in *. clearbody s2.
  destruct (connect_started ev s2) as ((G1 & G2 & G3 & G4 & G5 & G6 & G7 & G8) & Gl & o & Go & Gk & Gw);
    [congruence..|].
  split_and!.
  - split; [split; [congruence|split; [lia|done]]|]. split; [congruence|]. split; [congruence|].
    split; [by exists o|]. split_and!; congruence.
  - congruence.
  - unfold measure. rewrite Go, G1, S1. cbn [map list_sum foldr]. unfold armed in *. lia.
Qed.

(** The state a handler finds, its own operation removed. *)
Definition core (s : request) : Prop :=
  steady s /\ pending s = [] /\ m_callback s = cb /\ called s = [] /\ m_result s = base /\ m_io_ctx s = live_ctx.

Definition progress (seen : list response) (m : nat) (s : request) : Prop :=
  alive_inv seen s /\ (measure s < m)%nat.

(** Delivering an answer finishes the request. *)
Lemma deliver_finished seen d s :
  steady s -> m_pool_obj (link s) = None -> m_rerun s = false -> m_callback s = cb -> called s = [] ->
  m_io_ctx s = live_ctx -> m_timer s = None ->
  (m_canceled s = true /\ ((exists o, pending s = [o]) \/ pending s = []) \/ pending s = []) ->
  outcome seen d ->
  let s' := stop_ctx (perform_callback stringify (set_m_result d s)) in
  finished seen s' /\ measure s' = measure s.
Proof.
  intros Hs Ho Hr Hcb Hca Hx Ht Hp Hd. cbv zeta. unfold perform_callback, stop_ctx, live_ctx in *. rq. rewrite Hcb.
  destruct cb eqn:Ecb, own eqn:Eo; rq; rewrite Hx; (split; [|done]);
    unfold finished, steady, done_ctx in *; rq; rewrite ?Hca, ?Ecb, ?Eo, ?Hx; rq; split_and!; tauto || done || congruence.
Qed.

Lemma set_error_outcome seen code msg extra :
  (forall d, is_error d = true -> is_error (extra d) = true) ->
  (forall d, get "id" (extra d) = get "id" d) ->
  outcome seen (extra (set_error base code msg)).
Proof.
  intros H1 H2. left. rewrite H2. split; [|unfold set_error; by autorewrite with json].
  apply H1. unfold is_error, set_error. autorewrite with json. done.
Qed.

Lemma add_error_data_error d name v : is_error (add_error_data d name v) = true.
Proof. unfold is_error, add_error_data. autorewrite with json. done. Qed.

Lemma add_error_data_id d name v : get "id" (add_error_data d name v) = get "id" d.
Proof. unfold add_error_data. by autorewrite with json. Qed.

Lemma steady_close force ev s : steady s -> steady (close conn_pool_ttl force ev s).
Proof. intros (H1 & H2 & H3). split; [done|]. split; [done|]. by apply close_pool. Qed.

Lemma close_none n force ev s : pool_inv n (link s) -> m_pool_obj (link (close conn_pool_ttl force ev s)) = None.
Proof. intros H. by eapply (close_pool conn_pool_ttl). Qed.

Lemma close_measure force ev s : measure (close conn_pool_ttl force ev s) = measure s.
Proof. done. Qed.

(** Every failure leads to the next attempt or to an error answer. *)
Lemma failure e from ev s seen m :
  core s -> (m_rerun s = true \/ (m_canceled s = false /\ failed e = true)) ->
  ((E + 10) * Z.to_nat (N - m_attempt s) < m)%nat ->
  exists s', error_handler stringify conn_pool_ttl e from ev s = (true, s') /\ progress seen m s'.
Proof.
  intros (Hs & Hp & Hcb & Hca & Hre & Hctx) Hf Hm. unfold error_handler.
  assert (negb (m_rerun s) && m_canceled s = false) as -> by by destruct Hf as [-> | [-> _]]; rewrite ?andb_false_r.
  assert (negb (m_rerun s) && negb (failed e) = false) as ->.
  { destruct Hf as [-> | [_ ->]]; [done|]. by rewrite andb_false_r. }
  set (s1 := close _ _ _ _).
  assert (steady s1) as Hs1 by by apply steady_close.
  assert (m_pool_obj (link s1) = None) as Ho by (destruct Hs as (_ & _ & Hl); by apply (close_none others)).
  assert (pending s1 = [] /\ m_timer s1 = None /\ m_rerun s1 = false /\ m_canceled s1 = true /\ m_callback s1 = cb
    /\ called s1 = [] /\ m_result s1 = base /\ m_io_ctx s1 = live_ctx /\ m_attempt s1 = m_attempt s)
    as (P1 & P2 & P3 & P4 & P5 & P6 & P7 & P8 & P9) by by split_and!.
  clearbody s1. destruct Hs1 as (HN & Ha & Hl). rewrite HN. destruct (m_attempt s1 <? N) eqn:Elt; zbool.
  - destruct (execute_waiting (m_callback s1) ev s1) as (Hw & Hat & Hmu);
      [done..|lia|done|by rewrite P5, orb_diag|done|by rewrite P7|done|].
    eexists. split; [done|]. split; [by left|]. eapply Nat.le_lt_trans; [exact Hmu|].
    rewrite P9 in *. replace (Z.to_nat (N - m_attempt s)) with (S (Z.to_nat (N - (m_attempt s + 1)))) in Hm by lia.
    lia.
  - match goal with |- context [set_m_result ?d s1] => set (d0 := d) end.
    destruct (deliver_finished seen d0 s1) as [Hd Hmd]; try done.
    + by left; split; [|right].
    + subst d0. rewrite P7.
      apply (set_error_outcome seen (-32603) _ (fun d => add_error_data (add_error_data d _ _) _ _)).
      * intros. apply add_error_data_error.
      * intros. by rewrite !add_error_data_id.
    + eexists. split; [done|]. split; [right; by right|]. rewrite Hmd.
      unfold measure, armed. rewrite P1, P2, P9. cbn [map list_sum foldr]. lia.
Qed.

(** An operation that fails, in whatever handler. *)
Lemma unless_error_progress e from ev s seen m rest :
  core s -> m_canceled s = m_rerun s -> ((E + 10) * Z.to_nat (N - m_attempt s) < m)%nat ->
  (m_rerun s = false -> progress seen m (rest s)) ->
  progress seen m (unless_error stringify conn_pool_ttl e from ev s rest).
Proof.
  intros Hc Hcr Hm Hrest. unfold unless_error.
  destruct (m_rerun s) eqn:Er; [|destruct (failed e) eqn:Ee].
  - destruct (failure e from ev s seen m Hc) as (s' & -> & Hp); [by left|done..].
  - destruct (failure e from ev s seen m Hc) as (s' & -> & Hp); [by right|done..].
  - unfold error_handler. rewrite Er, Hcr, Ee. cbn [negb andb]. by apply Hrest.
Qed.

(** Starting the next operation of an attempt. *)
Lemma next_operation o s seen m t :
  core s -> m_canceled s = false -> m_rerun s = false -> op_ok o ->
  ((E + 10) * Z.to_nat (N - m_attempt s) + weight o + match t with Some _ => 1 | None => 0 end < m)%nat ->
  progress seen m (start_operation o (set_m_timer t s)).
Proof.
  intros (Hs & Hp & Hcb & Hca & Hre & Hctx) Hc Hr Ho Hm. split.
  - left. split; [done|]. split; [done|]. split; [done|]. split; [|by split_and!].
    exists o. rq. by rewrite Hp.
  - unfold measure, armed. rq. rewrite Hp. cbn [map list_sum foldr app]. lia.
Qed.

Lemma set_m_timer_same s : set_m_timer (m_timer s) s = s.
Proof. by destruct s. Qed.

Lemma next_operation_same o s seen m :
  core s -> m_canceled s = false -> m_rerun s = false -> op_ok o ->
  ((E + 10) * Z.to_nat (N - m_attempt s) + weight o + armed s < m)%nat ->
  progress seen m (start_operation o s).
Proof.
  intros Hc H1 H2 Ho Hm. pose proof (next_operation o s seen m (m_timer s) Hc H1 H2 Ho Hm) as Hn.
  by rewrite set_m_timer_same in Hn.
Qed.

Lemma handle_progress o e eps r ev s seen :
  core s -> m_canceled s = m_rerun s -> (eps <= E)%nat -> r ∈ seen ->
  progress seen ((E + 10) * Z.to_nat (N - m_attempt s) + weight o + armed s)
    (handle parse_json stringify conn_pool_ttl o e eps r ev s).
Proof.
  intros Hc Hcr Heps Hr. destruct o as [a p|k| | |]; cbn [handle];
    unfold on_resolve, on_connect, on_handshake, on_write, on_read; cbn [weight];
    (apply unless_error_progress; [done|done|unfold armed; rq; lia|]); rq; intros Er.
  - apply (next_operation (OpConnect eps)); [done|congruence|done|done|]. cbn [weight]. unfold armed. lia.
  - apply (next_operation (if m_use_ssl s then OpHandshake else OpWrite) (set_m_timer None s));
      [done|by rq; congruence|done|by destruct (m_use_ssl s)|]. rq. destruct (m_use_ssl s); cbn; lia.
  - apply next_operation_same; [done|congruence|done|done|]. cbn [weight]. lia.
  - apply next_operation_same; [done|congruence|done|done|]. cbn [weight]. lia.
  - rewrite default_Some. destruct Hc as (Hs & Hp & Hcb & Hca & Hre & Hctx).
    set (s1 := set_m_timer None (set_m_response (Some r) s)).
    set (s2 := close conn_pool_ttl (negb (keep_alive r)) ev s1).
    assert (steady s2) as Hs2 by by apply steady_close.
    assert (m_pool_obj (link s2) = None) as Ho by (destruct Hs as (_ & _ & Hl); by apply (close_none others)).
    destruct (deliver_finished seen (read_result parse_json r (m_result s2)) s2) as [Hd Hm]; try done.
    + by right.
    + right. exists r. split; [done|]. change (m_result s2) with (m_result s). by rewrite Hre.
    + split; [right; by right|]. eapply Nat.le_lt_trans; [apply Nat.eq_le_incl; exact Hm|].
      unfold measure, armed, s2, s1. rq. rewrite Hp.
      cbn [map list_sum foldr]. lia.
Qed.

(** A request that is finished only clears up. *)
Lemma finished_handle o e eps r ev s seen :
  finished seen s -> m_canceled s = true ->
  let s' := handle parse_json stringify conn_pool_ttl o e eps r ev (set_pending [] s) in
  finished seen s' /\ (measure s' <= (E + 10) * Z.to_nat (N - m_attempt s) + armed s)%nat.
Proof.
  intros (Hs & Hr & Hcb & Hca & Hp & Hd & Ho & Hctx & Ht) Hc. cbv zeta.
  destruct o as [a p|k| | |]; cbn [handle];
    unfold on_resolve, on_connect, on_handshake, on_write, on_read, unless_error, error_handler; rq;
    rewrite Hr, Hc; rq; (split; [unfold finished, steady in *; rq; split_and!; tauto|]);
    unfold measure, armed; rq; cbn [map list_sum foldr]; lia.
Qed.

Lemma expired_progress t ev s seen m :
  waiting s -> m_timer s = None -> (measure s < m)%nat ->
  progress seen m (on_timeout stringify conn_pool_ttl t ev s).
Proof.
  intros (Hs & Hc & Hr & Hp & Hcb & Hca & Hre & Hctx) Ht Hm. unfold on_timeout. rewrite Hc.
  set (s1 := close _ _ _ _). assert (steady s1) as Hs1 by by apply steady_close.
  assert (m_pool_obj (link s1) = None) as Ho by (destruct Hs as (_ & _ & Hl); by apply (close_none others)).
  destruct (m_attempt s1 <? m_attempts_count s1) eqn:Elt; zbool.
  - split; [|done]. right; left. unfold rerunning. rq. split_and!; try done. by destruct Hs as [<- _].
  - destruct (deliver_finished seen (add_error_data (set_error (m_result s1) (-32603) (timeout_message t s1))
      "host" (JStr (m_host s1))) s1) as [Hd Hm2]; try done.
    + left. split; [done|]. left. destruct Hp as (o & Ho' & _). by exists o.
    + change (m_result s1) with (m_result s). rewrite Hre.
      apply (set_error_outcome seen (-32603) _ (fun d => add_error_data d _ _)).
      * intros. apply add_error_data_error.
      * intros. by rewrite add_error_data_id.
    + split; [right; by right|]. rewrite Hm2. done.
Qed.

(** What an event says: the endpoints it brings, and the response. *)
Definition event_ok (a : event) : Prop := match a with Completed _ _ eps _ => (eps <= E)%nat | _ => True end.
Definition received (a : event) : list response := match a with Completed _ _ _ r => [r] | _ => [] end.

Lemma alive_mono seen more s : alive_inv seen s -> alive_inv (seen ++ more) s.
Proof.
  intros [Hw | [Hr | (H1 & H2 & H3 & H4 & H5 & H6 & H7)]]; [by left|by right; left|].
  right; right. split_and!; try done; try tauto. destruct H6 as [?|(r & Hin & ?)]; [by left|].
  right. exists r. split; [|done]. apply elem_of_app. by left.
Qed.

Lemma opened_progress seen i fd ev s s' :
  alive_inv seen s -> step ev (Opened i fd) s = Some s' -> progress seen (measure s) s'.
Proof.
  intros Hi Hs. cbn [HttpRequest.step] in Hs. destruct (pending s !! i) as [o|] eqn:Ei; [|done].
  destruct o as [|[|k]| | |]; try done. apply (inj Some) in Hs as <-.
  assert (pending s = [OpConnect (S k)] /\ i = 0%nat) as [Ep ->].
  { assert (exists o, pending s = [o]) as [o Eo].
    { destruct Hi as [(_ & _ & _ & (o & Ho & _) & _)|[(_ & _ & _ & (o & Ho & _) & _)|(_ & _ & _ & _ & Hp & _)]];
        [by exists o..|]. destruct Hp as [[_ [Hp|Hp]]|Hp]; [done|by rewrite Hp in Ei..]. }
    rewrite Eo in Ei. destruct i; [|done]. rewrite Eo. cbn in Ei. by simplify_eq. }
  rewrite Ep. split.
  - destruct Hi as [Hw|[Hr|Hf]]; [left|right; left|right; right].
    + destruct Hw as (Hst & Hw1 & Hw2 & (o & Ho & Hok) & Hw3). split; [done|]. split_and!; try tauto.
      exists (OpConnect k). split; [done|]. rewrite Ep in Ho. simplify_eq. cbn in *. lia.
    + destruct Hr as (Hst & Hw1 & Hw2 & (o & Ho & Hok) & Hw3). split; [done|]. split_and!; try tauto.
      exists (OpConnect k). split; [done|]. rewrite Ep in Ho. simplify_eq. cbn in *. lia.
    + destruct Hf as (Hst & H1 & H2 & H3 & H4 & H5). split; [done|]. split_and!; try tauto.
      left. rewrite Ep in H4. split; [by destruct H4 as [[? _]|?]|]. left. by eexists.
  - unfold measure, armed. rewrite Ep. rq. cbn. lia.
Qed.

Lemma completed_progress seen i e eps r ev s s' :
  alive_inv seen s -> r ∈ seen -> (eps <= E)%nat -> step ev (Completed i e eps r) s = Some s' ->
  progress seen (measure s) s'.
Proof.
  intros Hi Hr He Hs. cbn [HttpRequest.step] in Hs. destruct (pending s !! i) as [o|] eqn:Ei; [|done].
  destruct (bool_decide (m_io_ctx s = Some true)) eqn:Ectx; [done|]. apply (inj Some) in Hs as <-.
  assert (forall o', pending s = [o'] -> delete i (pending s) = [] /\ o = o' /\
    measure s = ((E + 10) * Z.to_nat (N - m_attempt s) + weight o + armed s)%nat) as Hdel.
  { intros o' Ho. rewrite Ho in Ei. destruct i; [|done]. cbn in Ei. apply (inj Some) in Ei as ->.
    unfold measure. rewrite Ho. cbn. split_and!; [done|done|lia]. }
  destruct Hi as [Hw|[Hw|Hf]].
  - destruct Hw as (Hst & Hw1 & Hw2 & (o' & Ho & Hok) & Hw3 & Hw4 & Hw5 & Hw6).
    destruct (Hdel _ Ho) as (Hd & <- & ->). rewrite Hd.
    apply (handle_progress o e eps r ev (set_pending [] s)); [by split_and!|by rq; congruence|done|done].
  - destruct Hw as (Hst & Hw1 & Hw2 & (o' & Ho & Hok) & Hw0 & Hw3 & Hw4 & Hw5 & Hw6 & Hw7).
    destruct (Hdel _ Ho) as (Hd & <- & ->). rewrite Hd.
    apply (handle_progress o e eps r ev (set_pending [] s)); [by split_and!|by rq; congruence|done|done].
  - destruct Hf as (Hst & H1 & H2 & H3 & H4 & H5) eqn:Hff. clear Hff.
    destruct H4 as [[Hc [[o' Ho]|Hp]]|Hp]; [|by rewrite Hp in Ei..].
    destruct (Hdel _ Ho) as (Hd & <- & ->). rewrite Hd.
    destruct (finished_handle o e eps r ev s seen Hf Hc) as [Hf' Hm].
    split; [right; by right|]. assert (2 <= weight o)%nat by (destruct o; cbn; lia). lia.
Qed.

(** What has arrived of a response changes nothing else. *)
Lemma arrived_alive seen part s :
  alive_inv seen s ->
  alive_inv seen (arrived part s) /\ measure (arrived part s) = measure s /\ m_timer (arrived part s) = m_timer s.
Proof. intros Hi. unfold arrived. by destruct (existsb _ _). Qed.

Lemma step_progress seen ev a s s' :
  alive_inv seen s -> event_ok a -> step ev a s = Some s' -> progress (seen ++ received a) (measure s) s'.
Proof.
  intros Hi Ha Hs. apply (alive_mono _ (received a)) in Hi. destruct a as [i e eps r|i fd|part].
  - eapply completed_progress; [done| |done..]. apply elem_of_app. right. apply list_elem_of_here.
  - by eapply opened_progress.
  - cbn [HttpRequest.step] in Hs. destruct (m_timer s) as [t|] eqn:Et; [|done]. apply (inj Some) in Hs as <-.
    destruct (arrived_alive _ part s Hi) as (Hi' & <- & Et'). rewrite <- Et' in Et. revert Hi' Et.
    generalize (arrived part s). clear s Hi Et'. intros s Hi Et.
    assert (measure (set_m_timer None s) < measure s)%nat as Hm by (unfold measure, armed; rq; rewrite Et; lia).
    destruct Hi as [Hw|[Hw|Hf]].
    + by apply expired_progress.
    + exfalso. destruct Hw as (_ & _ & _ & _ & Ht & _). congruence.
    + exfalso. destruct Hf as (_ & _ & _ & _ & _ & _ & _ & _ & Ht). congruence.
Qed.

Lemma run_progress l s s' seen :
  alive_inv seen s -> Forall (fun x => event_ok x.2) l -> run l s = Some s' ->
  alive_inv (seen ++ concat (map (fun x => received x.2) l)) s' /\ (length l + measure s' <= measure s)%nat.
Proof.
  revert s seen. induction l as [|[ev a] l IH]; intros s seen Hi Hl Hr; cbn [HttpRequest.run] in Hr.
  - injection Hr as <-. cbn. rewrite app_nil_r. split; [done|lia].
  - apply Forall_cons in Hl as [Ha Hl]. destruct (step ev a s) as [s1|] eqn:Es; [|done].
    destruct (step_progress seen ev a s s1 Hi Ha Es) as [Hi1 Hm].
    destruct (IH s1 _ Hi1 Hl Hr) as [Hi2 Hm2]. cbn [map concat length snd]. rewrite app_assoc.
    split; [done|lia].
Qed.
End Facts.

(** ** Theorems *)

Section Theorems.
Context {parse_json : bytes -> option json} {stringify : json -> bytes} {conn_pool_ttl : Z}.

(** settings::system::jrpc_timeout, jrpc_conn_timeout and jrpc_attempts_count. *)
Record jrpc_settings := { s_timeout : Z; s_conn_timeout : Z; s_attempts : Z }.

(** A request as its users prepare it: constructed with the settings, then given
    its path and body. *)
Definition prepared (own_ctx : bool) (host path body : bytes) (js : jrpc_settings) (p : pool) (ev : env) : request :=
  set_body parse_json conn_pool_ttl body ev
    (set_path path (http_json_rpc_request_new host own_ctx (-1) (-1) (-1) (s_timeout js) (s_conn_timeout js) (s_attempts js) p)).

(** The answer before anything arrived: the version and the id. *)
Definition empty_answer (r : request) : json := reset (m_result r).

Lemma prepared_spec own host path body js p ev :
  wf p ->
  let r := prepared own host path body js p ev in
  pending r = [] /\ m_timer r = None /\ pool_inv (get_busy_size p) (link r) /\ m_pool_obj (link r) = None /\
  m_attempts_count r = s_attempts js /\ m_attempt r = 0 /\ m_rerun r = false /\
  m_callback r = false /\ called r = [] /\ m_io_ctx r = (if own then Some false else None) /\
  the_pool (link r) = p /\ m_host r = host.
Proof.
  intros Hwf. unfold prepared, set_body. destruct (parse_json body) as [doc|]; [destruct (get_id doc)|]; by split_and!.
Qed.

Lemma prepared_alive own cb host path body js p ev l s (E : nat) :
  wf p -> 0 <= s_attempts js <= UINT32_MAX -> Forall (fun x => event_ok (E := E) x.2) l ->
  let r := prepared own host path body js p ev in
  run parse_json stringify conn_pool_ttl l (execute cb ev r) = Some s ->
  let N := s_attempts js in
  alive_inv (parse_json := parse_json) (stringify := stringify) (N := N) (base := empty_answer r) (cb := cb) (own := own)
    (others := get_busy_size p) (E := E) (concat (map (fun x => received x.2) l)) s /\
  (length l <= (E + 10) * Z.to_nat (Z.max 1 N))%nat.
Proof.
  intros Hwf Ha Hl r Hr N.
  destruct (prepared_spec own host path body js p ev Hwf) as (H1 & H2 & H3 & H4 & H5 & H6 & H7 & H8 & H9 & H10 & _).
  fold r in H1, H2, H3, H4, H5, H6, H7, H8, H9, H10.
  assert (reset (empty_answer r) = empty_answer r) as Hb by done.
  destruct (execute_waiting (N := N) (base := empty_answer r) (cb := cb) (own := own) (others := get_busy_size p) (E := E)
    ltac:(lia) cb ev r) as (Hw & Hat & Hm); try done.
  { lia. }
  { by rewrite H8, orb_false_r. }
  destruct (run_progress (parse_json := parse_json) (stringify := stringify) (conn_pool_ttl := conn_pool_ttl)
    (N := N) (base := empty_answer r) (cb := cb) (own := own) (others := get_busy_size p) (E := E) ltac:(lia) Hb l (execute cb ev r) s []) as [Hi Hlen]; try done.
  { by left. }
  split; [done|]. rewrite H6 in Hm. replace (Z.to_nat (Z.max 1 N)) with (S (Z.to_nat (N - (0 + 1)))) by lia. lia.
Qed.

(** Every call is answered, and once.  Whatever the network and the timer do,
    in whatever order, an asynchronous request lives for at most [(E + 10)]
    events per attempt, [E] being the endpoints of its host; it never calls its
    callback twice, and when nothing is outstanding any more it has called it. *)
Theorem request_answered_once host path body js p ev l s (E : nat) :
  wf p -> 0 <= s_attempts js <= UINT32_MAX -> Forall (fun x => event_ok (E := E) x.2) l ->
  let N := Z.max 1 (s_attempts js) in
  run parse_json stringify conn_pool_ttl l (execute true ev (prepared false host path body js p ev)) = Some s ->
  (length l <= (E + 10) * Z.to_nat N)%nat /\ (length (called s) <= 1)%nat /\
  (pending s = [] -> length (called s) = 1%nat) /\ m_attempt s <= N.
Proof.
  intros Hwf Ha Hl N Hr. destruct (prepared_alive false true host path body js p ev l s E Hwf Ha Hl Hr) as [Hi Hlen].
  split; [done|].
  assert (m_attempt s <= N).
  { assert (forall s, steady (N := s_attempts js) (others := get_busy_size p) s -> m_attempt s <= N) as Hst
      by (intros x (_ & Hx & _); lia).
    destruct Hi as [(Hs & _)|[(Hs & _)|(Hs & _)]]; by apply Hst. }
  destruct Hi as [(_ & _ & _ & (o & Ho & _) & _ & Hc & _)|[(_ & _ & _ & (o & Ho & _) & _ & _ & Hc & _)|Hf]].
  - rewrite Hc, Ho. split_and!; (done || cbn; lia).
  - rewrite Hc, Ho. split_and!; (done || cbn; lia).
  - destruct Hf as (_ & _ & _ & Hc & _). rewrite Hc. done.
Qed.

(** What the callback finds.  When it is called, get_result is the text of an
    error document with the id of the request, or what a response that the node
    sent holds: its JSON body, or the empty answer, with an error when the HTTP
    status was not 200, if the body is no JSON. *)
Theorem request_answer host path body js p ev l s text (E : nat) :
  wf p -> 0 <= s_attempts js <= UINT32_MAX -> Forall (fun x => event_ok (E := E) x.2) l ->
  let r := prepared false host path body js p ev in
  run parse_json stringify conn_pool_ttl l (execute true ev r) = Some s ->
  text ∈ called s ->
  exists d, text = stringify d /\
    ((is_error d = true /\ get "id" d = get "id" (empty_answer r)) \/
     exists x rsp, x ∈ l /\ rsp ∈ received x.2 /\ d = read_result parse_json rsp (empty_answer r)).
Proof.
  intros Hwf Ha Hl r Hr Ht. destruct (prepared_alive false true host path body js p ev l s E Hwf Ha Hl Hr) as [Hi _].
  fold r in Hi. destruct Hi as [(_ & _ & _ & _ & _ & Hc & _)|[(_ & _ & _ & _ & _ & _ & Hc & _)|Hf]];
    [by rewrite Hc in Ht; apply not_elem_of_nil in Ht..|].
  destruct Hf as (_ & _ & _ & Hc & _ & Hd & _). rewrite Hc in Ht. apply list_elem_of_singleton in Ht as ->.
  eexists. split; [done|]. destruct Hd as [?|(rsp & Hin & ->)]; [by left|]. right.
  rewrite list_elem_of_In, in_concat in Hin. destruct Hin as (y & Hy & Hin).
  apply in_map_iff in Hy as (x & <- & Hx). exists x, rsp.
  split; [by apply list_elem_of_In|]. split; [by apply list_elem_of_In|done].
Qed.

(** No connection is lost.  At every moment the pool's invariant holds and the
    pool has one more object in use than before at most, the one of the request;
    when the callback has been called the object is back. *)
Theorem connection_returned host path body js p ev l s (E : nat) :
  wf p -> 0 <= s_attempts js <= UINT32_MAX -> Forall (fun x => event_ok (E := E) x.2) l ->
  run parse_json stringify conn_pool_ttl l (execute true ev (prepared false host path body js p ev)) = Some s ->
  wf (the_pool (link s)) /\
  get_busy_size (the_pool (link s)) = get_busy_size p + (if valid (m_pool_obj (link s)) then 1 else 0) /\
  (called s <> [] -> m_pool_obj (link s) = None /\ get_busy_size (the_pool (link s)) = get_busy_size p).
Proof.
  intros Hwf Ha Hl Hr. destruct (prepared_alive false true host path body js p ev l s E Hwf Ha Hl Hr) as [Hi _].
  assert (pool_inv (get_busy_size p) (link s)) as [Hw Ho].
  { destruct Hi as [((_ & _ & H) & _)|[((_ & _ & H) & _)|((_ & _ & H) & _)]]; done. }
  split; [done|]. unfold valid. split.
  { destruct (m_pool_obj (link s)) as [id|]; [|by rewrite bool_decide_eq_false_2 by auto; lia].
    rewrite bool_decide_eq_true_2 by done. by destruct Ho as (_ & _ & ->). }
  intros Hc. destruct Hi as [(_ & _ & _ & _ & _ & Hx & _)|[(_ & _ & _ & _ & _ & _ & Hx & _)|Hf]]; [done..|].
  destruct Hf as (_ & _ & _ & _ & _ & _ & Hn & _). rewrite Hn in Ho. done.
Qed.

(** A synchronous call returns.  While the object's own context is not stopped
    an operation is outstanding, whose completion the context waits for, and
    after at most [(E + 10)] events per attempt it is stopped; the result is
    then an error with the id of the request or what a response holds. *)
Theorem synchronous_call_returns host path body js p ev l s (E : nat) :
  wf p -> 0 <= s_attempts js <= UINT32_MAX -> Forall (fun x => event_ok (E := E) x.2) l ->
  let r := prepared true host path body js p ev in
  let N := Z.max 1 (s_attempts js) in
  run parse_json stringify conn_pool_ttl l (execute false ev r) = Some s ->
  (length l <= (E + 10) * Z.to_nat N)%nat /\
  (m_io_ctx s = Some false -> exists o, pending s = [o]) /\
  (m_io_ctx s <> Some false ->
   (is_error (m_result s) = true /\ get "id" (m_result s) = get "id" (empty_answer r)) \/
   exists rsp, rsp ∈ concat (map (fun x => received x.2) l) /\ m_result s = read_result parse_json rsp (empty_answer r)).
Proof.
  intros Hwf Ha Hl r N Hr. destruct (prepared_alive true false host path body js p ev l s E Hwf Ha Hl Hr) as [Hi Hlen].
  split; [done|]. fold r in Hi.
  destruct Hi as [(_ & _ & _ & (o & Ho & _) & _ & _ & _ & Hx)|[(_ & _ & _ & (o & Ho & _) & _ & _ & _ & _ & Hx & _)|Hf]].
  - unfold live_ctx in Hx. split; [intros _; by exists o|]. by rewrite Hx.
  - unfold live_ctx in Hx. split; [intros _; by exists o|]. by rewrite Hx.
  - destruct Hf as (_ & _ & _ & _ & _ & Hd & _ & Hx & _). unfold done_ctx in Hx. rewrite Hx. split; [done|]. by intros _.
Qed.

(** A connection that goes back with an open handle is the first idle one. *)
Lemma extract_node busy id f d :
  NoDup (nodes busy) -> d ∈ busy -> node d = id -> (forall x, node (f x) = node x) ->
  exists rest, extract (fun x => bool_decide (Some (node x) = Some id)) (map f busy) = Some (f d, rest).
Proof.
  intros Hnd Hd <- Hf. induction busy as [|x busy IH]; [by apply not_elem_of_nil in Hd|]. cbn [map extract].
  apply NoDup_cons in Hnd as [Hx Hnd]. destruct (decide (node x = node d)) as [Ex|Ex].
  - rewrite bool_decide_eq_true_2 by (rewrite Hf; congruence).
    apply elem_of_cons in Hd as [->|Hd]; [by eexists|]. exfalso. apply Hx. rewrite Ex.
    by apply list_elem_of_fmap_2.
  - rewrite bool_decide_eq_false_2 by (rewrite Hf; congruence).
    apply elem_of_cons in Hd as [->|Hd]; [done|]. destruct (IH Hnd Hd) as [rest ->]. by eexists.
Qed.

Lemma close_ready (ssl force : bool) t l id d fd :
  m_pool_obj l = Some id -> wf (the_pool l) -> enable (the_pool l) = true -> d ∈ m_busy (the_pool l) -> node d = id ->
  fd = (if ssl then m_ssl_socket l else if force then -1 else m_socket l) -> fd <> -1 ->
  let p := the_pool (close_links conn_pool_ttl ssl force t l) in
  enable p = true /\ exists rest,
    m_ready p = {| node := id; ep := ep d; socket := fd; ttl := t + conn_pool_ttl * second |} :: rest.
Proof.
  intros Ho Hwf He Hd Hid Hfd Hne. cbv zeta. unfold close_links. rewrite Ho, He. rewrite <- Hfd.
  unfold checkin, set_socket. rq. cbn [with_lists m_busy m_ready].
  match goal with |- context [map ?g (m_busy _)] => set (f := g) end.
  destruct (extract_node (m_busy (the_pool l)) id f d) as [rest ->]; [|done|done| |].
  - destruct Hwf as [Hn _ _ _]. by apply NoDup_app in Hn as [? _].
  - intros x. unfold f. by case_bool_decide.
  - unfold f. rewrite bool_decide_eq_true_2 by done. cbn [socket node ep]. ztest. rewrite Hid.
    cbn. split; [done|]. by eexists.
Qed.

(** A request that finds an idle connection to its host writes to it. *)
Lemma execute_pooled cb host path body js p ev d rest :
  wf p -> enable p = true -> m_ready p = d :: rest -> ep d = host -> alive ev (socket d) = true ->
  let ssl := na_use_ssl (parse_address host [] [] false) in
  let s := execute cb ev (prepared false host path body js p ev) in
  pending s = [OpWrite] /\ connection_close (m_req s) = false /\ m_timer s = Some TimeoutRequest /\
  (if ssl then m_ssl_socket (link s) else m_socket (link s)) = socket d.
Proof.
  intros Hwf He Hr Hep Hal ssl s.
  assert (forall r : request, link r = {| m_socket := -1; m_ssl_socket := -1; m_pool_obj := None; the_pool := p |} ->
    m_host r = host -> m_use_ssl r = ssl -> m_io_ctx r = None -> pending r = [] ->
    let s := execute cb ev r in
    pending s = [OpWrite] /\ connection_close (m_req s) = false /\ m_timer s = Some TimeoutRequest /\
    (if ssl then m_ssl_socket (link s) else m_socket (link s)) = socket d) as Hx.
  { intros r Hl Hh Hs Hc Hp. assert (socket d <> -1) as Hne.
    { destruct Hwf as [_ _ _ Hlive]. rewrite Hr in Hlive. by apply Forall_cons in Hlive as [? _]. }
    cbv zeta. unfold execute, connect. set (r1 := begin_attempt cb r).
    assert (link r1 = link r /\ m_host r1 = host /\ m_use_ssl r1 = ssl /\ pending r1 = [] /\
      connection_close (m_req r1) = false) as (E1 & E2 & E3 & E4 & E5)
      by (unfold r1, begin_attempt; rq; rewrite Hc; by destruct cb).
    clearbody r1. rewrite E1, E2, Hl. rq. rewrite He. unfold checkout. unfold enable in He. rewrite He, Hr.
    cbn [negb extract]. rewrite bool_decide_eq_true_2 by done. unfold object_socket.
    cbn [with_lists m_busy list_find]. rewrite decide_True by done. ztest.
    unfold reuse. rq. rewrite E3. unfold assign_ok.
    assert (((if ssl then -1 else -1) =? -1) = true) as -> by by destruct ssl.
    rewrite Hal. cbn [andb]. rq. rewrite E4. split_and!; try done. by destruct ssl. }
  apply Hx; unfold prepared, set_body; (destruct (parse_json body) as [doc|]; [destruct (get_id doc)|]); try done;
    unfold jrpc_caught, http_json_rpc_request_new, set_path; rq; unfold ssl;
    (case_bool_decide as E0; [by rewrite E0|done]).
Qed.

Lemma reuse_after_close (force : bool) l id d fd t cb host path body js ev :
  let ssl := na_use_ssl (parse_address host [] [] false) in
  m_pool_obj l = Some id -> wf (the_pool l) -> enable (the_pool l) = true ->
  d ∈ m_busy (the_pool l) -> node d = id -> ep d = host ->
  fd = (if ssl then m_ssl_socket l else if force then -1 else m_socket l) -> fd <> -1 -> alive ev fd = true ->
  let p := the_pool (close_links conn_pool_ttl ssl force t l) in
  let s := execute cb ev (prepared false host path body js p ev) in
  pending s = [OpWrite] /\ connection_close (m_req s) = false /\
  (if ssl then m_ssl_socket (link s) else m_socket (link s)) = fd.
Proof.
  intros ssl Ho Hwf He Hd Hid Hep Hfd Hne Hal p s.
  destruct (close_ready ssl force t l id d fd) as [Hep' [rest Hr]]; [done..|].
  destruct (execute_pooled cb host path body js p ev
    {| node := id; ep := ep d; socket := fd; ttl := t + conn_pool_ttl * second |} rest) as (E1 & E2 & _ & E3);
    [|done..].
  eapply (close_pool conn_pool_ttl (get_busy_size (the_pool l) - 1)). split; [done|]. rewrite Ho.
  split; [|split; [done|lia]]. subst id. by apply list_elem_of_fmap_2.
Qed.

(** A plain connection that the node keeps alive is used again: when it went
    back to the pool, the next request to the same host that finds it alive
    writes to it at once, without resolving or connecting. *)
Theorem connection_reused l id d t cb host path body js ev :
  m_pool_obj l = Some id -> wf (the_pool l) -> enable (the_pool l) = true ->
  d ∈ m_busy (the_pool l) -> node d = id -> ep d = host ->
  m_socket l <> -1 -> alive ev (m_socket l) = true -> na_use_ssl (parse_address host [] [] false) = false ->
  let p := the_pool (close_links conn_pool_ttl false false t l) in
  let s := execute cb ev (prepared false host path body js p ev) in
  pending s = [OpWrite] /\ m_socket (link s) = m_socket l /\ connection_close (m_req s) = false.
Proof.
  intros Ho Hwf He Hd Hid Hep Hne Hal Hssl p s.
  pose proof (reuse_after_close false l id d (m_socket l) t cb host path body js ev) as H.
  cbv zeta in H. rewrite Hssl in H. by destruct H as (? & ? & ?).
Qed.

(** A TLS connection goes to the pool even when it is closed by force, because
    only the plain socket is closed then, and the next request to the host writes
    to it without a handshake, although its TLS stream is a new one. *)
Theorem tls_connection_without_handshake force l id d t cb host path body js ev :
  m_pool_obj l = Some id -> wf (the_pool l) -> enable (the_pool l) = true ->
  d ∈ m_busy (the_pool l) -> node d = id -> ep d = host ->
  m_ssl_socket l <> -1 -> alive ev (m_ssl_socket l) = true -> na_use_ssl (parse_address host [] [] false) = true ->
  let p := the_pool (close_links conn_pool_ttl true force t l) in
  let s := execute cb ev (prepared false host path body js p ev) in
  pending s = [OpWrite] /\ m_ssl_socket (link s) = m_ssl_socket l.
Proof.
  intros Ho Hwf He Hd Hid Hep Hne Hal Hssl p s.
  pose proof (reuse_after_close force l id d (m_ssl_socket l) t cb host path body js ev) as H.
  cbv zeta in H. rewrite Hssl in H. by destruct H as (? & ? & ?).
Qed.

Lemma connect_adds ev s : exists o, pending (connect ev s) = pending s ++ [o] /\ frame s (connect ev s).
Proof.
  unfold connect. destruct (enable _); [|by eexists; split; [|split_and!]].
  destruct (checkout _ _) as [[id|] p]; [|by eexists; split; [|split_and!]].
  destruct (_ =? -1); [by eexists; split; [|split_and!]|].
  unfold reuse. destruct (assign_ok _ _ _); by eexists; split; [|split_and!].
Qed.

(** Without an attempt left, a failure ends in an error answer. *)
Lemma last_failure err from ev s rest :
  m_canceled s = false -> m_rerun s = false -> m_attempts_count s <= m_attempt s ->
  let s' := unless_error stringify conn_pool_ttl (Some err) from ev s rest in
  is_error (m_result s') = true /\ pending s' = pending s /\
  m_io_ctx s' = match m_io_ctx s with Some _ => Some true | None => None end.
Proof.
  intros H1 H2 H3. cbv zeta. unfold unless_error, error_handler. rewrite H1, H2. cbn [negb andb failed].
  set (s1 := close _ _ _ _). change (m_attempt s1) with (m_attempt s).
  change (m_attempts_count s1) with (m_attempts_count s). ztest.
  set (d := add_error_data _ "host" _). assert (is_error d = true) as Hd by apply add_error_data_error.
  clearbody d. unfold perform_callback, stop_ctx. subst s1. rq.
  destruct (m_callback s), (m_io_ctx s) eqn:Ex; rq; by rewrite ?Ex.
Qed.

Lemma last_handle o err eps r ev s :
  m_canceled s = false -> m_rerun s = false -> m_attempts_count s <= m_attempt s ->
  let s' := handle parse_json stringify conn_pool_ttl o (Some err) eps r ev s in
  is_error (m_result s') = true /\ pending s' = pending s /\
  m_io_ctx s' = match m_io_ctx s with Some _ => Some true | None => None end.
Proof. intros H1 H2 H3. destruct o; by apply last_failure. Qed.

Lemma restart_attempt s :
  m_io_ctx s = Some true ->
  let r := begin_attempt false (reset_attempts s) in
  pending r = pending s /\ m_io_ctx r = Some false /\ m_canceled r = false /\ m_rerun r = m_rerun s /\
  m_attempts_count r = m_attempts_count s /\ m_attempt r = 1 /\ m_callback r = m_callback s.
Proof.
  intros Hx. cbv zeta. unfold begin_attempt, reset_attempts. rq. rewrite Hx.
  change (u32 (0 + 1)) with 1. cbn [Z.eqb Pos.eqb]. rq. done.
Qed.

(** The object that is used again, its old operation still queued. *)
Lemma reused_pending s o ev0 :
  m_io_ctx s = Some true -> pending s = [o] ->
  exists o', let c := execute false ev0 (reset_attempts s) in
    pending c = [o; o'] /\ m_io_ctx c = Some false /\ m_canceled c = false /\ m_rerun c = m_rerun s /\
    m_attempts_count c = m_attempts_count s /\ m_attempt c = 1 /\ m_callback c = m_callback s.
Proof.
  intros Hx Hp.
  assert (execute false ev0 (reset_attempts s) = connect ev0 (begin_attempt false (reset_attempts s))) as -> by done.
  generalize (restart_attempt s Hx). cbv zeta. generalize (begin_attempt false (reset_attempts s)) as r1.
  intros r1 (R1 & R2 & R3 & R4 & R5 & R6 & R7).
  destruct (connect_adds ev0 r1) as (o' & Hpend & (F1 & F2 & F3 & F4 & F5 & _ & _ & F8)).
  rewrite R1, Hp in Hpend. cbn [app] in Hpend. exists o'. split_and!; congruence.
Qed.

(** A completion that a stopped context has not handled spoils the next call.
    A synchronous request that is used again after its last time-out, its
    operation still queued, and that is allowed one attempt, fails with the old
    operation's error and stops its context, while the operation of the new
    attempt has only been started. *)
Theorem stale_completion_fails_next_call s o err eps r ev0 ev s' :
  m_attempts_count s = 1 -> m_io_ctx s = Some true -> pending s = [o] -> m_rerun s = false ->
  m_callback s = false ->
  step parse_json stringify conn_pool_ttl ev (Completed 0 (Some err) eps r) (execute false ev0 (reset_attempts s)) = Some s' ->
  is_error (m_result s') = true /\ m_io_ctx s' = Some true /\ exists o', pending s' = [o'].
Proof.
  intros Hn Hx Hp Hr Hcb. destruct (reused_pending s o ev0 Hx Hp) as (o' & R). cbv zeta in R. revert R.
  generalize (execute false ev0 (reset_attempts s)) as c. intros c (R1 & R2 & R3 & R4 & R5 & R6 & R7).
  cbn [step]. rewrite R1. cbn [lookup list_lookup].
  destruct (bool_decide _); [done|]. intros Hs%(inj Some). rewrite <- Hs.
  destruct (last_handle o err eps r ev (set_pending (delete 0%nat [o; o']) c)) as (-> & -> & ->);
    [rq; congruence || lia..|]. rq. rewrite R2. split; [done|]. split; [done|]. by exists o'.
Qed.

(** With an attempt left, a failure starts the next one beside what is outstanding. *)
Lemma next_failure err from ev s rest :
  m_canceled s = false -> m_rerun s = false -> m_attempt s < m_attempts_count s -> m_attempt s = 1 -> m_io_ctx s = Some false ->
  let s' := unless_error stringify conn_pool_ttl (Some err) from ev s rest in
  m_attempt s' = 2 /\ m_io_ctx s' = Some false /\ exists o, pending s' = pending s ++ [o].
Proof.
  intros H1 H2 H3 H4 H5. cbv zeta. unfold unless_error, error_handler. rewrite H1, H2. cbn [negb andb failed].
  set (s1 := close _ _ _ _). change (m_attempt s1) with (m_attempt s). change (m_attempts_count s1) with (m_attempts_count s).
  rewrite (proj2 (Z.ltb_lt _ _)) by lia. unfold execute.
  destruct (connect_adds ev (begin_attempt (m_callback s1) s1)) as (o & -> & (F1 & _ & _ & _ & _ & _ & _ & F8)). rewrite F1, F8.
  assert (m_attempt s1 = 1 /\ m_io_ctx s1 = Some false /\ pending s1 = pending s) as (E1 & E2 & <-) by done.
  clearbody s1. unfold begin_attempt. rq. rewrite E1. change (u32 (1 + 1)) with 2. rewrite E2.
  destruct (m_callback s1); rq; split_and!; try done; by exists o.
Qed.

(** With more than one attempt allowed, as by default, the old operation's error
    starts the second attempt of the new call while the operation of the first is
    still outstanding: two operations at once work on the sockets, the buffer and
    the response of the object. *)
Theorem stale_completion_doubles_next_call s o err eps r ev0 ev s' :
  2 <= m_attempts_count s -> m_io_ctx s = Some true -> pending s = [o] -> m_rerun s = false ->
  step parse_json stringify conn_pool_ttl ev (Completed 0 (Some err) eps r) (execute false ev0 (reset_attempts s)) = Some s' ->
  m_attempt s' = 2 /\ m_io_ctx s' = Some false /\ exists o1 o2, pending s' = [o1; o2].
Proof.
  intros Hn Hx Hp Hr. destruct (reused_pending s o ev0 Hx Hp) as (o' & R). cbv zeta in R. revert R.
  generalize (execute false ev0 (reset_attempts s)) as c. intros c (R1 & R2 & R3 & R4 & R5 & R6 & R7).
  cbn [step]. rewrite R1. cbn [lookup list_lookup].
  destruct (bool_decide _); [done|]. intros Hs%(inj Some). rewrite <- Hs. clear Hs s'.
  assert (exists x from rest, handle parse_json stringify conn_pool_ttl o (Some err) eps r ev (set_pending (delete 0%nat [o; o']) c) =
    unless_error stringify conn_pool_ttl (Some err) from ev x rest /\ m_canceled x = false /\ m_rerun x = false /\
    m_attempt x < m_attempts_count x /\ m_attempt x = 1 /\ m_io_ctx x = Some false /\ pending x = [o'])
    as (x & from & rest & -> & X1 & X2 & X3 & X4 & X5 & X6).
  { destruct o; eexists _, _, _; (split; [reflexivity|]); rq; split_and!; (congruence || lia || done). }
  destruct (next_failure err from ev x rest X1 X2 X3 X4 X5) as (-> & -> & o2 & ->). rewrite X6. by eauto.
Qed.
End Theorems.

(** ** Witnesses *)

Module Sample.
Definition parse (s : bytes) : option json :=
  if bool_decide (s = str "R") then Some (JObj [(str "result", JInt 1)]) else None.
Definition print (d : json) : bytes := if is_error d then str "error" else str "fine".
Definition js0 : jrpc_settings := {| s_timeout := 60000; s_conn_timeout := 1000; s_attempts := 2 |}.
Definition pool0 : pool := set_enable (start 2) true.
Definition ev0 : env := {| now := 0; alive _ := true |}.
Definition answer (body : bytes) : response :=
  {| rsp_status := 200; rsp_version := 11; rsp_connection := None; rsp_keep_alive := true; rsp_body := body |}.
Definition none : response := answer [].

(** A first attempt that times out while it reads, and a second that succeeds. *)
Definition events : list (env * event) := map (fun a => (ev0, a))
  [Completed 0 None 1 none; Opened 0 5; Completed 0 None 0 none; Completed 0 None 0 none; Expired none;
   Completed 0 (Some (125, str "Operation canceled")) 0 none;
   Completed 0 None 1 none; Opened 0 6; Completed 0 None 0 none; Completed 0 None 0 none;
   Completed 0 None 0 (answer (str "R"))].

Definition host0 : bytes := str "http://127.0.0.1:5795".
Definition request0 (own cb : bool) : request :=
  execute cb ev0 (prepared (parse_json := parse) (conn_pool_ttl := 60) own host0 (str "get-count-blocks")
    (str "body") js0 pool0 ev0).
Definition end0 (own cb : bool) : request :=
  default (request0 own cb) (run parse print 60 events (request0 own cb)).

Lemma pool0_wf : wf pool0.
Proof. destruct (wf_init 2) as [H1 H2 H3 H4]; [lia|]. by split. Defined.

Lemma events_ok : Forall (fun x => event_ok (E := 1) x.2) events.
Proof. repeat constructor. Defined.

Lemma request_answered_once_witness :
  run parse print 60 events (request0 false true) = Some (end0 false true) /\
  called (end0 false true) = [str "fine"] /\ (11 <= 11 * Z.to_nat 2)%nat /\
  (pending (end0 false true) = [] -> length (called (end0 false true)) = 1%nat).
Proof.
  split; [vm_compute; reflexivity|]. split; [vm_compute; reflexivity|].
  destruct (request_answered_once (parse_json := parse) (stringify := print) (conn_pool_ttl := 60)
    host0 (str "get-count-blocks") (str "body") js0 pool0 ev0 events (end0 false true) 1)
    as (H1 & _ & H3 & _); [exact pool0_wf | by vm_compute | exact events_ok | vm_compute; reflexivity | exact (conj H1 H3)].
Defined.

Lemma request_answer_witness :
  exists d, str "fine" = print d /\
    ((is_error d = true /\ get "id" d = Some JNull) \/
     exists x rsp, x ∈ events /\ rsp ∈ received x.2 /\
       d = read_result parse rsp (JObj [(str "jsonrpc", JStr (str "2.0")); (str "id", JNull)])).
Proof.
  apply (request_answer (parse_json := parse) (stringify := print) (conn_pool_ttl := 60)
    host0 (str "get-count-blocks") (str "body") js0 pool0 ev0 events (end0 false true) (str "fine") 1);
    [exact pool0_wf | by vm_compute | exact events_ok | vm_compute; reflexivity |].
  assert (called (end0 false true) = [str "fine"]) as -> by (vm_compute; reflexivity). apply list_elem_of_here.
Defined.

Lemma connection_returned_witness :
  m_pool_obj (link (end0 false true)) = None /\ get_busy_size (the_pool (link (end0 false true))) = 0.
Proof.
  apply (connection_returned (parse_json := parse) (stringify := print) (conn_pool_ttl := 60)
    host0 (str "get-count-blocks") (str "body") js0 pool0 ev0 events (end0 false true) 1);
    [exact pool0_wf | by vm_compute | exact events_ok | vm_compute; reflexivity | vm_compute; discriminate].
Defined.

Lemma synchronous_call_returns_witness :
  m_io_ctx (end0 true false) = Some true /\
  ((is_error (m_result (end0 true false)) = true /\ get "id" (m_result (end0 true false)) = Some JNull) \/
   exists rsp, rsp ∈ concat (map (fun x => received x.2) events) /\
     m_result (end0 true false) = read_result parse rsp (JObj [(str "jsonrpc", JStr (str "2.0")); (str "id", JNull)])).
Proof.
  split; [vm_compute; reflexivity|].
  refine (proj2 (proj2 (synchronous_call_returns (parse_json := parse) (stringify := print) (conn_pool_ttl := 60)
    host0 (str "get-count-blocks") (str "body") js0 pool0 ev0 events (end0 true false) 1 _ _ _ _)) _);
    [exact pool0_wf | by vm_compute | exact events_ok | vm_compute; reflexivity | vm_compute; discriminate].
Defined.

(** A connection to the host in use, with handle 5. *)
Definition d5 (host : bytes) : ep_descr := {| node := 0; ep := host; socket := -1; ttl := 0 |}.
Definition link5 (host : bytes) : links :=
  {| m_socket := 5; m_ssl_socket := 5; m_pool_obj := Some 0%nat; the_pool := (checkout pool0 host).2 |}.

Lemma connection_reused_witness :
  let p := the_pool (close_links 60 false false 0 (link5 host0)) in
  let s := execute true ev0 (prepared (parse_json := parse) (conn_pool_ttl := 60) false host0 (str "p") (str "b") js0 p ev0) in
  pending s = [OpWrite] /\ m_socket (link s) = 5 /\ connection_close (m_req s) = false.
Proof.
  apply (connection_reused (parse_json := parse) (conn_pool_ttl := 60) (link5 host0) 0 (d5 host0) 0 true host0
    (str "p") (str "b") js0 ev0);
    [reflexivity | exact (checkout_wf _ _ pool0_wf) | reflexivity | apply list_elem_of_here | reflexivity..
    | discriminate | reflexivity | reflexivity].
Defined.

Definition tls_host : bytes := str "https://127.0.0.1:5795".

Lemma tls_connection_without_handshake_witness :
  let p := the_pool (close_links 60 true true 0 (link5 tls_host)) in
  let s := execute true ev0 (prepared (parse_json := parse) (conn_pool_ttl := 60) false tls_host (str "p") (str "b") js0 p ev0) in
  pending s = [OpWrite] /\ m_ssl_socket (link s) = 5.
Proof.
  apply (tls_connection_without_handshake (parse_json := parse) (conn_pool_ttl := 60) true (link5 tls_host) 0
    (d5 tls_host) 0 true tls_host (str "p") (str "b") js0 ev0);
    [reflexivity | exact (checkout_wf _ _ pool0_wf) | reflexivity | apply list_elem_of_here | reflexivity..
    | discriminate | reflexivity | reflexivity].
Defined.

Definition js1 : jrpc_settings := {| s_timeout := 60000; s_conn_timeout := 1000; s_attempts := 1 |}.
(** A synchronous request with one attempt, whose time ran out while it read. *)
Definition expired : request :=
  let r := execute false ev0 (prepared (parse_json := parse) (conn_pool_ttl := 60) true host0 (str "p") (str "b") js1 pool0 ev0) in
  default r (run parse print 60 (take 5 events) r).
Definition aborted : event := Completed 0 (Some (125, str "Operation canceled")) 0 none.

Lemma stale_completion_fails_next_call_witness :
  let again := execute false ev0 (reset_attempts expired) in
  let s' := default again (step parse print 60 ev0 aborted again) in
  is_error (m_result s') = true /\ m_io_ctx s' = Some true /\ exists o', pending s' = [o'].
Proof.
  apply (stale_completion_fails_next_call (parse_json := parse) (stringify := print) (conn_pool_ttl := 60)
    expired OpRead (125, str "Operation canceled") 0 none ev0 ev0); vm_compute; reflexivity.
Defined.

(** The default of two attempts, both of which ran out of time. *)
Definition twice_expired : request :=
  let r := execute false ev0 (prepared (parse_json := parse) (conn_pool_ttl := 60) true host0 (str "p") (str "b") js0 pool0 ev0) in
  default r (run parse print 60 (take 10 events ++ [(ev0, Expired none)]) r).

Lemma stale_completion_doubles_next_call_witness :
  let again := execute false ev0 (reset_attempts twice_expired) in
  let s' := default again (step parse print 60 ev0 aborted again) in
  m_attempt s' = 2 /\ m_io_ctx s' = Some false /\ exists o1 o2, pending s' = [o1; o2].
Proof.
  apply (stale_completion_doubles_next_call (parse_json := parse) (stringify := print) (conn_pool_ttl := 60)
    twice_expired OpRead (125, str "Operation canceled") 0 none ev0 ev0); vm_compute; (reflexivity || discriminate).
Defined.
End Sample.
