(* ===== verification/SyncCall.v ===== *)
(** The synchronous calls of the workers: one [http_json_rpc_request] with its own
    io_context, used for one call after the other.

    The workers of src/cache/blocks_cache.cpp, src/cache/history_cache.cpp and
    src/nslookup.cpp construct an object per method and then repeat set_host,
    set_body, reset_attempts, execute and get_response on it.  Here a call is one
    such sequence, with the pool of connections as the call finds it and the
    events that happen while it runs; [calls] makes them one after the other on the
    same object. *)

From Stdlib Require Import String.
From S2P Require Import Prelude Text Hex Endian Compress Json BlockInfo BlockStore BlockVerify BlockWorker BlockSafety BlockLoader.
From S2P Require Import ConnectionPool ParseAddress HttpRequest RequestLife.
Open Scope Z_scope.

(** What is set before execute: the host, and the body before or behind it. *)
Inductive preparation :=
| SetHost (host : bytes)
| SetBodyHost (body host : bytes)
| SetHostBody (host body : bytes).

Record call := {
  c_prepare : preparation;
  c_env : env;
  (** The pool when the call begins. *)
  c_pool : pool;
  c_events : list (env * event)
}.

Definition with_pool (p : pool) (s : request) : request :=
  set_link {| m_socket := m_socket (link s); m_ssl_socket := m_ssl_socket (link s);
              m_pool_obj := m_pool_obj (link s); the_pool := p |} s.

Section Calls.
Variable parse_json : bytes -> option json.
Variable stringify : json -> bytes.
Variable conn_pool_ttl : Z.

Definition get_response (s : request) : option response := m_response s.

Definition prepare (a : preparation) (ev : env) (s : request) : request :=
  match a with
  | SetHost host => set_host host s
  | SetBodyHost body host => set_host host (set_body parse_json conn_pool_ttl body ev s)
  | SetHostBody host body => set_body parse_json conn_pool_ttl body ev (set_host host s)
  end.

(** The object when execute has started its first operation. *)
Definition begin_call (c : call) (s : request) : request :=
  execute false (c_env c) (reset_attempts (prepare (c_prepare c) (c_env c) (with_pool (c_pool c) s))).

(** The call so far. *)
Definition during (c : call) (s : request) : option request :=
  run parse_json stringify conn_pool_ttl (c_events c) (begin_call c s).

(** The call up to the return of [m_io_ctx->run()]; [None] when it has not
    returned. *)
Definition sync_call (c : call) (s : request) : option request :=
  match during c s with
  | Some s' => if bool_decide (m_io_ctx s' = Some true) then Some s' else None
  | None => None
  end.

(** The calls one after the other, with what get_response returned behind each. *)
Fixpoint calls (l : list call) (s : request) : option (list (option response) * request) :=
  match l with
  | [] => Some ([], s)
  | c :: l' =>
      match sync_call c s with
      | Some s' =>
          match calls l' s' with
          | Some (rs, s'') => Some (get_response s' :: rs, s'')
          | None => None
          end
      | None => None
      end
  end.
End Calls.

(** ** Version 1 of the block cache over its calls *)

(** A JSON text written with single quotes. *)
Definition quoted (s : string) : bytes :=
  map (fun c => if bool_decide (c = "'"%char) then Ascii.ascii_of_nat 34 else c) (str s).

Definition count_body : bytes := quoted "{'id':1, 'version':'2.0', 'method':'get-count-blocks'}".
Definition dump_body (n : Z) : bytes :=
  quoted "{'id':1, 'version':'2.0', 'method':'get-dump-block-by-number', 'params':{'number':" ++ to_string n ++
  quoted ", 'compress':true}}".

(** What happens around one call: the torrent that settings::server::get_tor names,
    the clock and the pool, and the events. *)
Record network := { n_tor : bytes; n_env : env; n_pool : pool; n_events : list (env * event) }.

Definition count_call (n : network) : call :=
  {| c_prepare := SetHost (n_tor n); c_env := n_env n; c_pool := n_pool n; c_events := n_events n |}.
Definition dump_call (number : Z) (n : network) : call :=
  {| c_prepare := SetBodyHost (dump_body number) (n_tor n); c_env := n_env n; c_pool := n_pool n;
     c_events := n_events n |}.

Section Worker.
Context `{L : TorrentLib}.
Variable put_ok : nat -> bool.
Variable parse_json : bytes -> option json.
Variable stringify : json -> bytes.
Variable conn_pool_ttl : Z.
Variable LZ4_decompress_safe : bytes -> bytes -> Z * bytes.
(** settings::system::blocks_cache_init_count. *)
Variable init_count : Z.

(** make_shared of the two objects. *)
Definition gcb_new (tor : bytes) (js : jrpc_settings) (p : pool) (ev : env) : request :=
  prepared (parse_json := parse_json) (conn_pool_ttl := conn_pool_ttl) true tor (str "get-count-blocks") count_body js p ev.
Definition gdbn_new (tor : bytes) (js : jrpc_settings) (p : pool) : request :=
  set_path (str "get-dump-block-by-number")
    (http_json_rpc_request_new tor true (-1) (-1) (-1) (s_timeout js) (s_conn_timeout js) (s_attempts js) p).

(** [while (m_run && m_nextblock <= count_blocks)]; [None] when a call does not
    return. *)
Fixpoint dump_loop (count_blocks : Z) (ns : list network) (gdbn : request) (c : cache)
  : option (res (cache * request)) :=
  if count_blocks <? m_nextblock c then Some (Ok (c, gdbn))
  else
    match ns with
    | [] => None
    | n :: ns =>
        match sync_call parse_json stringify conn_pool_ttl (dump_call (m_nextblock c) n) gdbn with
        | None => None
        | Some gdbn =>
            match get_response gdbn with
            | None => Some (Throw Undefined)
            | Some r =>
                match routine_block put_ok parse_json LZ4_decompress_safe c (rsp_body r) with
                | Throw e => Some (Throw e)
                | Ok (false, c) => Some (Ok (c, gdbn))
                | Ok (true, c) => dump_loop count_blocks ns gdbn c
                end
            end
        end
    end.

(** The body of [while (m_run)]. *)
Definition worker_pass (n : network) (ns : list network) (gcb gdbn : request) (c : cache)
  : option (res (cache * request * request)) :=
  match sync_call parse_json stringify conn_pool_ttl (count_call n) gcb with
  | None => None
  | Some gcb =>
      match read_count parse_json (option_map rsp_body (get_response gcb)) with
      | None => Some (Ok (c, gcb, gdbn))
      | Some count_blocks =>
          let c := if m_nextblock c =? 0 then with_next c (first_block_v1 init_count count_blocks) else c in
          match dump_loop count_blocks ns gdbn c with
          | None => None
          | Some (Throw e) => Some (Throw e)
          | Some (Ok (c, gdbn)) => Some (Ok (c, gcb, gdbn))
          end
      end
  end.
End Worker.

(** ** Lemmas *)

(** What an event stores of a response. *)
Definition brought (a : event) : list response :=
  match a with Completed _ _ _ r => [r] | Opened _ _ => [] | Expired part => [part] end.

(** The call was ended by a handler, and not by its timer. *)
Definition ended_by_handler (c : call) : Prop :=
  exists l ev i e eps r, c_events c = l ++ [(ev, Completed i e eps r)].

Section Facts.
Context {parse_json : bytes -> option json} {stringify : json -> bytes} {conn_pool_ttl : Z}.
(** The limit of attempts and the bound on the endpoints of a host. *)
Context {N : Z} {E : nat}.
Hypothesis N_range : 0 <= N <= UINT32_MAX.

Abbreviation step := (step parse_json stringify conn_pool_ttl).
Abbreviation run := (run parse_json stringify conn_pool_ttl).
Abbreviation calls := (calls parse_json stringify conn_pool_ttl).

(** The object between two calls, with nothing left over. *)
Definition rested (s : request) : Prop :=
  pending s = [] /\ m_timer s = None /\ m_pool_obj (link s) = None /\ m_attempts_count s = N /\
  m_rerun s = false /\ m_callback s = false /\ called s = [] /\ exists b, m_io_ctx s = Some b.

Lemma set_body_rested body ev s : rested s -> rested (set_body parse_json conn_pool_ttl body ev s).
Proof.
  intros (H1 & H2 & H3 & H4 & H5 & H6 & H7 & H8). unfold set_body.
  destruct (parse_json body) as [doc|]; [destruct (get_id doc)|]; unfold rested, jrpc_caught; rq;
    unfold close_links; rewrite ?H3; by split_and!.
Qed.

Lemma prepare_rested a ev s : rested s -> rested (prepare parse_json conn_pool_ttl a ev s).
Proof.
  intros Hs. destruct a as [h|b h|h b]; cbn [prepare].
  - exact Hs.
  - by apply (set_body_rested b ev) in Hs.
  - by apply set_body_rested.
Qed.

Lemma prepare_pool a ev s : m_pool_obj (link s) = None -> the_pool (link (prepare parse_json conn_pool_ttl a ev s)) = the_pool (link s).
Proof.
  intros Ho.
  assert (forall body s, m_pool_obj (link s) = None ->
    the_pool (link (set_body parse_json conn_pool_ttl body ev s)) = the_pool (link s)) as Hb.
  { clear s Ho. intros body s Ho. unfold set_body. destruct (parse_json body) as [doc|]; [destruct (get_id doc)|]; try done.
    unfold jrpc_caught. rq. unfold close_links. by rewrite Ho. }
  destruct a as [h|b h|h b]; cbn [prepare]; [done| |].
  - change (link (set_host h ?x)) with (link x). by apply Hb.
  - by rewrite Hb.
Qed.

(** The first attempt of a call restarts the context. *)
Lemma begin_attempt_restarts s b :
  m_attempt s = 0 -> m_io_ctx s = Some b ->
  begin_attempt false s = begin_attempt false (set_m_io_ctx (Some false) s).
Proof.
  intros Ha Hc. unfold begin_attempt. rq. rewrite Ha, Hc. change (u32 (0 + 1)) with 1. cbn [Z.eqb Pos.eqb]. rq. done.
Qed.

(** The object as a call prepares it, and the answer before anything arrived. *)
Definition ready (c : call) (s : request) : request :=
  prepare parse_json conn_pool_ttl (c_prepare c) (c_env c) (with_pool (c_pool c) s).

Abbreviation waiting c s := (waiting (N := N) (base := empty_answer (ready c s)) (cb := false) (own := true)
  (others := get_busy_size (c_pool c)) (E := E)).
Abbreviation alive_inv c s := (alive_inv (parse_json := parse_json) (stringify := stringify) (N := N)
  (base := empty_answer (ready c s)) (cb := false) (own := true) (others := get_busy_size (c_pool c)) (E := E)).
Abbreviation finished c s := (finished (parse_json := parse_json) (stringify := stringify) (N := N)
  (base := empty_answer (ready c s)) (cb := false) (own := true) (others := get_busy_size (c_pool c))).

Lemma begin_call_waiting c s :
  rested s -> wf (c_pool c) ->
  let s' := begin_call parse_json conn_pool_ttl c s in
  waiting c s s' /\ (measure (N := N) (E := E) s' <= (E + 10) * Z.to_nat (Z.max 1 N))%nat.
Proof.
  intros Hs Hwf. cbv zeta.
  assert (rested (ready c s)) as (H1 & H2 & H3 & H4 & H5 & H6 & H7 & b & H8).
  { apply prepare_rested. exact Hs. }
  assert (the_pool (link (ready c s)) = c_pool c) as Hp.
  { unfold ready. rewrite prepare_pool; [done|]. by destruct Hs as (_ & _ & ? & _). }
  unfold begin_call. fold (ready c s). revert H1 H2 H3 H4 H5 H6 H7 H8 Hp. generalize (ready c s). clear s Hs.
  intros r H1 H2 H3 H4 H5 H6 H7 H8 Hp.
  assert (execute false (c_env c) (reset_attempts r) = execute false (c_env c) (set_m_io_ctx (Some false) (reset_attempts r))) as ->.
  { unfold execute. by rewrite (begin_attempt_restarts (reset_attempts r) b). }
  destruct (execute_waiting (N := N) (base := empty_answer r) (cb := false) (own := true)
    (others := get_busy_size (c_pool c)) (E := E) ltac:(lia) false (c_env c) (set_m_io_ctx (Some false) (reset_attempts r)))
    as (Hw & Hat & Hm); try done.
  { unfold pool_inv. change (link (set_m_io_ctx (Some false) (reset_attempts r))) with (link r). by rewrite H3, Hp. }
  { cbn. lia. }
  split; [done|]. change (m_attempt (set_m_io_ctx (Some false) (reset_attempts r))) with 0 in Hm.
  replace (Z.to_nat (Z.max 1 N)) with (S (Z.to_nat (N - (0 + 1)))) by lia. lia.
Qed.

Lemma during_alive c s s' :
  rested s -> wf (c_pool c) -> Forall (fun x => event_ok (E := E) x.2) (c_events c) ->
  during parse_json stringify conn_pool_ttl c s = Some s' ->
  alive_inv c s (concat (map (fun x => received x.2) (c_events c))) s' /\
  (length (c_events c) <= (E + 10) * Z.to_nat (Z.max 1 N))%nat.
Proof.
  intros Hs Hwf Hl Hr. destruct (begin_call_waiting c s Hs Hwf) as [Hw Hm].
  destruct (run_progress (parse_json := parse_json) (stringify := stringify) (conn_pool_ttl := conn_pool_ttl)
    (N := N) (base := empty_answer (ready c s)) (cb := false) (own := true) (others := get_busy_size (c_pool c)) (E := E)
    ltac:(lia) eq_refl (c_events c) _ s' [] (or_introl Hw) Hl Hr) as [Hi Hlen].
  split; [done|lia].
Qed.

(** *** The response *)

(** The response is never missing, and is the empty one or was brought by an
    event. *)
Definition response_from (seen : list response) (s : request) : Prop :=
  exists r, m_response s = Some r /\ (r = response_new \/ r ∈ seen).

Lemma response_mono seen more s : response_from seen s -> response_from (seen ++ more) s.
Proof.
  intros (r & Hr & Hx). exists r. split; [done|]. destruct Hx as [->|Hx]; [by left|]. right. apply elem_of_app. by left.
Qed.

Lemma response_from_events l s :
  response_from (concat (map (fun x : env * event => brought x.2) l)) s ->
  exists r, get_response s = Some r /\ (r = response_new \/ exists x, x ∈ l /\ r ∈ brought x.2).
Proof.
  intros (r & Hr & Hin). exists r. split; [done|]. destruct Hin as [?|Hin]; [by left|right].
  rewrite list_elem_of_In, in_concat in Hin. destruct Hin as (y & Hy & Hin).
  apply in_map_iff in Hy as (x & <- & Hx'). exists x. by rewrite !list_elem_of_In.
Qed.

Lemma response_same seen s s' : m_response s' = m_response s -> response_from seen s -> response_from seen s'.
Proof. intros E0 (r & Hr & Hx). exists r. by rewrite E0. Qed.

Lemma connect_response ev s : m_response (connect ev s) = m_response s.
Proof.
  unfold connect. destruct (enable _); [|done]. destruct (checkout _ _) as [[id|] p]; [|done].
  destruct (_ =? -1); [done|]. unfold reuse. by destruct (assign_ok _ _ _).
Qed.

Lemma execute_response cb ev s : m_response (execute cb ev s) = Some response_new.
Proof. unfold execute. by rewrite connect_response. Qed.

Lemma answer_response d s : m_response (stop_ctx (perform_callback stringify (set_m_result d s))) = m_response s.
Proof. unfold stop_ctx, perform_callback. rq. destruct (m_callback s), (m_io_ctx s) eqn:Ex; rq; rewrite ?Ex; done. Qed.

Lemma unless_error_response e from ev s rest seen :
  response_from seen s -> (forall x, m_response x = m_response s -> m_response (rest x) = m_response s) ->
  response_from seen (unless_error stringify conn_pool_ttl e from ev s rest).
Proof.
  intros Hs Hr. unfold unless_error, error_handler.
  destruct (negb (m_rerun s) && m_canceled s); [done|]. destruct (negb (m_rerun s) && negb (failed e)).
  { eapply response_same; [|done]. by apply Hr. }
  set (s1 := close _ _ _ _). destruct (_ <? _).
  - eexists. rewrite execute_response. split; [done|]. by left.
  - eapply response_same; [|done]. by rewrite answer_response.
Qed.

(** Without an attempt left a failure keeps the response. *)
Lemma last_failure_response err from ev s rest :
  m_canceled s = false -> m_rerun s = false -> m_attempts_count s <= m_attempt s ->
  m_response (unless_error stringify conn_pool_ttl (Some err) from ev s rest) = m_response s.
Proof.
  intros H1 H2 H3. unfold unless_error, error_handler. rewrite H1, H2. cbn [negb andb failed].
  set (s1 := close _ _ _ _). change (m_attempt s1) with (m_attempt s). change (m_attempts_count s1) with (m_attempts_count s).
  rewrite (proj2 (Z.ltb_ge _ _)) by lia. by rewrite answer_response.
Qed.

Lemma handle_response o e eps r ev s seen :
  response_from seen s -> r ∈ seen -> response_from seen (handle parse_json stringify conn_pool_ttl o e eps r ev s).
Proof.
  intros Hs Hr. destruct o as [a p|k| | |]; cbn [handle];
    [unfold on_resolve|unfold on_connect|unfold on_handshake|unfold on_write|unfold on_read];
    (apply unless_error_response; [|intros x Hx; try exact Hx]); try exact Hs.
  - eexists. split; [done|]. by right.
  - by rewrite answer_response.
Qed.

Lemma step_response seen ev a s s' :
  response_from seen s -> step ev a s = Some s' -> response_from (seen ++ brought a) s'.
Proof.
  intros Hs Hst. apply (response_mono _ (brought a)) in Hs.
  destruct a as [i e eps r|i fd|part]; cbn [HttpRequest.step brought] in *.
  - destruct (pending s !! i) as [o|]; [|done]. destruct (bool_decide _); [done|]. apply (inj Some) in Hst as <-.
    apply handle_response; [done|]. apply elem_of_app. right. apply list_elem_of_here.
  - destruct (pending s !! i) as [[|[|n]| | |]|]; try done. by apply (inj Some) in Hst as <-.
  - destruct (m_timer s) as [t|]; [|done]. apply (inj Some) in Hst as <-.
    assert (response_from (seen ++ [part]) (arrived part s)) as Ha.
    { unfold arrived. destruct (existsb _ _); [|done]. eexists. split; [done|]. right. apply elem_of_app. right. apply list_elem_of_here. }
    revert Ha. generalize (arrived part s). intros x Hx. unfold on_timeout. rq. destruct (m_canceled x); [done|].
    destruct (_ <? _); [done|]. eapply response_same; [|done]. by rewrite answer_response.
Qed.

Lemma run_response l s s' seen :
  response_from seen s -> run l s = Some s' -> response_from (seen ++ concat (map (fun x => brought x.2) l)) s'.
Proof.
  revert s seen. induction l as [|[ev a] l IH]; intros s seen Hs Hr; cbn [HttpRequest.run] in Hr.
  - apply (inj Some) in Hr as <-. cbn. by rewrite app_nil_r.
  - destruct (step ev a s) as [s1|] eqn:Es; [|done]. cbn [map concat snd]. rewrite app_assoc.
    by eapply IH; [eapply step_response|].
Qed.

(** *** The end of a call *)

(** A stopped context leaves nothing outstanding. *)
Definition quiet (s : request) : Prop := m_io_ctx s = Some true -> pending s = [].

Lemma execute_ctx cb ev s : m_io_ctx s = Some false -> m_io_ctx (execute cb ev s) = Some false.
Proof.
  intros Hc. unfold execute. destruct (connect_adds ev (begin_attempt cb s)) as (o & _ & _ & _ & _ & _ & _ & _ & _ & ->).
  unfold begin_attempt. rq. rewrite Hc. destruct (_ =? 1), cb; rq; done.
Qed.

Lemma answer_quiet d s : pending s = [] -> quiet (stop_ctx (perform_callback stringify (set_m_result d s))).
Proof. intros Hp _. unfold stop_ctx, perform_callback. rq. destruct (m_callback s), (m_io_ctx s) eqn:Ex; rq; rewrite ?Ex; done. Qed.

Lemma unless_error_quiet e from ev s rest :
  pending s = [] -> m_io_ctx s = Some false ->
  (forall x, pending x = [] -> m_io_ctx x = Some false -> quiet (rest x)) ->
  quiet (unless_error stringify conn_pool_ttl e from ev s rest).
Proof.
  intros Hp Hc Hr. unfold unless_error, error_handler.
  destruct (negb (m_rerun s) && m_canceled s); [by intros _|]. destruct (negb (m_rerun s) && negb (failed e)); [by apply Hr|].
  set (s1 := close _ _ _ _). destruct (_ <? _); [|by apply answer_quiet].
  intros Hx. by rewrite execute_ctx in Hx.
Qed.

Lemma handle_quiet o e eps r ev s :
  pending s = [] -> m_io_ctx s = Some false -> quiet (handle parse_json stringify conn_pool_ttl o e eps r ev s).
Proof.
  intros Hp Hc. destruct o as [a p|k| | |]; cbn [handle];
    [unfold on_resolve|unfold on_connect|unfold on_handshake|unfold on_write|unfold on_read];
    (apply unless_error_quiet; [done|done|intros x Hx Hcx]); try (intros Hd; unfold start_operation in Hd; rq; congruence).
  by apply answer_quiet.
Qed.

Lemma completed_quiet c r0 seen ev i e eps r s s' :
  alive_inv c r0 seen s -> step ev (Completed i e eps r) s = Some s' -> quiet s'.
Proof.
  intros Hi Hs. cbn [HttpRequest.step] in Hs. destruct (pending s !! i) as [o|] eqn:Ei; [|done].
  destruct (bool_decide (m_io_ctx s = Some true)) eqn:Ec; [done|]. apply bool_decide_eq_false in Ec. apply (inj Some) in Hs as <-.
  assert ((exists o, pending s = [o]) /\ m_io_ctx s = Some false) as [[o' Ho] Hc].
  { destruct Hi as [(_ & _ & _ & (o' & Ho & _) & _ & _ & _ & Hx)|[(_ & _ & _ & (o' & Ho & _) & _ & _ & _ & _ & Hx & _)|Hf]];
      [by eauto..|]. by destruct Hf as (_ & _ & _ & _ & _ & _ & _ & Hx & _). }
  rewrite Ho in Ei |- *. destruct i; [|done]. by apply handle_quiet.
Qed.

Lemma run_events_app l1 l2 s s' :
  run (l1 ++ l2) s = Some s' -> exists s1, run l1 s = Some s1 /\ run l2 s1 = Some s'.
Proof.
  revert s. induction l1 as [|[ev a] l1 IH]; intros s; cbn [app HttpRequest.run]; [by eexists|].
  destruct (step ev a s) as [s1|]; [|done]. apply IH.
Qed.

(** The state in which the last event of a call finds the object. *)
Lemma before_last c s s' l ev a :
  rested s -> wf (c_pool c) -> Forall (fun x => event_ok (E := E) x.2) (c_events c) -> c_events c = l ++ [(ev, a)] ->
  during parse_json stringify conn_pool_ttl c s = Some s' ->
  exists seen s1, alive_inv c s seen s1 /\ step ev a s1 = Some s'.
Proof.
  intros Hs Hwf Hl El Ed. unfold during in Ed. rewrite El in Ed, Hl.
  apply run_events_app in Ed as (s1 & E1 & E2). apply Forall_app in Hl as [Hl _].
  destruct (begin_call_waiting c s Hs Hwf) as [Hw _].
  destruct (run_progress (parse_json := parse_json) (stringify := stringify) (conn_pool_ttl := conn_pool_ttl)
    (N := N) (base := empty_answer (ready c s)) (cb := false) (own := true) (others := get_busy_size (c_pool c)) (E := E)
    ltac:(lia) eq_refl l _ s1 [] (or_introl Hw) Hl E1) as [Hi _].
  cbn [HttpRequest.run] in E2. destruct (step ev a s1) as [x|] eqn:Es; [|done]. apply (inj Some) in E2 as ->. by eauto.
Qed.

Lemma sync_call_Some c s s' :
  sync_call parse_json stringify conn_pool_ttl c s = Some s' <->
  during parse_json stringify conn_pool_ttl c s = Some s' /\ m_io_ctx s' = Some true.
Proof.
  unfold sync_call. destruct (during _ _ _ c s) as [x|]; [|by split; [|intros [? _]]].
  case_bool_decide; split; [by intros [= <-]|by intros [[= ->] _]|done|by intros [[= ->] ?]].
Qed.

Lemma call_returned c s s' :
  rested s -> wf (c_pool c) -> Forall (fun x => event_ok (E := E) x.2) (c_events c) ->
  sync_call parse_json stringify conn_pool_ttl c s = Some s' ->
  finished c s (concat (map (fun x => received x.2) (c_events c))) s' /\
  response_from (concat (map (fun x => brought x.2) (c_events c))) s' /\
  (ended_by_handler c -> rested s').
Proof.
  intros Hs Hwf Hl [Ed Hc]%sync_call_Some. destruct (during_alive c s s' Hs Hwf Hl Ed) as [Hi _].
  destruct Hi as [(_ & _ & _ & _ & _ & _ & _ & Hx)|[(_ & _ & _ & _ & _ & _ & _ & _ & Hx & _)|Hf]];
    [by rewrite Hc in Hx..|].
  split; [done|]. split.
  { apply (run_response (c_events c) _ _ []) in Ed; [done|]. unfold begin_call. exists response_new.
    rewrite execute_response. by split; [|left]. }
  intros (l & ev & i & e & eps & r & El). destruct (before_last c s s' l ev _ Hs Hwf Hl El Ed) as (seen & s1 & Hi & Es).
  pose proof (completed_quiet c s _ ev i e eps r s1 s' Hi Es Hc) as Hp.
  destruct Hf as ((HN & _ & _) & Hr & Hcb & Hca & _ & _ & Ho & _ & Ht). by split_and!; try exists true.
Qed.

(** The calls of an object that end by their handlers leave it at rest. *)
Lemma calls_rested l s rs s' :
  rested s -> Forall (fun c => wf (c_pool c) /\ Forall (fun x => event_ok (E := E) x.2) (c_events c) /\ ended_by_handler c) l ->
  calls l s = Some (rs, s') -> rested s'.
Proof.
  intros Hs Hl. revert s rs Hs. induction Hl as [|c l (Hwf & Hev & He) Hl IH]; intros s rs Hs; cbn [SyncCall.calls].
  - by intros [= _ <-].
  - destruct (sync_call _ _ _ c s) as [s1|] eqn:E1; [|done].
    destruct (SyncCall.calls _ _ _ l s1) as [[rs1 s2]|] eqn:E2; [|done]. intros [= _ <-].
    eapply (IH s1 rs1); [|exact E2]. by apply (call_returned c s s1 Hs Hwf Hev E1).
Qed.

(** A call that ends with a completion without an error has read that response. *)
Definition answered (l : list (env * event)) (r : response) : Prop :=
  exists l' ev i eps, l = l' ++ [(ev, Completed i None eps r)].

Lemma handled_response o eps r ev s :
  pending s = [] -> m_io_ctx s = Some false ->
  (m_rerun s = true -> m_attempt s < m_attempts_count s) -> (m_rerun s = false -> m_canceled s = false) ->
  let s' := handle parse_json stringify conn_pool_ttl o None eps r ev s in
  m_io_ctx s' = Some true -> m_response s' = Some r.
Proof.
  intros Hp Hc Hr Hn. cbv zeta.
  assert (forall from x rest, m_io_ctx x = Some false -> m_rerun x = m_rerun s -> m_attempt x = m_attempt s ->
    m_attempts_count x = m_attempts_count s -> m_canceled x = m_canceled s ->
    m_io_ctx (unless_error stringify conn_pool_ttl None from ev x rest) = Some true ->
    unless_error stringify conn_pool_ttl None from ev x rest = rest x) as Hu.
  { intros from x rest X1 X2 X3 X4 X5. unfold unless_error, error_handler. rewrite X2, X5.
    destruct (m_rerun s) eqn:Er; [|by rewrite (Hn eq_refl)]. cbn [negb andb].
    set (s1 := close _ _ _ _). change (m_attempt s1) with (m_attempt x). change (m_attempts_count s1) with (m_attempts_count x).
    rewrite X3, X4, (proj2 (Z.ltb_lt _ _)) by auto. intros Hx. by rewrite execute_ctx in Hx. }
  destruct o as [a p|k| | |]; cbn [handle];
    [unfold on_resolve|unfold on_connect|unfold on_handshake|unfold on_write|unfold on_read];
    intros Hx; pose proof Hx as Hy; apply Hu in Hy; try done; rewrite Hy in Hx |- *;
    try (unfold start_operation in Hx; rq; congruence).
  rewrite answer_response. by rq.
Qed.

Lemma call_answered c s s' r :
  rested s -> wf (c_pool c) -> Forall (fun x => event_ok (E := E) x.2) (c_events c) -> answered (c_events c) r ->
  sync_call parse_json stringify conn_pool_ttl c s = Some s' -> get_response s' = Some r /\ rested s'.
Proof.
  intros Hs Hwf Hl (l & ev & i & eps & El) Hcall. split.
  2: { apply (call_returned c s s' Hs Hwf Hl Hcall). by exists l, ev, i, None, eps, r. }
  apply sync_call_Some in Hcall as [Ed Hc]. destruct (before_last c s s' l ev _ Hs Hwf Hl El Ed) as (seen & s1 & Hi & Es).
  cbn [HttpRequest.step] in Es. destruct (pending s1 !! i) as [o|] eqn:Ei; [|done].
  destruct (bool_decide (m_io_ctx s1 = Some true)) eqn:Ec; [done|]. apply bool_decide_eq_false in Ec. apply (inj Some) in Es as <-.
  assert (forall o', pending s1 = [o'] -> delete i (pending s1) = []) as Hdel.
  { intros o' Ho. rewrite Ho in Ei |- *. by destruct i. }
  destruct Hi as [((HN & _) & W1 & W2 & (o' & Ho & _) & _ & _ & _ & Hx)
    |[((HN & _) & W1 & W2 & (o' & Ho & _) & _ & _ & _ & _ & Hx & _ & Ha)|Hf]].
  - eapply handled_response; [exact (Hdel _ Ho)|exact Hx| | |exact Hc]; rq; congruence.
  - eapply handled_response; [exact (Hdel _ Ho)|exact Hx| | |exact Hc]; rq; [lia|congruence].
  - by destruct Hf as (_ & _ & _ & _ & _ & _ & _ & Hx & _).
Qed.

(** A connect that is left over from a call with one attempt ends the next call,
    with an empty response and its own operation just started. *)
Lemma stale_connect_ends_call s c host k ev err eps r :
  m_attempts_count s = 1 -> m_io_ctx s = Some true -> pending s = [OpConnect k] -> m_rerun s = false ->
  c_prepare c = SetHost host -> c_events c = [(ev, Completed 0 (Some err) eps r)] ->
  exists s', sync_call parse_json stringify conn_pool_ttl c s = Some s' /\ get_response s' = Some response_new /\
    exists o, pending s' = [o].
Proof.
  intros HN Hx Hp Hr Ep Ee. set (x := set_host host (with_pool (c_pool c) s)).
  assert (begin_call parse_json conn_pool_ttl c s = execute false (c_env c) (reset_attempts x)) as Eb
    by (unfold begin_call; by rewrite Ep).
  destruct (reused_pending x (OpConnect k) (c_env c) Hx Hp) as (o & R1 & R2 & R3 & R4 & R5 & R6 & _).
  pose proof (execute_response false (c_env c) (reset_attempts x)) as R7. rewrite <- Eb in R1, R2, R3, R4, R5, R6, R7.
  change (m_rerun x) with (m_rerun s) in R4. change (m_attempts_count x) with (m_attempts_count s) in R5.
  unfold sync_call, during. rewrite Ee. revert R1 R2 R3 R4 R5 R6 R7.
  generalize (begin_call parse_json conn_pool_ttl c s) as y. clear x Eb. intros y R1 R2 R3 R4 R5 R6 R7.
  cbn [HttpRequest.run HttpRequest.step]. rewrite R1. cbn [lookup list_lookup]. rewrite R2, bool_decide_eq_false_2 by done.
  set (z := set_pending (delete 0%nat [OpConnect k; o]) y).
  assert (m_canceled z = false /\ m_rerun z = false /\ m_attempts_count z <= m_attempt z) as (Z1 & Z2 & Z3)
    by (unfold z; rq; split_and!; [done|congruence|lia]).
  destruct (last_handle (parse_json := parse_json) (stringify := stringify) (conn_pool_ttl := conn_pool_ttl)
    (OpConnect k) err eps r ev z Z1 Z2 Z3) as (_ & P & Q).
  pose proof (last_failure_response err "on_connect" ev (set_m_timer None z) (fun s =>
    start_operation (if m_use_ssl s then OpHandshake else OpWrite) (set_m_timer (Some TimeoutRequest) s)) Z1 Z2 Z3) as V.
  change (m_response (set_m_timer None z)) with (m_response y) in V. change (m_io_ctx z) with (m_io_ctx y) in Q.
  rewrite R2 in Q. rewrite R7 in V. rewrite Q, bool_decide_eq_true_2 by done. eexists. split; [done|]. split; [exact V|]. by exists o.
Qed.
End Facts.

(** ** Theorems *)

Section Theorems.
Context {parse_json : bytes -> option json} {stringify : json -> bytes} {conn_pool_ttl : Z}.
Context `{L : TorrentLib} {laws : TorrentLaws L}.
Context {LZ4_decompress_safe : bytes -> bytes -> Z * bytes}.
Abbreviation calls := (calls parse_json stringify conn_pool_ttl).
Abbreviation during := (during parse_json stringify conn_pool_ttl).
Abbreviation sync_call := (sync_call parse_json stringify conn_pool_ttl).

(** The pool is well formed and the hosts have at most [E] endpoints. *)
Definition call_ok (E : nat) (c : call) : Prop := wf (c_pool c) /\ Forall (fun x => event_ok (E := E) x.2) (c_events c).

(** C8: The workers' calls return, on one object for all of them.  Whatever calls
    an object with its own context has made, as long as none of them was ended by
    its timer, the next call ends within [(E + 10)] events per attempt: it has
    exactly one operation outstanding until its context is stopped, and then a
    response is there, which is the empty one or holds what an event of this very
    call brought, and the pool has its connection back. *)
Theorem reused_object_call_returns tor path js p0 past rs s c s' (E : nat) :
  0 <= s_attempts js <= UINT32_MAX -> Forall (fun c => call_ok E c /\ ended_by_handler c) past ->
  let obj := set_path path
    (http_json_rpc_request_new tor true (-1) (-1) (-1) (s_timeout js) (s_conn_timeout js) (s_attempts js) p0) in
  calls past obj = Some (rs, s) -> call_ok E c -> during c s = Some s' ->
  (length (c_events c) <= (E + 10) * Z.to_nat (Z.max 1 (s_attempts js)))%nat /\
  ((m_io_ctx s' = Some false /\ exists o, pending s' = [o]) \/
   (m_io_ctx s' = Some true /\
    (exists r, get_response s' = Some r /\ (r = response_new \/ exists x, x ∈ c_events c /\ r ∈ brought x.2)) /\
    m_pool_obj (link s') = None /\ get_busy_size (the_pool (link s')) = get_busy_size (c_pool c))).
Proof.
  intros HN Hpast obj Hcalls [Hwf Hev] Hd.
  assert (rested (N := s_attempts js) s) as Hs.
  { eapply (calls_rested (N := s_attempts js) (E := E) ltac:(lia) past obj rs s); [by split_and!; try exists false| |done].
    eapply Forall_impl; [exact Hpast|]. by intros x [[? ?] ?]. }
  destruct (during_alive (N := s_attempts js) (E := E) ltac:(lia) c s s' Hs Hwf Hev Hd) as [Hi Hlen]. split; [done|].
  destruct Hi as [(_ & _ & _ & (o & Ho & _) & _ & _ & _ & Hx)|[(_ & _ & _ & (o & Ho & _) & _ & _ & _ & _ & Hx & _)|Hf]];
    [by left; eauto..|right].
  assert (m_io_ctx s' = Some true) as Hx by by destruct Hf as (_ & _ & _ & _ & _ & _ & _ & Hx & _).
  destruct (call_returned (N := s_attempts js) (E := E) ltac:(lia) c s s' Hs Hwf Hev (proj2 (sync_call_Some _ _ _) (conj Hd Hx)))
    as (_ & Hr & _).
  split; [done|]. split; [by apply response_from_events|].
  destruct Hf as ((_ & _ & _ & Hp) & _ & _ & _ & _ & _ & Ho & _). by rewrite Ho in Hp.
Qed.

(** The requests of the loop, from block [k] on. *)
Definition dump_calls (k : Z) (ns : list network) : list call := imap (fun i n => dump_call (k + Z.of_nat i) n) ns.

Lemma dump_calls_cons k n ns : dump_calls k (n :: ns) = dump_call k n :: dump_calls (k + 1) ns.
Proof.
  unfold dump_calls. cbn [imap]. rewrite Z.add_0_r. f_equal. apply imap_ext. intros i x _. cbn. f_equal. lia.
Qed.

(** The node answers the call with a dump. *)
Definition dump_answered (E : nat) (n : network) (r : response) : Prop :=
  call_ok E (dump_call 0 n) /\ answered (n_events n) r /\
  good_dump (parse_json := parse_json) (LZ4_decompress_safe := LZ4_decompress_safe) (rsp_body r).

Abbreviation ok := (fun _ : nat => true).

(** The loop loads all blocks from [m_nextblock] on. *)
Lemma dump_loop_loads (N : Z) (E : nat) count ns rsps g c rs g' :
  0 <= N <= UINT32_MAX -> rested (N := N) g -> Forall2 (dump_answered E) ns rsps ->
  0 <= m_nextblock c -> count < UINT64_MAX -> zlen ns = Z.max 0 (count + 1 - m_nextblock c) ->
  calls (dump_calls (m_nextblock c) ns) g = Some (rs, g') ->
  exists c', dump_loop ok parse_json stringify conn_pool_ttl LZ4_decompress_safe count ns g c = Some (Ok (c', g')) /\
    m_nextblock c' = m_nextblock c + zlen ns /\
    (forall i r, rsps !! i = Some r -> look c' (KNum (m_nextblock c + Z.of_nat i)) = Some (rsp_body r) /\
       look c' (KData (m_nextblock c + Z.of_nat i)) = Some ext_zero) /\
    (forall n, 0 <= n < m_nextblock c -> look c' (KNum n) = look c (KNum n) /\ look c' (KData n) = look c (KData n)).
Proof.
  intros HN Hg Hf. revert g c rs Hg. induction Hf as [|n r ns rsps ([Hwf Hev] & Ha & Hgd) Hf IH]; intros g c rs Hg Hn Hc Hlen Hcalls;
    cbn [dump_loop].
  - rewrite zlen_nil in Hlen |- *. rewrite (proj2 (Z.ltb_lt _ _)) by lia. cbn in Hcalls. injection Hcalls as _ <-.
    exists c. split_and!; [done|lia|done|done].
  - rewrite zlen_cons in Hlen |- *. pose proof (zlen_nonneg ns). rewrite (proj2 (Z.ltb_ge _ _)) by lia.
    rewrite dump_calls_cons in Hcalls. cbn [SyncCall.calls] in Hcalls.
    destruct (SyncCall.sync_call _ _ _ (dump_call (m_nextblock c) n) g) as [g1|] eqn:Eg; [|done].
    destruct (SyncCall.calls _ _ _ (dump_calls (m_nextblock c + 1) ns) g1) as [[rs1 g2]|] eqn:Er; [|done].
    apply (inj Some), pair_equal_spec in Hcalls as [_ ->].
    destruct (call_answered (N := N) (E := E) HN (dump_call (m_nextblock c) n) g g1 r Hg Hwf Hev Ha Eg) as [-> Hg1].
    destruct (routine_block_loads (parse_json := parse_json) (LZ4_decompress_safe := LZ4_decompress_safe) c (rsp_body r) Hgd)
      as (c1 & -> & N1 & L1 & L2 & L3); [lia|].
    destruct (IH g1 c1 rs1) as (c' & -> & N2 & G1 & G2); [done|lia|done|lia|by rewrite N1|].
    exists c'. split; [done|]. split; [lia|]. split.
    + intros [|i] r' Hi; cbn in Hi.
      * injection Hi as <-. rewrite Z.add_0_r. destruct (G2 (m_nextblock c)) as [-> ->]; [lia|]. done.
      * replace (m_nextblock c + Z.of_nat (S i)) with (m_nextblock c1 + Z.of_nat i) by lia. by apply G1.
    + intros m Hm. destruct (G2 m) as [-> ->]; [lia|]. apply L3; unfold UINT64_MAX in *; lia.
Qed.

(** C21: Version 1 of the block cache catches up with the node over its own calls, but
    does not serve what it loads under verification.  The worker asks for the
    number of blocks on one object and for each missing block on another, both at
    rest; when the node answers with the number [count] and with a dump to each
    call, the pass ends, takes one call per missing block, and serves exactly these
    dumps under their numbers; with blocks_cache_block_verification on it serves
    none of them, because they are stored as not checked.  The cache has begun to load
    (its next number is not 0), and its writes succeed. *)
Theorem version_1_catches_up init_count (N : Z) (E : nat) n ns rsp rsps gcb gdbn gcb' rs gdbn' count c :
  0 <= N <= UINT32_MAX -> rested (N := N) gcb -> rested (N := N) gdbn ->
  call_ok E (count_call n) -> answered (n_events n) rsp -> sync_call (count_call n) gcb = Some gcb' ->
  read_count parse_json (Some (rsp_body rsp)) = Some count -> 0 < m_nextblock c -> count < UINT64_MAX ->
  zlen ns = Z.max 0 (count + 1 - m_nextblock c) -> Forall2 (dump_answered E) ns rsps ->
  calls (dump_calls (m_nextblock c) ns) gdbn = Some (rs, gdbn') ->
  exists c', worker_pass ok parse_json stringify conn_pool_ttl LZ4_decompress_safe init_count n ns gcb gdbn c
      = Some (Ok (c', gcb', gdbn')) /\
    m_nextblock c' = Z.max (m_nextblock c) (count + 1) /\
    forall i r, rsps !! i = Some r ->
      get_block_by_num c' (m_nextblock c + Z.of_nat i) false = Some (rsp_body r) /\
      get_block_by_num c' (m_nextblock c + Z.of_nat i) true = None.
Proof.
  intros HN Hgcb Hgdbn [Hwf Hev] Ha Hcall Hcount Hn Hc Hlen Hf Hcalls. unfold worker_pass. rewrite Hcall.
  destruct (call_answered (N := N) (E := E) HN (count_call n) gcb gcb' rsp Hgcb Hwf Hev Ha Hcall) as [-> _].
  cbn [option_map]. rewrite Hcount, (proj2 (Z.eqb_neq _ _)) by lia.
  destruct (dump_loop_loads N E count ns rsps gdbn c rs gdbn') as (c' & -> & Nx & G & _); [done..|lia|done|done|done|].
  exists c'. split; [done|]. split; [lia|]. intros i r Hi. destruct (G i r Hi) as [G1 G2].
  pose proof (lookup_lt_Some _ _ _ Hi) as Hlt. rewrite <- (Forall2_length _ _ _ Hf) in Hlt. unfold zlen in Hlen.
  rewrite !get_block_by_num_look by lia. cbn [negb orb]. by rewrite G2, G1.
Qed.

(** A dump that does not parse stops version 1: the same request is repeated without
    a pause, and the loop has not ended after any number of calls. *)
Theorem version_1_stuck (N : Z) (E : nat) count ns gdbn c :
  0 <= N <= UINT32_MAX -> rested (N := N) gdbn -> m_nextblock c <= count ->
  Forall (fun n => call_ok E (dump_call 0 n) /\ exists r, answered (n_events n) r /\ rsp_body r <> [] /\
    parse_json (rsp_body r) = None /\ parseBlockDump (decompress LZ4_decompress_safe (rsp_body r)) false = Ok NoBlock) ns ->
  dump_loop ok parse_json stringify conn_pool_ttl LZ4_decompress_safe count ns gdbn c = None.
Proof.
  intros HN Hg Hc Hf. revert gdbn Hg. induction Hf as [|n ns ([Hwf Hev] & r & Ha & Hne & Hp & Hb) Hf IH]; intros gdbn Hg;
    cbn [dump_loop]; rewrite (proj2 (Z.ltb_ge _ _)) by lia; [done|].
  destruct (SyncCall.sync_call _ _ _ (dump_call (m_nextblock c) n) gdbn) as [g1|] eqn:Eg; [|done].
  destruct (call_answered (N := N) (E := E) HN (dump_call (m_nextblock c) n) gdbn g1 r Hg Hwf Hev Ha Eg) as [-> Hg1].
  unfold routine_block. rewrite bool_decide_eq_false_2, Hp, Hb by done. by apply IH.
Qed.
End Theorems.

(** ** Witnesses *)

Module Sample.
Import RequestLife.Sample BlockLoader.Sample.

(** The events of an attempt that ends with the answer [body]. *)
Definition fine_events (body : bytes) : list (env * event) := map (fun a => (ev0, a))
  [Completed 0 None 1 none; Opened 0 5; Completed 0 None 0 none; Completed 0 None 0 none;
   Completed 0 None 0 (answer body)].
Definition call_of (body : bytes) (l : list (env * event)) : call :=
  {| c_prepare := SetHostBody host0 body; c_env := ev0; c_pool := pool0; c_events := l |}.
Definition obj0 : request :=
  set_path (str "p") (http_json_rpc_request_new host0 true (-1) (-1) (-1) 60000 1000 2 pool0).

(** Two calls on the object, then one whose first attempt ends by a time-out. *)
Definition past : list call := [call_of (str "a") (fine_events (str "R")); call_of (str "b") (fine_events (str "R"))].
Definition again : call := call_of (str "c") events.
Definition after_past : list (option response) * request :=
  default ([], obj0) (calls BlockLoader.Sample.parse print 60 past obj0).
Definition end_again : request :=
  default obj0 (during BlockLoader.Sample.parse print 60 again after_past.2).

Lemma fine_ok body : Forall (fun x => event_ok (E := 1) x.2) (fine_events body).
Proof. repeat constructor. Defined.

Lemma past_ok : Forall (fun c => call_ok 1 c /\ ended_by_handler c) past.
Proof.
  repeat (apply Forall_cons; split); try apply Forall_nil; try exact I; (split; [split; [exact pool0_wf|apply fine_ok]|]);
    exists (take 4 (fine_events (str "R"))), ev0, 0%nat, None, 0%nat, (answer (str "R")); reflexivity.
Defined.

Lemma reused_object_call_returns_witness :
  calls BlockLoader.Sample.parse print 60 past obj0 = Some after_past /\
  m_io_ctx end_again = Some true /\ get_response end_again = Some (answer (str "R")) /\
  (11 <= 11 * Z.to_nat 2)%nat.
Proof.
  split; [vm_compute; reflexivity|]. split; [vm_compute; reflexivity|]. split; [vm_compute; reflexivity|].
  destruct (reused_object_call_returns (parse_json := BlockLoader.Sample.parse) (stringify := print) (conn_pool_ttl := 60)
    host0 (str "p") js0 pool0 past after_past.1 after_past.2 again end_again 1) as [H _];
    [by vm_compute|exact past_ok|vm_compute; reflexivity|split; [exact pool0_wf|exact events_ok]|vm_compute; reflexivity|exact H].
Defined.

Definition net (body : bytes) : network :=
  {| n_tor := host0; n_env := ev0; n_pool := pool0; n_events := fine_events body |}.
Definition two_dumps : list network := [net (packed (str "block")); net (packed (str "block"))].
Definition gcb0 : request := gcb_new BlockLoader.Sample.parse 60 host0 js0 pool0 ev0.
Definition gdbn0 : request := gdbn_new host0 js0 pool0.
Definition gcb1 : request := default gcb0 (sync_call BlockLoader.Sample.parse print 60 (count_call (net (str "two"))) gcb0).
Definition dumped : list (option response) * request :=
  default ([], gdbn0) (calls BlockLoader.Sample.parse print 60 (dump_calls 1 two_dumps) gdbn0).

Lemma gdbn0_rested : rested (N := 2) gdbn0 /\ rested (N := 2) gcb0.
Proof. split; (repeat split; try (vm_compute; reflexivity)); by exists false. Defined.

Lemma version_1_stuck_witness :
  dump_loop (fun _ => true) BlockLoader.Sample.parse print 60 lz4 2 (replicate 1000 (net (packed (str "noise")))) gdbn0 c0 = None.
Proof.
  apply (version_1_stuck 2 1).
  - split; discriminate.
  - apply gdbn0_rested.
  - discriminate.
  - apply Forall_replicate. split; [split; [exact pool0_wf|apply fine_ok]|]. exists (answer (packed (str "noise"))). split.
    + exists (take 4 (fine_events (packed (str "noise")))), ev0, 0%nat, 0%nat. reflexivity.
    + split; [discriminate|]. split; [reflexivity|]. vm_compute. reflexivity.
Defined.

Lemma version_1_catches_up_witness :
  exists c', worker_pass (fun _ => true) BlockLoader.Sample.parse print 60 lz4 0 (net (str "two")) two_dumps gcb0 gdbn0 c0
      = Some (Ok (c', gcb1, dumped.2)) /\
    m_nextblock c' = 3 /\ get_block_by_num c' 2 false = Some (packed (str "block")) /\ get_block_by_num c' 2 true = None.
Proof.
  destruct (version_1_catches_up (parse_json := BlockLoader.Sample.parse) (stringify := print) (conn_pool_ttl := 60)
    (LZ4_decompress_safe := lz4) 0 2 1 (net (str "two")) two_dumps (answer (str "two"))
    [answer (packed (str "block")); answer (packed (str "block"))] gcb0 gdbn0 gcb1 dumped.1 dumped.2 2 c0)
    as (c' & E & Nx & G).
  - split; discriminate.
  - apply gdbn0_rested.
  - apply gdbn0_rested.
  - split; [exact pool0_wf|apply fine_ok].
  - exists (take 4 (fine_events (str "two"))), ev0, 0%nat, 0%nat. reflexivity.
  - vm_compute. reflexivity.
  - reflexivity.
  - reflexivity.
  - reflexivity.
  - reflexivity.
  - assert (dump_answered (parse_json := BlockLoader.Sample.parse) (LZ4_decompress_safe := lz4) 1
      (net (packed (str "block"))) (answer (packed (str "block")))) as H.
    { split; [split; [exact pool0_wf|apply fine_ok]|]. split.
      - exists (take 4 (fine_events (packed (str "block")))), ev0, 0%nat, 0%nat. reflexivity.
      - split; [discriminate|]. split; [reflexivity|]. eexists. vm_compute. reflexivity. }
    constructor; [exact H|]. constructor; [exact H|constructor].
  - vm_compute. reflexivity.
  - exists c'. split; [exact E|]. split; [exact Nx|]. apply (G 1%nat (answer (packed (str "block")))). reflexivity.
Defined.
End Sample.
