(* ===== verification/Handlers.v ===== *)
(** The frame of the request handlers: src/exception/except.h,
    src/task_handlers/base_handler.{h,cpp}, network_handler.cpp and
    sync_handler.cpp.

    A handler is an object with its id, reader, writer and result; its methods
    throw and catch.  The methods are written in a monad of state and exceptions
    in which the state survives a throw, as the members of a C++ object do; the
    type [W] of what handlers share (the wallet, the cache) is a parameter.  The
    requests a handler hands to http_json_rpc_request are collected in the state;
    their answers come back through [on_complete].  RapidJSON (parser, printer,
    error texts, schema validation) is a parameter. *)

From Stdlib Require Import String.
From S2P Require Import Prelude Text Json Transaction.
Open Scope Z_scope.

(** ** State and exceptions *)

Definition M (S A : Type) : Type := S -> S * res A.

#[global] Instance M_ret S : MRet (M S) := fun A a s => (s, Ok a).
#[global] Instance M_bind S : MBind (M S) := fun A B f m s =>
  match m s with (s', Ok a) => f a s' | (s', Throw e) => (s', Throw e) end.

Definition throw {S A} (e : exn) : M S A := fun s => (s, Throw e).
Definition lift {S A} (r : res A) : M S A := fun s => (s, r).
Definition gets {S A} (f : S -> A) : M S A := fun s => (s, Ok (f s)).
Definition modify {S} (f : S -> S) : M S unit := fun s => (f s, Ok ()).

(** A pointer as a condition. *)
Definition found {A} (o : option A) : bool := match o with Some _ => true | None => false end.

(** CHK_PARSE, CHK_PRM and CHK_REQ. *)
Definition CHK_PARSE {S} (condition : bool) (message : bytes) : M S unit :=
  if condition then mret () else throw (InvalidParam (-32700) message).
Definition CHK_PRM {S} (condition : bool) (message : string) : M S unit :=
  if condition then mret () else throw (InvalidParam (-32602) (str message)).
Definition CHK_REQ {S} (condition : bool) (message : string) : M S unit :=
  if condition then mret () else throw (InvalidParam (-32600) (str message)).
(** The same around an optional value, which is then used. *)
Definition need {S A} (o : option A) (message : string) : M S A :=
  match o with Some a => mret a | None => throw (InvalidParam (-32602) (str message)) end.
Definition need_req {S A} (o : option A) (message : string) : M S A :=
  match o with Some a => mret a | None => throw (InvalidParam (-32600) (str message)) end.

(** ** The handler object *)

Record handler (W : Type) := {
  m_id : Z;
  m_async : bool;
  m_reader : json;
  m_writer : json;
  m_requests : list (bytes * bytes);
  world : W
}.
Arguments m_id {W}. Arguments m_async {W}. Arguments m_reader {W}. Arguments m_writer {W}.
Arguments m_requests {W}. Arguments world {W}.
Arguments Build_handler {W}.

Section Fields.
Context {W : Type}.
Definition set_m_id (v : Z) (h : handler W) : handler W :=
  {| m_id := v; m_async := m_async h; m_reader := m_reader h; m_writer := m_writer h;
     m_requests := m_requests h; world := world h |}.
Definition set_m_async (v : bool) (h : handler W) : handler W :=
  {| m_id := m_id h; m_async := v; m_reader := m_reader h; m_writer := m_writer h;
     m_requests := m_requests h; world := world h |}.
Definition set_m_reader (v : json) (h : handler W) : handler W :=
  {| m_id := m_id h; m_async := m_async h; m_reader := v; m_writer := m_writer h;
     m_requests := m_requests h; world := world h |}.
Definition set_m_writer (v : json) (h : handler W) : handler W :=
  {| m_id := m_id h; m_async := m_async h; m_reader := m_reader h; m_writer := v;
     m_requests := m_requests h; world := world h |}.
Definition add_request (path body : bytes) (h : handler W) : handler W :=
  {| m_id := m_id h; m_async := m_async h; m_reader := m_reader h; m_writer := m_writer h;
     m_requests := m_requests h ++ [(path, body)]; world := world h |}.
Definition set_world (v : W) (h : handler W) : handler W :=
  {| m_id := m_id h; m_async := m_async h; m_reader := m_reader h; m_writer := m_writer h;
     m_requests := m_requests h; world := v |}.

(** A call of a member of [m_writer] that changes the document. *)
Definition write (f : json -> json) : M (handler W) unit :=
  modify (fun h => set_m_writer (f (m_writer h)) h).

(** The checks for the id and the params that handlers begin with. *)
Definition need_id : M (handler W) unit :=
  h ← gets (fun h => h); CHK_REQ (negb (m_id h =? 0)) "id field not found".
Definition need_params : M (handler W) json :=
  h ← gets (fun h => h); need_req (get_params (m_reader h)) "params field not found".

(** [m_writer.get_doc()] passed to a function that adds to it and may throw. *)
Definition generate (f : json -> res json) : M (handler W) unit :=
  h ← gets (fun h => h); d ← lift (f (m_writer h)); write (fun _ => d).

(** The error that END_TRY leaves in the writer. *)
Definition caught (e : exn) (writer : json) : json :=
  match e with
  | InvalidParam code msg => set_error (reset writer) code msg
  | CommonException s => set_error (reset writer) (-32602) s
  | _ =>
      if is_std_exception e then set_error (reset writer) (-32603) (what e)
      else set_error (reset writer) (-32603) (str "Unknown exception")
  end.

(** BGN_TRY { m } END_TRY(return ret). *)
Definition END_TRY {A} (ret : A) (m : M (handler W) A) : M (handler W) A := fun h =>
  match m h with
  | (h', Throw Undefined) => (h', Throw Undefined)
  | (h', Throw e) => (set_m_writer (caught e (m_writer h')) h', Ok ret)
  | r => r
  end.

(** base_handler(ctx). *)
Definition base_handler (w : W) : handler W :=
  {| m_id := 0; m_async := false; m_reader := JObj []; m_writer := json_rpc_writer_new;
     m_requests := []; world := w |}.
End Fields.

(** What a class of handlers defines: [prepare_params], with [None] for [false]
    and otherwise the members that [execute] uses. *)
Record handler_class (W : Type) := {
  members_t : Type;
  prepare_params : M (handler W) (option members_t);
  execute : members_t -> M (handler W) unit
}.
Arguments members_t {W}. Arguments prepare_params {W}. Arguments execute {W}.

Section Base.
Context {W : Type}.
Variable parse_json : bytes -> option json.
Variable stringify : json -> bytes.
(** [GetParseError] and its text. *)
Variable parse_error : bytes -> Z * bytes.
(** settings::system::validate_methods; the loaded schema, which gives the error
    of a document that it does not accept. *)
Variable validate_methods : bool.
Variable schema : option (json -> option json).

(** The part of prepare behind the schema. *)
Definition prepare_rest (C : handler_class W) : M (handler W) (option (members_t C)) :=
  complete ← prepare_params C;
  h ← gets (fun h => h);
  (if negb (found complete) && negb (m_async h)
      && negb (is_error (m_writer h))
   then write (fun w => set_error (reset w) (-32602) (str "Invalid params"))
   else mret ());;
  mret complete.

(** The part of prepare behind the id. *)
Definition prepare_checked (C : handler_class W) (doc : json) : M (handler W) (option (members_t C)) :=
  if validate_methods then
    accept ← need_req schema "Could not load validation schema";
    match accept doc with
    | Some err =>
        write (fun w => set_error w (-32600) (str "Json validation error for method " ++ get_method doc));;
        write (fun w => set_error_data w err);;
        mret None
    | None => prepare_rest C
    end
  else prepare_rest C.

(** base_handler::prepare. *)
Definition prepare (C : handler_class W) (params : bytes) : M (handler W) (option (members_t C)) :=
  END_TRY None
    (modify (fun h => set_m_reader (default (m_reader h) (parse_json params)) h);;
     CHK_PARSE (found (parse_json params))
       (str "Parse json error " ++ to_string (parse_error params).1 ++ str ": " ++ (parse_error params).2);;
     doc ← gets m_reader;
     id ← lift (get_id doc);
     modify (set_m_id id);;
     write (fun w => set_id w id);;
     prepare_checked C doc).

(** perform<C>: the handler after it, and its result.  No exception but
    [Undefined] leaves [prepare] and [execute], so the catch clauses of [perform]
    are not reached. *)
Definition perform (C : handler_class W) (w : W) (params : bytes) : handler W * res (bool * bytes) :=
  (complete ← prepare C params;
   match complete with Some t => execute C t | None => mret () end;;
   h ← gets (fun h => h);
   mret (m_async h, stringify (m_writer h))) (base_handler w).

(** base_sync_handler::execute. *)
Definition sync_execute (executeImpl : M (handler W) unit) : M (handler W) unit := END_TRY () executeImpl.

(** base_network_handler::execute, in a session. *)
Definition network_execute : M (handler W) unit :=
  END_TRY ()
    (h ← gets (fun h => h);
     modify (add_request (c_str (get_method (m_reader h))) (stringify (m_writer h)));;
     modify (set_m_async true)).

(** The members that process_response does not copy. *)
Definition json_rpc_service : list bytes := [str "id"; str "version"; str "result"; str "error"].

(** The loop over the members of the answer. *)
Fixpoint copy_members (l : members) : M (handler W) unit :=
  match l with
  | [] => mret ()
  | (name, v) :: l' =>
      (if bool_decide (name ∈ json_rpc_service) then mret ()
       else write (fun w => add_value w (string_of_list_ascii (c_str name)) v));;
      copy_members l'
  end.

(** base_network_handler::process_response. *)
Definition process_response (reader : json) : M (handler W) unit :=
  (match get_error reader with
   | Some err => write (fun w => set_error_value w err)
   | None =>
       match get_result reader with
       | Some r => write (fun w => set_result w r)
       | None => CHK_PRM false "No occur result or error"
       end
   end);;
  copy_members (members_of reader).

(** base_network_handler::on_complete on the text of the answer; what it hands to
    [m_context->send_json] is the text of the writer.  [respond] is the
    process_response of the class. *)
Definition on_complete (respond : json -> M (handler W) unit) (answer : bytes) : M (handler W) bytes :=
  END_TRY ()
    (write reset;;
     reader ← match parse_json answer with
              | Some doc => mret doc
              | None => throw (InvalidParam (-32602)
                  (str "Invalid response json, parse error (" ++ to_string (parse_error answer).1
                   ++ str "): " ++ (parse_error answer).2))
              end;
     CHK_PRM (found (get_error reader) || found (get_result reader))
       "No occur result or error";;
     respond reader);;
  h ← gets (fun h => h);
  mret (stringify (m_writer h)).
End Base.

(** ** What every method keeps *)

(** Methods that, whatever happens, keep the id of the request, in the member and
    in the document. *)
Section Keeps.
Context {W : Type}.
Abbreviation H := (handler W).

Definition writer_id (d : json) : json := default JNull (get "id" d).

Definition same_id (h h' : H) : Prop :=
  m_id h' = m_id h /\ writer_id (m_writer h') = writer_id (m_writer h).

#[global] Instance same_id_preorder : PreOrder same_id.
Proof. split; [done|]. intros x y z [H1 H2] [H3 H4]. split; congruence. Qed.

Definition keeps {A} (m : M H A) : Prop := forall h, same_id h (m h).1.

Lemma keeps_ret A (a : A) : keeps (mret a). Proof. done. Qed.
Lemma keeps_throw A e : keeps (throw (A := A) e). Proof. done. Qed.
Lemma keeps_lift A (r : res A) : keeps (lift r). Proof. done. Qed.
Lemma keeps_gets A (f : H -> A) : keeps (gets f). Proof. done. Qed.

Lemma keeps_bind A B (m : M H A) (f : A -> M H B) : keeps m -> (forall a, keeps (f a)) -> keeps (a ← m; f a).
Proof.
  intros Hm Hf h. specialize (Hm h). unfold mbind, M_bind. destruct (m h) as [h1 [a|e]]; [|done].
  cbn in Hm. etrans; [done|]. apply Hf.
Qed.

Lemma keeps_then A B (m : M H A) (k : M H B) : keeps m -> keeps k -> keeps (m;; k).
Proof. intros Hm Hk. apply keeps_bind; auto. Qed.

Lemma keeps_modify (f : H -> H) : (forall h, same_id h (f h)) -> keeps (modify f).
Proof. intros Hf h. apply Hf. Qed.

Lemma keeps_write f : (forall d, writer_id (f d) = writer_id d) -> keeps (write f).
Proof. intros Hf. apply keeps_modify. intros h. split; [done|apply Hf]. Qed.

Lemma keeps_if A (b : bool) (m k : M H A) : keeps m -> keeps k -> keeps (if b then m else k).
Proof. by destruct b. Qed.

Lemma writer_id_reset d : writer_id (reset d) = writer_id d.
Proof. done. Qed.

Lemma writer_id_at root name t f : name <> "id"%string -> writer_id (at_value root name t f) = writer_id root.
Proof. intros Hn. unfold writer_id. by rewrite get_at_value_ne. Qed.

Lemma writer_id_set_error d code msg : writer_id (set_error d code msg) = writer_id d.
Proof. by apply writer_id_at. Qed.

Lemma caught_id e d : writer_id (caught e d) = writer_id d.
Proof. unfold caught. destruct e; cbn [is_std_exception]; by rewrite writer_id_set_error. Qed.

Lemma caught_error e d : is_error (caught e d) = true.
Proof. unfold caught, is_error, set_error. destruct e; cbn [is_std_exception]; by autorewrite with json. Qed.

Lemma keeps_try A (ret : A) (m : M H A) : keeps m -> keeps (END_TRY ret m).
Proof.
  intros Hm h. specialize (Hm h). unfold END_TRY. destruct (m h) as [h1 [a|e]]; [done|].
  destruct e; cbn in *; try done; (etrans; [done|]; split; [done|apply caught_id]).
Qed.

Lemma keeps_chk_prm b msg : keeps (CHK_PRM b msg). Proof. by destruct b. Qed.
Lemma keeps_chk_req b msg : keeps (CHK_REQ b msg). Proof. by destruct b. Qed.
Lemma keeps_need A (o : option A) msg : keeps (need o msg). Proof. by destruct o. Qed.
Lemma keeps_need_req A (o : option A) msg : keeps (need_req o msg). Proof. by destruct o. Qed.
Lemma keeps_add_param name v : keeps (write (fun w => add_param w name v)).
Proof. apply keeps_write. intros d. by apply writer_id_at. Qed.
Lemma keeps_add_result name v : keeps (write (fun w => add_result w name v)).
Proof. apply keeps_write. intros d. by apply writer_id_at. Qed.
Lemma keeps_error code msg : keeps (write (fun w => set_error (reset w) code msg)).
Proof. apply keeps_write. intros d. by rewrite writer_id_set_error. Qed.
Lemma keeps_need_id : keeps need_id.
Proof. unfold need_id. apply keeps_bind; [apply keeps_gets|intros; apply keeps_chk_req]. Qed.
Lemma keeps_need_params : keeps need_params.
Proof. unfold need_params. apply keeps_bind; [apply keeps_gets|intros; apply keeps_need_req]. Qed.
Lemma keeps_world (f : H -> W) : keeps (modify (fun h => set_world (f h) h)).
Proof. by apply keeps_modify. Qed.
End Keeps.

Create HintDb keeps.
#[export] Hint Resolve keeps_ret keeps_throw keeps_lift keeps_gets keeps_bind keeps_if keeps_try
  keeps_chk_prm keeps_chk_req keeps_need keeps_need_req keeps_add_param keeps_add_result keeps_error
  keeps_need_id keeps_need_params keeps_world : keeps.
#[export] Hint Extern 2 (keeps (match ?x with _ => _ end)) => destruct x : keeps.

(** ** Theorems *)

Section Frame.
Context {W : Type} {parse_json : bytes -> option json} {stringify : json -> bytes}.
Context {parse_error : bytes -> Z * bytes} {validate_methods : bool} {schema : option (json -> option json)}.
Abbreviation prep := (prepare (W := W) parse_json parse_error validate_methods schema).

(** The id an answer to [params] carries: the number in the request, null when
    there is none or it is 0 or cannot be read. *)
Definition request_id (params : bytes) : json :=
  match parse_json params with
  | Some doc => match get_id doc with Ok id => if id =? 0 then JNull else JInt id | Throw _ => JNull end
  | None => JNull
  end.

Lemma writer_id_set_id d id : writer_id (set_id d id) = if id =? 0 then JNull else JInt id.
Proof. unfold set_id, writer_id. destruct (id =? 0); by autorewrite with json. Qed.

Lemma END_TRY_inv A (ret : A) (m : M (handler W) A) h h' r :
  END_TRY ret m h = (h', Ok r) ->
  m h = (h', Ok r) \/
  exists h1 e, m h = (h1, Throw e) /\ h' = set_m_writer (caught e (m_writer h1)) h1 /\ r = ret.
Proof.
  unfold END_TRY. destruct (m h) as [h1 [a|e]]; [auto|]. destruct e; intros [= <- <-]; right; eauto.
Qed.

Lemma M_bind_Ok S A B (m : M S A) (f : A -> M S B) s s' b :
  (a ← m; f a) s = (s', Ok b) -> exists s1 a, m s = (s1, Ok a) /\ f a s1 = (s', Ok b).
Proof. unfold mbind, M_bind. destruct (m s) as [s1 [a|e]]; [eauto|done]. Qed.

Lemma set_error_is_error d code msg : is_error (set_error d code msg) = true.
Proof. unfold is_error, set_error. by autorewrite with json. Qed.

Lemma prepare_rest_error (C : handler_class W) h h' :
  prepare_rest C h = (h', Ok None) -> m_async h' = false -> is_error (m_writer h') = true.
Proof.
  intros (h1 & c & _ & E)%M_bind_Ok Ha. unfold gets, mbind, M_bind in E. cbn in E.
  destruct (m_async h1) eqn:Ea, (is_error (m_writer h1)) eqn:Ee, c as [t|]; cbn in E;
    injection E as <-; try done; congruence.
Qed.

Lemma prepare_checked_error (C : handler_class W) doc h h' :
  prepare_checked validate_methods schema C doc h = (h', Ok None) -> m_async h' = false ->
  is_error (m_writer h') = true.
Proof.
  unfold prepare_checked. destruct validate_methods; [|apply prepare_rest_error].
  intros (h1 & acc & _ & E)%M_bind_Ok Ha. destruct (acc doc); [|by eapply prepare_rest_error].
  injection E as <-. cbn. unfold is_error, set_error_data. by autorewrite with json.
Qed.

Lemma prepare_checked_keeps (C : handler_class W) doc :
  keeps (prepare_params C) -> keeps (prepare_checked validate_methods schema C doc).
Proof.
  intros Hk. assert (keeps (prepare_rest C)) as Hr by (unfold prepare_rest; eauto 8 with keeps).
  unfold prepare_checked. destruct validate_methods; [|done]. apply keeps_bind; [auto with keeps|].
  intros acc. destruct (acc doc); [|done].
  apply keeps_then; [|apply keeps_then; [|apply keeps_ret]]; apply keeps_write; intros d; by apply writer_id_at.
Qed.

(** C33: a request that a handler refuses is answered with an error.  For every
    class of handlers that leaves the id alone, when [prepare] returns [false] and
    the answer is not to come later, the answer has an error and the id of the
    request. *)
Theorem refused_request_gets_error (C : handler_class W) w params h :
  keeps (prepare_params C) -> prep C params (base_handler w) = (h, Ok None) -> m_async h = false ->
  is_error (m_writer h) = true /\ writer_id (m_writer h) = request_id params.
Proof.
  intros Hk E Ha. unfold prepare in E. unfold request_id.
  destruct (parse_json params) as [doc|] eqn:Ep; [|by injection E as <-].
  destruct (get_id doc) as [i|e] eqn:Ei.
  - set (h0 := set_m_writer (set_id json_rpc_writer_new i) (set_m_id i (set_m_reader doc (base_handler w)))).
    assert (END_TRY None (prepare_checked validate_methods schema C doc) h0 = (h, Ok None)) as E0.
    { rewrite <- E. unfold END_TRY, modify, CHK_PARSE, gets, lift, write, mbind, M_bind.
      cbn. rewrite Ei. done. }
    split.
    + apply END_TRY_inv in E0 as [E0|(h1 & e & _ & -> & _)]; [by eapply prepare_checked_error|].
      apply caught_error.
    + pose proof (keeps_try _ None _ (prepare_checked_keeps C doc Hk) h0) as [_ Hid]. rewrite E0 in Hid.
      cbn [fst] in Hid. rewrite Hid. apply writer_id_set_id.
  - unfold END_TRY, modify, CHK_PARSE, gets, lift, write, mbind, M_bind in E.
    cbn in E. rewrite Ei in E.
    destruct e; try done; injection E as <-; (split; [apply set_error_is_error|done]).
Qed.

(** The members that an answer may add without touching the answer itself. *)
Definition plain_name (n : bytes) : Prop := c_str n = n.

Lemma c_str_plain n s : plain_name n -> string_of_list_ascii (c_str n) = s -> n = str s.
Proof. intros Hn <-. unfold str. rewrite list_ascii_of_string_of_list_ascii. done. Qed.

(** The loop of process_response, on its own. *)
Definition copied (d : json) (l : members) : json :=
  fold_left (fun d '(name, v) =>
    if bool_decide (name ∈ json_rpc_service) then d
    else add_value d (string_of_list_ascii (c_str name)) v) l d.

Lemma copied_get d l n :
  str n ∈ json_rpc_service -> Forall (fun p => plain_name p.1) l -> get n (copied d l) = get n d.
Proof.
  intros Hn. revert d. induction l as [|[m v] l IH]; intros d Hl; [done|].
  apply Forall_cons in Hl as [Hm Hl]. cbn [fst] in Hm. unfold copied in *. cbn [fold_left]. rewrite IH by done.
  case_bool_decide as Hs; [done|]. unfold add_value. apply get_at_value_ne. intros E.
  apply (c_str_plain m n Hm) in E. by subst m.
Qed.


Lemma set_m_writer_twice (h : handler W) x y : set_m_writer y (set_m_writer x h) = set_m_writer y h.
Proof. done. Qed.

Lemma copy_members_run l (h : handler W) : copy_members l h = (set_m_writer (copied (m_writer h) l) h, Ok ()).
Proof.
  revert h. induction l as [|[n v] l IH]; intros h; [by destruct h|].
  cbn [copy_members]. unfold mbind, M_bind, copied. cbn [fold_left].
  case_bool_decide; cbn; by rewrite IH.
Qed.

(** The answer of the node, as [on_complete] leaves it in the writer. *)
Definition completed (h : handler W) (answer : bytes) : json :=
  m_writer (on_complete parse_json stringify parse_error process_response answer h).1.

(** What a forwarded request is answered with.  The answer of the node that
    has an error, or else a result, is passed on with the id of the request; an
    answer that is no JSON, or has neither, becomes an error.  The text that is
    sent is the text of that document. *)
Theorem forwarded_answer (h : handler W) answer :
  (forall doc, parse_json answer = Some doc -> Forall (fun p => plain_name p.1) (members_of doc)) ->
  snd (on_complete parse_json stringify parse_error process_response answer h)
    = Ok (stringify (completed h answer)) /\
  writer_id (completed h answer) = writer_id (m_writer h) /\
  match parse_json answer with
  | Some doc =>
      match get_error doc, get_result doc with
      | Some e, _ => get_error (completed h answer) = Some e
      | None, Some r => get_result (completed h answer) = Some r /\ is_error (completed h answer) = false
      | None, None => is_error (completed h answer) = true
      end
  | None => is_error (completed h answer) = true
  end.
Proof.
  intros Hpl. unfold completed, on_complete, process_response.
  destruct (parse_json answer) as [doc|] eqn:Ep; [|done].
  specialize (Hpl doc eq_refl).
  assert (forall f, str f ∈ json_rpc_service -> forall d, get f (copied d (members_of doc)) = get f d) as Hc
    by (intros f Hf d; by apply copied_get).
  unfold END_TRY, CHK_PRM, write, modify, gets, throw, mbind, M_bind, mret, M_ret. cbv beta iota.
  destruct (get_error doc) as [e|], (get_result doc) as [r|]; cbn [found orb]; cbv beta iota;
    rewrite ?copy_members_run; cbn [fst snd m_writer set_m_writer].
  all: split_and!; try done.
  all: unfold writer_id, is_error, get_error, get_result, set_error_value, set_result, set_error.
  all: rewrite ?Hc by (apply (bool_decide_unpack _); vm_compute; exact I); by autorewrite with json.
Qed.
End Frame.
