(* ===== verification/Answers.v ===== *)
(** What a class of handlers promises to perform<C> (src/task_handlers/
    base_handler.h), and what perform makes of it.

    A handler either leaves the answer in its writer, or hands exactly one request
    to the node, and never touches the version and the id of the document.  The
    promise is the class [Answering]; the files of the handlers have its
    instances, and [perform_settled] needs nothing else. *)

From Stdlib Require Import String.
From S2P Require Import Prelude Text Json Handlers.
Open Scope Z_scope.

(** ** Documents *)

(** The document is a JSON-RPC message for the request with that id. *)
Definition answer_for (id d : json) : Prop :=
  get "jsonrpc" d = Some (JStr json_rpc_ver) /\ get "id" d = Some id.

Lemma answer_reset i d : answer_for i d -> answer_for i (reset d).
Proof. intros [_ Hi]. unfold answer_for, reset. autorewrite with json. by rewrite Hi. Qed.

Lemma answer_at i d name t f :
  name <> "jsonrpc"%string -> name <> "id"%string -> answer_for i d -> answer_for i (at_value d name t f).
Proof. intros Hj Hn [H1 H2]. unfold answer_for. by rewrite !get_at_value_ne. Qed.

Lemma answer_caught i e d : answer_for i d -> answer_for i (caught e d).
Proof.
  intros H. unfold caught. destruct e; cbn [is_std_exception]; apply answer_at; try done; by apply answer_reset.
Qed.

Lemma answer_new i : answer_for (if i =? 0 then JNull else JInt i) (set_id json_rpc_writer_new i).
Proof. unfold answer_for, set_id. destruct (i =? 0); by autorewrite with json. Qed.

(** ** Handlers *)

Section Triples.
Context {W : Type}.
Abbreviation H := (handler W).

(** Nothing was handed to the node; one request was, and its answer is awaited. *)
Definition fresh (i : json) (h : H) : Prop := answer_for i (m_writer h) /\ m_async h = false /\ m_requests h = [].
Definition handed (i : json) (h : H) : Prop :=
  answer_for i (m_writer h) /\ m_async h = true /\ exists r, m_requests h = [r].
Definition settled (i : json) (h : H) : Prop := fresh i h \/ handed i h.

(** A method that hands nothing to the node; one that may hand one request; a
    prepare_params, whose success means that nothing was handed. *)
Definition stays {A} (m : M H A) : Prop := forall i h, fresh i h -> fresh i (m h).1.
Definition settles {A} (m : M H A) : Prop := forall i h, fresh i h -> settled i (m h).1.
Definition prepares {A} (m : M H (option A)) : Prop := forall i h, fresh i h ->
  match (m h).2 with Ok (Some _) => fresh i (m h).1 | _ => settled i (m h).1 end.

Lemma settled_answer i h : settled i h -> answer_for i (m_writer h).
Proof. by intros [[H _]|[H _]]. Qed.

Lemma settled_caught i e h : settled i h -> settled i (set_m_writer (caught e (m_writer h)) h).
Proof. intros [[H H']|[H H']]; [left|right]; (split; [by apply answer_caught|done]). Qed.

Lemma stays_settles A (m : M H A) : stays m -> settles m.
Proof. intros Hm i h Hh. left. by apply Hm. Qed.
Lemma stays_prepares A (m : M H (option A)) : stays m -> prepares m.
Proof. intros Hm i h Hh. specialize (Hm i h Hh). destruct (m h) as [h' [[a|]|e]]; cbn in *; [done|by left|by left]. Qed.

Lemma stays_ret A (a : A) : stays (mret a). Proof. by intros i h. Qed.
Lemma stays_throw A e : stays (throw (A := A) e). Proof. by intros i h. Qed.
Lemma stays_lift A (r : res A) : stays (lift r). Proof. by intros i h. Qed.
Lemma stays_gets A (f : H -> A) : stays (gets f). Proof. by intros i h. Qed.

Lemma stays_bind A B (m : M H A) (f : A -> M H B) : stays m -> (forall a, stays (f a)) -> stays (a ← m; f a).
Proof.
  intros Hm Hf i h Hh. specialize (Hm i h Hh). unfold mbind, M_bind.
  destruct (m h) as [h1 [a|e]]; [|done]. by apply Hf.
Qed.

Lemma settles_bind A B (m : M H A) (f : A -> M H B) : stays m -> (forall a, settles (f a)) -> settles (a ← m; f a).
Proof.
  intros Hm Hf i h Hh. specialize (Hm i h Hh). unfold mbind, M_bind.
  destruct (m h) as [h1 [a|e]]; [by apply Hf|by left].
Qed.

Lemma prepares_bind A B (m : M H A) (f : A -> M H (option B)) :
  stays m -> (forall a, prepares (f a)) -> prepares (a ← m; f a).
Proof.
  intros Hm Hf i h Hh. specialize (Hm i h Hh). unfold mbind, M_bind.
  destruct (m h) as [h1 [a|e]]; [by apply Hf|by left].
Qed.

Lemma stays_try A (ret : A) (m : M H A) : stays m -> stays (END_TRY ret m).
Proof.
  intros Hm i h Hh. specialize (Hm i h Hh). unfold END_TRY. destruct (m h) as [h1 [a|e]]; [done|].
  destruct e; try done; (split; [apply answer_caught, Hm|apply Hm]).
Qed.

Lemma settles_try A (ret : A) (m : M H A) : settles m -> settles (END_TRY ret m).
Proof.
  intros Hm i h Hh. specialize (Hm i h Hh). unfold END_TRY. destruct (m h) as [h1 [a|e]]; [done|].
  destruct e; try done; by apply settled_caught.
Qed.

Lemma prepares_try A (m : M H (option A)) : prepares m -> prepares (END_TRY None m).
Proof.
  intros Hm i h Hh. specialize (Hm i h Hh). unfold END_TRY. destruct (m h) as [h1 [a|e]]; [done|].
  destruct e; try done; by apply settled_caught.
Qed.

Lemma stays_write f : (forall i d, answer_for i d -> answer_for i (f d)) -> stays (write f).
Proof. intros Hf i h (Hd & Hr). split; [by apply Hf|done]. Qed.
Lemma stays_world (f : H -> W) : stays (modify (fun h => set_world (f h) h)).
Proof. by intros i h. Qed.
Lemma stays_set_world (w : W) : stays (modify (set_world w)).
Proof. by intros i h. Qed.
Lemma stays_if A (b : bool) (m k : M H A) : stays m -> stays k -> stays (if b then m else k).
Proof. by destruct b. Qed.
Lemma settles_if A (b : bool) (m k : M H A) : settles m -> settles k -> settles (if b then m else k).
Proof. by destruct b. Qed.

Lemma stays_chk_prm b msg : stays (CHK_PRM b msg). Proof. destruct b; [apply stays_ret|apply stays_throw]. Qed.
Lemma stays_chk_req b msg : stays (CHK_REQ b msg). Proof. destruct b; [apply stays_ret|apply stays_throw]. Qed.
Lemma stays_need A (o : option A) msg : stays (need o msg). Proof. destruct o; [apply stays_ret|apply stays_throw]. Qed.
Lemma stays_need_req A (o : option A) msg : stays (need_req o msg).
Proof. destruct o; [apply stays_ret|apply stays_throw]. Qed.
Lemma stays_need_id : stays need_id.
Proof. apply stays_bind; [apply stays_gets|intros; apply stays_chk_req]. Qed.
Lemma stays_need_params : stays need_params.
Proof. apply stays_bind; [apply stays_gets|intros; apply stays_need_req]. Qed.

(** A function that adds to the document. *)
Definition extends_answer (f : json -> res json) : Prop :=
  forall i d d', f d = Ok d' -> answer_for i d -> answer_for i d'.

Lemma stays_generate f : extends_answer f -> stays (generate f).
Proof.
  intros Hf i h (Hd & Hr). unfold generate, gets, lift, mbind, M_bind.
  destruct (f (m_writer h)) as [d|e] eqn:E; [|by split]. split; [by eapply Hf|done].
Qed.

Lemma settles_network stringify : settles (network_execute stringify).
Proof.
  intros i h (Hd & Ha & Hr). unfold network_execute, END_TRY, gets, modify, mbind, M_bind. cbn. right.
  split; [done|]. split; [done|]. cbn. rewrite Hr. by eexists.
Qed.

(** A method that lets no exception out. *)
Definition catches {A} (m : M H A) : Prop := forall h e, (m h).2 = Throw e -> e = Undefined.

Lemma catches_try A (ret : A) (m : M H A) : catches (END_TRY ret m).
Proof. intros h e. unfold END_TRY. destruct (m h) as [h' [a|[]]]; cbn; try done; by intros [= <-]. Qed.
Lemma catches_ret A (a : A) : catches (mret a).
Proof. done. Qed.

(** A handler that asks the node before it can answer. *)
Lemma prepares_ask {A} path body :
  prepares (A := A) (modify (set_m_async true);; modify (add_request path body);; mret None).
Proof.
  intros i h (Hd & Ha & Hr). right. split; [done|]. split; [done|]. exists (path, body).
  change (m_requests h ++ [(path, body)] = [(path, body)]). by rewrite Hr.
Qed.
End Triples.

Create HintDb answers.
#[export] Hint Resolve stays_ret stays_throw stays_lift stays_gets stays_bind stays_try stays_world stays_set_world
  stays_if stays_chk_prm stays_chk_req stays_need stays_need_req stays_need_id stays_need_params stays_generate
  settles_network catches_try catches_ret answer_reset answer_at : answers.
#[export] Hint Extern 2 (stays (match ?x with _ => _ end)) => destruct x : answers.
#[export] Hint Extern 2 (stays (write _)) => apply stays_write; intros : answers.
#[export] Hint Extern 1 (_ <> _) => discriminate : answers.

(** Follow the shape of a method down to its calls. *)
Ltac follow :=
  repeat match goal with
  | |- prepares (mbind _ (modify (set_m_async true))) => apply prepares_ask
  | |- catches (let '(_, _) := ?x in _) => destruct x
  | |- stays (END_TRY _ _) => apply stays_try
  | |- settles (END_TRY _ _) => apply settles_try
  | |- prepares (END_TRY _ _) => apply prepares_try
  | |- stays (mbind _ _) => apply stays_bind; [|intros ?]
  | |- settles (mbind _ _) => apply settles_bind; [|intros ?]
  | |- prepares (mbind _ _) => apply prepares_bind; [|intros ?]
  | |- stays (if ?b then _ else _) => destruct b
  | |- settles (if ?b then _ else _) => destruct b
  | |- prepares (if ?b then _ else _) => destruct b
  | |- stays (match ?x with _ => _ end) => destruct x
  | |- settles (match ?x with _ => _ end) => destruct x
  | |- prepares (match ?x with _ => _ end) => destruct x
  | _ => solve [eauto with answers | apply stays_settles; eauto with answers | apply stays_prepares; eauto with answers]
  end.

(** ** perform *)

(** What a class of handlers promises. *)
Class Answering {W} (C : handler_class W) : Prop := {
  prepare_answers : prepares (prepare_params C);
  execute_answers : forall t, settles (execute C t);
  execute_catches : forall t, catches (execute C t)
}.

Section Perform.
Context {W : Type} {parse_json : bytes -> option json} {stringify : json -> bytes}.
Context {parse_error : bytes -> Z * bytes} {validate_methods : bool} {schema : option (json -> option json)}.
Abbreviation prep := (prepare (W := W) parse_json parse_error validate_methods schema).

Lemma prepare_rest_prepares (C : handler_class W) `{!Answering C} : prepares (prepare_rest C).
Proof.
  intros i h Hh. pose proof (prepare_answers i h Hh) as Hp. unfold prepare_rest, gets, mbind, M_bind.
  destruct (prepare_params C h) as [h1 [[t|]|e]]; cbn in Hp |- *; [|destruct Hp as [Hp|Hp]|done].
  - done.
  - destruct Hp as (Hd & Ha & Hr). rewrite Ha. destruct (is_error _); cbn; left; [done|].
    split; [|done]. apply answer_at; [done|done|by apply answer_reset].
  - destruct Hp as (Hd & Ha & Hr). rewrite Ha. cbn. by right.
Qed.

Lemma prepare_checked_prepares (C : handler_class W) doc `{!Answering C} :
  prepares (prepare_checked validate_methods schema C doc).
Proof.
  unfold prepare_checked. destruct validate_methods; [|by apply prepare_rest_prepares].
  apply prepares_bind; [apply stays_need_req|]. intros acc. destruct (acc doc) as [err|]; [|by apply prepare_rest_prepares].
  apply stays_prepares. follow.
Qed.

Lemma prepare_fresh (C : handler_class W) w params `{!Answering C} h c :
  prep C params (base_handler w) = (h, Ok c) ->
  match c with Some _ => fresh (request_id (parse_json := parse_json) params) h
             | None => settled (request_id (parse_json := parse_json) params) h end.
Proof.
  intros E. unfold prepare in E. unfold request_id.
  destruct (parse_json params) as [doc|] eqn:Ep; [|injection E as <- <-; by left].
  destruct (get_id doc) as [i|e] eqn:Ei.
  - set (h0 := set_m_writer (set_id json_rpc_writer_new i) (set_m_id i (set_m_reader doc (base_handler w)))).
    assert (END_TRY None (prepare_checked validate_methods schema C doc) h0 = (h, Ok c)) as E0.
    { rewrite <- E. unfold END_TRY, modify, CHK_PARSE, gets, lift, write, mbind, M_bind. cbn. rewrite Ei. done. }
    pose proof (prepares_try _ _ (prepare_checked_prepares C doc) (if i =? 0 then JNull else JInt i) h0
      (conj (answer_new i) (conj eq_refl eq_refl))) as Hp.
    rewrite E0 in Hp. destruct c; exact Hp.
  - unfold END_TRY, modify, CHK_PARSE, gets, lift, write, mbind, M_bind in E. cbn in E. rewrite Ei in E.
    destruct e; try done; injection E as <- <-; left; (split; [apply answer_at; done|done]).
Qed.

(** What perform returns: either the text of the answer, with nothing handed to
    the node, or the notice that the answer comes later, with exactly one request
    handed to it; in both cases the document carries the id of the request. *)
Lemma perform_settled (C : handler_class W) w params `{!Answering C} h async text :
  perform parse_json stringify parse_error validate_methods schema C w params = (h, Ok (async, text)) ->
  text = stringify (m_writer h) /\ async = m_async h /\ settled (request_id (parse_json := parse_json) params) h.
Proof.
  unfold perform. intros (h1 & c & Ep & E)%M_bind_Ok. apply M_bind_Ok in E as (h2 & [] & Ex & E).
  unfold gets, mbind, M_bind in E. cbn in E. injection E as <- <- <-. split; [done|]. split; [done|].
  apply prepare_fresh in Ep; [|done]. destruct c as [t|]; [|by injection Ex as <-].
  pose proof (execute_answers t _ _ Ep) as Hx. by rewrite Ex in Hx.
Qed.

(** No exception leaves it; what is left is undefined behaviour. *)
Lemma perform_catches (C : handler_class W) w params `{!Answering C} h e :
  perform parse_json stringify parse_error validate_methods schema C w params = (h, Throw e) -> e = Undefined.
Proof.
  unfold perform, mbind, M_bind. destruct (prep C params (base_handler w)) as [h1 [c|e1]] eqn:Ep.
  - destruct c as [t|]; cbn [mret M_ret]; [|done]. destruct (execute C t h1) as [h2 [[]|e2]] eqn:Ex; [done|].
    intros [= _ <-]. apply (execute_catches t h1). by rewrite Ex.
  - intros [= _ <-]. unfold prepare in Ep. eapply (catches_try _ _ _ (base_handler w)). by rewrite Ep.
Qed.
End Perform.

(** ** Parts of the state that a handler leaves alone *)

Section Untouched.
Context {W A : Type} (part : W -> A).
Abbreviation H := (handler W).

Definition untouched {B} (m : M H B) : Prop := forall h, part (world (m h).1) = part (world h).

Lemma untouched_same B (m : M H B) : (forall h, world (m h).1 = world h) -> untouched m.
Proof. intros Hm h. by rewrite Hm. Qed.
Lemma untouched_ret B (b : B) : untouched (mret b). Proof. done. Qed.
Lemma untouched_throw B e : untouched (throw (A := B) e). Proof. done. Qed.
Lemma untouched_lift B (r : res B) : untouched (lift r). Proof. done. Qed.
Lemma untouched_gets B (f : H -> B) : untouched (gets f). Proof. done. Qed.
Lemma untouched_modify (f : H -> H) : (forall h, part (world (f h)) = part (world h)) -> untouched (modify f).
Proof. intros Hf h. apply Hf. Qed.
Lemma untouched_write f : untouched (write f). Proof. done. Qed.
Lemma untouched_bind B C (m : M H B) (f : B -> M H C) : untouched m -> (forall b, untouched (f b)) -> untouched (b ← m; f b).
Proof.
  intros Hm Hf h. specialize (Hm h). unfold mbind, M_bind. destruct (m h) as [h1 [b|e]]; [|done]. cbn in Hm. by rewrite Hf.
Qed.
Lemma untouched_try B (b : B) (m : M H B) : untouched m -> untouched (END_TRY b m).
Proof. intros Hm h. specialize (Hm h). unfold END_TRY. destruct (m h) as [h1 [c|[]]]; done. Qed.
Lemma untouched_chk_prm b msg : untouched (CHK_PRM b msg). Proof. by destruct b. Qed.
Lemma untouched_chk_req b msg : untouched (CHK_REQ b msg). Proof. by destruct b. Qed.
Lemma untouched_chk_parse b msg : untouched (CHK_PARSE b msg). Proof. by destruct b. Qed.
Lemma untouched_need B (o : option B) msg : untouched (need o msg). Proof. by destruct o. Qed.
Lemma untouched_need_req B (o : option B) msg : untouched (need_req o msg). Proof. by destruct o. Qed.
Lemma untouched_copy_members l : untouched (copy_members l).
Proof. induction l as [|[name v] l IH]; [done|]. cbn [copy_members]. apply untouched_bind; [by case_bool_decide|done]. Qed.

(** A class of handlers that leaves it alone. *)
Class Untouching (C : handler_class W) : Prop := {
  prepare_untouched : untouched (prepare_params C);
  execute_untouched : forall t, untouched (execute C t)
}.
End Untouched.

(** Follow the shape of a method down to its calls, as [follow] does. *)
Create HintDb untouched.
#[export] Hint Resolve untouched_ret untouched_throw untouched_lift untouched_gets untouched_write untouched_chk_prm
  untouched_chk_req untouched_chk_parse untouched_need untouched_need_req untouched_copy_members : untouched.

Ltac follow_untouched :=
  repeat match goal with
  | |- untouched _ (END_TRY _ _) => apply untouched_try
  | |- untouched _ (mbind _ _) => apply untouched_bind; [|intros ?]
  | |- untouched _ (if ?b then _ else _) => destruct b
  | |- untouched _ (match ?x with _ => _ end) => destruct x
  | _ => solve [eauto with untouched | done | by apply untouched_modify]
  end.

Section PerformUntouched.
Context {W A : Type} {part : W -> A} {parse_json : bytes -> option json} {stringify : json -> bytes}.
Context {parse_error : bytes -> Z * bytes} {validate_methods : bool} {schema : option (json -> option json)}.

Lemma perform_untouched C w params `{!Untouching part C} :
  part (world (perform parse_json stringify parse_error validate_methods schema C w params).1) = part w.
Proof.
  pose proof (prepare_untouched part (C := C)). pose proof (execute_untouched part (C := C)). unfold perform.
  match goal with |- part (world (?m (base_handler w)).1) = _ => assert (untouched part m) as Hm end; [|apply Hm].
  unfold prepare, prepare_checked, prepare_rest. follow_untouched.
Qed.

Lemma network_untouched : untouched part (network_execute stringify).
Proof. unfold network_execute. follow_untouched. Qed.

Lemma process_response_untouched reader : untouched part (process_response reader).
Proof. unfold process_response. follow_untouched. Qed.

Lemma on_complete_untouched respond text :
  (forall reader, untouched part (respond reader)) ->
  untouched part (on_complete parse_json stringify parse_error respond text).
Proof. intros Hr. unfold on_complete. follow_untouched. Qed.
End PerformUntouched.
#[export] Hint Resolve network_untouched process_response_untouched on_complete_untouched : untouched.
