(* ===== verification/TxHandlers.v ===== *)
(** The handlers around wallets and transactions: src/task_handlers/
    generate_handler.cpp, addr_validate_handler.cpp, create_tx_base_handler.cpp,
    create_tx_handler.cpp and send_tx_handler.cpp.

    What these handlers share is the wallet (WalletStorage); OpenSSL and SHA-256
    are parameters as in Crypto and Transaction.  The virtual functions
    [make_json] and [build_request] are arguments of the functions that call
    them. *)

From Stdlib Require Import String.
From S2P Require Import Prelude Text Hex Endian Compact Crypto Transaction WalletStorage Json Handlers.
Open Scope Z_scope.

(** The members of create_tx_base_handler. *)
Record tx_fields := {
  f_address : bytes;
  f_to : bytes;
  f_value : Z;
  f_fee : Z;
  f_nonce : Z;
  f_data : bytes;
  f_keys : crypt_keys;
  f_transaction : bytes;
  f_sign : bytes;
  f_hash : bytes
}.

Definition with_nonce (f : tx_fields) (n : Z) : tx_fields :=
  {| f_address := f_address f; f_to := f_to f; f_value := f_value f; f_fee := f_fee f; f_nonce := n;
     f_data := f_data f; f_keys := f_keys f; f_transaction := f_transaction f; f_sign := f_sign f;
     f_hash := f_hash f |}.

Section Handlers.
Context `{OpenSSL}.
Variable SHA256 : bytes -> bytes.
Variable wallet_stotage : bytes.
Variable writable : bytes -> bool.
Variable parse_json : bytes -> option json.
Variable stringify : json -> bytes.
Variable parse_error : bytes -> Z * bytes.
(** settings::system::useLocalDatabase, and [sync.getBalance(address).countSpent]
    of the local database, [None] when there is none. *)
Variable useLocalDatabase : bool.
Variable countSpent_of : option (bytes -> Z).

Abbreviation HM := (M (handler store_state)).

(** [m_reader.get_value(params, name, v) && !v.empty()]. *)
Definition get_text (params : json) (name : string) : option bytes :=
  match get_value_str params name with
  | Some s => if bool_decide (s = []) then None else Some s
  | None => None
  end.

(** [storage::keys::peek]. *)
Definition peek_keys (address : bytes) : HM (option crypt_keys) :=
  h ← gets (fun h => h);
  let (k, s) := peek wallet_stotage (world h) address in
  modify (set_world s);; mret k.

(** ** generate_handler, addr_validate_handler *)

Definition generate_execute (run : keygen_run) : HM unit :=
  END_TRY ()
    (wallet ← lift (CRYPTO_generate_wallet run);
     let keys := {| pub_key := bin2hex (public_key_buf wallet); prv_key := bin2hex (private_key_buf wallet) |} in
     let address := str "0x" ++ bin2hex (mh_address_buf wallet) in
     h ← gets (fun h => h);
     let (ok, s) := store wallet_stotage writable (world h) address keys in
     modify (set_world s);;
     CHK_PRM ok "Failed on store keys";;
     write (fun w => add_result w "address" (JStr address));;
     write (fun w => add_result w "pub_key" (JStr (bin2hex (public_key_buf wallet))));;
     write (fun w => add_result w "prv_key" (JStr (bin2hex (private_key_buf wallet))))).

Definition generate_handler (run : keygen_run) : handler_class store_state :=
  {| members_t := unit; prepare_params := END_TRY None (need_id;; mret (Some ()));
     execute := fun _ => generate_execute run |}.

Definition addr_validate_prepare : HM (option bytes) :=
  END_TRY None
    (need_id;; params ← need_params;
     address ← need (get_text params "address") "address field not found";
     mret (Some address)).

Definition addr_validate_execute (address : bytes) : HM unit :=
  END_TRY ()
    (ok ← lift (validate_address address);
     CHK_PRM ok "address not valid";;
     write (fun w => add_result w "validate" (JStr (str "ok")))).

Definition addr_validate_handler : handler_class store_state :=
  {| members_t := bytes; prepare_params := addr_validate_prepare; execute := addr_validate_execute |}.

(** ** create_tx_base_handler *)

(** [m_fee] when the field is absent or has another format. *)
Definition read_fee (params : json) : HM Z :=
  match val2str (get "fee" params) with
  | Some tmp => lift (stoull tmp)
  | None => mret 0
  end.

Definition check_params : HM (option tx_fields) :=
  END_TRY None
    (need_id;; params ← need_params;
     address ← need (get_text params "address") "address field not found";
     ok ← lift (validate_address address);
     CHK_PRM ok "payer address is invalid";;
     to ← need (get_text params "to") "to field not found";
     ok ← lift (validate_address to);
     CHK_PRM ok "reciever address is invalid";;
     jValue ← need (get "value" params) "value field not found";
     tmp ← need (val2str (Some jValue)) "value field incorrect format";
     value ← lift (stoull tmp);
     fee ← read_fee params;
     keys ← peek_keys address;
     keys ← need keys "failed on get keys";
     mret (Some {| f_address := address; f_to := to; f_value := value; f_fee := fee; f_nonce := 0;
                   f_data := default [] (get_value_str params "data"); f_keys := keys;
                   f_transaction := []; f_sign := []; f_hash := [] |})).

(** The call of make_tx on the members. *)
Definition hash_of (f : tx_fields) : res (bool * bytes) :=
  make_tx SHA256 (f_hash f) "xuxux"
    [VaStr (f_transaction f); VaInt (zlen (f_sign f) / 2); VaStr (f_sign f);
     VaInt (zlen (pub_key (f_keys f)) / 2); VaStr (pub_key (f_keys f))].

Definition build_request (make_json : tx_fields -> json -> json) (create_hash : bool) (f : tx_fields)
  : HM (option tx_fields) :=
  END_TRY None
    (let fee := if f_fee f =? 0 then zlen (f_data f) else f_fee f in
     let data := toHex (f_data f) in
     r ← lift (gen_sign (f_transaction f) (f_sign f) (prv_key (f_keys f)) "xUUUux"
                 [VaStr (f_to f); VaInt (f_value f); VaInt fee; VaInt (f_nonce f);
                  VaInt (zlen data / 2); VaStr data]);
     let '(ok, transaction, sign) := (r : bool * bytes * bytes) in
     CHK_PRM ok "failed on gen sign";;
     let f := {| f_address := f_address f; f_to := f_to f; f_value := f_value f; f_fee := fee;
                 f_nonce := f_nonce f; f_data := data; f_keys := f_keys f; f_transaction := transaction;
                 f_sign := sign; f_hash := f_hash f |} in
     f ← (if create_hash then
            r ← lift (hash_of f);
            let '(ok, hash) := (r : bool * bytes) in
            CHK_PRM ok "failed on generate tx";;
            mret {| f_address := f_address f; f_to := f_to f; f_value := f_value f; f_fee := f_fee f;
                    f_nonce := f_nonce f; f_data := f_data f; f_keys := f_keys f;
                    f_transaction := f_transaction f; f_sign := f_sign f; f_hash := hash |}
          else mret f);
     write (make_json f);;
     mret (Some f)).

(** [!m_fee ? "" : std::to_string(m_fee)]. *)
Definition fee_text (fee : Z) : bytes := if fee =? 0 then [] else to_string fee.

Definition make_json (f : tx_fields) (w : json) : json :=
  let w := set_method (reset w) (str "mhc_send") in
  let w := add_param w "transaction" (JStr (c_str (f_transaction f))) in
  let w := add_param w "to" (JStr (c_str (f_to f))) in
  let w := add_param w "value" (JStr (to_string (f_value f))) in
  let w := add_param w "fee" (JStr (fee_text (f_fee f))) in
  let w := add_param w "nonce" (JStr (to_string (f_nonce f))) in
  let w := add_param w "data" (JStr (c_str (f_data f))) in
  let w := add_param w "pubkey" (JStr (pub_key (f_keys f))) in
  let w := add_param w "sign" (JStr (f_sign f)) in
  if bool_decide (f_hash f = []) then w else add_param w "hash" (JStr (f_hash f)).

(** create_tx_handler_v2::make_json. *)
Definition make_json_v2 (f : tx_fields) (w : json) : json :=
  let w := add_result (reset w) "transaction" (JStr (c_str (f_transaction f))) in
  let w := add_result w "to" (JStr (c_str (f_to f))) in
  let w := add_result w "value" (JStr (to_string (f_value f))) in
  let w := add_result w "fee" (JStr (fee_text (f_fee f))) in
  let w := add_result w "nonce" (JStr (to_string (f_nonce f))) in
  let w := add_result w "data" (JStr (c_str (f_data f))) in
  let w := add_result w "pubkey" (JStr (pub_key (f_keys f))) in
  let w := add_result w "sign" (JStr (f_sign f)) in
  add_result w "hash" (JStr (f_hash f)).

(** ** create_tx_handler *)

Definition create_tx_prepare (build : tx_fields -> HM (option tx_fields)) : HM (option tx_fields) :=
  END_TRY None
    (o ← check_params;
     match o with
     | None => mret None
     | Some f =>
         h ← gets (fun h => h);
         let params := default JNull (get_params (m_reader h)) in
         jValue ← need (get "nonce" params) "nonce field not found";
         tmp ← need (val2str (Some jValue)) "nonce field has incorrect format";
         nonce ← lift (stoull tmp);
         build (with_nonce f nonce)
     end).

Definition create_tx_handler : handler_class store_state :=
  {| members_t := tx_fields; prepare_params := create_tx_prepare (build_request make_json false);
     execute := fun _ => mret () |}.
Definition create_tx_handler_v2 : handler_class store_state :=
  {| members_t := tx_fields; prepare_params := create_tx_prepare (build_request make_json_v2 true);
     execute := fun _ => mret () |}.

(** ** send_tx_handler *)

(** The result of send_tx_handler::check_params: -1, 0 with the members, 1 with
    the transaction, the address and its keys. *)
Inductive checked_tx :=
| CkError
| CkFields (f : tx_fields)
| CkTransaction (transaction address : bytes) (keys : crypt_keys).

Definition send_check_params : HM checked_tx :=
  END_TRY CkError
    (need_id;; params ← need_params;
     match get_text params "transaction" with
     | None => o ← check_params; mret (match o with Some f => CkFields f | None => CkError end)
     | Some transaction =>
         address ← need (get_text params "address") "address field not found";
         ok ← lift (validate_address address);
         CHK_PRM ok "address is invalid";;
         keys ← peek_keys address;
         keys ← need keys "failed on get keys";
         mret (CkTransaction transaction address keys)
     end).

(** The case 1 of prepare_params: a given transaction is signed and hashed. *)
Definition send_given (transaction address : bytes) (keys : crypt_keys) : HM tx_fields :=
  r ← lift (parse_tansaction transaction no_output);
  let '(ok, p) := (r : bool * parsed) in
  CHK_PRM ok "failed on parse transaction";;
  sign ← lift (CRYPTO_sign_data (prv_key keys) (hex2bin transaction));
  let f := {| f_address := address; f_to := p_to p; f_value := p_value p; f_fee := p_fee p;
              f_nonce := p_nonce p; f_data := p_data p; f_keys := keys; f_transaction := transaction;
              f_sign := bin2hex sign; f_hash := [] |} in
  r ← lift (hash_of f);
  let '(ok, hash) := (r : bool * bytes) in
  CHK_PRM ok "failed on generate tx";;
  let f := {| f_address := f_address f; f_to := f_to f; f_value := f_value f; f_fee := f_fee f;
              f_nonce := f_nonce f; f_data := f_data f; f_keys := f_keys f;
              f_transaction := f_transaction f; f_sign := f_sign f; f_hash := hash |} in
  write (make_json f);;
  mret f.

(** The request for the balance, when the nonce is not given. *)
Definition balance_request (address : bytes) : json :=
  add_param (set_id json_rpc_writer_new 1) "address" (JStr address).

Definition send_prepare : HM (option tx_fields) :=
  END_TRY None
    (c ← send_check_params;
     match c with
     | CkError => mret None
     | CkTransaction transaction address keys => f ← send_given transaction address keys; mret (Some f)
     | CkFields f =>
         h ← gets (fun h => h);
         let params := default JNull (get_params (m_reader h)) in
         match get "nonce" params with
         | Some jValue =>
             tmp ← need (val2str (Some jValue)) "'nonce' field has incorrect format";
             nonce ← lift (stoull tmp);
             build_request make_json true (with_nonce f nonce)
         | None =>
             if useLocalDatabase then
               count ← need countSpent_of "Sync not set";
               build_request make_json true (with_nonce f (u64 (count (f_address f) + 1)))
             else
               modify (set_m_async true);;
               modify (add_request (str "fetch-balance") (stringify (balance_request (f_address f))));;
               mret None
         end
     end).

Definition send_tx_handler : handler_class store_state :=
  {| members_t := tx_fields; prepare_params := send_prepare; execute := fun _ => network_execute stringify |}.

(** on_get_balance on the answer to that request: the text that is sent, [None]
    when the transaction was forwarded. *)
Definition on_get_balance (f : tx_fields) (answer : bytes) : HM (option bytes) :=
  sends ← END_TRY true
    (reader ← match parse_json answer with
              | Some doc => mret doc
              | None => throw (InvalidParam (-32602)
                  (str "fetch-balane response parse error (" ++ to_string (parse_error answer).1
                   ++ str "): " ++ (parse_error answer).2))
              end;
     CHK_PRM (found (get_error reader) || found (get_result reader)) "No occur result or error";;
     match get_error reader with
     | Some err => write (fun w => set_error_value (reset w) err);; mret true
     | None =>
         count_spent ← need (get_value_u64 (default JNull (get_result reader)) "count_spent")
                         "fetch-balane response: field 'count_spent' not found";
         o ← build_request make_json true (with_nonce f (u64 (count_spent + 1)));
         match o with
         | None => mret true
         | Some _ => network_execute stringify;; mret false
         end
     end);
  h ← gets (fun h => h);
  mret (if (sends : bool) then Some (stringify (m_writer h)) else None).

(** send_tx_handler::process_response. *)
Definition send_process_response (reader : json) : HM unit :=
  match get_error reader with
  | Some err => write (fun w => set_error_value w err)
  | None =>
      params ← need (get_params reader) "send-tx response: params field not found";
      CHK_PRM (IsString params) "send-tx response: params field has incorrect format";;
      write (fun w => set_result w params)
  end.
End Handlers.

(** ** Lemmas *)

Lemma make_json_id f d : writer_id (make_json f d) = writer_id d.
Proof.
  unfold make_json, add_param, set_method. case_bool_decide; rewrite !writer_id_at by done; apply writer_id_reset.
Qed.

Section Facts.
Context `{L : OpenSSL}.
Context {SHA256 : bytes -> bytes} {wallet_stotage : bytes} {writable : bytes -> bool}.
Context {parse_json : bytes -> option json} {stringify : json -> bytes} {parse_error : bytes -> Z * bytes}.
Context {useLocalDatabase : bool} {countSpent_of : option (bytes -> Z)}.

(** A member that holds an amount, as a number or as text. *)
Definition amount (p : json) (name : string) (v : Z) : Prop :=
  exists j s, get name p = Some j /\ val2str (Some j) = Some s /\ stoull s = Ok v.

(** A member that is absent, for 0, or holds an amount. *)
Definition optional_amount (p : json) (name : string) (v : Z) : Prop :=
  (get name p = None /\ v = 0) \/ amount p name v.

Lemma amount_range p name v : amount p name v -> 0 <= v <= UINT64_MAX.
Proof. intros (j & s & _ & _ & Hs). by eapply stoull_range. Qed.

Lemma read_fee_run p fee h : optional_amount p "fee" fee -> read_fee p h = (h, Ok fee).
Proof.
  unfold read_fee. intros [[-> ->]|(j & s & -> & -> & Hs)]; [done|]. unfold lift. by rewrite Hs.
Qed.

Lemma get_text_run p name s : get_value_str p name = Some s -> s <> [] -> get_text p name = Some s.
Proof. intros Hg Hs. unfold get_text. rewrite Hg. by rewrite bool_decide_eq_false_2. Qed.

(** The request the handlers of transactions accept. *)
Record tx_request (h : handler store_state) (p : json) (a to : bytes) (value fee : Z) (k : crypt_keys)
  (s' : store_state) : Prop := {
  rq_id : m_id h <> 0;
  rq_params : get_params (m_reader h) = Some p;
  rq_address : get_value_str p "address" = Some a;
  rq_payer : validate_address a = Ok true;
  rq_to : get_value_str p "to" = Some to;
  rq_receiver : validate_address to = Ok true;
  rq_value : amount p "value" value;
  rq_fee : optional_amount p "fee" fee;
  rq_keys : peek wallet_stotage (world h) a = (Some k, s')
}.

Definition fields (p : json) (a to : bytes) (value fee : Z) (k : crypt_keys) : tx_fields :=
  {| f_address := a; f_to := to; f_value := value; f_fee := fee; f_nonce := 0;
     f_data := default [] (get_value_str p "data"); f_keys := k; f_transaction := [];
     f_sign := []; f_hash := [] |}.

Lemma valid_nonempty a : validate_address a = Ok true -> a <> [].
Proof. intros Ha ->. discriminate Ha. Qed.

Lemma check_params_run h p a to value fee k s' :
  tx_request h p a to value fee k s' ->
  check_params wallet_stotage h = (set_world s' h, Ok (Some (fields p a to value fee k))).
Proof.
  intros [Hi Hp Ha Hav Ht Htv (j & s & Hj & Hs & Hv) Hf Hk].
  unfold check_params, END_TRY, need_id, need_params, CHK_REQ, gets, need_req, need, lift, mbind, M_bind.
  rewrite (proj2 (Z.eqb_neq _ _) Hi). cbn [negb mret M_ret]. rewrite Hp. cbn [mret M_ret].
  rewrite (get_text_run _ _ _ Ha) by (by apply valid_nonempty). cbn [mret M_ret].
  rewrite Hav. cbn [CHK_PRM mret M_ret]. rewrite (get_text_run _ _ _ Ht) by (by apply valid_nonempty).
  cbn [mret M_ret]. rewrite Htv. cbn [CHK_PRM mret M_ret]. rewrite Hj. cbn [mret M_ret]. rewrite Hs.
  cbn [mret M_ret]. rewrite Hv, (read_fee_run _ _ _ Hf). unfold peek_keys, gets, mbind, M_bind.
  rewrite Hk. done.
Qed.

(** The transaction that [build_request] signs. *)
Definition tx_of (f : tx_fields) (to : bytes) : tx :=
  {| tx_to := to; tx_value := f_value f; tx_fee := if f_fee f =? 0 then zlen (f_data f) else f_fee f;
     tx_nonce := f_nonce f; tx_data := f_data f |}.

Definition signed_fields (f : tx_fields) (t : tx) (sign hash : bytes) : tx_fields :=
  {| f_address := f_address f; f_to := f_to f; f_value := f_value f; f_fee := tx_fee t;
     f_nonce := f_nonce f; f_data := bin2hex (f_data f); f_keys := f_keys f;
     f_transaction := bin2hex (tx_bytes t); f_sign := bin2hex sign; f_hash := hash |}.

Lemma gen_sign_tx f to sign :
  let t := tx_of f to in
  f_to f = str "0x" ++ bin2hex to -> tx_wf t ->
  CRYPTO_sign_data (prv_key (f_keys f)) (tx_bytes t) = Ok sign ->
  gen_sign (f_transaction f) (f_sign f) (prv_key (f_keys f)) "xUUUux"
    [VaStr (f_to f); VaInt (f_value f); VaInt (tx_fee t); VaInt (f_nonce f);
     VaInt (zlen (toHex (f_data f)) / 2); VaStr (toHex (f_data f))]
  = Ok (true, bin2hex (tx_bytes t), bin2hex sign).
Proof.
  intros t Hto Hwf Hs. rewrite Hto, toHex_bin2hex. fold (tx_args t). unfold gen_sign.
  change (pack _ _ []) with (pack (str "xUUUux") (tx_args t) []).
  rewrite pack_tx by done. cbn [mbind res_bind].
  rewrite bool_decide_eq_false_2, Hs; [done|]. destruct Hwf as [Hl _]. unfold tx_bytes.
  intros E%(f_equal length). rewrite length_app in E. cbn [length] in E. lia.
Qed.

(** The transaction of a request is well-formed. *)
Lemma request_tx_wf h p a to value fee k s' nonce :
  tx_request h p a (str "0x" ++ bin2hex to) value fee k s' -> length to = 25%nat -> 0 <= nonce <= UINT64_MAX ->
  let data := default [] (get_value_str p "data") in
  zlen data <= UINT32_MAX ->
  tx_wf {| tx_to := to; tx_value := value; tx_fee := if fee =? 0 then zlen data else fee; tx_nonce := nonce; tx_data := data |}.
Proof.
  intros Hrq Hto Hn data Hd. pose proof (amount_range _ _ _ (rq_value _ _ _ _ _ _ _ _ Hrq)).
  assert (0 <= fee <= UINT64_MAX).
  { destruct (rq_fee _ _ _ _ _ _ _ _ Hrq) as [[_ ->]|Hf]; [done|by apply amount_range in Hf]. }
  pose proof (zlen_nonneg data). clearbody data. unfold tx_wf, UINT64_MAX, UINT32_MAX in *.
  split_and!; cbn [tx_to tx_value tx_fee tx_nonce tx_data]; try done; try lia; destruct (fee =? 0); lia.
Qed.

(** build_request without a hash, and with one. *)
Lemma build_request_run make f to sign h :
  let t := tx_of f to in
  f_to f = str "0x" ++ bin2hex to -> tx_wf t ->
  CRYPTO_sign_data (prv_key (f_keys f)) (tx_bytes t) = Ok sign ->
  let f' := signed_fields f t sign (f_hash f) in
  build_request SHA256 make false f h = (set_m_writer (make f' (m_writer h)) h, Ok (Some f')).
Proof.
  intros t Hto Hwf Hs f'. unfold build_request, END_TRY, lift, mbind, M_bind.
  change (if f_fee f =? 0 then zlen (f_data f) else f_fee f) with (tx_fee t).
  pose proof (gen_sign_tx f to sign Hto Hwf Hs) as Hg. fold t in Hg. rewrite Hg. unfold f', signed_fields. rewrite !toHex_bin2hex. done.
Qed.

Lemma build_request_hash_run make f to sign pub h :
  let t := tx_of f to in
  f_to f = str "0x" ++ bin2hex to -> tx_wf t ->
  CRYPTO_sign_data (prv_key (f_keys f)) (tx_bytes t) = Ok sign ->
  pub_key (f_keys f) = bin2hex pub -> zlen sign <= UINT32_MAX -> zlen pub <= UINT32_MAX ->
  let f' := signed_fields f t sign (bin2hex (SHA256 (SHA256
      (tx_bytes t ++ compact (zlen sign) ++ sign ++ compact (zlen pub) ++ pub)))) in
  build_request SHA256 make true f h = (set_m_writer (make f' (m_writer h)) h, Ok (Some f')).
Proof.
  intros t Hto Hwf Hs Hpub Hls Hlp f'. unfold build_request, END_TRY, lift, mbind, M_bind.
  change (if f_fee f =? 0 then zlen (f_data f) else f_fee f) with (tx_fee t).
  pose proof (gen_sign_tx f to sign Hto Hwf Hs) as Hg. fold t in Hg. rewrite Hg. cbn [CHK_PRM mret M_ret].
  unfold hash_of. cbn [f_hash f_transaction f_sign f_keys]. rewrite Hpub, make_tx_signed by done.
  unfold f', signed_fields. rewrite !toHex_bin2hex. done.
Qed.

(** ** Theorems *)

(** C13: what create-tx answers.  For a request with two valid addresses, amounts
    as numbers or as text, data or none, and an address whose keys are stored,
    the answer is a request to send: the transaction of exactly these fields,
    where a missing fee is the size of the data, signed with the stored key; a
    transaction with data is read back by [parse_tansaction] with the fields of
    the request.  The id is not zero, the receiver is in lower-case hexadecimal, and the
    signature is assumed to succeed. *)
Theorem create_tx_answer h p a to value fee nonce k s' sign :
  tx_request h p a (str "0x" ++ bin2hex to) value fee k s' -> length to = 25%nat ->
  amount p "nonce" nonce ->
  let data := default [] (get_value_str p "data") in
  zlen data <= UINT32_MAX ->
  let t := {| tx_to := to; tx_value := value; tx_fee := if fee =? 0 then zlen data else fee;
              tx_nonce := nonce; tx_data := data |} in
  CRYPTO_sign_data (prv_key k) (tx_bytes t) = Ok sign ->
  exists f h', prepare_params (create_tx_handler SHA256 wallet_stotage) h = (h', Ok (Some f)) /\
    m_async h' = m_async h /\ writer_id (m_writer h') = writer_id (m_writer h) /\
    get_method (m_writer h') = str "mhc_send" /\
    (let q := default JNull (get_params (m_writer h')) in
     get "transaction" q = Some (JStr (bin2hex (tx_bytes t))) /\
     get "to" q = Some (JStr (str "0x" ++ bin2hex to)) /\
     get "value" q = Some (JStr (to_string value)) /\ get "nonce" q = Some (JStr (to_string nonce)) /\
     get "fee" q = Some (JStr (fee_text (tx_fee t))) /\ get "data" q = Some (JStr (bin2hex data)) /\
     get "pubkey" q = Some (JStr (pub_key k)) /\ get "sign" q = Some (JStr (bin2hex sign))) /\
    (data <> [] -> parse_tansaction (bin2hex (tx_bytes t)) no_output = Ok (true, tx_parsed t)).
Proof.
  intros Hrq Hto (jn & sn & Hjn & Hsn & Hn) data Hd t Hs.
  pose proof (rq_params _ _ _ _ _ _ _ _ Hrq) as Hp.
  set (f0 := with_nonce (fields p a (str "0x" ++ bin2hex to) value fee k) nonce).
  assert (tx_wf t) as Hwf by (eapply (request_tx_wf _ _ _ _ _ _ _ _ nonce Hrq Hto); [by eapply stoull_range|done]).
  pose proof (build_request_run make_json f0 to sign (set_world s' h) eq_refl Hwf Hs) as Hb.
  exists (signed_fields f0 t sign []), (set_m_writer (make_json (signed_fields f0 t sign []) (m_writer h)) (set_world s' h)).
  split_and!; try done.
  - unfold create_tx_handler, create_tx_prepare. cbn [prepare_params].
    unfold END_TRY, gets, need, lift, mbind, M_bind. rewrite (check_params_run _ _ _ _ _ _ _ _ Hrq).
    cbn [m_reader set_world]. rewrite Hp. cbn [default from_option id]. rewrite Hjn. cbn [mret M_ret].
    rewrite Hsn. cbn [mret M_ret]. rewrite Hn. fold f0. by rewrite Hb.
  - unfold make_json, signed_fields, get_params, add_param. cbn [set_m_writer m_writer f_transaction f_to f_value f_fee f_nonce f_data f_keys f_sign f_hash].
    rewrite bool_decide_eq_true_2 by done. autorewrite with json.
    change (f_to f0) with (str "0x" ++ bin2hex to). by rewrite !c_str_bin2hex, c_str_0x.
  - intros Hne. rewrite parse_tx_bytes by done. by rewrite bool_decide_eq_false_2.
Qed.

(** A transaction that is given. *)
Lemma send_check_given h p a tr k s' :
  m_id h <> 0 -> get_params (m_reader h) = Some p ->
  get_value_str p "transaction" = Some tr -> tr <> [] ->
  get_value_str p "address" = Some a -> validate_address a = Ok true ->
  peek wallet_stotage (world h) a = (Some k, s') ->
  send_check_params wallet_stotage h = (set_world s' h, Ok (CkTransaction tr a k)).
Proof.
  intros Hi Hp Ht Hne Ha Hav Hk.
  unfold send_check_params, END_TRY, need_id, need_params, CHK_REQ, gets, need_req, need, lift, mbind, M_bind.
  rewrite (proj2 (Z.eqb_neq _ _) Hi). cbn [negb mret M_ret]. rewrite Hp. cbn [mret M_ret].
  rewrite (get_text_run _ _ _ Ht) by done. rewrite (get_text_run _ _ _ Ha) by (by apply valid_nonempty).
  cbn [mret M_ret]. rewrite Hav. cbn [CHK_PRM mret M_ret]. unfold peek_keys, gets, mbind, M_bind.
  rewrite Hk. done.
Qed.

Definition given_fields (t : tx) (a : bytes) (k : crypt_keys) (sign hash : bytes) : tx_fields :=
  {| f_address := a; f_to := str "0x" ++ bin2hex (tx_to t); f_value := tx_value t; f_fee := tx_fee t;
     f_nonce := tx_nonce t; f_data := bin2hex (tx_data t); f_keys := k;
     f_transaction := bin2hex (tx_bytes t); f_sign := bin2hex sign; f_hash := hash |}.

Lemma send_given_run h a t k sign pub :
  tx_wf t -> tx_data t <> [] -> pub_key k = bin2hex pub ->
  CRYPTO_sign_data (prv_key k) (tx_bytes t) = Ok sign -> zlen sign <= UINT32_MAX -> zlen pub <= UINT32_MAX ->
  let f := given_fields t a k sign (bin2hex (SHA256 (SHA256
             (tx_bytes t ++ compact (zlen sign) ++ sign ++ compact (zlen pub) ++ pub)))) in
  send_given SHA256 (bin2hex (tx_bytes t)) a k h = (set_m_writer (make_json f (m_writer h)) h, Ok f).
Proof.
  intros Hwf Hd Hpub Hs Hls Hlp f. unfold send_given, lift, mbind, M_bind.
  rewrite parse_tx_bytes, bool_decide_eq_false_2 by done. cbn [CHK_PRM mret M_ret].
  rewrite hex2bin_bin2hex, Hs. cbv beta iota. unfold hash_of. cbn [f_hash f_transaction f_sign f_keys].
  rewrite Hpub, make_tx_signed by done. done.
Qed.

(** C15: sending a created transaction.  When the text that create-tx returned for
    a transaction with data is given to send-tx with an address whose keys are
    stored, the handler recovers the fields, signs the same bytes, and asks the
    proxy to send a request that carries them with the hash of the signed
    transaction. *)
Theorem send_created_transaction h p a t k s' sign pub :
  (forall b, length (SHA256 b) = 32%nat) ->
  m_id h <> 0 -> get_params (m_reader h) = Some p ->
  get_value_str p "transaction" = Some (bin2hex (tx_bytes t)) -> tx_wf t -> tx_data t <> [] ->
  get_value_str p "address" = Some a -> validate_address a = Ok true ->
  peek wallet_stotage (world h) a = (Some k, s') -> pub_key k = bin2hex pub ->
  CRYPTO_sign_data (prv_key k) (tx_bytes t) = Ok sign -> zlen sign <= UINT32_MAX -> zlen pub <= UINT32_MAX ->
  let C := send_tx_handler SHA256 wallet_stotage stringify useLocalDatabase countSpent_of in
  exists f h', prepare_params C h = (h', Ok (Some f)) /\
    f_to f = str "0x" ++ bin2hex (tx_to t) /\ f_value f = tx_value t /\ f_fee f = tx_fee t /\
    f_nonce f = tx_nonce t /\ f_data f = bin2hex (tx_data t) /\ f_sign f = bin2hex sign /\
    (let q := default JNull (get_params (m_writer h')) in
     get "transaction" q = Some (JStr (bin2hex (tx_bytes t))) /\
     get "sign" q = Some (JStr (bin2hex sign)) /\
     get "hash" q = Some (JStr (bin2hex (SHA256 (SHA256
       (tx_bytes t ++ compact (zlen sign) ++ sign ++ compact (zlen pub) ++ pub)))))) /\
    m_requests (execute C f h').1
      = m_requests h ++ [(c_str (get_method (m_reader h)), stringify (m_writer h'))].
Proof.
  intros Hsha Hi Hp Ht Hwf Hd Ha Hav Hk Hpub Hs Hls Hlp C.
  assert (bin2hex (tx_bytes t) <> []) as Hne.
  { intros E%(f_equal length). rewrite length_bin2hex in E. unfold tx_bytes in E.
    rewrite length_app in E. destruct Hwf as [Hl _]. cbn [length] in E. lia. }
  pose proof (send_check_given h p a _ k s' Hi Hp Ht Hne Ha Hav Hk) as Hc.
  pose proof (send_given_run (set_world s' h) a t k sign pub Hwf Hd Hpub Hs Hls Hlp) as Hg.
  set (hash := bin2hex (SHA256 (SHA256 _))) in *. cbv zeta in Hg.
  set (f := given_fields t a k sign hash) in *.
  exists f, (set_m_writer (make_json f (m_writer h)) (set_world s' h)).
  split_and!; try done.
  - unfold C, send_tx_handler, send_prepare. cbn [prepare_params].
    unfold END_TRY, mbind, M_bind. rewrite Hc, Hg. done.
  - assert (hash <> []) as Hh.
    { unfold hash. intros E%(f_equal length). rewrite length_bin2hex, Hsha in E. discriminate E. }
    unfold make_json, f, given_fields, get_params, add_param.
    cbn [set_m_writer m_writer f_transaction f_to f_value f_fee f_nonce f_data f_keys f_sign f_hash].
    rewrite bool_decide_eq_false_2 by done. autorewrite with json. by rewrite c_str_bin2hex.
Qed.

(** The members of a request to send that has no transaction. *)
Lemma send_check_fields h p a to value fee k s' :
  tx_request h p a to value fee k s' -> get_text p "transaction" = None ->
  send_check_params wallet_stotage h = (set_world s' h, Ok (CkFields (fields p a to value fee k))).
Proof.
  intros Hrq Ht. pose proof (check_params_run _ _ _ _ _ _ _ _ Hrq) as Hc. destruct Hrq as [Hi Hp _ _ _ _ _ _ _].
  unfold send_check_params, END_TRY, need_id, need_params, CHK_REQ, gets, need_req, mbind, M_bind.
  rewrite (proj2 (Z.eqb_neq _ _) Hi). cbn [negb mret M_ret]. rewrite Hp. cbn [mret M_ret]. by rewrite Ht, Hc.
Qed.

(** The request for the transaction [t] with the signature [sign] of the key [pub]. *)
Definition carries (t : tx) (sign pub : bytes) (d : json) : Prop :=
  let q := default JNull (get_params d) in
  get "transaction" q = Some (JStr (bin2hex (tx_bytes t))) /\ get "nonce" q = Some (JStr (to_string (tx_nonce t))) /\
  get "sign" q = Some (JStr (bin2hex sign)) /\
  get "hash" q = Some (JStr (bin2hex (SHA256 (SHA256
    (tx_bytes t ++ compact (zlen sign) ++ sign ++ compact (zlen pub) ++ pub))))).

Lemma signed_carries f to sign pub w :
  (forall b, length (SHA256 b) = 32%nat) ->
  let t := tx_of f to in
  carries t sign pub (make_json (signed_fields f t sign (bin2hex (SHA256 (SHA256
      (tx_bytes t ++ compact (zlen sign) ++ sign ++ compact (zlen pub) ++ pub))))) w).
Proof.
  intros Hsha t. set (hash := bin2hex (SHA256 (SHA256 _))). assert (hash <> []) as Hh.
  { unfold hash. intros E%(f_equal length). rewrite length_bin2hex, Hsha in E. discriminate E. }
  unfold carries. fold hash. split_and!.
  all: unfold make_json, signed_fields, get_params, add_param;
    cbn [f_transaction f_to f_value f_fee f_nonce f_data f_keys f_sign f_hash];
    rewrite bool_decide_eq_false_2 by done; autorewrite with json; by rewrite ?c_str_bin2hex.
Qed.


(** A transaction text of fewer than 50 characters that is given to send-tx is
    read past its end: nothing in the handler checks its length before
    [parse_tansaction] takes 50 characters of it. *)
Theorem short_transaction_read_past_end h p a tr k s' :
  m_id h <> 0 -> get_params (m_reader h) = Some p ->
  get_value_str p "transaction" = Some tr -> tr <> [] -> zlen tr < 50 ->
  get_value_str p "address" = Some a -> validate_address a = Ok true ->
  peek wallet_stotage (world h) a = (Some k, s') ->
  (prepare_params (send_tx_handler SHA256 wallet_stotage stringify useLocalDatabase countSpent_of) h).2
    = Throw Undefined.
Proof.
  intros Hi Hp Ht Hne Hl Ha Hav Hk. pose proof (send_check_given h p a _ k s' Hi Hp Ht Hne Ha Hav Hk) as Hc.
  unfold send_tx_handler, send_prepare, send_given. cbn [prepare_params].
  unfold END_TRY, lift, mbind, M_bind. rewrite Hc. unfold parse_tansaction. by ztest.
Qed.
End Facts.

(** ** Wallets *)

Section Wallets.
Context `{L : OpenSSL} {digests : DigestLaws L} {keys : KeyLaws L}.
Context {wallet_stotage : bytes} {writable : bytes -> bool}.

(** C34: generate and validate.  When generate answers with an address, the
    address is one that [validate] accepts, the keys stored for it are those of
    the answer, and a request that names it finds them. *)
Theorem generated_wallet_usable run h h' :
  is_error (m_writer h) = false ->
  generate_execute wallet_stotage writable run h = (h', Ok ()) -> is_error (m_writer h') = false ->
  exists address pub prv s',
    (let q := default JNull (get_result (m_writer h')) in
     get "address" q = Some (JStr address) /\ get "pub_key" q = Some (JStr pub) /\
     get "prv_key" q = Some (JStr prv)) /\
    validate_address address = Ok true /\
    peek wallet_stotage (world h') address = (Some {| pub_key := pub; prv_key := prv |}, s') /\
    is_error (m_writer (addr_validate_execute address h').1) = false.
Proof.
  unfold generate_execute. intros Hh E Hne. apply END_TRY_inv in E as [E|(h1 & e & _ & -> & _)].
  2:{ cbn in Hne. by rewrite caught_error in Hne. }
  unfold lift, gets in E. apply M_bind_Ok in E as (h1 & w & Ew & E). injection Ew as <- Ew.
  apply M_bind_Ok in E as (h1 & h2 & [= <- <-] & E).
  set (k := {| pub_key := bin2hex (public_key_buf w); prv_key := bin2hex (private_key_buf w) |}) in *.
  set (a := str "0x" ++ bin2hex (mh_address_buf w)) in *.
  destruct (store wallet_stotage writable (world h) a k) as [ok s'] eqn:Es.
  destruct ok; [|done]. injection E as <-. pose proof (wallet_address_valid run w Ew) as Hv. fold a in Hv.
  exists a, (pub_key k), (prv_key k), {| _storage := <[a := k]> (_storage s'); files := files s' |}.
  split; [|split; [|split]].
  - cbn [m_writer set_m_writer set_world]. unfold get_result, add_result. by autorewrite with json.
  - done.
  - cbn [world set_m_writer set_world]. by apply (peek_stored _ _ _ _ _ _ Es).
  - unfold addr_validate_execute, END_TRY, lift, mbind, M_bind. rewrite Hv.
    cbn [CHK_PRM mret M_ret]. unfold write, modify. cbn [fst m_writer set_m_writer set_world].
    unfold is_error, add_result in *. by autorewrite with json.
Qed.
End Wallets.

(** ** The classes leave the id alone *)

Section Classes.
Context `{L : OpenSSL}.
Context {SHA256 : bytes -> bytes} {wallet_stotage : bytes} {stringify : json -> bytes}.
Context {useLocalDatabase : bool} {countSpent_of : option (bytes -> Z)}.

Lemma keeps_peek a : keeps (peek_keys wallet_stotage a).
Proof.
  unfold peek_keys. apply keeps_bind; [auto with keeps|]. intros h. destruct (peek _ _ _) as [k s].
  apply keeps_then; [by apply (keeps_world (fun _ => s))|auto with keeps].
Qed.
Lemma keeps_read_fee p : keeps (read_fee p).
Proof. unfold read_fee. destruct (val2str _); auto with keeps. Qed.
#[local] Hint Resolve keeps_peek keeps_read_fee : keeps.
#[local] Hint Extern 1 (forall _, keeps _) => intros ? : keeps.

Lemma keeps_check_params : keeps (check_params wallet_stotage).
Proof. unfold check_params. auto 40 with keeps. Qed.

Lemma make_json_v2_id f d : writer_id (make_json_v2 f d) = writer_id d.
Proof. unfold make_json_v2, add_result. rewrite !writer_id_at by done. apply writer_id_reset. Qed.

Lemma keeps_build_request make b f :
  (forall f d, writer_id (make f d) = writer_id d) -> keeps (build_request SHA256 make b f).
Proof.
  intros Hm. assert (forall f, keeps (write (W := store_state) (make f))) by (intros; by apply keeps_write).
  unfold build_request. apply keeps_try, keeps_bind; [auto with keeps|]. intros [[ok tr] sg].
  apply keeps_then; [auto with keeps|]. apply keeps_bind; [|auto with keeps].
  destruct b; [|auto with keeps]. apply keeps_bind; [auto with keeps|]. intros [ok2 hash]. auto with keeps.
Qed.

Lemma keeps_create_tx : keeps (prepare_params (create_tx_handler SHA256 wallet_stotage)).
Proof.
  unfold create_tx_handler, create_tx_prepare. cbn [prepare_params].
  pose proof keeps_check_params. pose proof (fun f => keeps_build_request make_json false f make_json_id).
  auto 20 with keeps.
Qed.

Lemma keeps_create_tx_v2 : keeps (prepare_params (create_tx_handler_v2 SHA256 wallet_stotage)).
Proof.
  unfold create_tx_handler_v2, create_tx_prepare. cbn [prepare_params].
  pose proof keeps_check_params. pose proof (fun f => keeps_build_request make_json_v2 true f make_json_v2_id).
  auto 20 with keeps.
Qed.

Lemma keeps_async (b : bool) : keeps (W := store_state) (modify (set_m_async b)).
Proof. by apply keeps_modify. Qed.
Lemma keeps_request path body : keeps (W := store_state) (modify (add_request path body)).
Proof. by apply keeps_modify. Qed.

Lemma keeps_send_given tr a k : keeps (send_given SHA256 tr a k).
Proof.
  assert (forall f, keeps (write (W := store_state) (make_json f))) by (intros; apply keeps_write, make_json_id).
  unfold send_given. apply keeps_bind; [auto with keeps|]. intros [ok p].
  apply keeps_then; [auto with keeps|]. apply keeps_bind; [auto with keeps|]. intros sg.
  apply keeps_bind; [auto with keeps|]. intros [ok2 hash]. auto with keeps.
Qed.

Lemma keeps_send_tx :
  keeps (prepare_params (send_tx_handler SHA256 wallet_stotage stringify useLocalDatabase countSpent_of)).
Proof.
  assert (keeps (send_check_params wallet_stotage)) as Hc.
  { pose proof keeps_check_params. unfold send_check_params. auto 20 with keeps. }
  pose proof (fun f => keeps_build_request make_json true f make_json_id) as Hb.
  pose proof keeps_send_given as Hg. pose proof keeps_async. pose proof keeps_request.
  unfold send_tx_handler, send_prepare. cbn [prepare_params]. auto 20 with keeps.
Qed.
End Classes.

(** ** Witnesses *)

Module Sample.
Import Crypto.Toy.

Definition wallet : CRYPTO_wallet :=
  match CRYPTO_generate_wallet run with
  | Ok w => w
  | Throw _ => {| private_key_buf := []; public_key_buf := []; mh_address_buf := []; nonce := 0 |}
  end.
Definition addr : bytes := str "0x" ++ bin2hex (mh_address_buf wallet).
Definition k0 : crypt_keys :=
  {| pub_key := bin2hex (public_key_buf wallet); prv_key := bin2hex (private_key_buf wallet) |}.
Definition s0 : store_state := {| _storage := {[addr := k0]}; files := ∅ |}.
Definition params0 : json :=
  JObj [(str "address", JStr addr); (str "to", JStr addr); (str "value", JInt 5);
        (str "nonce", JStr (str "7")); (str "data", JStr (str "hi"))].
Definition h0 : handler store_state :=
  {| m_id := 1; m_async := false; m_reader := JObj [(str "params", params0)];
     m_writer := set_id json_rpc_writer_new 1; m_requests := []; world := s0 |}.
Definition sha (b : bytes) : bytes := take 32 (b ++ replicate 32 zero).
Definition t0 : tx :=
  {| tx_to := mh_address_buf wallet; tx_value := 5; tx_fee := 2; tx_nonce := 7; tx_data := str "hi" |}.
Definition sign0 : bytes := ["k"%char; sum (tx_bytes t0)].

Lemma request0 : tx_request (wallet_stotage := []) h0 params0 addr addr 5 0 k0 s0.
Proof.
  split.
  - discriminate.
  - reflexivity.
  - reflexivity.
  - vm_compute. reflexivity.
  - reflexivity.
  - vm_compute. reflexivity.
  - exists (JInt 5), (str "5"). split_and!; vm_compute; reflexivity.
  - left. split; reflexivity.
  - vm_compute. reflexivity.
Defined.

Lemma create_tx_answer_witness :
  exists f h', prepare_params (create_tx_handler sha []) h0 = (h', Ok (Some f)) /\
    get_method (m_writer h') = str "mhc_send" /\
    get "sign" (default JNull (get_params (m_writer h'))) = Some (JStr (bin2hex sign0)) /\
    parse_tansaction (bin2hex (tx_bytes t0)) no_output = Ok (true, tx_parsed t0).
Proof.
  destruct (create_tx_answer (SHA256 := sha) (wallet_stotage := []) h0 params0 addr (mh_address_buf wallet) 5 0 7 k0 s0 sign0)
    as (f & h' & E & _ & _ & Hm & (_ & _ & _ & _ & _ & _ & _ & Hs) & Hp).
  - exact request0.
  - vm_compute. reflexivity.
  - exists (JStr (str "7")), (str "7"). split_and!; vm_compute; reflexivity.
  - vm_compute. discriminate.
  - vm_compute. reflexivity.
  - exists f, h'. split_and!; [exact E | exact Hm | exact Hs | apply Hp; vm_compute; discriminate].
Defined.

Definition h1 (transaction : bytes) : handler store_state :=
  {| m_id := 1; m_async := false;
     m_reader := JObj [(str "method", JStr (str "send-tx"));
                       (str "params", JObj [(str "transaction", JStr transaction); (str "address", JStr addr)])];
     m_writer := set_id json_rpc_writer_new 1; m_requests := []; world := s0 |}.

Lemma send_created_transaction_witness :
  exists f h', prepare_params (send_tx_handler sha [] (fun _ => []) false None) (h1 (bin2hex (tx_bytes t0)))
      = (h', Ok (Some f)) /\ f_value f = 5 /\ f_sign f = bin2hex sign0 /\
    m_requests (execute (send_tx_handler sha [] (fun _ => []) false None) f h').1 = [(str "send-tx", [])].
Proof.
  destruct (send_created_transaction (SHA256 := sha) (wallet_stotage := []) (stringify := fun _ => [])
    (useLocalDatabase := false) (countSpent_of := None) (h1 (bin2hex (tx_bytes t0)))
    (default JNull (get_params (m_reader (h1 (bin2hex (tx_bytes t0))))))
    addr t0 k0 s0 sign0 (public_key_buf wallet))
    as (f & h' & E & _ & Hv & _ & _ & _ & Hs & _ & Hr).
  - intros b. unfold sha. rewrite length_take, length_app, length_replicate. lia.
  - discriminate.
  - reflexivity.
  - reflexivity.
  - vm_compute. intuition discriminate.
  - discriminate.
  - reflexivity.
  - vm_compute. reflexivity.
  - vm_compute. reflexivity.
  - reflexivity.
  - vm_compute. reflexivity.
  - vm_compute. discriminate.
  - vm_compute. discriminate.
  - exists f, h'. split_and!; [exact E | exact Hv | exact Hs | exact Hr].
Defined.

(** Without a nonce; the node knows six transactions of the payer. *)
Definition params2 : json :=
  JObj [(str "address", JStr addr); (str "to", JStr addr); (str "value", JInt 5); (str "data", JStr (str "hi"))].
Definition h2 : handler store_state :=
  {| m_id := 1; m_async := false; m_reader := JObj [(str "method", JStr (str "send-tx")); (str "params", params2)];
     m_writer := set_id json_rpc_writer_new 1; m_requests := []; world := s0 |}.
Definition balance_doc : json := JObj [(str "result", JObj [(str "count_spent", JInt 6)])].
Definition parse_balance (b : bytes) : option json := if bool_decide (b = str "six") then Some balance_doc else None.

Lemma request2 : tx_request (wallet_stotage := []) h2 params2 addr addr 5 0 k0 s0.
Proof.
  split.
  - discriminate.
  - reflexivity.
  - reflexivity.
  - vm_compute. reflexivity.
  - reflexivity.
  - vm_compute. reflexivity.
  - exists (JInt 5), (str "5"). split_and!; vm_compute; reflexivity.
  - left. split; reflexivity.
  - vm_compute. reflexivity.
Defined.


Lemma short_transaction_read_past_end_witness :
  (prepare_params (send_tx_handler sha [] (fun _ => []) false None) (h1 (str "00"))).2 = Throw Undefined.
Proof.
  eapply (short_transaction_read_past_end (h1 (str "00")) _ addr (str "00") k0 s0).
  - discriminate.
  - reflexivity.
  - reflexivity.
  - discriminate.
  - reflexivity.
  - reflexivity.
  - vm_compute. reflexivity.
  - vm_compute. reflexivity.
Defined.

Lemma generated_wallet_usable_witness :
  exists address pub prv s',
    validate_address address = Ok true /\
    peek (str "w") (world (generate_execute (str "w") (fun _ => true) run (base_handler {| _storage := ∅; files := ∅ |})).1)
      address = (Some {| pub_key := pub; prv_key := prv |}, s').
Proof.
  destruct (generated_wallet_usable (wallet_stotage := str "w") (writable := fun _ => true) run
    (base_handler {| _storage := ∅; files := ∅ |})
    (generate_execute (str "w") (fun _ => true) run (base_handler {| _storage := ∅; files := ∅ |})).1)
    as (a & pub & prv & s' & _ & Hv & Hp & _).
  - reflexivity.
  - vm_compute. reflexivity.
  - vm_compute. reflexivity.
  - exists a, pub, prv, s'. split; [exact Hv | exact Hp].
Defined.

(** A request without the field [to]. *)
Definition bad_request : bytes := str "request".
Definition bad_doc : json := JObj [(str "id", JInt 3); (str "params", JObj [(str "address", JStr addr)])].
Definition parse_bad (b : bytes) : option json := if bool_decide (b = bad_request) then Some bad_doc else None.

Lemma refused_request_gets_error_witness :
  let h := (prepare parse_bad (fun _ => (0, [])) false None (create_tx_handler sha []) bad_request (base_handler s0)).1 in
  is_error (m_writer h) = true /\ writer_id (m_writer h) = JInt 3.
Proof.
  eapply (refused_request_gets_error (parse_json := parse_bad) (parse_error := fun _ => (0, []))
    (validate_methods := false) (schema := None) (create_tx_handler sha []) s0 bad_request).
  - apply keeps_create_tx.
  - vm_compute. reflexivity.
  - reflexivity.
Defined.

(** An answer of the node to a forwarded request. *)
Definition node_doc : json := JObj [(str "id", JInt 9); (str "result", JBool true); (str "time", JInt 4)].
Definition parse_node (b : bytes) : option json := if bool_decide (b = str "answer") then Some node_doc else None.

Lemma forwarded_answer_witness :
  let d := completed (parse_json := parse_node) (stringify := fun _ => str "text") (parse_error := fun _ => (0, []))
             h0 (str "answer") in
  writer_id d = JInt 1 /\ get_result d = Some (JBool true) /\ is_error d = false.
Proof.
  destruct (forwarded_answer (parse_json := parse_node) (stringify := fun _ => str "text")
    (parse_error := fun _ => (0, [])) h0 (str "answer")) as (_ & Hi & Hr & He).
  - intros doc. vm_compute. intros [= <-]. repeat constructor.
  - split_and!; [exact Hi | exact Hr | exact He].
Defined.
End Sample.
