(* ===== verification/GenerateJson.v ===== *)
(** The JSON documents of blocks, transactions and balances:
    src/generate_json.cpp.

    The member functions of the structures whose bodies are in the compiled
    library, and strToJson and jsonToString of common/jsonUtils.h, which the
    repository only declares, are fields of the class [InfoLib].  The writer's
    document is an object, so [AddMember] appends to it. *)

From Stdlib Require Import String.
From S2P Require Import Prelude Text Hex Json BlockInfo.
Open Scope Z_scope.

Class InfoLib := {
  strToJson : bytes -> json;
  jsonToString : json -> bytes;
  realFee : TransactionInfo -> Z;
  isIntStatusNotSuccess : TransactionInfo -> bool;
  isEmpty : Address -> bool;
  (** [BalanceInfo::received], [BalanceInfo::spent]. *)
  received : BalanceInfo -> Z;
  spent : BalanceInfo -> Z;
  (** [BalanceElement::received], [BalanceElement::spent]. *)
  elem_received : BalanceElement -> Z;
  elem_spent : BalanceElement -> Z
}.

Inductive JsonVersion := V1 | V2.

(** struct RequestId. *)
Inductive request_id_value := IdText (s : bytes) | IdNumber (z : Z).
Record RequestId := { rid : request_id_value; rid_isSet : bool }.

(** using AnyTxInfo. *)
Inductive AnyTxInfo := TxInfos (l : list TransactionInfo) | SignTxInfos (l : list SignTransactionInfo).

(** [v.AddMember(name, x)]; [v] is an object. *)
Definition AddMember (v : json) (name : string) (x : json) : json := JObj (members_of v ++ [(str name, x)]).

(** [v.RemoveMember(name)]: the last member takes the place of the first one of
    that name. *)
Definition RemoveMember (v : json) (name : string) : json :=
  let l := members_of v in
  match list_find (fun p => bool_decide (p.1 = str name)) l with
  | Some (i, _) =>
      let init := take (length l - 1) l in
      match last l with
      | Some m => JObj (<[i := m]> init)
      | None => v
      end
  | None => v
  end.

Section Generate.
Context `{TorrentLib} `{InfoLib}.

Definition addIdToResponse (r : RequestId) (v : json) : json :=
  if rid_isSet r then
    match rid r with
    | IdText s => AddMember v "id" (strToJson s)
    | IdNumber z => AddMember v "id" (JInt z)
    end
  else v.

Definition intOrString (z : Z) (isString : bool) : json := if isString then strToJson (print_int z) else JInt z.

Definition genErrorResponse (code : Z) (error : bytes) (doc : json) : json :=
  let errorJson := AddMember (AddMember (JObj []) "code" (JInt code)) "message" (strToJson error) in
  AddMember doc "error" errorJson.

(** The document of genTransactionNotFoundResponse. *)
Definition genTransactionNotFoundResponse (r : RequestId) (transaction : bytes) (countBlocks knownBlock : Z) : bytes :=
  let jsonDoc := addIdToResponse r (JObj []) in
  let errorJson := AddMember (JObj []) "code" (JInt (-32603)) in
  let errorJson := AddMember errorJson "message"
                     (strToJson (str "Transaction " ++ transaction ++ str " not found")) in
  let errorData := AddMember (AddMember (JObj []) "countBlocks" (JInt countBlocks)) "knownBlock" (JInt knownBlock) in
  let errorJson := AddMember errorJson "data" errorData in
  jsonToString (AddMember jsonDoc "error" errorJson).

(** The members about the outcome of a transaction. *)
Definition statusToJson (info : TransactionInfo) (isString : bool) (v : json) : json :=
  if negb (isStatusNeed info) then
    if bool_decide (intStatus info = None) || negb (isIntStatusNotSuccess info)
    then AddMember v "status" (strToJson (str "ok"))
    else AddMember v "status" (strToJson (str "error"))
  else
    match status info with
    | None => AddMember v "status" (strToJson (str "pending"))
    | Some st =>
        let v := AddMember v "status" (strToJson (str (if isSuccess st then "ok" else "error"))) in
        match st_status st with
        | SNone | SDelegate => v
        | SUnDelegate value delegateHash =>
            let v := RemoveMember v "delegate" in
            let v := AddMember v "delegate" (intOrString value isString) in
            AddMember v "delegateHash" (strToJson (toHex delegateHash))
        | SV8Status isServerError isScriptError address =>
            let v := if isSuccess st then v
                     else
                       let v := if isServerError then AddMember v "isServerError" (JBool isServerError) else v in
                       if isScriptError then AddMember v "isScriptError" (JBool isScriptError) else v in
            if isEmpty address then v else AddMember v "contractAddress" (strToJson (calcHexString address))
        end
    end.

Definition transactionInfoToJson (info : TransactionInfo) (bh : BlockHeader) (type : Z) (version : JsonVersion)
  : res json :=
  _ ← CHECK (negb (bool_decide (tx_hash info = []))) "Transaction not initialized";
  if type =? 2 then
    let isString := match version with V2 => true | V1 => false end in
    let v := AddMember (JObj []) "from" (strToJson (calcHexString (fromAddress info))) in
    let v := AddMember v "to" (strToJson (calcHexString (toAddress info))) in
    let v := AddMember v "value" (intOrString (value info) isString) in
    let v := AddMember v "transaction" (strToJson (toHex (tx_hash info))) in
    let v := AddMember v "data" (strToJson (toHex (data info))) in
    let v := AddMember v "timestamp" (intOrString (timestamp bh) isString) in
    let v := AddMember v "type" (strToJson (getBlockType bh)) in
    let v := AddMember v "blockNumber"
               (intOrString (if tx_blockNumber info =? 0 then default 0 (blockNumber bh) else tx_blockNumber info)
                  isString) in
    let v := AddMember v "signature" (strToJson (toHex (sign info))) in
    let v := AddMember v "publickey" (strToJson (toHex (pubKey info))) in
    let v := AddMember v "fee" (intOrString (fees info) isString) in
    let v := AddMember v "realFee" (intOrString (realFee info) isString) in
    let v := AddMember v "nonce" (intOrString (tx_nonce info) isString) in
    let v := match intStatus info with Some s => AddMember v "intStatus" (JInt s) | None => v end in
    let v := match delegate info with
             | Some d =>
                 let v := AddMember v "delegate" (intOrString (if isDelegate d then di_value d else 0) isString) in
                 AddMember v "isDelegate" (JBool (isDelegate d))
             | None => v
             end in
    Ok (statusToJson info isString v)
  else if type =? 1 then Ok (strToJson (toHex (tx_hash info)))
  else Throw (UserException (str "Incorrect transaction info type " ++ print_int type)).

Definition signTransactionInfoToJson (info : SignTransactionInfo) : json :=
  let v := AddMember (JObj []) "blockHash" (strToJson (toHex (sti_blockHash info))) in
  let v := AddMember v "signature" (strToJson (toHex (sti_sign info))) in
  let v := AddMember v "publickey" (strToJson (toHex (sti_pubkey info))) in
  AddMember v "address" (strToJson (calcHexString (sti_address info))).

(** A loop that pushes what a function that may throw returns. *)
Fixpoint push_all {A} (f : A -> res json) (l : list A) : res (list json) :=
  match l with
  | [] => Ok []
  | a :: l' => v ← f a; r ← push_all f l'; Ok (v :: r)
  end.

(** [getBlock] is that of the blockchain that is passed. *)
Definition transactionToJson (info : TransactionInfo) (getBlock : Z -> BlockHeader) (countBlocks knownBlock : Z)
  (version : JsonVersion) (doc : json) : res json :=
  let bh := getBlock (tx_blockNumber info) in
  t ← transactionInfoToJson info bh 2 version;
  let resultValue := AddMember (JObj []) "transaction" t in
  let resultValue := AddMember resultValue "countBlocks" (JInt countBlocks) in
  let resultValue := AddMember resultValue "knownBlocks" (JInt knownBlock) in
  Ok (AddMember doc "result" resultValue).

Definition addressesInfoToJson (infos : list TransactionInfo) (getBlock : Z -> BlockHeader)
  (version : JsonVersion) (doc : json) : res json :=
  l ← push_all (fun tx => transactionInfoToJson tx (getBlock (tx_blockNumber tx)) 2 version) infos;
  Ok (AddMember doc "result" (JArr l)).

(** The document that transactionsToJson prints. *)
Definition transactionsToJson (r : RequestId) (infos : list TransactionInfo) (getBlock : Z -> BlockHeader)
  (version : JsonVersion) : res bytes :=
  let doc := addIdToResponse r (JObj []) in
  l ← push_all (fun tx => transactionInfoToJson tx (getBlock (tx_blockNumber tx)) 2 version) infos;
  Ok (jsonToString (AddMember doc "result" (JArr l))).

(** [result->value.GetArray().PushBack], on the member named [result], which is
    added as an empty array when it is not there. *)
Definition push_result (doc v : json) : json :=
  match get "result" doc with
  | None => AddMember doc "result" (JArr [v])
  | Some (JArr l) => JObj (set_member (str "result") (JArr (l ++ [v])) (members_of doc))
  | Some _ => doc
  end.

Definition balanceInfoToJson (address : bytes) (b : BalanceInfo) (currentBlock : Z) (version : JsonVersion)
  (doc : json) (array : bool) : json :=
  let isString := match version with V2 => true | V1 => false end in
  let v := AddMember (JObj []) "address" (strToJson address) in
  let v := AddMember v "received" (intOrString (received b) isString) in
  let v := AddMember v "spent" (intOrString (spent b) isString) in
  let v := AddMember v "count_received" (intOrString (countReceived b) isString) in
  let v := AddMember v "count_spent" (intOrString (countSpent b) isString) in
  let v := AddMember v "block_number" (intOrString (bal_blockNumber b) isString) in
  let v := AddMember v "currentBlock" (intOrString currentBlock isString) in
  let v := match bal_delegated b with
           | Some d =>
               let v := AddMember v "countDelegatedOps" (intOrString (db_countOp d) isString) in
               let v := AddMember v "delegate" (intOrString (elem_spent (db_delegate d)) isString) in
               let v := AddMember v "undelegate" (intOrString (elem_received (db_delegate d)) isString) in
               let v := AddMember v "delegated" (intOrString (elem_received (db_delegated d)) isString) in
               let v := AddMember v "undelegated" (intOrString (elem_spent (db_delegated d)) isString) in
               AddMember v "reserved" (intOrString (reserved d) isString)
           | None => v
           end in
  let v := match bal_forged b with
           | Some g =>
               let v := AddMember v "countForgedOps" (intOrString (fb_countOp g) isString) in
               AddMember v "forged" (intOrString (forged_sum g) isString)
           | None => v
           end in
  if array then push_result doc v else AddMember doc "result" v.

(** The static blockHeaderToJson. *)
Definition headerToJson (bh : BlockHeader) (signatures : AnyTxInfo) (version : JsonVersion) : res json :=
  let isString := match version with V2 => true | V1 => false end in
  match blockNumber bh with
  | None => Throw (CommonException (str "Block header not set"))
  | Some number =>
      let v := AddMember (JObj []) "type" (strToJson (getBlockType bh)) in
      let v := AddMember v "hash" (strToJson (toHex_vec (hash bh))) in
      let v := AddMember v "prev_hash" (strToJson (toHex_vec (prevHash bh))) in
      let v := AddMember v "tx_hash" (strToJson (toHex_vec (txsHash bh))) in
      let v := AddMember v "number" (intOrString number isString) in
      let v := AddMember v "timestamp" (intOrString (timestamp bh) isString) in
      let v := AddMember v "count_txs" (intOrString (bh_countTxs bh) isString) in
      let v := AddMember v "sign" (strToJson (toHex_vec (signature bh))) in
      let v := AddMember v "size" (JInt (blockSize bh)) in
      let v := AddMember v "fileName" (strToJson (fileNameRelative (bh_filePos bh))) in
      l ← match signatures with
          | TxInfos l => push_all (fun tx => transactionInfoToJson tx bh 2 version) l
          | SignTxInfos l => Ok (map signTransactionInfoToJson l)
          end;
      Ok (AddMember v "signatures" (JArr l))
  end.

Definition zero_block : bytes := str "Incorrect block number: 0. Genesis block begin with number 1".

Definition blockHeaderToJson (bh : BlockHeader) (signatures : AnyTxInfo) (version : JsonVersion) (doc : json)
  : res json :=
  if bool_decide (blockNumber bh = Some 0) then Ok (genErrorResponse (-32603) zero_block doc)
  else v ← headerToJson bh signatures version; Ok (AddMember doc "result" v).

(** The loop of blockHeadersToJson over blocks and the signatures behind each:
    [None] for the [return] at a block with number 0. *)
Fixpoint headers_loop (bh : list BlockHeader) (signatures : list (list TransactionInfo)) (version : JsonVersion)
  : res (option (list json)) :=
  match bh, signatures with
  | b :: bh', s :: signatures' =>
      if bool_decide (blockNumber b = Some 0) then Ok None
      else
        v ← headerToJson b (TxInfos s) version;
        r ← headers_loop bh' signatures' version;
        Ok (option_map (cons v) r)
  | _, _ => Ok (Some [])
  end.

Definition blockHeadersToJson (r : RequestId) (bh : list BlockHeader) (signatures : list (list TransactionInfo))
  (version : JsonVersion) (doc : json) : res json :=
  let doc := addIdToResponse r doc in
  _ ← CHECK (u64 (zlen bh + 1) =? zlen signatures) "Incorrect signatures vect";
  l ← headers_loop bh (tail signatures) version;
  match (l : option (list json)) with
  | None => Ok (genErrorResponse (-32603) zero_block doc)
  | Some l => Ok (AddMember doc "result" (JArr l))
  end.

Definition blockInfoToJson (bi : BlockInfo) (signatures : AnyTxInfo) (type : Z) (version : JsonVersion) (doc : json)
  : res json :=
  let bh := header bi in
  if bool_decide (blockNumber bh = Some 0) then Ok (genErrorResponse (-32603) zero_block doc)
  else
    v ← headerToJson bh signatures version;
    l ← push_all (fun tx => transactionInfoToJson tx bh (i32 type) version) (txs bi);
    Ok (AddMember doc "result" (AddMember v "txs" (JArr l))).

Definition genCountBlockJson (countBlocks : Z) (version : JsonVersion) (doc : json) : json :=
  AddMember doc "result"
    (AddMember (JObj []) "count_blocks" (intOrString countBlocks (match version with V2 => true | V1 => false end))).

Definition genBlockDumpJson (blockDump : bytes) (doc : json) : json :=
  AddMember doc "result" (AddMember (JObj []) "dump" (strToJson blockDump)).

(** ** Reading headers *)

(** [resultJson.HasMember(name) && resultJson[name].IsInt64()], its value through
    [size_t]. *)
Definition int_field (v : json) (name : string) : res Z :=
  match get name v with
  | Some (JInt z) =>
      if IsInt64 (JInt z) then Ok (u64 z) else Throw (CommonException (str name ++ str " field not found"))
  | _ => Throw (CommonException (str name ++ str " field not found"))
  end.
Definition str_field (v : json) (name : string) : res bytes :=
  match get name v with
  | Some (JStr s) => Ok (c_str s)
  | _ => Throw (CommonException (str name ++ str " field not found"))
  end.

(** The static parseBlockHeader. *)
Definition parse_header (v : json) : res MinimumBlockHeader :=
  number ← int_field v "number";
  hash ← str_field v "hash";
  parent ← str_field v "prev_hash";
  size ← int_field v "size";
  fileName ← str_field v "fileName";
  Ok {| mbh_number := number; mbh_blockSize := size; mbh_hash := hash; parentHash := parent;
        mbh_fileName := fileName; prevExtraBlocks := []; nextExtraBlocks := [] |}.

Variable parse_json : bytes -> option json.

(** [HasMember] on a document that is no object is outside the library's
    preconditions. *)
Definition checked_result (response : bytes) : res (option json) :=
  match parse_json (c_str response) with
  | None => Throw (CommonException (str "rapidjson parse error. Data: " ++ response))
  | Some (JObj l) =>
      match get "error" (JObj l) with
      | None | Some JNull => Ok (get "result" (JObj l))
      | Some e => Throw (CommonException (jsonToString e))
      end
  | Some _ => Throw Undefined
  end.

Definition parseBlockHeader (response : bytes) : res MinimumBlockHeader :=
  r ← checked_result response;
  match (r : option json) with
  | Some (JObj l) => parse_header (JObj l)
  | _ => Throw (CommonException (str "result field not found"))
  end.

Fixpoint parse_headers (l : list json) : res (list MinimumBlockHeader) :=
  match l with
  | [] => Ok []
  | v :: l' =>
      _ ← CHECK (IsObject v) "result field not found";
      h ← parse_header v;
      r ← parse_headers l';
      Ok (h :: r)
  end.

Definition parseBlocksHeader (response : bytes) : res (list MinimumBlockHeader) :=
  r ← checked_result response;
  match (r : option json) with
  | Some (JArr l) => parse_headers l
  | _ => Throw (CommonException (str "result field not found"))
  end.
End Generate.

(** ** Lemmas *)

Lemma get_AddMember_eq v name x : get name v = None -> get name (AddMember v name x) = Some x.
Proof.
  intros Hn. unfold AddMember. cbn [get]. rewrite FindMember_app.
  assert (FindMember (str name) (members_of v) = None) as ->
    by (destruct v; try done; by apply Hn).
  cbn. by rewrite bool_decide_eq_true_2.
Qed.

Lemma get_AddMember_ne v name name' x : name <> name' -> get name' (AddMember v name x) = get name' v.
Proof.
  intros Hn. assert (str name <> str name') as Hs by (intros E; by apply str_inj in E).
  unfold AddMember. cbn [get]. rewrite FindMember_app.
  assert (get name' v = FindMember (str name') (members_of v)) as -> by by destruct v.
  destruct (FindMember _ _); [done|]. cbn. by rewrite bool_decide_eq_false_2.
Qed.

Create Rewrite HintDb add.
#[export] Hint Rewrite get_AddMember_ne using discriminate : add.

(** ** Theorems *)

Section Facts.
Context `{T : TorrentLib} `{I : InfoLib}.
(** [strToJson] makes a JSON string of its argument. *)
Hypothesis strToJson_str : forall s, strToJson s = JStr s.

(** Reads a member through the members added behind it. *)
Ltac read_member := autorewrite with add; rewrite get_AddMember_eq; [|by autorewrite with add].

Lemma headerToJson_fields bh sigs v number :
  blockNumber bh = Some number -> headerToJson bh sigs V1 = Ok v ->
  get "number" v = Some (JInt number) /\ get "hash" v = Some (JStr (bin2hex (hash bh))) /\
  get "prev_hash" v = Some (JStr (bin2hex (prevHash bh))) /\ get "size" v = Some (JInt (blockSize bh)) /\
  get "fileName" v = Some (JStr (fileNameRelative (bh_filePos bh))) /\ IsObject v = true.
Proof.
  unfold headerToJson. intros ->. intros (l & _ & [= <-])%bind_Ok.
  rewrite !strToJson_str. unfold toHex_vec, bin2hex2. rewrite <- !bin2hex_flat_map.
  split_and!; try done; by read_member.
Qed.

(** Headers whose numbers fit the signed 64-bit fields of the reader. *)
Definition printable (bh : BlockHeader) (n : Z) : Prop :=
  blockNumber bh = Some n /\ 0 < n < 2 ^ 63 /\ 0 <= blockSize bh < 2 ^ 63 /\
  c_str (fileNameRelative (bh_filePos bh)) = fileNameRelative (bh_filePos bh).

Definition min_header (bh : BlockHeader) (n : Z) : MinimumBlockHeader :=
  {| mbh_number := n; mbh_blockSize := blockSize bh; mbh_hash := bin2hex (hash bh);
     parentHash := bin2hex (prevHash bh); mbh_fileName := fileNameRelative (bh_filePos bh);
     prevExtraBlocks := []; nextExtraBlocks := [] |}.

(** Signatures that can be printed: each transaction has a hash. *)
Definition printable_signatures (sigs : AnyTxInfo) : Prop :=
  match sigs with TxInfos l => Forall (fun tx => tx_hash tx <> []) l | SignTxInfos _ => True end.

Lemma push_all_ok {A} (f : A -> res json) l : Forall (fun a => is_Ok (f a) = true) l -> exists r, push_all f l = Ok r.
Proof.
  induction 1 as [|a l Ha _ [r IH]]; cbn [push_all]; [by eexists|].
  destruct (f a); [|done]. rewrite IH. cbn. by eexists.
Qed.

Lemma transactionInfoToJson_ok tx bh v : tx_hash tx <> [] -> is_Ok (transactionInfoToJson tx bh 2 v) = true.
Proof. intros Hh. unfold transactionInfoToJson. rewrite bool_decide_eq_false_2 by done. done. Qed.

Lemma headerToJson_ok bh n sigs ver :
  blockNumber bh = Some n -> printable_signatures sigs -> exists v, headerToJson bh sigs ver = Ok v.
Proof.
  intros Hn Hs. unfold headerToJson. rewrite Hn. destruct sigs as [l|l]; [|by eexists].
  destruct (push_all_ok (fun tx => transactionInfoToJson tx bh 2 ver) l) as [r ->]; [|by eexists].
  cbn in Hs. eapply Forall_impl; [exact Hs|]. intros tx. apply transactionInfoToJson_ok.
Qed.

Lemma parse_header_printed bh n sigs v :
  printable bh n -> headerToJson bh sigs V1 = Ok v -> parse_header v = Ok (min_header bh n) /\ IsObject v = true.
Proof.
  intros (Hn & Hr & Hb & Hf) Hv. destruct (headerToJson_fields _ _ _ _ Hn Hv) as (H1 & H2 & H3 & H4 & H5 & H6).
  split; [|done]. unfold parse_header, int_field, str_field. rewrite H1, H2, H3, H4, H5.
  unfold IsInt64. ztest. cbn [mbind res_bind andb]. rewrite Hf, !wrap_small by lia.
  by rewrite !c_str_bin2hex.
Qed.

(** A header that the program prints is the header it reads: for every block
    with a number and size in the signed 64-bit range, blockHeaderToJson succeeds
    and parseBlockHeader of a text with that document gives the number, the size,
    the file name and the hexadecimal hashes. *)
Theorem block_header_roundtrip parse_json bh n sigs doc :
  printable bh n -> printable_signatures sigs -> get "result" doc = None -> get "error" doc = None ->
  exists d, blockHeaderToJson bh sigs V1 doc = Ok d /\
    forall text, parse_json (c_str text) = Some d -> parseBlockHeader parse_json text = Ok (min_header bh n).
Proof.
  intros Hp Hs Hr He. pose proof Hp as (Hn & Hrange & _).
  destruct (headerToJson_ok bh n sigs V1 Hn Hs) as [v Hv]. exists (AddMember doc "result" v). split.
  { unfold blockHeaderToJson. rewrite Hv, Hn, bool_decide_eq_false_2 by (intros [= ?]; lia). done. }
  intros text Ht. unfold parseBlockHeader, checked_result. rewrite Ht.
  change (AddMember doc "result" v) with (JObj (members_of doc ++ [(str "result", v)])). cbv beta iota.
  change (JObj (members_of doc ++ [(str "result", v)])) with (AddMember doc "result" v).
  rewrite get_AddMember_ne, He by done. cbn [mbind res_bind]. rewrite get_AddMember_eq by done.
  destruct (parse_header_printed bh n sigs v Hp Hv) as [Hh Ho]. by destruct v.
Qed.

End Facts.
