(* ===== verification/BlockHandlers.v ===== *)
(** The handlers that answer queries about blocks, transactions and balances:
    src/task_handlers/get_block_base.cpp, get_dump_block_base.cpp, their four
    classes by hash and by number, get_count_blocks_handler.cpp,
    get_blocks_handler.cpp, get_last_txs_handler.cpp, get_tx_handler.cpp,
    fetch_balance_handler.cpp, fetch_balances_handler.cpp,
    fetch_history_handler.cpp and fetch_history_filter_handler.cpp.

    What these handlers share is the block cache (BlockStore), which they only
    read.  The local database is the library's: a record of its operations,
    [None] when it is not running. *)

From Stdlib Require Import String.
From S2P Require Import Prelude Text Hex Crypto Transaction Json BlockInfo BlockStore Handlers GenerateJson.
Open Scope Z_scope.

(** The operations of torrent_node_lib::Sync that the handlers call. *)
Record sync_db := {
  getBlock : Z -> BlockHeader;
  getBlock_by_hash : bytes -> BlockHeader;
  getFullBlock : BlockHeader -> Z -> Z -> BlockInfo;
  getBlockSignatures : BlockInfo -> list TransactionInfo;
  getBlockDump : bytes -> FilePosition -> Z -> Z -> bool -> bool -> res bytes;
  countBlocks : Z;
  getKnownBlock : Z;
  getBalance : bytes -> BalanceInfo;
  getTxsForAddress : bytes -> Z -> Z -> Z -> list TransactionInfo;
  getTransaction : bytes -> option TransactionInfo
}.

(** std::variant<std::size_t, std::string> m_block_id. *)
Inductive block_id := ByNumber (n : Z) | ByHash (h : bytes).

Definition get_block_id (b : block_id) : bytes := match b with ByNumber n => to_string n | ByHash h => h end.

Section Handlers.
Context `{OpenSSL} `{TorrentLib} `{InfoLib}.
Variable stringify : json -> bytes.
Variable syncSingleton : option sync_db.
Variables useLocalDatabase allowStateBlocks block_verification : bool.

Abbreviation HM := (M (handler cache)).

(** [if (!useLocalDatabase) m_writer.add_param(name, v)]. *)
Definition forward (name : string) (v : json) : HM unit :=
  if useLocalDatabase then mret () else write (fun w => add_param w name v).
Definition forward_opt (name : string) (v : option Z) : HM unit :=
  match v with Some z => forward name (JInt z) | None => mret () end.

(** ** set_block_id of the four classes *)

Definition block_by_hash_id (params : json) : HM block_id :=
  hash ← need (get_value_str params "hash") "hash field not found";
  CHK_PRM (negb (bool_decide (hash = []))) "hash is empty";;
  forward "hash" (JStr hash);; mret (ByHash hash).

Definition block_by_number_id (params : json) : HM block_id :=
  number ← need (get_value_u64 params "number") "number field not found";
  forward "number" (JInt number);; mret (ByNumber number).

Definition dump_by_hash_id (params : json) : HM block_id :=
  hash ← need (get_value_str params "hash") "hash field not found";
  forward "hash" (JStr hash);; mret (ByHash hash).

Definition dump_by_number_id (params : json) : HM block_id :=
  number ← need (get_value_u64 params "number") "number field not found";
  forward "number" (JInt number);; mret (ByNumber number).

(** ** get_block_base *)

Record block_members := { bm_id : block_id; m_type : Z; m_countTxs : Z; m_beginTx : Z }.

Definition block_prepare (set_block_id : json -> HM block_id) : HM (option block_members) :=
  END_TRY None
    (need_id;; params ← need_params;
     b ← set_block_id params;
     forward_opt "countTxs" (get_value_u64 params "countTxs");;
     forward_opt "beginTx" (get_value_u64 params "beginTx");;
     type ← match get "type" params with
            | Some (JStr s) => forward "type" (JStr (c_str s));; mret 0
            | Some v =>
                match v with
                | JInt z => if IsUint v then forward "type" (JInt z);; mret z else mret 0
                | _ => mret 0
                end
            | None => mret 0
            end;
     mret (Some {| bm_id := b; m_type := type;
                   m_countTxs := default 0 (get_value_u64 params "countTxs");
                   m_beginTx := default 0 (get_value_u64 params "beginTx") |})).

(** The block the cache has for an id. *)
Definition cached_dump (c : cache) (b : block_id) : option bytes :=
  match b with
  | ByNumber n => get_block_by_num c n block_verification
  | ByHash h => snd <$> get_block_by_hash c h block_verification
  end.

(** [bi.header.blockNumber] of a block from the cache. *)
Definition number_of (b : block_id) : Z := match b with ByNumber n => n | ByHash h => u64 (atoi (c_str h)) end.

(** [bi.header.countTxs = bi.txs.size()]. *)
Definition with_count (b : BlockInfo) : BlockInfo :=
  let h := header b in
  {| header := {| timestamp := timestamp h; blockSize := blockSize h; blockType := blockType h;
       hash := hash h; prevHash := prevHash h; txsHash := txsHash h; signature := signature h;
       bh_countTxs := zlen (txs b); countSignTx := countSignTx h; bh_filePos := bh_filePos h;
       blockNumber := blockNumber h; senderSign := senderSign h; senderPubkey := senderPubkey h;
       senderAddress := senderAddress h |};
     txs := txs b |}.

(** The signatures that the cache has for a block. *)
Definition cached_signatures (c : cache) (number : Z) : res AnyTxInfo :=
  match get_extra_block_for c number with
  | Some dump =>
      v ← parseBlockDump dump false;
      Ok (match v with ASignBlock sbi => SignTxInfos (sb_txs sbi) | _ => TxInfos [] end)
  | None => Ok (TxInfos [])
  end.

(** The switch on the type of a block answer. *)
Definition block_answer (type : Z) (bi : BlockInfo) (signatures : AnyTxInfo) : HM unit :=
  if (type =? 0) || (type =? 4) then generate (blockHeaderToJson (header bi) signatures V1)
  else generate (blockInfoToJson bi signatures type V1).

(** The branch for a running cache. *)
Definition block_from_cache (m : block_members) : HM unit :=
  h ← gets (fun h => h);
  match cached_dump (world h) (bm_id m) with
  | None => CHK_PRM false "The block does not exists or has not signed yet"
  | Some dump =>
      write reset;;
      v ← lift (parseBlockDump dump false);
      match v with
      | ABlock b =>
          let number := number_of (bm_id m) in
          let bi := with_count (bi_with_number b number) in
          if negb allowStateBlocks && isStateBlock (header bi) then
            write (genErrorResponse (-32603)
              (str "The block " ++ get_block_id (bm_id m) ++ str " is a state block and has been ignored"))
          else
            signatures ← lift (cached_signatures (world h) number);
            block_answer (m_type m) bi signatures
      | _ => CHK_PRM false "Incorrect block type"
      end
  end.

(** The branch for the local database. *)
Definition block_from_database (m : block_members) : HM unit :=
  sync ← need syncSingleton "Sync not set";
  let bh := match bm_id m with ByNumber n => getBlock sync n | ByHash h => getBlock_by_hash sync h end in
  if negb allowStateBlocks && isStateBlock bh then
    write (genErrorResponse (-32603)
      (str "block " ++ get_block_id (bm_id m) ++ str " is a state block and was ignored"))
  else
    match blockNumber bh with
    | None => write (genErrorResponse (-32603)
                (str "block " ++ get_block_id (bm_id m) ++ str " has not found"))
    | Some number =>
        let nextBh := getBlock sync (u64 (number + 1)) in
        let signs := match blockNumber nextBh with
                     | Some _ => getBlockSignatures sync (getFullBlock sync nextBh 0 10)
                     | None => []
                     end in
        if (m_type m =? 0) || (m_type m =? 4)
        then generate (blockHeaderToJson bh (TxInfos signs) V1)
        else generate (blockInfoToJson (getFullBlock sync bh (m_beginTx m) (m_countTxs m)) (TxInfos signs) (m_type m) V1)
    end.

Definition block_execute (m : block_members) : HM unit :=
  END_TRY ()
    (h ← gets (fun h => h);
     if m_run (world h) then block_from_cache m
     else if useLocalDatabase then block_from_database m
     else network_execute stringify).

(** get_block_base::process_response. *)
Definition block_process_response (reader : json) : HM unit :=
  process_response reader;;
  if allowStateBlocks then mret ()
  else match get_result reader with
       | Some r =>
           match get_value_str r "type" with
           | Some type => CHK_PRM (negb (bool_decide (type = str "state"))) "block is state-block and has been ignored"
           | None => mret ()
           end
       | None => mret ()
       end.

Definition get_block_by_hash_handler : handler_class cache :=
  {| members_t := block_members; prepare_params := block_prepare block_by_hash_id; execute := block_execute |}.
Definition get_block_by_number_handler : handler_class cache :=
  {| members_t := block_members; prepare_params := block_prepare block_by_number_id; execute := block_execute |}.

(** ** get_dump_block_base *)

Record dump_members := { dm_id : block_id; m_fromByte : Z; m_toByte : Z }.

Definition dump_prepare (set_block_id : json -> HM block_id) : HM (option dump_members) :=
  END_TRY None
    (need_id;; params ← need_params;
     b ← set_block_id params;
     forward "isHex" (JBool true);;
     mret (Some {| dm_id := b; m_fromByte := default 0 (get_value_u64 params "fromByte");
                   m_toByte := default UINT64_MAX (get_value_u64 params "toByte") |})).

Definition dump_from_cache (m : dump_members) : HM unit :=
  h ← gets (fun h => h);
  match cached_dump (world h) (dm_id m) with
  | Some dump => write reset;; write (genBlockDumpJson (bin2hex_append dump []))
  | None => CHK_PRM false "The block does not exists or has not signed yet"
  end.

(** The inner try of the branch for the local database: its text, or the message
    of the exception. *)
Definition dump_of_database (sync : sync_db) (m : dump_members) : res bytes :=
  let bh := match dm_id m with ByNumber n => getBlock sync n | ByHash h => getBlock_by_hash sync h end in
  match blockNumber bh with
  | None => Throw (CommonException (str "block " ++ get_block_id (dm_id m) ++ str " has not found"))
  | Some _ =>
      r ← getBlockDump sync (hash bh) (bh_filePos bh) (m_fromByte m) (m_toByte m) true false;
      if bool_decide (r = []) then Throw (CommonException (str "block " ++ get_block_id (dm_id m) ++ str " not found"))
      else Ok r
  end.

Definition dump_from_database (m : dump_members) : HM unit :=
  sync ← need syncSingleton "Sync not set";
  match dump_of_database sync m with
  | Ok dump => write (genBlockDumpJson dump)
  | Throw Undefined => throw Undefined
  | Throw e =>
      write (genErrorResponse (-32603)
        (match e with
         | CommonException s => s
         | _ => if is_std_exception e then what e else str "Unknown error"
         end))
  end.

Definition dump_execute (m : dump_members) : HM unit :=
  END_TRY ()
    (h ← gets (fun h => h);
     if m_run (world h) then dump_from_cache m
     else if useLocalDatabase then dump_from_database m
     else network_execute stringify).

Definition get_dump_block_by_hash : handler_class cache :=
  {| members_t := dump_members; prepare_params := dump_prepare dump_by_hash_id; execute := dump_execute |}.
Definition get_dump_block_by_number : handler_class cache :=
  {| members_t := dump_members; prepare_params := dump_prepare dump_by_number_id; execute := dump_execute |}.

(** ** get_count_blocks_handler, get_blocks_handler, get_last_txs_handler *)

Definition count_execute : HM unit :=
  END_TRY ()
    (h ← gets (fun h => h);
     if useLocalDatabase then
       sync ← need syncSingleton "Sync not set";
       write (genCountBlockJson (countBlocks sync) V1)
     else if m_run (world h) then write (genCountBlockJson (m_last_signed_block (world h)) V1)
     else network_execute stringify).

Definition get_count_blocks_handler : handler_class cache :=
  {| members_t := unit; prepare_params := END_TRY None (need_id;; mret (Some ())); execute := fun _ => count_execute |}.

Definition get_last_txs_handler : handler_class cache :=
  {| members_t := unit; prepare_params := END_TRY None (need_id;; mret (Some ()));
     execute := fun _ => network_execute stringify |}.

Definition add_text (params : json) (name : string) : HM unit :=
  match get_value_str params name with
  | Some s => write (fun w => add_param w name (JStr s))
  | None => mret ()
  end.

Definition get_blocks_prepare : HM (option unit) :=
  END_TRY None
    (need_id;; params ← need_params;
     countBlocks ← need (get_value_u64 params "countBlocks") "'countBlocks' field not found";
     write (fun w => add_param w "countBlocks" (JInt countBlocks));;
     beginBlock ← need (get_value_u64 params "beginBlock") "'beginBlock' field not found";
     write (fun w => add_param w "beginBlock" (JInt beginBlock));;
     add_text params "type";; add_text params "direction";;
     mret (Some ())).

Definition get_blocks_handler : handler_class cache :=
  {| members_t := unit; prepare_params := get_blocks_prepare; execute := fun _ => network_execute stringify |}.

(** ** get_tx_handler *)

Definition get_tx_prepare : HM (option bytes) :=
  END_TRY None
    (need_id;; params ← need_params;
     hash ← need (get_value_str params "hash") "hash field not found";
     CHK_PRM (negb (bool_decide (hash = []))) "hash is empty";;
     forward "hash" (JStr (c_str hash));;
     mret (Some hash)).

(** [tx.value_or(TransactionInfo())], whose hash is empty. *)
Variable TransactionInfo_default : TransactionInfo.

Definition get_tx_execute (hash : bytes) : HM unit :=
  END_TRY ()
    (if useLocalDatabase then
       sync ← need syncSingleton "Sync not set";
       hash2 ← lift (match fromHex hash with Some b => Ok b | None => Throw Undefined end);
       generate (transactionToJson (default TransactionInfo_default (getTransaction sync hash2))
                   (getBlock sync) (countBlocks sync) (getKnownBlock sync) V1)
     else network_execute stringify).

Definition get_tx_handler : handler_class cache :=
  {| members_t := bytes; prepare_params := get_tx_prepare; execute := get_tx_execute |}.

(** ** fetch_balance_handler, fetch_balances_handler *)

(** The field address, checked. *)
Definition need_address (params : json) : HM bytes :=
  addr ← need (get_value_str params "address") "address field not found";
  CHK_PRM (negb (bool_decide (addr = []))) "address is empty";;
  ok ← lift (validate_address addr);
  CHK_PRM ok "address is invalid";;
  mret addr.

Definition fetch_balance_prepare : HM (option bytes) :=
  END_TRY None
    (need_id;; params ← need_params;
     addr ← need_address params;
     forward "address" (JStr (c_str addr));;
     mret (Some addr)).

Definition fetch_balance_execute (addr : bytes) : HM unit :=
  END_TRY ()
    (if useLocalDatabase then
       sync ← need syncSingleton "Sync not set";
       write (fun d => balanceInfoToJson addr (getBalance sync addr) (countBlocks sync) V1 d false)
     else network_execute stringify).

Definition fetch_balance_handler : handler_class cache :=
  {| members_t := bytes; prepare_params := fetch_balance_prepare; execute := fetch_balance_execute |}.

(** The valid addresses of an array; other elements are skipped. *)
Fixpoint valid_addresses (l : list json) : res (list bytes) :=
  match l with
  | [] => Ok []
  | JStr (c :: s) :: l' =>
      ok ← validate_address (c :: s);
      r ← valid_addresses l';
      Ok (if (ok : bool) then (c :: s) :: r else r)
  | _ :: l' => valid_addresses l'
  end.

(** [m_writer.get_params()->AddMember(name, v)]. *)
Definition add_params_member (name : string) (v : json) (d : json) : json :=
  at_value d "params" kObjectType (fun p => AddMember p name v).

Definition fetch_balances_prepare : HM (option (list bytes)) :=
  END_TRY None
    (need_id;; params ← need_params;
     addresses ← need (get "addresses" params) "addresess field not found";
     CHK_PRM (IsArray addresses) "addresses field must be array";;
     addrs ← lift (valid_addresses (match addresses with JArr l => l | _ => [] end));
     CHK_PRM (negb (bool_decide (addrs = []))) "addresses has not valid values";;
     (if useLocalDatabase then mret ()
      else write (add_params_member "addresses" (JArr (map JStr addrs))));;
     mret (Some addrs)).

Definition fetch_balances_execute (addrs : list bytes) : HM unit :=
  END_TRY ()
    (if useLocalDatabase then
       sync ← need syncSingleton "Sync not set";
       write (fun d => fold_left (fun d a => balanceInfoToJson a (getBalance sync a) (countBlocks sync) V1 d true) addrs d)
     else network_execute stringify).

Definition fetch_balances_handler : handler_class cache :=
  {| members_t := list bytes; prepare_params := fetch_balances_prepare; execute := fetch_balances_execute |}.

(** ** fetch_history_handler, fetch_history_filter_handler *)

Definition fetch_history_prepare : HM (option (bytes * Z * Z)) :=
  END_TRY None
    (need_id;; params ← need_params;
     addr ← need_address params;
     forward "address" (JStr (c_str addr));;
     forward_opt "countTxs" (get_value_u64 params "countTxs");;
     forward_opt "beginTx" (get_value_u64 params "beginTx");;
     mret (Some (addr, default 0 (get_value_u64 params "countTxs"), default 0 (get_value_u64 params "beginTx")))).

Definition fetch_history_execute (m : bytes * Z * Z) : HM unit :=
  let '(addr, countTxs, beginTx) := m in
  END_TRY ()
    (if useLocalDatabase then
       sync ← need syncSingleton "Sync not set";
       generate (addressesInfoToJson (getTxsForAddress sync addr beginTx countTxs countTxs) (getBlock sync) V1)
     else network_execute stringify).

Definition fetch_history_handler : handler_class cache :=
  {| members_t := bytes * Z * Z; prepare_params := fetch_history_prepare; execute := fetch_history_execute |}.

Definition key_str : list bytes :=
  [str "isInput"; str "isOutput"; str "isSuccess"; str "isForging"; str "isTest"; str "isDelegate"].

Definition filter_prepare : HM (option unit) :=
  END_TRY None
    (need_id;; params ← need_params;
     addr ← need_address params;
     filters ← need (get "filters" params) "filters field not found";
     (if IsObject filters then mret () else throw Undefined);;
     let kept := List.filter (fun p => bool_decide (p.1 ∈ key_str)) (members_of filters) in
     CHK_PRM (negb (bool_decide (map fst kept = []))) "filters is not recognized";;
     write (fun w => add_param w "address" (JStr (c_str addr)));;
     write (add_params_member "filters" (JObj kept));;
     mret (Some ())).

Definition fetch_history_filter_handler : handler_class cache :=
  {| members_t := unit; prepare_params := filter_prepare; execute := fun _ => network_execute stringify |}.
End Handlers.

(** ** Theorems *)

Section Facts.
Context `{O : OpenSSL} `{T : TorrentLib} `{I : InfoLib}.
Context {stringify : json -> bytes} {syncSingleton : option sync_db}.
Context {useLocalDatabase allowStateBlocks block_verification : bool}.
(** [strToJson] makes a JSON string of its argument. *)
Hypothesis strToJson_str : forall s, strToJson s = JStr s.

Abbreviation execute_dump := (dump_execute stringify syncSingleton useLocalDatabase block_verification).
Abbreviation execute_block :=
  (block_execute stringify syncSingleton useLocalDatabase allowStateBlocks block_verification).

(** With a running cache, a query for a dump is answered from it and nothing
    is sent to the node: the hexadecimal text of the block that the cache has for
    the number or hash, and an error when it has none. *)
Theorem dump_answered_from_cache m h :
  m_run (world h) = true ->
  let h' := (execute_dump m h).1 in
  m_requests h' = m_requests h /\ m_async h' = m_async h /\ world h' = world h /\
  match cached_dump block_verification (world h) (dm_id m) with
  | Some dump =>
      get "dump" (default JNull (get_result (m_writer h'))) = Some (JStr (bin2hex dump)) /\
      is_error (m_writer h') = false
  | None => is_error (m_writer h') = true /\ get_result (m_writer h') = None
  end.
Proof.
  intros Hr. unfold dump_execute, END_TRY, gets, mbind, M_bind. rewrite Hr.
  unfold dump_from_cache, gets, mbind, M_bind.
  destruct (cached_dump _ _ _) as [d|]; [|done].
  unfold write, modify, mbind, M_bind. cbn [fst m_requests m_async world m_writer set_m_writer].
  split_and!; try done. unfold genBlockDumpJson, get_result. rewrite strToJson_str, get_AddMember_eq by done.
  cbn [default from_option]. unfold id. rewrite get_AddMember_eq by done.
  unfold bin2hex_append. by rewrite fold_append_flat_map, bin2hex_flat_map.
Qed.

(** The document a block from the cache becomes. *)
Lemma block_from_cache_run m h dump b :
  m_run (world h) = true -> (m_type m =? 0) || (m_type m =? 4) = true ->
  cached_dump block_verification (world h) (bm_id m) = Some dump ->
  parseBlockDump dump false = Ok (ABlock b) ->
  let number := number_of (bm_id m) in
  let bi := with_count (bi_with_number b number) in
  allowStateBlocks || negb (isStateBlock (header bi)) = true ->
  get_extra_block_for (world h) number = None ->
  m_writer (execute_block m h).1 =
    if number =? 0 then genErrorResponse (-32603) zero_block (reset (m_writer h))
    else match headerToJson (header bi) (TxInfos []) V1 with
         | Ok v => AddMember (reset (m_writer h)) "result" v
         | Throw e => caught e (reset (m_writer h))
         end.
Proof.
  intros Hr Ht Hc Hp number bi Hs Hx. unfold block_execute, END_TRY, gets, mbind, M_bind. rewrite Hr.
  unfold block_from_cache, gets, mbind, M_bind. rewrite Hc. unfold write at 1, modify, lift. rewrite Hp.
  cbv beta iota. fold number. fold bi.
  assert (negb allowStateBlocks && isStateBlock (header bi) = false) as ->
    by (destruct allowStateBlocks, (isStateBlock (header bi)); done).
  unfold cached_signatures. rewrite Hx. cbv beta iota. unfold block_answer. rewrite Ht.
  unfold generate, gets, lift, mbind, M_bind, write, modify, blockHeaderToJson. cbn [m_writer set_m_writer].
  change (blockNumber (header bi)) with (Some number).
  destruct (Z.eqb_spec number 0) as [E|E].
  - rewrite bool_decide_eq_true_2 by (by rewrite E). done.
  - rewrite bool_decide_eq_false_2 by (by intros [= ?]).
    destruct (headerToJson _ _ _) as [v|e] eqn:Eh; [done|]. exfalso.
    unfold headerToJson in Eh. by rewrite (eq_refl : blockNumber (header bi) = Some number) in Eh.
Qed.

Lemma block_from_cache_result m h dump b :
  m_run (world h) = true -> (m_type m =? 0) || (m_type m =? 4) = true ->
  cached_dump block_verification (world h) (bm_id m) = Some dump ->
  parseBlockDump dump false = Ok (ABlock b) ->
  let number := number_of (bm_id m) in
  allowStateBlocks || negb (isStateBlock (header (with_count (bi_with_number b number)))) = true ->
  get_extra_block_for (world h) number = None -> number <> 0 ->
  let r := default JNull (get_result (m_writer (execute_block m h).1)) in
  get "number" r = Some (JInt number) /\ get "hash" r = Some (JStr (bin2hex (hash (header b)))) /\
  get "prev_hash" r = Some (JStr (bin2hex (prevHash (header b)))) /\ get "count_txs" r = Some (JInt (zlen (txs b))).
Proof.
  intros Hr Ht Hc Hp number Hs Hx Hn. rewrite (block_from_cache_run m h dump b) by done.
  fold number. rewrite (proj2 (Z.eqb_neq _ _) Hn). unfold headerToJson.
  change (blockNumber (header (with_count (bi_with_number b number)))) with (Some number).
  cbn [mbind res_bind push_all intOrString]. unfold get_result. rewrite get_AddMember_eq by done.
  rewrite default_Some, !strToJson_str. unfold toHex_vec, bin2hex2. rewrite <- !bin2hex_flat_map.
  split_and!; (autorewrite with add; rewrite get_AddMember_eq; [done|by autorewrite with add]).
Qed.

(** Get-block-by-number with a running cache answers with the block that the
    cache has for the number: its number, its hashes and the number of its
    transactions. *)
Theorem block_by_number_answer n type ct bt h dump b :
  m_run (world h) = true -> (type = 0 \/ type = 4) -> n <> 0 ->
  get_block_by_num (world h) n block_verification = Some dump ->
  parseBlockDump dump false = Ok (ABlock b) ->
  allowStateBlocks || negb (isStateBlock (header (with_count (bi_with_number b n)))) = true ->
  get_extra_block_for (world h) n = None ->
  let m := {| bm_id := ByNumber n; m_type := type; m_countTxs := ct; m_beginTx := bt |} in
  let r := default JNull (get_result (m_writer (execute_block m h).1)) in
  get "number" r = Some (JInt n) /\ get "hash" r = Some (JStr (bin2hex (hash (header b)))) /\
  get "prev_hash" r = Some (JStr (bin2hex (prevHash (header b)))) /\ get "count_txs" r = Some (JInt (zlen (txs b))).
Proof.
  intros Hr Ht Hn Hc Hp Hs Hx m. apply (block_from_cache_result m h dump b); try done.
  by destruct Ht as [-> | ->].
Qed.

(** Get-block-by-hash with a running cache does not report the number that the
    block was saved under, but the number that the text of the hash begins with:
    0 for a hash that begins with a letter, and then the answer is an error that
    speaks of block 0, although the block is in the cache. *)
Theorem block_by_hash_wrong_number x type ct bt h num dump b :
  m_run (world h) = true -> (type = 0 \/ type = 4) ->
  get_block_by_hash (world h) x block_verification = Some (num, dump) ->
  parseBlockDump dump false = Ok (ABlock b) ->
  let n := u64 (atoi (c_str x)) in
  allowStateBlocks || negb (isStateBlock (header (with_count (bi_with_number b n)))) = true ->
  get_extra_block_for (world h) n = None ->
  let m := {| bm_id := ByHash x; m_type := type; m_countTxs := ct; m_beginTx := bt |} in
  let w := m_writer (execute_block m h).1 in
  if n =? 0 then get "message" (default JNull (get_error w)) = Some (JStr zero_block)
  else get "number" (default JNull (get_result w)) = Some (JInt n).
Proof.
  intros Hr Ht Hc Hp n Hs Hx m w.
  assert ((m_type m =? 0) || (m_type m =? 4) = true) as Ht' by by destruct Ht as [-> | ->].
  assert (cached_dump block_verification (world h) (bm_id m) = Some dump) as Hc' by (cbn; by rewrite Hc).
  destruct (Z.eqb_spec n 0) as [E|E].
  - unfold w. rewrite (block_from_cache_run m h dump b) by done. fold n.
    change (number_of (bm_id m)) with n. rewrite (proj2 (Z.eqb_eq _ _) E).
    unfold genErrorResponse, get_error. rewrite !strToJson_str, get_AddMember_eq by done.
    rewrite default_Some. by rewrite get_AddMember_eq.
  - by apply (block_from_cache_result m h dump b).
Qed.
End Facts.

(** ** Witnesses *)

Module Sample.
Import Crypto.Toy.

(** Dumps are one block: the bytes are its hash. *)
Definition block_of (d : bytes) : BlockInfo :=
  {| header := with_hash (header BlockInfo_default) d; txs := [] |}.
#[export] Instance torrent : TorrentLib := {|
  Address_eqb a b := bool_decide (a = b);
  calcHexString a := bin2hex (address a);
  isStateBlock _ := false;
  isForgingBlock _ := false;
  getBlockType _ := str "block";
  parseBlockDump d _ := Ok (ABlock (block_of d))
|}.
#[export] Instance info : InfoLib := {|
  strToJson := JStr;
  jsonToString _ := [];
  realFee _ := 0;
  isIntStatusNotSuccess _ := false;
  isEmpty _ := true;
  received _ := 0;
  spent _ := 0;
  elem_received _ := 0;
  elem_spent _ := 0
|}.

Definition c0 : cache := with_run (save_block (fun _ => true) blocks_cache_new 7 (bin2hex (str "Z")) (str "Z")
                                     (set0 blk_signed ext_zero)).2 true.
Definition h0 : handler cache := base_handler c0.

Lemma dump_answered_from_cache_witness :
  let h' := (dump_execute (fun _ => []) None false true {| dm_id := ByNumber 7; m_fromByte := 0; m_toByte := 0 |} h0).1 in
  get "dump" (default JNull (get_result (m_writer h'))) = Some (JStr (bin2hex (str "Z"))) /\
  is_error (m_writer h') = false.
Proof.
  refine (proj2 (proj2 (proj2 (dump_answered_from_cache (stringify := fun _ => []) (syncSingleton := None)
    (useLocalDatabase := false) (block_verification := true) _
    {| dm_id := ByNumber 7; m_fromByte := 0; m_toByte := 0 |} h0 _)))).
  - reflexivity.
  - reflexivity.
Defined.

Lemma block_by_number_answer_witness :
  let m := {| bm_id := ByNumber 7; m_type := 0; m_countTxs := 0; m_beginTx := 0 |} in
  get "number" (default JNull (get_result (m_writer (block_execute (fun _ => []) None false false true m h0).1)))
  = Some (JInt 7).
Proof.
  refine (proj1 (block_by_number_answer (stringify := fun _ => []) (syncSingleton := None)
    (useLocalDatabase := false) (allowStateBlocks := false) (block_verification := true) _
    7 0 0 0 h0 (str "Z") (block_of (str "Z")) _ _ _ _ _ _ _)); try reflexivity.
  - left. reflexivity.
  - discriminate.
Defined.

(** The block is saved under number 7; its hash is [5a]. *)
Lemma block_by_hash_wrong_number_witness :
  let m := {| bm_id := ByHash (bin2hex (str "Z")); m_type := 0; m_countTxs := 0; m_beginTx := 0 |} in
  get_block_by_hash c0 (bin2hex (str "Z")) true = Some (str "7", str "Z") /\
  get "number" (default JNull (get_result (m_writer (block_execute (fun _ => []) None false false true m h0).1)))
  = Some (JInt 5).
Proof.
  split; [reflexivity|].
  refine (block_by_hash_wrong_number (stringify := fun _ => []) (syncSingleton := None)
    (useLocalDatabase := false) (allowStateBlocks := false) (block_verification := true) _
    (bin2hex (str "Z")) 0 0 0 h0 (str "7") (str "Z") (block_of (str "Z")) _ _ _ _ _ _); try reflexivity.
  left. reflexivity.
Defined.

(** A header with a number and a hash, printed and read back. *)
Definition bh0 : BlockHeader := with_number (with_hash (header BlockInfo_default) (str "Z")) 7.

Definition printed : json :=
  match blockHeaderToJson bh0 (SignTxInfos []) V1 (JObj []) with Ok d => d | Throw _ => JNull end.

Lemma block_header_roundtrip_witness :
  blockHeaderToJson bh0 (SignTxInfos []) V1 (JObj []) = Ok printed /\
  parseBlockHeader (fun _ => Some printed) [] = Ok (min_header bh0 7).
Proof.
  split; [reflexivity|].
  assert (forall s, strToJson s = JStr s) as Hs by reflexivity.
  destruct (block_header_roundtrip Hs (fun _ => Some printed) bh0 7 (SignTxInfos []) (JObj [])) as (d & E & K).
  - repeat split; by vm_compute.
  - exact I.
  - reflexivity.
  - reflexivity.
  - apply K. unfold printed. rewrite E. reflexivity.
Defined.
End Sample.
