(* ===== verification/SyncHandlers.v ===== *)
(** The handlers of a node with a local database: src/task_handlers/
    get_block_by_hash_handler_sync.cpp, get_block_by_number_handler_sync.cpp,
    get_dump_block_by_hash_handler_sync.cpp,
    get_dump_block_by_number_handler_sync.cpp, get_count_blocks_handler_sync.cpp,
    fetch_balance_handler_sync.cpp, fetch_history_handler_sync.cpp,
    get_tx_handler_sync.cpp, send_tx_handler_sync.cpp, and
    fetch_transaction_handler.cpp, which reads the history cache.

    The queries use nothing that handlers share but the database, so the type [W]
    of what they share is left open; sending a transaction needs the wallet. *)

From Stdlib Require Import String.
From S2P Require Import HistoryCache.
From S2P Require Import Prelude Text Hex Crypto Transaction WalletStorage Json BlockInfo BlockStore Handlers TxHandlers GenerateJson BlockHandlers.
Open Scope Z_scope.

(** [v.HasMember(name) && v[name].IsInt64()], its value: only an object has
    members. *)
Definition int64_member {S} (v : json) (name : string) : M S (option Z) :=
  if IsObject v then
    mret (match get name v with
          | Some (JInt z) => if IsInt64 (JInt z) then Some z else None
          | _ => None
          end)
  else throw Undefined.

Section Queries.
Context {W : Type} `{TorrentLib} `{InfoLib}.
Variable syncSingleton : option sync_db.
Variable allowStateBlocks : bool.

Abbreviation HM := (M (handler W)).

(** The field [hash], which may not be empty. *)
Definition need_hash (params : json) : HM bytes :=
  hash ← need (get_value_str params "hash") "hash field not found";
  CHK_PRM (negb (bool_decide (hash = []))) "hash is empty";;
  mret hash.

(** The field [number]: a 64-bit integer, kept in a [size_t]. *)
Definition need_number (params : json) : HM Z :=
  number ← int64_member params "number";
  number ← need number "number field not found";
  mret (u64 number).

(** ** get_block_by_hash_handler_sync, get_block_by_number_handler_sync *)

(** [type], [countTxs] and [beginTx]. *)
Definition sync_block_range (params : json) (b : block_id) : HM block_members :=
  type ← int64_member params "type";
  countTxs ← int64_member params "countTxs";
  beginTx ← int64_member params "beginTx";
  mret {| bm_id := b; m_type := u32 (default 0 type); m_countTxs := u64 (default 0 countTxs);
          m_beginTx := u64 (default 0 beginTx) |}.

Definition sync_block_by_hash_prepare : HM (option block_members) :=
  END_TRY None
    (need_id;; params ← need_params; hash ← need_hash params;
     m ← sync_block_range params (ByHash hash); mret (Some m)).

Definition sync_block_by_number_prepare : HM (option block_members) :=
  END_TRY None
    (need_id;; params ← need_params; number ← need_number params;
     m ← sync_block_range params (ByNumber number); mret (Some m)).

(** [sync.getBlockchain().getBlock(id)]. *)
Definition find_block (sync : sync_db) (b : block_id) : BlockHeader :=
  match b with ByNumber n => getBlock sync n | ByHash h => getBlock_by_hash sync h end.

(** The signatures in the block behind number [n]. *)
Definition next_signatures (sync : sync_db) (n : Z) : list TransactionInfo :=
  let nextBh := getBlock sync (u64 (n + 1)) in
  match blockNumber nextBh with
  | Some _ => getBlockSignatures sync (getFullBlock sync nextBh 0 10)
  | None => []
  end.

(** executeImpl of the two classes. *)
Definition sync_block_executeImpl (m : block_members) : HM unit :=
  END_TRY ()
    (sync ← need syncSingleton "Sync not set";
     let bh := find_block sync (bm_id m) in
     match blockNumber bh with
     | None => write (genErrorResponse (-32603) (str "block " ++ get_block_id (bm_id m) ++ str " has not found"))
     | Some number =>
         if negb allowStateBlocks && isStateBlock bh then
           write (genErrorResponse (-32603)
             (str "block " ++ get_block_id (bm_id m) ++ str " is state block and has been ignored"))
         else
           let signs := TxInfos (next_signatures sync number) in
           if (m_type m =? 0) || (m_type m =? 4) then generate (blockHeaderToJson bh signs V1)
           else generate (blockInfoToJson (getFullBlock sync bh (m_beginTx m) (m_countTxs m)) signs (m_type m) V1)
     end).

Definition get_block_by_hash_handler_sync : handler_class W :=
  {| members_t := block_members; prepare_params := sync_block_by_hash_prepare;
     execute := fun m => sync_execute (sync_block_executeImpl m) |}.
Definition get_block_by_number_handler_sync : handler_class W :=
  {| members_t := block_members; prepare_params := sync_block_by_number_prepare;
     execute := fun m => sync_execute (sync_block_executeImpl m) |}.

(** ** get_dump_block_by_hash_handler_sync, get_dump_block_by_number_handler_sync *)

Definition sync_dump_range (params : json) (b : block_id) : HM dump_members :=
  fromByte ← int64_member params "fromByte";
  toByte ← int64_member params "toByte";
  mret {| dm_id := b; m_fromByte := u64 (default 0 fromByte); m_toByte := u64 (default UINT64_MAX toByte) |}.

Definition sync_dump_by_hash_prepare : HM (option dump_members) :=
  END_TRY None
    (need_id;; params ← need_params; hash ← need_hash params;
     m ← sync_dump_range params (ByHash hash); mret (Some m)).

Definition sync_dump_by_number_prepare : HM (option dump_members) :=
  END_TRY None
    (need_id;; params ← need_params; number ← need_number params;
     m ← sync_dump_range params (ByNumber number); mret (Some m)).

(** The inner try: the dump, or the message of the exception. *)
Definition sync_dump (sync : sync_db) (m : dump_members) : res bytes :=
  let bh := find_block sync (dm_id m) in
  let message := str "block " ++ get_block_id (dm_id m) ++ str " not found" in
  match blockNumber bh with
  | None => Throw (CommonException message)
  | Some _ =>
      r ← getBlockDump sync (hash bh) (bh_filePos bh) (m_fromByte m) (m_toByte m) true false;
      if bool_decide (r = []) then Throw (CommonException message) else Ok r
  end.

Definition sync_dump_executeImpl (m : dump_members) : HM unit :=
  END_TRY ()
    (sync ← need syncSingleton "Sync not set";
     match sync_dump sync m with
     | Ok dump => write (genBlockDumpJson dump)
     | Throw Undefined => throw Undefined
     | Throw e =>
         write (genErrorResponse (-32603)
           (match e with
            | CommonException s => s
            | _ => if is_std_exception e then what e else str "Unknown error"
            end))
     end).

Definition get_dump_block_by_hash_handler_sync : handler_class W :=
  {| members_t := dump_members; prepare_params := sync_dump_by_hash_prepare;
     execute := fun m => sync_execute (sync_dump_executeImpl m) |}.
Definition get_dump_block_by_number_handler_sync : handler_class W :=
  {| members_t := dump_members; prepare_params := sync_dump_by_number_prepare;
     execute := fun m => sync_execute (sync_dump_executeImpl m) |}.

(** ** get_count_blocks_handler_sync *)

Definition sync_count_executeImpl : HM unit :=
  END_TRY () (sync ← need syncSingleton "Sync not set"; write (genCountBlockJson (countBlocks sync) V1)).

Definition get_count_blocks_handler_sync : handler_class W :=
  {| members_t := unit; prepare_params := END_TRY None (need_id;; mret (Some ()));
     execute := fun _ => sync_execute sync_count_executeImpl |}.

(** ** fetch_balance_handler_sync, fetch_history_handler_sync *)

(** The field address: it begins with 0x, and is kept up to a NUL. *)
Definition need_prefixed_address (params : json) : HM bytes :=
  addr ← need (get_value_str params "address") "address field not found";
  CHK_PRM (negb (bool_decide (addr = []))) "address is empty";;
  CHK_PRM (bool_decide (take 2 addr = str "0x")) "address field incorrect format";;
  mret (c_str addr).

Definition sync_balance_prepare : HM (option bytes) :=
  END_TRY None (need_id;; params ← need_params; a ← need_prefixed_address params; mret (Some a)).

Definition sync_balance_executeImpl (address : bytes) : HM unit :=
  END_TRY ()
    (sync ← need syncSingleton "Sync not set";
     write (fun d => balanceInfoToJson address (getBalance sync address) (countBlocks sync) V1 d false)).

Definition fetch_balance_handler_sync : handler_class W :=
  {| members_t := bytes; prepare_params := sync_balance_prepare;
     execute := fun a => sync_execute (sync_balance_executeImpl a) |}.

Definition sync_history_prepare : HM (option (bytes * Z * Z)) :=
  END_TRY None
    (need_id;; params ← need_params;
     a ← need_prefixed_address params;
     countTxs ← int64_member params "countTxs";
     beginTx ← int64_member params "beginTx";
     mret (Some (a, u64 (default 0 countTxs), u64 (default 0 beginTx)))).

Definition sync_history_executeImpl (m : bytes * Z * Z) : HM unit :=
  let '(address, countTxs, beginTx) := m in
  END_TRY ()
    (sync ← need syncSingleton "Sync not set";
     generate (addressesInfoToJson (getTxsForAddress sync address beginTx countTxs countTxs) (getBlock sync) V1)).

Definition fetch_history_handler_sync : handler_class W :=
  {| members_t := bytes * Z * Z; prepare_params := sync_history_prepare;
     execute := fun m => sync_execute (sync_history_executeImpl m) |}.

(** ** get_tx_handler_sync *)

Definition sync_tx_prepare : HM (option bytes) :=
  END_TRY None (need_id;; params ← need_params; hash ← need_hash params; mret (Some hash)).

(** [tx.value_or(TransactionInfo())], whose hash is empty. *)
Variable TransactionInfo_default : TransactionInfo.

Definition sync_tx_executeImpl (hash : bytes) : HM unit :=
  END_TRY ()
    (sync ← need syncSingleton "Sync not set";
     hash2 ← lift (match fromHex hash with Some b => Ok b | None => Throw Undefined end);
     generate (transactionToJson (default TransactionInfo_default (getTransaction sync hash2))
                 (getBlock sync) (countBlocks sync) (getKnownBlock sync) V1)).

Definition get_tx_handler_sync : handler_class W :=
  {| members_t := bytes; prepare_params := sync_tx_prepare;
     execute := fun hash => sync_execute (sync_tx_executeImpl hash) |}.
End Queries.

(** ** send_tx_handler_sync *)

Section Send.
Context `{OpenSSL}.
Variable SHA256 : bytes -> bytes.
Variable wallet_stotage : bytes.
Variable stringify : json -> bytes.
Variable syncSingleton : option sync_db.

Abbreviation HM := (M (handler store_state)).

(** The nonce of the request, or the one behind the transactions of the address
    in the database. *)
Definition sync_nonce (f : tx_fields) : HM Z :=
  h ← gets (fun h => h);
  match get "nonce" (default JNull (get_params (m_reader h))) with
  | Some jValue =>
      tmp ← need (val2str (Some jValue)) "nonce field incorrect format";
      lift (stoull tmp)
  | None =>
      sync ← need syncSingleton "Sync not set";
      mret (u64 (countSpent (getBalance sync (f_address f)) + 1))
  end.

Definition sync_send_prepare : HM (option tx_fields) :=
  END_TRY None
    (o ← check_params wallet_stotage;
     match o with
     | None => mret None
     | Some f => nonce ← sync_nonce f; build_request SHA256 make_json true (with_nonce f nonce)
     end).

Definition send_tx_handler_sync : handler_class store_state :=
  {| members_t := tx_fields; prepare_params := sync_send_prepare; execute := fun _ => network_execute stringify |}.

(** send_tx_handler_sync::process_response: a result is passed on as the text of
    the member params, which is used without a check that it is there. *)
Definition sync_send_process_response (reader : json) : HM unit :=
  END_TRY ()
    (CHK_PRM (found (get_error reader) || found (get_result reader)) "No occur result or error";;
     match get_error reader with
     | Some err => write (fun w => set_error_value w err)
     | None =>
         match get_params reader with
         | None => throw Undefined
         | Some params =>
             CHK_PRM (IsString params) "params field not found";;
             write (fun w => set_result w params)
         end
     end).
End Send.

(** ** fetch_transaction_handler *)

Section History.
Context `{OpenSSL}.
Variable parse_json : bytes -> option json.
Variable parse_error : bytes -> Z * bytes.
Variable history_cache_enable : bool.

Abbreviation HM := (M (handler HistoryCache.history_cache)).

Definition transaction_prepare : HM (option (bytes * bytes)) :=
  END_TRY None
    (need_id;; params ← need_params;
     CHK_PRM history_cache_enable "History cache is disabled";;
     addr ← need (get_value_str params "address") "address field not found";
     CHK_PRM (negb (bool_decide (addr = []))) "address is empty";;
     ok ← lift (validate_address addr);
     CHK_PRM ok "address is invalid";;
     data ← need (get_value_str params "data") "data field not found";
     CHK_PRM (negb (bool_decide (data = []))) "data is empty";;
     mret (Some (addr, data))).

(** The loop over the history: the transactions that carry the data. *)
Fixpoint with_data (data : bytes) (l : list json) : res (list json) :=
  match l with
  | [] => Ok []
  | v :: l' =>
      match (if IsObject v then get "data" v else None) with
      | None => with_data data l'
      | Some (JStr s) =>
          r ← with_data data l';
          Ok (if (zlen s =? zlen data) && HistoryCache.strncmp_eq data s (length data) then v :: r else r)
      | Some _ => Throw Undefined
      end
  end.

Definition transaction_execute (m : bytes * bytes) : HM unit :=
  let '(addr, data) := m in
  END_TRY ()
    (write reset;;
     h ← gets (fun h => h);
     r ← lift (HistoryCache.get_history parse_json parse_error (world h) addr);
     match r with
     | (false, JStr s) => write (fun w => set_error w (-32301) s)
     | (true, JArr l) =>
         arr ← lift (with_data (toHex data) l);
         write (fun w => set_result w (JArr arr))
     | _ => throw Undefined
     end).

Definition fetch_transaction_handler : handler_class HistoryCache.history_cache :=
  {| members_t := bytes * bytes; prepare_params := transaction_prepare; execute := transaction_execute |}.
End History.

(** ** Theorems *)

Lemma END_TRY_twice {W A} (ret : A) (m : M (handler W) A) h : END_TRY ret (END_TRY ret m) h = END_TRY ret m h.
Proof. unfold END_TRY. destruct (m h) as [h' [a|[]]]; done. Qed.

(** The two bodies of a query do the same at a state: so do the two methods. *)
Lemma END_TRY_same {W A} (ret : A) (m k : M (handler W) A) h : m h = k h -> END_TRY ret m h = END_TRY ret k h.
Proof. intros E. unfold END_TRY. by rewrite E. Qed.

Section Equivalence.
Context `{O : OpenSSL} `{T : TorrentLib} `{I : InfoLib}.
Context {stringify : json -> bytes} {syncSingleton : option sync_db}.
Context {allowStateBlocks verify : bool} {tx0 : TransactionInfo}.

(** The queries of a node with a local database exist twice, once in the classes
    that the table of such a node names and once in the branches for the database
    of the general classes.  For a handler in any state, whose cache does not run,
    execute of both on the same members leaves the same handler.  (Their
    prepare_params read the request differently.)  For blocks and dumps that is for a
    block the database has and that is not refused as a state block; the refusals
    have different texts. *)
Theorem sync_handlers_agree (h : handler cache) sync :
  syncSingleton = Some sync -> m_run (world h) = false ->
  (forall m number, blockNumber (find_block sync (bm_id m)) = Some number ->
     negb allowStateBlocks && isStateBlock (find_block sync (bm_id m)) = false ->
     execute (get_block_by_number_handler_sync syncSingleton allowStateBlocks) m h
     = block_execute stringify syncSingleton true allowStateBlocks verify m h) /\
  (forall m number, blockNumber (find_block sync (dm_id m)) = Some number ->
     execute (get_dump_block_by_number_handler_sync syncSingleton) m h
     = dump_execute stringify syncSingleton true verify m h) /\
  execute (get_count_blocks_handler_sync syncSingleton) () h = count_execute stringify syncSingleton true h /\
  (forall a, execute (fetch_balance_handler_sync syncSingleton) a h = fetch_balance_execute stringify syncSingleton true a h) /\
  (forall m, execute (fetch_history_handler_sync syncSingleton) m h = fetch_history_execute stringify syncSingleton true m h) /\
  (forall x, execute (get_tx_handler_sync syncSingleton tx0) x h = get_tx_execute stringify syncSingleton true tx0 x h).
Proof.
  intros Hs Hr. split; [|split; [|split; [|split; [|split]]]].
  - intros m number Hn Hst. cbn [execute get_block_by_number_handler_sync]. unfold sync_execute, sync_block_executeImpl.
    rewrite END_TRY_twice. apply END_TRY_same. unfold block_from_database, gets, mbind, M_bind, need. rewrite Hr, Hs.
    cbn [mret M_ret]. unfold find_block in Hn, Hst |- *. by rewrite Hn, Hst.
  - intros m number Hn. cbn [execute get_dump_block_by_number_handler_sync]. unfold sync_execute, sync_dump_executeImpl.
    rewrite END_TRY_twice. apply END_TRY_same.
    unfold dump_from_database, sync_dump, dump_of_database, gets, mbind, M_bind, need. rewrite Hr, Hs.
    cbn [mret M_ret]. unfold find_block in Hn |- *. by rewrite Hn.
  - cbn [execute get_count_blocks_handler_sync]. unfold sync_execute, sync_count_executeImpl. by rewrite END_TRY_twice.
  - intros a. cbn [execute fetch_balance_handler_sync]. unfold sync_execute, sync_balance_executeImpl.
    by rewrite END_TRY_twice.
  - intros [[a n] b]. cbn [execute fetch_history_handler_sync]. unfold sync_execute, sync_history_executeImpl.
    by rewrite END_TRY_twice.
  - intros x. cbn [execute get_tx_handler_sync]. unfold sync_execute, sync_tx_executeImpl. by rewrite END_TRY_twice.
Qed.
End Equivalence.

(** ** fetch-transaction *)

Lemma c_str_length s : (length (c_str s) <= length s)%nat.
Proof. induction s as [|c s IH]; cbn; [lia|]. case_bool_decide; cbn; lia. Qed.

Lemma c_str_full s : length (c_str s) = length s -> c_str s = s.
Proof.
  induction s as [|c s IH]; cbn; [done|]. case_bool_decide; cbn; [lia|]. intros [= E]. by rewrite IH.
Qed.

Lemma c_str_no_zero d : c_str d = d -> zero ∉ d.
Proof.
  induction d as [|c d IH]; cbn; intros E; [apply not_elem_of_nil|]. case_bool_decide as Ec; [done|].
  injection E as E. apply not_elem_of_cons. split; [congruence|auto].
Qed.

(** The comparison of two texts of the same length, when the first is plain. *)
Lemma strncmp_same d s :
  c_str d = d -> (zlen s =? zlen d) && strncmp_eq d s (length d) = bool_decide (s = d).
Proof.
  intros Hd. unfold strncmp_eq. rewrite Hd, take_app_length. unfold zlen. apply eq_true_iff_eq.
  rewrite andb_true_iff, Z.eqb_eq, !bool_decide_eq_true. split; [|by intros ->; rewrite Hd, take_app_length].
  intros [Hl E]. pose proof (c_str_length s) as Hc. destruct (decide (length (c_str s) = length s)) as [Hf|Hf].
  - rewrite (c_str_full s Hf) in E. rewrite E. replace (length d) with (length s) by lia. by rewrite take_app_length.
  - exfalso. apply (c_str_no_zero d Hd). rewrite E. apply list_elem_of_lookup. exists (length (c_str s)).
    rewrite lookup_take_lt by lia. rewrite lookup_app_r by lia. by rewrite Nat.sub_diag.
Qed.

(** The transactions that carry the data, in the order of the history. *)
Definition carrying (data : bytes) (l : list json) : list json :=
  List.filter (fun v => bool_decide (get_value_str v "data" = Some (toHex data))) l.

(** In every transaction the data, when there is any, is text. *)
Definition data_texts (l : list json) : Prop :=
  Forall (fun v => match get "data" v with Some (JStr _) | None => True | Some _ => False end) l.

Lemma with_data_spec data l : data_texts l -> with_data (toHex data) l = Ok (carrying data l).
Proof.
  assert (c_str (toHex data) = toHex data) as Hc by (rewrite toHex_bin2hex; apply c_str_bin2hex).
  induction 1 as [|v l Hv Hl IH]; [done|]. cbn [with_data carrying List.filter]. fold (carrying data l).
  assert ((if IsObject v then get "data" v else None) = get "data" v) as -> by by destruct v.
  unfold get_value_str. destruct (get "data" v) as [x|]; [|by rewrite IH, bool_decide_eq_false_2].
  destruct x; try done. rewrite IH. cbn [mbind res_bind]. rewrite strncmp_same by done. by repeat case_bool_decide; simplify_eq.
Qed.

Section Transactions.
Context `{O : OpenSSL} {parse_json : bytes -> option json} {parse_error : bytes -> Z * bytes} {enable : bool}.

(** Fetch-transaction answers with the transactions of the history whose data is
    the data asked for, in their order; when the history cannot be read the answer
    is the error -32301 with the reason.  It asks the network for nothing. *)
Theorem fetch_transaction_answer h addr data ok doc :
  HistoryCache.get_history parse_json parse_error (world h) addr = Ok (ok, doc) ->
  let h' := (execute (fetch_transaction_handler parse_json parse_error enable) (addr, data) h).1 in
  world h' = world h /\ m_requests h' = m_requests h /\
  match ok, doc with
  | true, JArr l => data_texts l ->
      get_result (m_writer h') = Some (JArr (carrying data l)) /\ is_error (m_writer h') = false
  | false, JStr s =>
      get "code" (default JNull (get_error (m_writer h'))) = Some (JInt (-32301)) /\
      get "message" (default JNull (get_error (m_writer h'))) = Some (JStr (c_str s))
  | _, _ => True
  end.
Proof.
  intros Hg. cbn [execute fetch_transaction_handler transaction_execute].
  unfold END_TRY, write, modify, gets, lift, mbind, M_bind. cbn [world set_m_writer m_writer]. rewrite Hg. cbv beta iota.
  destruct ok, doc; cbn [throw]; try done.
  - destruct (with_data (toHex data) l) as [arr|e] eqn:E.
    + split; [done|]. split; [done|]. intros Hd. rewrite with_data_spec in E by done. by apply Ok_inj in E as <-.
    + split; [by destruct e|]. split; [by destruct e|]. intros Hd. by rewrite with_data_spec in E.
Qed.
End Transactions.

(** The answer of the proxy to a sent transaction is read through the member
    params without a check that it is there. *)
Theorem send_answer_without_params reader r (h : handler store_state) :
  get_error reader = None -> get_result reader = Some r -> get_params reader = None ->
  (sync_send_process_response reader h).2 = Throw Undefined.
Proof. intros He Hr Hp. unfold sync_send_process_response. rewrite He, Hr, Hp. done. Qed.

(** ** Witnesses *)

Module Sample.
Import Crypto.Toy BlockHandlers.Sample.

(** A database with block 7. *)
Definition sync0 : sync_db := {|
  getBlock n := if n =? 7 then bh0 else header BlockInfo_default;
  getBlock_by_hash _ := bh0;
  getFullBlock bh _ _ := {| header := bh; txs := [] |};
  getBlockSignatures _ := [];
  getBlockDump _ _ _ _ _ _ := Ok (str "5a");
  countBlocks := 7;
  getKnownBlock := 7;
  getBalance _ := {| balance := {| received_ := 0; spent_ := 0 |}; countReceived := 0; countSpent := 0; countTxs := 0;
                     bal_delegated := None; bal_forged := None; bal_hash := None; bal_blockNumber := 0; tokens := [] |};
  getTxsForAddress _ _ _ _ := [];
  getTransaction _ := None
|}.
Definition tx0 : TransactionInfo :=
  {| tx_hash := []; fromAddress := Address_default; toAddress := Address_default; value := 0; fees := 0; tx_nonce := 0;
     tx_blockNumber := 0; tx_blockIndex := 0; sizeRawTx := 0; isSignBlockTx := false; isModuleNotSet := false;
     intStatus := None; sign := []; pubKey := []; data := []; allRawTx := []; tx_filePos := no_position;
     delegate := None; scriptInfo := None; tokenInfo := None; status := None |}.
Definition hc : handler cache := base_handler blocks_cache_new.
Definition m7 : block_members := {| bm_id := ByNumber 7; m_type := 0; m_countTxs := 0; m_beginTx := 0 |}.

Lemma sync_handlers_agree_witness :
  execute (get_block_by_number_handler_sync (Some sync0) false) m7 hc
  = block_execute (fun _ => []) (Some sync0) true false true m7 hc.
Proof.
  refine (proj1 (sync_handlers_agree (stringify := fun _ => []) (syncSingleton := Some sync0) (allowStateBlocks := false)
    (verify := true) (tx0 := tx0) hc sync0 eq_refl _) m7 7 _ _); reflexivity.
Defined.

(** The history of HistoryCache's example: two transactions with the data [hi]. *)
Definition hh : handler HistoryCache.history_cache :=
  base_handler {| HistoryCache.hst_run := true; HistoryCache.m_addrs := [HistoryCache.Sample.v1];
                  HistoryCache.hst_db := HistoryCache.Sample.d1 |}.

Lemma fetch_transaction_answer_witness :
  get_result (m_writer (execute (fetch_transaction_handler HistoryCache.Sample.parse (fun _ => (0, [])) true)
                          (str "0X00", str "hi") hh).1)
  = Some HistoryCache.Sample.page.
Proof.
  assert (carrying (str "hi") [HistoryCache.Sample.tx "aa"; HistoryCache.Sample.tx "bb"]
          = [HistoryCache.Sample.tx "aa"; HistoryCache.Sample.tx "bb"]) as E by (vm_compute; reflexivity).
  unfold HistoryCache.Sample.page. rewrite <- E.
  refine (proj1 (proj2 (proj2 (fetch_transaction_answer (parse_json := HistoryCache.Sample.parse)
    (parse_error := fun _ => (0, [])) (enable := true) hh (str "0X00") (str "hi") true HistoryCache.Sample.page _)) _)).
  - vm_compute. reflexivity.
  - repeat constructor.
Defined.
End Sample.
