(* ===== verification/Status.v ===== *)
(** The handler of the method status: src/task_handlers/status_handler.cpp.

    It reports the settings and the state of the other parts, so what it shares
    with them is the record [server] of the whole process.  The hash and the date
    of the build are generated; what readdir returns is an argument.

    Without a local database the handler asks the torrent node for the number of blocks
    and waits for the answer.  The call is recorded in [srv_calls] with its node, path
    and body; its answer is an argument, the [i]-th for the [i]-th such call.  Its way
    through the pool is that of any synchronous call (SyncCall.v); while the server
    runs, Node.v has such calls as events of their own between the handlers. *)

From Stdlib Require Import String.
From S2P Require Import Settings HistoryCache.
From S2P Require Import Prelude Text Hex Json BlockInfo BlockStore ConnectionPool WalletStorage Handlers BlockHandlers.
Open Scope Z_scope.

(** A request that a handler waits for: the node, the path and the body. *)
Record sync_request := { sr_host : bytes; sr_path : bytes; sr_body : bytes }.

(** The singletons of the process, the nodes that settings::server holds, which
    the lookup replaces, and the synchronous calls that handlers have made. *)
Record server := {
  srv_wallet : store_state;
  srv_blocks : cache;
  srv_history : history_cache;
  srv_pool : pool;
  srv_tor : bytes;
  srv_proxy : bytes;
  srv_calls : list sync_request
}.

(** version.h. *)
Definition get_version : bytes := str "1.15.0".

(** enum class cmd. *)
Inductive status_cmd := StatusGeneral | StatusKeys.

Section Status.
Variable parse_json : bytes -> option json.
Variable stringify : json -> bytes.
Variable parse_error : bytes -> Z * bytes.
Variables g_GIT_SHA1 g_GIT_DATE : bytes.
Variable config : settings.
Variable syncSingleton : option sync_db.
(** What request->get_result() returns behind the [i]-th call. *)
Variable count_blocks_result : nat -> bytes.
(** The names of the regular files of the directory of wallets, when it exists. *)
Variable wallet_dir : option (list bytes).

Abbreviation HM := (M (handler server)).

Definition status_prepare : HM (option status_cmd) :=
  END_TRY None
    (h ← gets (fun h => h);
     mret (Some (match get_params (m_reader h) with
                 | Some params =>
                     if bool_decide (get_value_str params "cmd" = Some (str "keys")) then StatusKeys else StatusGeneral
                 | None => StatusGeneral
                 end))).

(** A list of calls of add_result. *)
Definition add_results (l : list (string * json)) (w : json) : json :=
  fold_left (fun w p => add_result w p.1 p.2) l w.

(** The entries before those about the number of blocks. *)
Definition status_entries (s : server) : list (string * json) :=
  ([("version", JStr get_version); ("git_hash", JStr (c_str g_GIT_SHA1)); ("git_date", JStr (c_str g_GIT_DATE));
    ("network_tor_name", JStr (torName (Settings.server config)));
    ("network_proxy_name", JStr (proxyName (Settings.server config)));
    ("network_tor", JStr (srv_tor s)); ("network_proxy", JStr (srv_proxy s));
    ("use_local_database", JBool (useLocalDatabase (system config)));
    ("allow_state_blocks", JBool (allowStateBlocks (system config)));
    ("jrpc_timeout", JInt (jrpc_timeout (system config)));
    ("jrpc_conn_timeout", JInt (jrpc_conn_timeout (system config)));
    ("jrpc_attempts_count", JInt (jrpc_attempts_count (system config)));
    ("conn_pool_enable", JBool (enable (srv_pool s))); ("conn_pool_ttl", JInt (conn_pool_ttl (system config)));
    ("conn_pool_capacity", JInt (conn_pool_capacity (system config)))]%string
   ++ (if enable (srv_pool s)
       then [("conn_pool_ready", JInt (get_ready_size (srv_pool s))); ("conn_pool_busy", JInt (get_busy_size (srv_pool s)))]%string
       else [])
   ++ [("blocks_cache_ver", JInt (blocks_cache_ver (system config)));
       ("blocks_cache_enable", JBool (m_run (srv_blocks s)));
       ("blocks_cache_next_block", JInt (m_nextblock (srv_blocks s)));
       ("blocks_cache_last_signed_block", JInt (m_last_signed_block (srv_blocks s)));
       ("blocks_cache_force", JBool (blocks_cache_force (system config)));
       ("blocks_cache_init_count", JInt (blocks_cache_init_count (system config)));
       ("blocks_cache_recv_count", JInt (blocks_cache_recv_count (system config)));
       ("blocks_cache_recv_data_size", JInt (blocks_cache_recv_data_size (system config)));
       ("blocks_cache_block_verification", JBool (blocks_cache_block_verification (system config)));
       ("history_cache_enable", JBool (history_cache_enable (system config)));
       ("keep_alive", JBool (srv_keep_alive (service config)));
       ("auth_enable", JBool (auth_enable (service config)))]%string).

(** What the answer of the node says about the number of blocks. *)
Definition blocks_count_text (result : bytes) : json :=
  if bool_decide (result = []) then JStr (str "n/a")
  else
    match parse_json result with
    | None => JStr (str_concat [str "parse error ("; to_string (parse_error result).1; str "): "; (parse_error result).2])
    | Some reader =>
        match get_error reader with
        | Some e => JStr (str_concat [str "error: "; stringify e])
        | None =>
            match get_result reader with
            | None => JStr (str "no result occurred")
            | Some r =>
                match get_value_u64 r "count_blocks" with
                | None => JStr (str "'count_blocks' has not found")
                | Some n => JInt n
                end
            end
        end
    end.

(** The call for the number of blocks. *)
Definition count_request (s : server) : sync_request :=
  {| sr_host := srv_tor s; sr_path := str "get-count-blocks";
     sr_body := [ascii_of_nat 123; ascii_of_nat 34] ++ str "id" ++ [ascii_of_nat 34] ++ str ":1" ++ [ascii_of_nat 125] |}.
Definition add_call (q : sync_request) (s : server) : server :=
  {| srv_wallet := srv_wallet s; srv_blocks := srv_blocks s; srv_history := srv_history s; srv_pool := srv_pool s;
     srv_tor := srv_tor s; srv_proxy := srv_proxy s; srv_calls := srv_calls s ++ [q] |}.

(** The entries about the number of blocks, from the local database or from the
    node. *)
Definition block_count : HM unit :=
  match syncSingleton with
  | Some sync =>
      write (add_results [("blocks_count", JInt (countBlocks sync)); ("last_block", JInt (getKnownBlock sync))]%string)
  | None =>
      h ← gets (fun h => h);
      modify (set_world (add_call (count_request (world h)) (world h)));;
      let result := count_blocks_result (length (srv_calls (world h))) in
      write (add_results [("blocks_count", JStr (str "n/a")); ("blocks_count", blocks_count_text result)]%string)
  end.

Definition last_entries : list (string * json) :=
  [("validate_request", JBool (validate_request (system config)));
   ("validate_methods", JBool (validate_methods (system config)))]%string.

(** The loop over the directory: a name that contains the suffix loses eight
    characters at its end. *)
Fixpoint key_names (files : list bytes) : list bytes :=
  match files with
  | [] => []
  | f :: files' =>
      match find_sub (str ".raw.pub") f with
      | Some _ => take (length f - 8) f :: key_names files'
      | None => key_names files'
      end
  end.

Definition key_list : list bytes := match wallet_dir with Some l => key_names l | None => [] end.

Definition status_execute (cmd : status_cmd) : HM unit :=
  END_TRY ()
    (h ← gets (fun h => h);
     match cmd with
     | StatusGeneral =>
         write (add_results (status_entries (world h)));;
         block_count;;
         write (add_results last_entries)
     | StatusKeys =>
         write (fun w => add_result w "count" (JInt (zlen key_list)));;
         write (fun w => at_value w "result" kObjectType
                           (fun r => JObj (members_of r ++ [(str "keys", JArr (map JStr key_list))])))
     end).

Definition status_handler : handler_class server :=
  {| members_t := status_cmd; prepare_params := status_prepare; execute := status_execute |}.
End Status.
