(* ===== verification/Dispatch.v ===== *)
(** The tables of methods: src/task_handlers/task_handlers.cpp, over the state of
    the whole process.

    Each class of handlers keeps the promise [Answering] of Answers.v, here by an
    instance per class; so does every entry of the tables. *)

From Stdlib Require Import String.
From S2P Require Import Settings HistoryCache.
From S2P Require Import Prelude Text Hex Crypto Transaction WalletStorage Json BlockInfo BlockStore ConnectionPool.
From S2P Require Import Handlers TxHandlers GenerateJson BlockHandlers SyncHandlers Status Answers.
Open Scope Z_scope.

(** ** Handlers over a part of the state *)

Section Zoom.
Context {W A : Type}.
Variable part : W -> A.
Variable put : A -> W -> W.

Definition inner (h : handler W) : handler A :=
  {| m_id := m_id h; m_async := m_async h; m_reader := m_reader h; m_writer := m_writer h;
     m_requests := m_requests h; world := part (world h) |}.
Definition outer (w : W) (h : handler A) : handler W :=
  {| m_id := m_id h; m_async := m_async h; m_reader := m_reader h; m_writer := m_writer h;
     m_requests := m_requests h; world := put (world h) w |}.

Definition zoom {X} (m : M (handler A) X) : M (handler W) X := fun h =>
  let (h', r) := m (inner h) in (outer (world h) h', r).

Definition zoom_class (C : handler_class A) : handler_class W :=
  {| members_t := members_t C; prepare_params := zoom (prepare_params C);
     execute := fun t => zoom (execute C t) |}.

#[global] Instance zoom_answering C `{!Answering C} : Answering (zoom_class C).
Proof.
  split.
  - intros i h Hh. pose proof (prepare_answers (C := C) i (inner h) Hh) as Hp.
    cbn [zoom_class prepare_params]. unfold zoom. by destruct (prepare_params C (inner h)) as [h' [[t|]|e]].
  - intros t i h Hh. pose proof (execute_answers (C := C) t i (inner h) Hh) as Hp.
    cbn [zoom_class execute]. unfold zoom. by destruct (execute C t (inner h)) as [h' r].
  - intros t h e. pose proof (execute_catches (C := C) t (inner h) e) as Hp.
    cbn [zoom_class execute]. unfold zoom. by destruct (execute C t (inner h)) as [h' r].
Qed.
End Zoom.

(** ** The tables *)

Definition put_wallet (v : store_state) (s : server) : server :=
  {| srv_wallet := v; srv_blocks := srv_blocks s; srv_history := srv_history s; srv_pool := srv_pool s;
     srv_tor := srv_tor s; srv_proxy := srv_proxy s; srv_calls := srv_calls s |}.
Definition put_blocks (v : cache) (s : server) : server :=
  {| srv_wallet := srv_wallet s; srv_blocks := v; srv_history := srv_history s; srv_pool := srv_pool s;
     srv_tor := srv_tor s; srv_proxy := srv_proxy s; srv_calls := srv_calls s |}.
Definition put_history (v : history_cache) (s : server) : server :=
  {| srv_wallet := srv_wallet s; srv_blocks := srv_blocks s; srv_history := v; srv_pool := srv_pool s;
     srv_tor := srv_tor s; srv_proxy := srv_proxy s; srv_calls := srv_calls s |}.

Section Tables.
Context `{OpenSSL} `{TorrentLib} `{InfoLib}.
Variable SHA256 : bytes -> bytes.
Variable writable : bytes -> bool.
Variable parse_json : bytes -> option json.
Variable stringify : json -> bytes.
Variable parse_error : bytes -> Z * bytes.
Variables g_GIT_SHA1 g_GIT_DATE : bytes.
Variable config : settings.
Variable syncSingleton : option sync_db.
Variable TransactionInfo_default : TransactionInfo.
(** What generate_handler draws, what status asks the node and the directory for. *)
Variable run : keygen_run.
Variable count_blocks_result : nat -> bytes.
Variable wallet_dir : option (list bytes).

Definition on_wallet : handler_class store_state -> handler_class server :=
  zoom_class srv_wallet put_wallet.
Definition on_blocks : handler_class cache -> handler_class server :=
  zoom_class srv_blocks put_blocks.
Definition on_history : handler_class history_cache -> handler_class server :=
  zoom_class srv_history put_history.

Abbreviation folder := (wallet_stotage (system config)).
Abbreviation local := (useLocalDatabase (system config)).
Abbreviation states := (allowStateBlocks (system config)).
Abbreviation verification := (blocks_cache_block_verification (system config)).
Abbreviation status := (status_handler parse_json stringify parse_error g_GIT_SHA1 g_GIT_DATE config syncSingleton
  count_blocks_result wallet_dir).
Abbreviation spent_of := (option_map (fun s a => countSpent (getBalance s a)) syncSingleton).

(** post_handlers: the methods without and with a local database. *)
Definition remote_handlers : list (string * handler_class server) :=
  [("generate", on_wallet (generate_handler folder writable run));
   ("create-tx", on_wallet (create_tx_handler SHA256 folder));
   ("create-tx2", on_wallet (create_tx_handler_v2 SHA256 folder));
   ("send-tx", on_wallet (send_tx_handler SHA256 folder stringify local spent_of));
   ("get-count-blocks", on_blocks (get_count_blocks_handler stringify syncSingleton local));
   ("get-last-txs", on_blocks (get_last_txs_handler stringify));
   ("get-block-by-hash", on_blocks (get_block_by_hash_handler stringify syncSingleton local states verification));
   ("get-block-by-number", on_blocks (get_block_by_number_handler stringify syncSingleton local states verification));
   ("get-blocks", on_blocks (get_blocks_handler stringify));
   ("get-dump-block-by-number", on_blocks (get_dump_block_by_number stringify syncSingleton local verification));
   ("get-dump-block-by-hash", on_blocks (get_dump_block_by_hash stringify syncSingleton local verification));
   ("get-tx", on_blocks (get_tx_handler stringify syncSingleton local TransactionInfo_default));
   ("fetch-balance", on_blocks (fetch_balance_handler stringify syncSingleton local));
   ("fetch-balances", on_blocks (fetch_balances_handler stringify syncSingleton local));
   ("fetch-history", on_blocks (fetch_history_handler stringify syncSingleton local));
   ("fetch-history-filter", on_blocks (fetch_history_filter_handler stringify));
   ("status", status);
   ("fetch-transaction", on_history (fetch_transaction_handler parse_json parse_error (history_cache_enable (system config))));
   ("validate", on_wallet addr_validate_handler)]%string.

Definition local_handlers : list (string * handler_class server) :=
  [("generate", on_wallet (generate_handler folder writable run));
   ("create-tx", on_wallet (create_tx_handler SHA256 folder));
   ("create-tx2", on_wallet (create_tx_handler_v2 SHA256 folder));
   ("fetch-balance", fetch_balance_handler_sync syncSingleton);
   ("fetch-balances", on_blocks (fetch_balances_handler stringify syncSingleton local));
   ("fetch-history", fetch_history_handler_sync syncSingleton);
   ("send-tx", on_wallet (send_tx_handler_sync SHA256 folder stringify syncSingleton));
   ("get-count-blocks", get_count_blocks_handler_sync syncSingleton);
   ("get-last-txs", on_blocks (get_last_txs_handler stringify));
   ("get-block-by-hash", get_block_by_hash_handler_sync syncSingleton states);
   ("get-block-by-number", get_block_by_number_handler_sync syncSingleton states);
   ("get-blocks", on_blocks (get_blocks_handler stringify));
   ("get-tx", get_tx_handler_sync syncSingleton TransactionInfo_default);
   ("get-dump-block-by-hash", get_dump_block_by_hash_handler_sync syncSingleton);
   ("get-dump-block-by-number", get_dump_block_by_number_handler_sync syncSingleton);
   ("status", status);
   ("fetch-transaction", on_history (fetch_transaction_handler parse_json parse_error (history_cache_enable (system config))));
   ("validate", on_wallet addr_validate_handler)]%string.

Definition get_handlers : list (string * handler_class server) := [("status", status)]%string.

(** [find] in one of the maps. *)
Fixpoint find_handler (name : bytes) (l : list (string * handler_class server)) : option (handler_class server) :=
  match l with
  | [] => None
  | (n, C) :: l' => if bool_decide (str n = name) then Some C else find_handler name l'
  end.

(** [post_handlers.find(std::make_pair(method, useLocalDatabase))]. *)
Definition post_handlers (name : bytes) : option (handler_class server) :=
  find_handler name (if local then local_handlers else remote_handlers).

(** A call of the entry: the process afterwards, the requests handed to the node
    and the result. *)
Variable schema : option (json -> option json).
Definition call (C : handler_class server) (s : server) (params : bytes)
  : server * list (bytes * bytes) * res (bool * bytes) :=
  let (h, r) := perform parse_json stringify parse_error (validate_methods (system config)) schema C s params in
  (world h, m_requests h, r).
End Tables.

(** ** Instances *)

(** The documents of generate_json extend the one they are given. *)
Lemma answer_AddMember i d name x : answer_for i d -> answer_for i (AddMember d name x).
Proof.
  intros [Hj Hi]. unfold answer_for, AddMember in *. destruct d as [| | | | | |l]; try done.
  cbn [get members_of] in *. rewrite !FindMember_app, Hj, Hi. done.
Qed.

Lemma answer_error i code msg d `{InfoLib} : answer_for i d -> answer_for i (genErrorResponse code msg d).
Proof. apply answer_AddMember. Qed.

Lemma answer_push i d v : answer_for i d -> answer_for i (push_result d v).
Proof.
  intros H. unfold push_result. destruct (get "result" d) as [r|] eqn:E; [|by apply answer_AddMember].
  destruct r; try done. destruct H as [Hj Hi]. destruct d as [| | | | | |l']; try done.
  unfold answer_for. cbn [get members_of] in *. rewrite !FindMember_set_ne; [done|..]; intros E'; by apply str_inj in E'.
Qed.

Section Instances.
Context {W : Type} `{O : OpenSSL} `{T : TorrentLib} `{I : InfoLib}.

Lemma answer_balance i a b n v d (array : bool) :
  answer_for i d -> answer_for i (balanceInfoToJson a b n v d array).
Proof. intros Hd. unfold balanceInfoToJson. destruct array; [by apply answer_push|by apply answer_AddMember]. Qed.

Lemma answer_dump i s d : answer_for i d -> answer_for i (genBlockDumpJson s d).
Proof. apply answer_AddMember. Qed.
Lemma answer_count i n v d : answer_for i d -> answer_for i (genCountBlockJson n v d).
Proof. apply answer_AddMember. Qed.

Lemma extends_header bh signs v : extends_answer (blockHeaderToJson bh signs v).
Proof.
  intros i d d'. unfold blockHeaderToJson. case_bool_decide; [intros <-%Ok_inj; apply answer_AddMember|].
  intros (x & _ & <-%Ok_inj)%bind_Ok. apply answer_AddMember.
Qed.
Lemma extends_info bi signs t v : extends_answer (blockInfoToJson bi signs t v).
Proof.
  intros i d d'. unfold blockInfoToJson. case_bool_decide; [intros <-%Ok_inj; apply answer_AddMember|].
  intros (x & _ & (y & _ & <-%Ok_inj)%bind_Ok)%bind_Ok. apply answer_AddMember.
Qed.
Lemma extends_transaction tx g n k v : extends_answer (transactionToJson tx g n k v).
Proof. intros i d d'. intros (x & _ & <-%Ok_inj)%bind_Ok. apply answer_AddMember. Qed.
Lemma extends_addresses l g v : extends_answer (addressesInfoToJson l g v).
Proof. intros i d d'. intros (x & _ & <-%Ok_inj)%bind_Ok. apply answer_AddMember. Qed.

#[local] Hint Resolve answer_error answer_push answer_balance answer_dump answer_count answer_AddMember
  extends_header extends_info extends_transaction extends_addresses : answers.

(** The handlers of a local database. *)
Lemma stays_int64 (v : json) name : stays (W := W) (int64_member v name).
Proof. unfold int64_member. follow. Qed.
Lemma stays_hash params : stays (W := W) (need_hash params).
Proof. unfold need_hash. follow. Qed.
Lemma stays_number params : stays (W := W) (need_number params).
Proof. unfold need_number. follow; apply stays_int64. Qed.
Lemma stays_prefixed params : stays (W := W) (need_prefixed_address params).
Proof. unfold need_prefixed_address. follow. Qed.
#[local] Hint Resolve stays_int64 stays_hash stays_number stays_prefixed : answers.

Context {syncSingleton : option sync_db} {allowStates useLocal verify : bool} {tx0 : TransactionInfo}.

(** The two methods of a class, unfolded to their calls. *)
Create HintDb handlers.
Ltac answering :=
  split; [|intros ?|intros ?]; autounfold with handlers; cbn [prepare_params execute]; follow.

#[local] Hint Unfold sync_block_by_hash_prepare sync_block_by_number_prepare sync_block_range sync_execute
  sync_block_executeImpl sync_dump_by_hash_prepare sync_dump_by_number_prepare sync_dump_range sync_dump_executeImpl
  sync_count_executeImpl sync_balance_prepare sync_balance_executeImpl sync_history_prepare sync_history_executeImpl
  sync_tx_prepare sync_tx_executeImpl get_block_by_hash_handler_sync get_block_by_number_handler_sync
  get_dump_block_by_hash_handler_sync get_dump_block_by_number_handler_sync get_count_blocks_handler_sync
  fetch_balance_handler_sync fetch_history_handler_sync get_tx_handler_sync : handlers.

#[global] Instance block_by_hash_sync_answering :
  Answering (W := W) (get_block_by_hash_handler_sync syncSingleton allowStates).
Proof. answering. Qed.
#[global] Instance block_by_number_sync_answering :
  Answering (W := W) (get_block_by_number_handler_sync syncSingleton allowStates).
Proof. answering. Qed.
#[global] Instance dump_by_hash_sync_answering : Answering (W := W) (get_dump_block_by_hash_handler_sync syncSingleton).
Proof. answering. Qed.
#[global] Instance dump_by_number_sync_answering : Answering (W := W) (get_dump_block_by_number_handler_sync syncSingleton).
Proof. answering. Qed.
#[global] Instance count_sync_answering : Answering (W := W) (get_count_blocks_handler_sync syncSingleton).
Proof. answering. Qed.
#[global] Instance balance_sync_answering : Answering (W := W) (fetch_balance_handler_sync syncSingleton).
Proof. answering. Qed.
#[global] Instance history_sync_answering : Answering (W := W) (fetch_history_handler_sync syncSingleton).
Proof. answering. Qed.
#[global] Instance tx_sync_answering : Answering (W := W) (get_tx_handler_sync syncSingleton tx0).
Proof. answering. Qed.

(** The handlers of the block cache. *)
Context {stringify : json -> bytes}.

Lemma stays_forward name v : stays (forward useLocal name v).
Proof. unfold forward. follow. Qed.
Lemma stays_forward_opt name v : stays (forward_opt useLocal name v).
Proof. unfold forward_opt. follow; apply stays_forward. Qed.
Lemma stays_add_text params name : stays (add_text params name).
Proof. unfold add_text. follow. Qed.
Lemma stays_address params : stays (BlockHandlers.need_address params).
Proof. unfold need_address. follow. Qed.
#[local] Hint Resolve stays_forward stays_forward_opt stays_add_text stays_address : answers.
#[local] Hint Unfold block_prepare block_execute block_from_cache block_answer block_from_database block_by_hash_id
  block_by_number_id dump_by_hash_id dump_by_number_id dump_prepare dump_execute dump_from_cache dump_from_database
  count_execute get_blocks_prepare get_tx_prepare get_tx_execute fetch_balance_prepare fetch_balance_execute
  fetch_balances_prepare fetch_balances_execute fetch_history_prepare fetch_history_execute filter_prepare
  get_block_by_hash_handler get_block_by_number_handler get_dump_block_by_hash get_dump_block_by_number
  get_count_blocks_handler get_last_txs_handler get_blocks_handler get_tx_handler fetch_balance_handler
  fetch_balances_handler fetch_history_handler fetch_history_filter_handler add_params_member : handlers.

Lemma answer_balances i (sync : sync_db) l d :
  answer_for i d ->
  answer_for i (fold_left (fun d a => balanceInfoToJson a (getBalance sync a) (countBlocks sync) V1 d true) l d).
Proof. revert d. induction l as [|a l IH]; intros d Hd; [done|]. apply IH. by apply answer_balance. Qed.
#[local] Hint Resolve answer_balances : answers.

#[global] Instance block_by_hash_answering :
  Answering (get_block_by_hash_handler stringify syncSingleton useLocal allowStates verify).
Proof. answering. Qed.
#[global] Instance block_by_number_answering :
  Answering (get_block_by_number_handler stringify syncSingleton useLocal allowStates verify).
Proof. answering. Qed.
#[global] Instance dump_by_hash_answering : Answering (get_dump_block_by_hash stringify syncSingleton useLocal verify).
Proof. answering. Qed.
#[global] Instance dump_by_number_answering : Answering (get_dump_block_by_number stringify syncSingleton useLocal verify).
Proof. answering. Qed.
#[global] Instance count_answering : Answering (get_count_blocks_handler stringify syncSingleton useLocal).
Proof. answering. Qed.
#[global] Instance last_txs_answering : Answering (get_last_txs_handler stringify).
Proof. answering. Qed.
#[global] Instance blocks_answering : Answering (get_blocks_handler stringify).
Proof. answering. Qed.
#[global] Instance tx_answering : Answering (get_tx_handler stringify syncSingleton useLocal tx0).
Proof. answering. Qed.
#[global] Instance balance_answering : Answering (fetch_balance_handler stringify syncSingleton useLocal).
Proof. answering. Qed.
#[global] Instance balances_answering : Answering (fetch_balances_handler stringify syncSingleton useLocal).
Proof. answering. Qed.
#[global] Instance history_answering : Answering (fetch_history_handler stringify syncSingleton useLocal).
Proof. answering. Qed.
#[global] Instance filter_answering : Answering (fetch_history_filter_handler stringify).
Proof. answering. Qed.

(** The handlers of the wallet. *)
Context {SHA256 : bytes -> bytes} {folder : bytes} {writable : bytes -> bool} {run : keygen_run}.
Context {spent_of : option (bytes -> Z)}.

Lemma stays_peek a : stays (peek_keys folder a).
Proof. unfold peek_keys. follow. Qed.
Lemma stays_fee params : stays (read_fee params).
Proof. unfold read_fee. follow. Qed.
#[local] Hint Resolve stays_peek stays_fee : answers.
Lemma stays_check_params : stays (check_params folder).
Proof. unfold check_params. follow. Qed.
#[local] Hint Resolve stays_check_params : answers.

Lemma answer_make_json i f d : answer_for i d -> answer_for i (make_json f d).
Proof. intros Hd. unfold make_json. case_bool_decide; repeat (apply answer_at; [done|done|]); by apply answer_reset. Qed.
Lemma answer_make_json_v2 i f d : answer_for i d -> answer_for i (make_json_v2 f d).
Proof. intros Hd. unfold make_json_v2. repeat (apply answer_at; [done|done|]); by apply answer_reset. Qed.

Lemma stays_build make b f :
  (forall i f d, answer_for i d -> answer_for i (make f d)) -> stays (build_request SHA256 make b f).
Proof. intros Hm. unfold build_request. follow. Qed.

Lemma stays_create make b :
  (forall i f d, answer_for i d -> answer_for i (make f d)) ->
  stays (create_tx_prepare folder (build_request SHA256 make b)).
Proof. intros Hm. pose proof (fun f => stays_build make b f Hm). unfold create_tx_prepare. follow. Qed.

Lemma stays_send_given tr a k : stays (send_given SHA256 tr a k).
Proof. pose proof answer_make_json. unfold send_given. follow. Qed.
Lemma stays_send_check : stays (send_check_params folder).
Proof. unfold send_check_params. follow. Qed.
#[local] Hint Resolve stays_send_given stays_send_check stays_build stays_create answer_make_json answer_make_json_v2
  : answers.
#[local] Hint Unfold generate_handler generate_execute addr_validate_handler addr_validate_prepare addr_validate_execute
  create_tx_handler create_tx_handler_v2 send_tx_handler send_prepare send_tx_handler_sync sync_send_prepare sync_nonce
  : handlers.

#[global] Instance generate_answering : Answering (generate_handler folder writable run).
Proof. answering. Qed.
#[global] Instance validate_answering : Answering addr_validate_handler.
Proof. answering. Qed.
#[global] Instance create_tx_answering : Answering (create_tx_handler SHA256 folder).
Proof. answering. Qed.
#[global] Instance create_tx_v2_answering : Answering (create_tx_handler_v2 SHA256 folder).
Proof. answering. Qed.
#[global] Instance send_tx_answering : Answering (send_tx_handler SHA256 folder stringify useLocal spent_of).
Proof. answering. Qed.
#[global] Instance send_tx_sync_answering : Answering (send_tx_handler_sync SHA256 folder stringify syncSingleton).
Proof. answering. Qed.

(** fetch-transaction and status. *)
Context {parse_json : bytes -> option json} {parse_error : bytes -> Z * bytes} {history_enable : bool}.
Context {g_GIT_SHA1 g_GIT_DATE : bytes} {config : settings} {count_blocks_result : nat -> bytes}.
Context {wallet_dir : option (list bytes)}.

Lemma answer_results i l d : answer_for i d -> answer_for i (add_results l d).
Proof. revert d. induction l as [|p l IH]; intros d Hd; [done|]. apply IH. by apply answer_at. Qed.
#[local] Hint Resolve answer_results : answers.
#[local] Hint Unfold fetch_transaction_handler transaction_prepare transaction_execute status_handler status_prepare
  status_execute block_count : handlers.

#[global] Instance fetch_transaction_answering :
  Answering (fetch_transaction_handler parse_json parse_error history_enable).
Proof. answering. Qed.
#[global] Instance status_answering :
  Answering (status_handler parse_json stringify parse_error g_GIT_SHA1 g_GIT_DATE config syncSingleton
    count_blocks_result wallet_dir).
Proof. answering. Qed.
End Instances.

(** ** What the handlers leave alone *)

Lemma untouched_zoom {W A B Y} (part : W -> A) (put : A -> W -> W) (other : W -> B) (m : M (handler A) Y) :
  (forall a w, other (put a w) = other w) -> untouched other (zoom part put m).
Proof. intros Hp h. unfold zoom. destruct (m (inner part h)) as [h' r]. cbn. apply Hp. Qed.

#[global] Instance zoom_untouching {W A B} (part : W -> A) (put : A -> W -> W) (other : W -> B) C :
  (forall a w, other (put a w) = other w) -> Untouching other (zoom_class part put C).
Proof. intros Hp. split; [|intros t]; cbn [zoom_class prepare_params execute]; by apply untouched_zoom. Qed.

(** Parts of the process beside the wallet and the caches. *)
Class Beside {B} (other : server -> B) : Prop := {
  beside_wallet v s : other (put_wallet v s) = other s;
  beside_blocks v s : other (put_blocks v s) = other s;
  beside_history v s : other (put_history v s) = other s
}.
#[global] Instance pool_beside : Beside srv_pool. Proof. done. Qed.
#[global] Instance calls_beside : Beside srv_calls. Proof. done. Qed.

Section Others.
Context `{O : OpenSSL} `{T : TorrentLib} `{I : InfoLib} {B : Type} {other : server -> B} `{!Beside other}.
Context {syncSingleton : option sync_db} {states : bool} {tx0 : TransactionInfo}.
Context {parse_json : bytes -> option json} {stringify : json -> bytes} {parse_error : bytes -> Z * bytes}.
Context {g_GIT_SHA1 g_GIT_DATE : bytes} {config : settings} {count_blocks_result : nat -> bytes}.
Context {wallet_dir : option (list bytes)}.

#[global] Instance wallet_untouching C : Untouching other (on_wallet C).
Proof. apply zoom_untouching, beside_wallet. Qed.
#[global] Instance blocks_untouching C : Untouching other (on_blocks C).
Proof. apply zoom_untouching, beside_blocks. Qed.
#[global] Instance history_untouching C : Untouching other (on_history C).
Proof. apply zoom_untouching, beside_history. Qed.

Lemma untouched_need_id : untouched other need_id. Proof. unfold need_id. follow_untouched. Qed.
Lemma untouched_need_params : untouched other need_params. Proof. unfold need_params. follow_untouched. Qed.
Lemma untouched_int64 v name : untouched other (int64_member v name).
Proof. unfold int64_member. follow_untouched. Qed.
Lemma untouched_generate f : untouched other (generate f). Proof. unfold generate. follow_untouched. Qed.
#[local] Hint Resolve untouched_need_id untouched_need_params untouched_int64 untouched_generate : untouched.

Ltac untouching :=
  split; [|intros ?]; cbn [prepare_params execute get_block_by_hash_handler_sync get_block_by_number_handler_sync
    get_dump_block_by_hash_handler_sync get_dump_block_by_number_handler_sync get_count_blocks_handler_sync
    fetch_balance_handler_sync fetch_history_handler_sync get_tx_handler_sync status_handler];
  unfold sync_block_by_hash_prepare, sync_block_by_number_prepare, sync_dump_by_hash_prepare, sync_dump_by_number_prepare,
    sync_balance_prepare, sync_history_prepare, sync_tx_prepare, need_hash, need_number, need_prefixed_address,
    sync_block_range, sync_dump_range, sync_execute, sync_block_executeImpl, sync_dump_executeImpl, sync_count_executeImpl,
    sync_balance_executeImpl, sync_history_executeImpl, sync_tx_executeImpl, status_prepare, status_execute, block_count;
  follow_untouched.

#[global] Instance block_hash_untouching : Untouching other (get_block_by_hash_handler_sync syncSingleton states).
Proof. untouching. Qed.
#[global] Instance block_number_untouching : Untouching other (get_block_by_number_handler_sync syncSingleton states).
Proof. untouching. Qed.
#[global] Instance dump_hash_untouching : Untouching other (get_dump_block_by_hash_handler_sync syncSingleton).
Proof. untouching. Qed.
#[global] Instance dump_number_untouching : Untouching other (get_dump_block_by_number_handler_sync syncSingleton).
Proof. untouching. Qed.
#[global] Instance count_untouching : Untouching other (get_count_blocks_handler_sync syncSingleton).
Proof. untouching. Qed.
#[global] Instance balance_untouching : Untouching other (fetch_balance_handler_sync syncSingleton).
Proof. untouching. Qed.
#[global] Instance history_sync_untouching : Untouching other (fetch_history_handler_sync syncSingleton).
Proof. untouching. Qed.
#[global] Instance tx_untouching : Untouching other (get_tx_handler_sync syncSingleton tx0).
Proof. untouching. Qed.

(** status leaves the pool alone, and makes at most one call. *)
Abbreviation status := (status_handler parse_json stringify parse_error g_GIT_SHA1 g_GIT_DATE config syncSingleton
  count_blocks_result wallet_dir).

Lemma status_prepare_untouched : untouched other status_prepare.
Proof. unfold status_prepare. follow_untouched. Qed.

Lemma status_execute_calls cmd h :
  let h' := (execute status cmd h).1 in
  world h' = world h \/ syncSingleton = None /\ world h' = add_call (count_request (world h)) (world h).
Proof.
  cbn [status_handler execute]. unfold status_execute, block_count. destruct cmd; [|by left]. destruct syncSingleton; [by left|by right].
Qed.
End Others.

#[global] Instance status_untouching `{I : InfoLib} {syncSingleton : option sync_db}
  {parse_json : bytes -> option json} {stringify : json -> bytes} {parse_error : bytes -> Z * bytes}
  {g_GIT_SHA1 g_GIT_DATE : bytes} {config : settings} {count_blocks_result : nat -> bytes} {wallet_dir : option (list bytes)} :
  Untouching srv_pool (status_handler parse_json stringify parse_error g_GIT_SHA1 g_GIT_DATE config syncSingleton
    count_blocks_result wallet_dir).
Proof.
  split; [exact status_prepare_untouched|]. intros cmd h.
  destruct (status_execute_calls (parse_json := parse_json) (stringify := stringify) (parse_error := parse_error)
    (g_GIT_SHA1 := g_GIT_SHA1) (g_GIT_DATE := g_GIT_DATE) (config := config) (syncSingleton := syncSingleton)
    (count_blocks_result := count_blocks_result) (wallet_dir := wallet_dir) cmd h) as [->|[_ ->]]; done.
Qed.

(** ** Theorems *)

Section Facts.
Context `{O : OpenSSL} `{T : TorrentLib} `{I : InfoLib}.
Context {SHA256 : bytes -> bytes} {writable : bytes -> bool}.
Context {parse_json : bytes -> option json} {stringify : json -> bytes} {parse_error : bytes -> Z * bytes}.
Context {g_GIT_SHA1 g_GIT_DATE : bytes} {config : settings} {syncSingleton : option sync_db}.
Context {tx0 : TransactionInfo} {run : keygen_run} {count_blocks_result : nat -> bytes} {wallet_dir : option (list bytes)}.
Context {schema : option (json -> option json)}.

Abbreviation table := (post_handlers SHA256 writable parse_json stringify parse_error g_GIT_SHA1 g_GIT_DATE config
  syncSingleton tx0 run count_blocks_result wallet_dir).

Lemma find_handler_in name l C : find_handler name l = Some C -> exists n, str n = name /\ (n, C) ∈ l.
Proof.
  induction l as [|[n D] l IH]; [done|]. cbn [find_handler]. case_bool_decide.
  - intros [= ->]. exists n. split; [done|constructor].
  - intros (m & Hn & Hm)%IH. exists m. split; [done|by constructor].
Qed.

#[local] Typeclasses Opaque zoom_class on_wallet on_blocks on_history generate_handler addr_validate_handler
  create_tx_handler create_tx_handler_v2 send_tx_handler send_tx_handler_sync fetch_transaction_handler status_handler
  get_block_by_hash_handler_sync get_block_by_number_handler_sync get_dump_block_by_hash_handler_sync
  get_dump_block_by_number_handler_sync get_count_blocks_handler_sync fetch_balance_handler_sync
  fetch_history_handler_sync get_tx_handler_sync get_block_by_hash_handler get_block_by_number_handler
  get_dump_block_by_hash get_dump_block_by_number get_count_blocks_handler get_last_txs_handler get_blocks_handler
  get_tx_handler fetch_balance_handler fetch_balances_handler fetch_history_handler fetch_history_filter_handler.

#[local] Instance wallet_answering C `{!Answering C} : Answering (on_wallet C).
Proof. apply zoom_answering, _. Qed.
#[local] Instance blocks_cache_answering C `{!Answering C} : Answering (on_blocks C).
Proof. apply zoom_answering, _. Qed.
#[local] Instance history_cache_answering C `{!Answering C} : Answering (on_history C).
Proof. apply zoom_answering, _. Qed.

(** Every entry of the tables keeps the promise. *)
Lemma table_answering name C : table name = Some C -> Answering C.
Proof.
  unfold post_handlers. intros (n & _ & Hn)%find_handler_in. revert Hn.
  destruct (useLocalDatabase (system config)); intros Hn;
    [assert (Forall (fun p => Answering (p : string * handler_class server).2)
       (local_handlers SHA256 writable parse_json stringify parse_error g_GIT_SHA1 g_GIT_DATE config syncSingleton tx0 run
         count_blocks_result wallet_dir)) as Hf
    |assert (Forall (fun p => Answering (p : string * handler_class server).2)
       (remote_handlers SHA256 writable parse_json stringify parse_error g_GIT_SHA1 g_GIT_DATE config syncSingleton tx0 run
         count_blocks_result wallet_dir)) as Hf];
    try (repeat (apply Forall_cons; split; [cbn [snd]; apply _|]); apply Forall_nil_2);
    rewrite Forall_forall in Hf; exact (Hf _ Hn).
Qed.

Abbreviation status := (status_handler parse_json stringify parse_error g_GIT_SHA1 g_GIT_DATE config syncSingleton
  count_blocks_result wallet_dir).

(** Every entry but status makes no call of its own. *)
Lemma table_calls name C : table name = Some C -> Untouching srv_calls C \/ name = str "status" /\ C = status.
Proof.
  unfold post_handlers. intros (n & <- & Hn)%find_handler_in. revert Hn.
  set (good := fun p : string * handler_class server =>
    Untouching srv_calls p.2 \/ str p.1 = str "status" /\ p.2 = status).
  destruct (useLocalDatabase (system config)); intros Hn;
    [assert (Forall good
       (local_handlers SHA256 writable parse_json stringify parse_error g_GIT_SHA1 g_GIT_DATE config syncSingleton tx0 run
         count_blocks_result wallet_dir)) as Hf
    |assert (Forall good
       (remote_handlers SHA256 writable parse_json stringify parse_error g_GIT_SHA1 g_GIT_DATE config syncSingleton tx0 run
         count_blocks_result wallet_dir)) as Hf];
    try (unfold good; repeat (apply Forall_cons; split; [cbn [fst snd]; first [by right|left; apply _]|]); apply Forall_nil_2);
    rewrite Forall_forall in Hf; exact (Hf _ Hn).
Qed.

(** The calls that perform makes are those of execute. *)
Lemma perform_calls C s params h r :
  untouched srv_calls (prepare_params C) ->
  (forall t h, srv_calls (world (execute C t h).1) = srv_calls (world h) \/
     syncSingleton = None /\ exists q, sr_path q = str "get-count-blocks" /\
       srv_calls (world (execute C t h).1) = srv_calls (world h) ++ [q]) ->
  perform parse_json stringify parse_error (validate_methods (system config)) schema C s params = (h, r) ->
  srv_calls (world h) = srv_calls s \/
  syncSingleton = None /\ exists q, sr_path q = str "get-count-blocks" /\ srv_calls (world h) = srv_calls s ++ [q].
Proof.
  intros Hp He. unfold perform, mbind, M_bind.
  assert (untouched srv_calls (prepare parse_json parse_error (validate_methods (system config)) schema C params)) as Hu
    by (unfold prepare, prepare_checked, prepare_rest; follow_untouched).
  specialize (Hu (base_handler s)). destruct (prepare _ _ _ _ C params (base_handler s)) as [h1 [c|e]].
  2: { intros [= <- <-]. left. exact Hu. }
  cbn [fst base_handler world] in Hu. destruct c as [t|]; [|intros [= <- <-]; left; exact Hu].
  specialize (He t h1). rewrite Hu in He. destruct (execute C t h1) as [h2 [[]|e]]; intros [= <- <-]; exact He.
Qed.

(** C20: whatever the method, the parameters and the state of the node, a request
    that finds its handler is settled, unless it reaches what C++ leaves undefined (such
    as a transaction text that is too short to be read): it is either answered at once,
    with nothing handed to the network to be answered later, or exactly one request is handed to
    the network and nothing is answered yet.  Its document is a JSON-RPC message with the id of
    the request, and no exception leaves the handler.  No handler waits for a node,
    except that status without a local database makes one call for the number of blocks. *)
Theorem every_request_settled name C s params :
  table name = Some C ->
  let '(s', requests, r) := call parse_json stringify parse_error config schema C s params in
  (srv_calls s' = srv_calls s \/
   name = str "status" /\ syncSingleton = None /\
     exists q, sr_path q = str "get-count-blocks" /\ srv_calls s' = srv_calls s ++ [q]) /\
  match r with
  | Ok (async, text) =>
      (exists d, text = stringify d /\ answer_for (request_id (parse_json := parse_json) params) d) /\
      if async : bool then exists q, requests = [q] else requests = []
  | Throw e => e = Undefined
  end.
Proof.
  intros HC. pose proof (table_answering name C HC) as HA. pose proof (table_calls name C HC) as HU. unfold call.
  destruct (perform parse_json stringify parse_error (validate_methods (system config)) schema C s params)
    as [h r] eqn:E. split.
  { destruct HU as [HU|[-> ->]].
    - left. pose proof (perform_untouched (part := srv_calls) (parse_json := parse_json) (stringify := stringify)
        (parse_error := parse_error) (validate_methods := validate_methods (system config)) (schema := schema) C s params) as K.
      by rewrite E in K.
    - destruct (perform_calls status s params h r) as [H|(H1 & q & H2 & H3)]; [exact status_prepare_untouched| |done|by left|].
      + intros t x. destruct (status_execute_calls (parse_json := parse_json) (stringify := stringify) (parse_error := parse_error)
          (g_GIT_SHA1 := g_GIT_SHA1) (g_GIT_DATE := g_GIT_DATE) (config := config) (syncSingleton := syncSingleton)
          (count_blocks_result := count_blocks_result) (wallet_dir := wallet_dir) t x) as [->|[Hn ->]]; [by left|right].
        split; [done|]. by exists (count_request (world x)).
      + right. split; [done|]. split; [done|]. by exists q. }
  destruct r as [[async text]|e]; [|by eapply perform_catches].
  apply perform_settled in E as (-> & -> & Hs); [|done]. split; [exists (m_writer h); split; [done|by apply settled_answer]|].
  destruct Hs as [(_ & Ha & Hr)|(_ & Ha & Hr)]; by rewrite Ha.
Qed.

(** The methods without an entry for a node with a local database. *)
Theorem methods_of_a_local_node n :
  n ∈ map fst (remote_handlers SHA256 writable parse_json stringify parse_error g_GIT_SHA1 g_GIT_DATE config syncSingleton
                 tx0 run count_blocks_result wallet_dir) ->
  n = "fetch-history-filter"%string \/
  n ∈ map fst (local_handlers SHA256 writable parse_json stringify parse_error g_GIT_SHA1 g_GIT_DATE config syncSingleton
                 tx0 run count_blocks_result wallet_dir).
Proof.
  intros Hn.
  assert (Forall (fun n => n = "fetch-history-filter"%string \/ n ∈ map fst (local_handlers SHA256 writable parse_json
    stringify parse_error g_GIT_SHA1 g_GIT_DATE config syncSingleton tx0 run count_blocks_result wallet_dir))
    (map fst (remote_handlers SHA256 writable parse_json stringify parse_error g_GIT_SHA1 g_GIT_DATE config
      syncSingleton tx0 run count_blocks_result wallet_dir))) as Hf;
    [|rewrite Forall_forall in Hf; exact (Hf n Hn)].
  cbn [map fst remote_handlers local_handlers].
  repeat (apply Forall_cons; split; [first [by left|right; repeat (constructor 1 || constructor 2)]|]).
  apply Forall_nil_2.
Qed.
End Facts.

(** ** Witnesses *)

Module Sample.
Import Crypto.Toy BlockHandlers.Sample.

Definition s0 : server :=
  {| srv_wallet := {| _storage := ∅; files := ∅ |}; srv_blocks := blocks_cache_new;
     srv_history := history_cache_new; srv_pool := ConnectionPool.start 0; srv_tor := []; srv_proxy := []; srv_calls := [] |}.

(** Requests for get-count-blocks with the id 7; the node runs without a local
    database and without a cache. *)
Definition config : settings := {|
  service := service initial; Settings.server := Settings.server initial;
  system := {| wallet_stotage := []; jrpc_conn_timeout := 0; jrpc_timeout := 0; jrpc_attempts_count := 0;
    leveldbFolder := []; blocksFolder := []; validateBlocks := false; allowStateBlocks := false; useLocalDatabase := false;
    conn_pool_enable := false; conn_pool_ttl := 0; conn_pool_capacity := 0; blocks_cache_ver := 1;
    blocks_cache_enable := false; blocks_cache_force := false; blocks_cache_init_count := 0;
    blocks_cache_recv_data_size := 0; blocks_cache_recv_count := 0; blocks_cache_block_verification := true; cores := [];
    history_cache_enable := false; history_cache_addrs := []; validate_request := false; validate_methods := false |};
  statistic := statistic initial |}.
Definition parse (s : bytes) : option json :=
  Some (JObj [(str "id", JInt 7); (str "method", JStr (str "get-count-blocks"))]).
Definition print (d : json) : bytes := match get "id" d with Some (JInt 7) => str "7" | _ => [] end.
Definition count_class : handler_class server := on_blocks (get_count_blocks_handler print None false).

Lemma every_request_settled_witness :
  exists text q,
    call parse print (fun _ => (0, [])) config None count_class s0 [] = (s0, [q], Ok (true, text)) /\
    exists d, text = print d /\ answer_for (JInt 7) d.
Proof.
  pose proof (every_request_settled (SHA256 := fun b => b) (writable := fun _ => false) (parse_json := parse)
    (stringify := print) (parse_error := fun _ => (0, [])) (g_GIT_SHA1 := []) (g_GIT_DATE := []) (config := config)
    (syncSingleton := None)
    (tx0 := SyncHandlers.Sample.tx0)
    (run := run) (count_blocks_result := fun _ => []) (wallet_dir := None) (schema := None)
    (str "get-count-blocks") count_class s0 [] eq_refl) as K.
  destruct (call parse print (fun _ => (0, [])) config None count_class s0 []) as [[s reqs] r] eqn:E.
  vm_compute in E. injection E as <- <- <-. cbn in K. destruct K as (_ & (d & Ed & Hd) & [q Hq]).
  injection Hq as <-. eexists _, _. split; [reflexivity|]. exists d. exact (conj Ed Hd).
Defined.
End Sample.
