(* ===== verification/Forward.v ===== *)
(** Requests that a handler forwards to a node: the composition of the handlers
    (src/task_handlers/network_handler.cpp), the HTTP request
    (src/http_json_rpc_request.cpp) and the answer to the client.

    base_network_handler::execute hands its document to an HTTP request, whose
    callback is on_complete.  Here the two state machines are joined: what
    [perform] left in the handler starts the request, and every call of the
    callback runs [on_complete] on what get_result returns. *)

From Stdlib Require Import String.
From S2P Require Import Settings HistoryCache ParseAddress HttpRequest RequestLife JsonText.
From S2P Require Import Prelude Text Hex Crypto Transaction WalletStorage Json BlockInfo BlockStore ConnectionPool.
From S2P Require Import Handlers TxHandlers GenerateJson BlockHandlers SyncHandlers Status Answers Dispatch.
Open Scope Z_scope.

(** ** What process_response promises to on_complete *)

Section Respond.
Context {W : Type}.

(** Whatever the node answered, the id of the request stays, and the document has
    an error or the result of the node's answer. *)
Class Responding (respond : json -> M (handler W) unit) : Prop := {
  responds : forall reader h, Forall (fun p => plain_name p.1) (members_of reader) ->
    match respond reader h with
    | (h', Ok _) => writer_id (m_writer h') = writer_id (m_writer h) /\
                    (is_error (m_writer h') = true \/
                     (get_error reader = None /\ get_result (m_writer h') = get_result reader))
    | (h', Throw e) => writer_id (m_writer h') = writer_id (m_writer h) /\ e <> Undefined
    end
}.

#[global] Instance process_response_responds : Responding process_response.
Proof.
  split. intros reader h Hp.
  assert (forall f, str f ∈ json_rpc_service -> forall d, get f (copied d (members_of reader)) = get f d) as Hc
    by (intros f Hf d; by apply copied_get).
  unfold process_response, write, modify, CHK_PRM, throw, mbind, M_bind.
  destruct (get_error reader) as [e|] eqn:Ee; [|destruct (get_result reader) as [r|] eqn:Er; [|done]];
    rewrite copy_members_run; cbn [m_writer set_m_writer]; unfold writer_id, is_error, get_result in *;
    rewrite !Hc by (apply (bool_decide_unpack _); vm_compute; exact I);
    unfold set_error_value, set_result; autorewrite with json; auto.
Qed.
End Respond.

#[global] Instance block_process_response_responds b : Responding (block_process_response b).
Proof.
  split. intros reader h Hp. pose proof (responds (respond := process_response) reader h Hp) as H.
  unfold block_process_response, mbind, M_bind. destruct (process_response reader h) as [h' [[]|e]]; [|done].
  destruct b; [done|]. destruct (get_result reader) as [r|]; [|done]. destruct (get_value_str r "type"); [|done].
  unfold CHK_PRM. case_bool_decide; cbn; [|done]. by split; [apply H|].
Qed.

#[global] Instance zoom_responds {W A} (part : W -> A) (put : A -> W -> W) respond `{!Responding respond} :
  Responding (fun reader => zoom part put (respond reader)).
Proof.
  split. intros reader h Hp. pose proof (responds (respond := respond) reader (inner part h) Hp) as H.
  unfold zoom. by destruct (respond reader (inner part h)) as [h' [[]|e]].
Qed.

(** ** The two machines together *)

Section Compose.
Context {W : Type} {parse_json : bytes -> option json} {stringify : json -> bytes}.
Context {parse_error : bytes -> Z * bytes} {validate_methods : bool} {schema : option (json -> option json)}.
Context {conn_pool_ttl : Z}.
Abbreviation run := (HttpRequest.run parse_json stringify conn_pool_ttl).

(** The HTTP request of the request a handler handed over. *)
Definition node_request (host : bytes) (js : jrpc_settings) (p : pool) (ev : env) (h : handler W) : request :=
  let (path, body) := default ([], []) (head (m_requests h)) in
  prepared (parse_json := parse_json) (conn_pool_ttl := conn_pool_ttl) false host path body js p ev.

(** What is handed to the client's session: each call of the callback runs
    on_complete. *)
Definition sent (respond : json -> M (handler W) unit) (h : handler W) (s : request) : list (res bytes) :=
  map (fun text => (on_complete parse_json stringify parse_error respond text h).2) (called s).

Lemma on_complete_responds respond `{!Responding respond} (h : handler W) answer :
  (forall doc, parse_json answer = Some doc -> Forall (fun p => plain_name p.1) (members_of doc)) ->
  exists d, (on_complete parse_json stringify parse_error respond answer h).2 = Ok (stringify d) /\
    writer_id d = writer_id (m_writer h) /\
    (is_error d = true \/
     exists doc r, parse_json answer = Some doc /\ get_error doc = None /\ get_result doc = Some r /\ get_result d = Some r).
Proof.
  intros Hp. unfold on_complete. destruct (parse_json answer) as [doc|];
    [|eexists; split; [reflexivity|split; [done|by left]]].
  specialize (Hp doc eq_refl). unfold END_TRY, write, modify, gets, mbind, M_bind, mret, M_ret, CHK_PRM. cbv beta iota.
  destruct (found (get_error doc) || found (get_result doc)) eqn:Ef;
    [|eexists; split; [reflexivity|split; [done|by left]]].
  pose proof (responds (respond := respond) doc (set_m_writer (reset (m_writer h)) h) Hp) as H.
  unfold mret, M_ret. cbv beta iota.
  destruct (respond doc _) as [h' [[]|e]]; destruct H as [Hid H].
  - exists (m_writer h'). split; [done|]. split; [exact Hid|]. destruct H as [H|[He H]]; [by left|right].
    rewrite He in Ef. destruct (get_result doc) as [r|] eqn:Er; [|done]. by exists doc, r.
  - exists (caught e (m_writer h')). split; [destruct e; first [reflexivity|by destruct H]|]. rewrite caught_id. split; [exact Hid|].
    left. apply caught_error.
Qed.


(** The node answered with that result, in one of the responses of the run. *)
Definition node_result (l : list (env * event)) (r : json) : Prop :=
  exists rsp doc, rsp ∈ concat (map (fun x => RequestLife.received x.2) l) /\ parse_json (rsp_body rsp) = Some doc /\
    get_error doc = None /\ get_result doc = Some r.

Lemma outcome_result l d base r :
  reset base = base -> outcome (parse_json := parse_json) (base := base) (concat (map (fun x => RequestLife.received x.2) l)) d ->
  get_error d = None -> get_result d = Some r -> node_result l r.
Proof.
  intros Hb [[He _]|(rsp & Hin & ->)] Hn Hr.
  - unfold is_error in He. unfold get_error in Hn. rewrite Hn in He. done.
  - unfold read_result in Hn, Hr. destruct (parse_json (rsp_body rsp)) as [doc|] eqn:Ep; [by exists rsp, doc|].
    destruct (rsp_status rsp =? 200).
    + rewrite <- Hb in Hr. done.
    + unfold get_error, set_error in Hn. by rewrite get_at_value_eq in Hn.
Qed.

(** A request that was forwarded: bounded, answered at most once, and answered
    once when nothing is outstanding. *)
Lemma forwarded_answered respond `{!Responding respond} host js p ev l s (h : handler W) (E : nat) :
  (forall d, parse_json (stringify d) = Some d) ->
  wf p -> 0 <= s_attempts js <= UINT32_MAX -> Forall (fun x => event_ok (E := E) x.2) l ->
  (forall text doc, text ∈ called s -> parse_json text = Some doc -> Forall (fun m => plain_name m.1) (members_of doc)) ->
  run l (HttpRequest.execute true ev (node_request host js p ev h)) = Some s ->
  (length l <= (E + 10) * Z.to_nat (Z.max 1 (s_attempts js)))%nat /\
  (length (sent respond h s) <= 1)%nat /\
  (pending s = [] ->
   exists d, sent respond h s = [Ok (stringify d)] /\ writer_id d = writer_id (m_writer h) /\
     (is_error d = true \/ exists r, get_result d = Some r /\ node_result l r)).
Proof.
  intros Hrt Hwf Ha Hl Hpl Hr. unfold node_request in Hr.
  destruct (default ([], []) (head (m_requests h))) as [path body].
  destruct (prepared_alive false true host path body js p ev l s E Hwf Ha Hl Hr) as [Hi Hlen].
  split; [done|]. unfold sent. rewrite length_map.
  destruct Hi as [(_ & _ & _ & (o & Ho & _) & _ & Hc & _)|[(_ & _ & _ & (o & Ho & _) & _ & _ & Hc & _)|Hf]].
  - rewrite Hc, Ho. split; [cbn; lia|done].
  - rewrite Hc, Ho. split; [cbn; lia|done].
  - destruct Hf as (_ & _ & _ & Hc & _ & Ho & _). rewrite Hc in Hpl |- *. split; [cbn; lia|]. intros _.
    destruct (on_complete_responds respond h (stringify (m_result s))) as (d & E1 & E2 & E3).
    { intros doc. apply Hpl. apply list_elem_of_here. }
    exists d. split; [cbn; by rewrite E1|]. split; [done|]. destruct E3 as [E3|(doc & r & Ed & He & Er & Eg)]; [by left|right].
    rewrite Hrt in Ed. injection Ed as <-. exists r. split; [done|].
    eapply (outcome_result l (m_result s)); [|exact Ho|done|done]. done.
Qed.
End Compose.

(** ** The methods of the table *)

Section Table.
Context `{O : OpenSSL} `{T : TorrentLib} `{I : InfoLib}.
Context {SHA256 : bytes -> bytes} {writable : bytes -> bool}.
Context {parse_json : bytes -> option json} {stringify : json -> bytes} {parse_error : bytes -> Z * bytes}.
Context {g_GIT_SHA1 g_GIT_DATE : bytes} {config : settings} {syncSingleton : option sync_db}.
Context {tx0 : TransactionInfo} {run : keygen_run} {count_blocks_result : nat -> bytes} {wallet_dir : option (list bytes)}.
Context {schema : option (json -> option json)}.

Abbreviation table := (post_handlers SHA256 writable parse_json stringify parse_error g_GIT_SHA1 g_GIT_DATE config
  syncSingleton tx0 run count_blocks_result wallet_dir).
Abbreviation perform_table := (perform parse_json stringify parse_error (validate_methods (system config)) schema).

(** The process_response of the class behind a method: the two queries for a
    block have their own. *)
Definition responder (name : bytes) : json -> M (handler server) unit :=
  if bool_decide (name ∈ [str "get-block-by-hash"; str "get-block-by-number"])
  then fun reader => zoom srv_blocks put_blocks (block_process_response (allowStateBlocks (system config)) reader)
  else process_response.

#[global] Instance responder_responds name : Responding (responder name).
Proof. unfold responder. case_bool_decide; apply _. Qed.

Definition request_settings : jrpc_settings :=
  {| s_timeout := jrpc_timeout (system config); s_conn_timeout := jrpc_conn_timeout (system config);
     s_attempts := jrpc_attempts_count (system config) |}.

(** C28: Every forwarded request is answered exactly once.  Take any method but
    send-tx whose handler forwarded the request, any well-formed pool of connections,
    and whatever the network and the timers do in whatever order: the request to
    the node takes a bounded number of events, the client gets at most one answer,
    and when nothing is outstanding any more it has got one, with the id of its
    request, which holds an error or the result the node answered with.  Assumed are
    that RapidJSON reads back what it prints, that the names of the members the
    node sends have no NUL, and that a host has no more than [E] endpoints. *)
Theorem forwarded_request_answered_once name C w params h text host p ev l s (E : nat) :
  (forall d, parse_json (stringify d) = Some d) ->
  table name = Some C -> name <> str "send-tx" ->
  perform_table C w params = (h, Ok (true, text)) ->
  wf p -> 0 <= jrpc_attempts_count (system config) <= UINT32_MAX -> Forall (fun x => event_ok (E := E) x.2) l ->
  (forall text doc, text ∈ called s -> parse_json text = Some doc -> Forall (fun m => plain_name m.1) (members_of doc)) ->
  let ttl := conn_pool_ttl (system config) in
  HttpRequest.run parse_json stringify ttl l
    (HttpRequest.execute true ev (node_request (parse_json := parse_json) (conn_pool_ttl := ttl) host request_settings p ev h))
    = Some s ->
  let answers := sent (parse_json := parse_json) (stringify := stringify) (parse_error := parse_error) (responder name) h s in
  (length l <= (E + 10) * Z.to_nat (Z.max 1 (jrpc_attempts_count (system config))))%nat /\
  (length answers <= 1)%nat /\
  (pending s = [] ->
   exists d, answers = [Ok (stringify d)] /\
     writer_id d = request_id (parse_json := parse_json) params /\
     (is_error d = true \/ exists r, get_result d = Some r /\ node_result (parse_json := parse_json) l r)).
Proof.
  intros Hrt HC _ Hp Hwf Ha Hl Hpl ttl Hr answers. pose proof (table_answering name C HC) as HA.
  apply perform_settled in Hp as (_ & _ & Hs); [|done]. apply settled_answer in Hs as [_ Hid].
  destruct (forwarded_answered (parse_error := parse_error) (responder name) host request_settings p ev l s h E Hrt Hwf Ha Hl
    Hpl Hr) as (H1 & H2 & H3).
  split; [exact H1|]. split; [exact H2|]. intros Hpe. destruct (H3 Hpe) as (d & E1 & E2 & E3). exists d. split; [exact E1|].
  split; [|exact E3]. rewrite E2. unfold writer_id. by rewrite Hid.
Qed.
End Table.

(** ** Witnesses *)

Module Sample.
Import Crypto.Toy BlockHandlers.Sample Dispatch.Sample.

(** get-count-blocks with the id 7; the node answers that there are nine blocks. *)
Definition params0 : bytes := print_value (JObj [(str "id", JInt 7); (str "method", JStr (str "get-count-blocks"))]).
Definition count_class0 : handler_class server := on_blocks (get_count_blocks_handler print_value None false).
Definition nine : json := JObj [(str "count_blocks", JInt 9)].
Definition body0 : bytes := print_value (JObj [(str "result", nine)]).
Definition pool0 : pool := ConnectionPool.start 2.
Definition ev0 : env := {| now := 0; alive _ := true |}.
Definition rsp0 (body : bytes) : response :=
  {| rsp_status := 200; rsp_version := 11; rsp_connection := None; rsp_keep_alive := true; rsp_body := body |}.
Definition events0 : list (env * event) := map (fun a => (ev0, a))
  [Completed 0 None 1 (rsp0 []); Opened 0 5; Completed 0 None 0 (rsp0 []); Completed 0 None 0 (rsp0 []);
   Completed 0 None 0 (rsp0 body0)].
Definition h0 : handler server :=
  (perform parse_value print_value (fun _ => (0, [])) false None count_class0 s0 params0).1.
Definition text0 : bytes := print_value (m_writer h0).
Definition start0 : request :=
  HttpRequest.execute true ev0
    (node_request (parse_json := parse_value) (conn_pool_ttl := 0) (str "node:5795") (request_settings (config := config))
       pool0 ev0 h0).
Definition end0 : request := default start0 (HttpRequest.run parse_value print_value 0 events0 start0).

Lemma empty_pool_wf : wf pool0.
Proof. apply wf_init. lia. Qed.

Lemma forwarded_request_answered_once_witness :
  let answers := sent (parse_json := parse_value) (stringify := print_value) (parse_error := fun _ => (0, []))
    (responder (config := config) (str "get-count-blocks")) h0 end0 in
  pending end0 = [] /\
  exists d, answers = [Ok (print_value d)] /\ writer_id d = JInt 7 /\
    (is_error d = true \/ exists r, get_result d = Some r /\ node_result (parse_json := parse_value) events0 r).
Proof.
  split; [vm_compute; reflexivity|].
  refine (proj2 (proj2 (forwarded_request_answered_once (SHA256 := fun b => b) (writable := fun _ => false)
    (parse_json := parse_value) (stringify := print_value) (parse_error := fun _ => (0, [])) (g_GIT_SHA1 := [])
    (g_GIT_DATE := []) (config := config) (syncSingleton := None) (tx0 := SyncHandlers.Sample.tx0) (run := run) (count_blocks_result := fun _ => [])
    (wallet_dir := None) (schema := None) (str "get-count-blocks") count_class0 s0 params0 h0 text0 (str "node:5795")
    pool0 ev0 events0 end0 1 parse_print_value eq_refl _ _ empty_pool_wf _ _ _ _)) _).
  - discriminate.
  - vm_compute. reflexivity.
  - split; vm_compute; discriminate.
  - repeat constructor.
  - assert (called end0 = [body0]) as -> by (vm_compute; reflexivity). intros t doc ->%list_elem_of_singleton.
    unfold body0. rewrite parse_print_value. intros [= <-]. repeat constructor.
  - vm_compute. reflexivity.
  - vm_compute. reflexivity.
Defined.
End Sample.
