(* ===== verification/HttpSession.v ===== *)
(** HTTP sessions: src/http_session.cpp, and the access check of
    src/http_server.cpp.

    A session is the connection to one client.  Beast gives the parsed request;
    what the code reads of it is the record [request].  [handlers] and
    [get_handlers] are the two tables of src/task_handlers/task_handlers.cpp, with
    entries over the state [St] of the process, as in BatchRequest; an entry is
    given the context that a later answer goes to, the session or the batch that the
    session creates.  Such answers arrive through [send_json].  Every method of the class catches all exceptions,
    so a throw ends the method with what was done before it. *)

From Stdlib Require Import String.
From S2P Require Import Prelude Text Json SecurityManager BatchRequest.
Open Scope Z_scope.

Inductive verb := Post | Get | OtherVerb.

(** The fields of [http::request] that the session uses; [rq_keep_alive] is
    [m_req.keep_alive()]. *)
Record request := {
  rq_version : Z;
  rq_verb : verb;
  rq_target : bytes;
  rq_body : bytes;
  rq_connection : option bytes;
  rq_auth_key : option bytes;
  rq_keep_alive : bool
}.

(** A response as it is written to the socket. *)
Record response := {
  rs_status : Z;
  rs_content_type : bytes;
  rs_connection : option bytes;
  rs_body : bytes
}.

Record session := {
  m_http_ver : Z;
  m_http_keep_alive : bool;
  is_open : bool;
  written : list response
}.

Definition session_new : session :=
  {| m_http_ver := 11; m_http_keep_alive := false; is_open := true; written := [] |}.

(** Where an answer that comes later goes: session_context_ptr. *)
Inductive context := ThisSession | ThisBatch.

Definition set_keep (s : session) (ver : Z) (b : bool) : session :=
  {| m_http_ver := ver; m_http_keep_alive := b; is_open := is_open s; written := written s |}.

Section Session.
(** settings::service. *)
Variables keep_alive_setting auth_enable any_conns : bool.
Variable auth_key : bytes.
(** settings::system::validate_request, and the schema of requests. *)
Variable validate_request : bool.
Variable schema : option (json -> option json).
Variable parse_json : bytes -> option json.
Variable stringify : json -> bytes.
Variable parse_error : bytes -> Z * bytes.
Context {St : Type}.
Variable handlers : context -> bytes -> option (entry St).
Variable get_handlers : context -> bytes -> option (entry St).

Definition keep_alive (s : session) : bool := if keep_alive_setting then m_http_keep_alive s else false.

Definition close (s : session) : session :=
  {| m_http_ver := m_http_ver s; m_http_keep_alive := m_http_keep_alive s; is_open := false;
     written := written s |}.

(** The field Connection that send_response sets. *)
Definition connection_field (s : session) : option bytes :=
  if keep_alive_setting then
    if m_http_ver s =? 10 then Some (if m_http_keep_alive s then str "Keep-Alive" else str "close")
    else if negb (m_http_keep_alive s) then Some (str "close") else None
  else Some (str "close").

(** send_response: nothing reaches the client of a closed socket. *)
Definition send_response (s : session) (status : Z) (content_type body : bytes) : session :=
  let r := {| rs_status := status; rs_content_type := content_type; rs_connection := connection_field s;
              rs_body := body |} in
  let s := if is_open s
           then {| m_http_ver := m_http_ver s; m_http_keep_alive := m_http_keep_alive s; is_open := true;
                   written := written s ++ [r] |}
           else s in
  if negb (keep_alive s) then close s else s.

Definition send_bad_response (s : session) (status : Z) (error : string) : session :=
  send_response s status (str "text/plain") (str error).

Definition send_json (s : session) (data : bytes) : session :=
  send_response s 200 (str "application/json") data.

Definition check_auth (req : request) : bool :=
  if negb auth_enable then true
  else match rq_auth_key req with Some v => bool_decide (v = auth_key) | None => false end.

(** A call of an entry, and the answer when it is there at once. *)
Definition dispatch (call : entry St) (w : St) (s : session) (body : bytes) : res (St * session) :=
  r ← call body w;
  let '(w, (async, text)) := (r : St * (bool * bytes)) in
  Ok (w, if async : bool then s else send_json s text).

(** [set_error] keeps the message up to a NUL, as the source hands it over as a C
    string. *)
Definition process_single_request (w : St) (s : session) (doc : json) (body : bytes) : res (St * session) :=
  match get_value_str doc "method" with
  | None =>
      match get_id doc with
      | Ok id => Ok (w, send_json s (stringify (set_error (set_id json_rpc_writer_new id) (-32600)
                                                  (str "Json method is not provided"))))
      | Throw _ => Ok (w, s)
      end
  | Some method =>
      if negb (has_id doc) then Ok (w, s)
      else
        match handlers ThisSession (c_str method) with
        | None =>
            match get_id doc with
            | Ok id => Ok (w, send_json s (stringify (set_error (set_id json_rpc_writer_new id) (-32601)
                                                        (str "Method '" ++ method ++ str "' does not exist"))))
            | Throw _ => Ok (w, s)
            end
        | Some call => dispatch call w s body
        end
  end.

(** process_batch_request: the batch, and the session with what the batch hands to
    it. *)
Definition process_batch_request (w : St) (s : session) (l : list json) : res (St * session * batch) :=
  r ← process parse_json stringify (handlers ThisBatch) w batch_new l;
  let '(w, b) := (r : St * batch) in
  Ok (w, fold_left send_json (sent b) s, b).

(** [GetType()] as a number. *)
Definition type_number (v : json) : Z :=
  match v with
  | JNull => 0 | JBool false => 1 | JBool true => 2 | JObj _ => 3 | JArr _ => 4 | JStr _ => 5
  | JInt _ | JDouble _ => 6
  end.

(** A step without a batch. *)
Definition no_batch (r : res (St * session)) : res (St * session * option batch) :=
  p ← r; let '(w, s) := (p : St * session) in Ok (w, s, None).

(** The switch on the type of the document; the batch when there is one. *)
Definition process_document (w : St) (s : session) (doc : json) (body : bytes) : res (St * session * option batch) :=
  match doc with
  | JObj _ => no_batch (process_single_request w s doc body)
  | JArr l =>
      r ← process_batch_request w s l;
      let '(w, s, b) := (r : St * session * batch) in
      Ok (w, s, Some b)
  | _ =>
      match get_id doc with
      | Ok id => Ok (w, send_json s (stringify (set_error (set_id json_rpc_writer_new id) (-32600)
                                          (str "Unrecognized json type " ++ to_string (type_number doc)))), None)
      | Throw _ => Ok (w, s, None)
      end
  end.

Definition process_post_request (w : St) (s : session) (req : request) : res (St * session * option batch) :=
  if negb (bool_decide (rq_target req = str "/")) then Ok (w, send_bad_response s 400 "Incorrect Path", None)
  else
    match parse_json (rq_body req) with
    | None =>
        Ok (w, send_json s (stringify (set_error json_rpc_writer_new (-32700)
          (str "Parse json error " ++ to_string (parse_error (rq_body req)).1
           ++ str ": " ++ (parse_error (rq_body req)).2))), None)
    | Some doc =>
        match (if validate_request then match schema with Some accept => accept doc | None => None end else None) with
        | Some err =>
            match get_id doc with
            | Ok id =>
                Ok (w, send_json s (stringify (set_error_data (set_error (set_id json_rpc_writer_new id) (-32600)
                  (str "Common request json validation error")) err)), None)
            | Throw _ => Ok (w, s, None)
            end
        | None => process_document w s doc (rq_body req)
        end
    end.

(** The path and the parameters of the target of a GET request;
    [remove_prefix(1)] of an empty path is undefined. *)
Definition split_target (target : bytes) : res (bytes * bytes) :=
  let '(method, params) := match split_at "?"%char target with
                           | Some (method, params) => (method, params)
                           | None => (target, [])
                           end in
  match method with
  | [] => Throw Undefined
  | _ :: method => Ok (method, params)
  end.

Definition process_get_request (w : St) (s : session) (req : request) : res (St * session) :=
  if zlen (rq_target req) <? 2 then Ok (w, send_bad_response s 400 "Incorrect Path")
  else
    r ← split_target (rq_target req);
    let '(method, params) := (r : bytes * bytes) in
    match get_handlers ThisSession method with
    | None =>
        Ok (w, send_json s (stringify (set_error (set_id json_rpc_writer_new 1) (-32601)
          (str "Method '" ++ method ++ str "' does not exist"))))
    | Some call =>
        let d := at_value (set_id json_rpc_writer_new 1) "method" kStringType (fun _ => JStr method) in
        let d := if bool_decide (params = []) then d
                 else at_value d "params" kObjectType (fun p => to_json params p) in
        dispatch call w s (stringify d)
    end.

(** The loop that reads the version and the field Connection. *)
Definition request_keep_alive (req : request) : bool :=
  if bool_decide (rq_connection req = Some (str "close")) then false
  else if rq_version req =? 11 then true
  else rq_keep_alive req.

Section Access.
Context {address : Type} `{Countable address}.
Abbreviation table := (gmap address addr_info).

(** process_request, at time [now] in the security manager. *)
Definition process_request (w : St) (s : session) (t : table) (a : address) (now : Z) (req : request)
  : res (St * session * option batch * table) :=
  let s := set_keep s (m_http_ver s) false in
  if negb (check_auth req) then Ok (w, send_bad_response s 401 "Access Denied", None, mark_failed t a now)
  else
    let t := if auth_enable then try_reset t a else t in
    let s := set_keep s (rq_version req) (request_keep_alive req) in
    r ← match rq_verb req with
        | Post => process_post_request w s req
        | Get => no_batch (process_get_request w s req)
        | OtherVerb => Ok (w, send_bad_response s 400 "Incorrect HTTP method", None)
        end;
    Ok (r, t).

(** run: the requests of a connection one after the other, while it is kept
    alive. *)
Fixpoint run (w : St) (s : session) (t : table) (a : address) (now : Z) (reqs : list request)
  : res (St * session * table) :=
  match reqs with
  | [] => Ok (w, s, t)
  | req :: reqs' =>
      if is_open s then
        r ← process_request w s t a now req;
        let '(w, s, _, t) := (r : St * session * option batch * table) in
        if keep_alive s then run w s t a now reqs' else Ok (w, s, t)
      else Ok (w, s, t)
  end.

(** http_server::check_access; the loopback test and the list of addresses are
    given as results. *)
Definition check_access (t : table) (a : address) (now : Z) (is_loopback listed : bool) : bool * table :=
  let '(ok, t) := if auth_enable then SecurityManager.check t a now else (true, t) in
  if negb ok then (false, t)
  else (any_conns || is_loopback || listed, t).

(** ** Theorems *)

(** Every response says what happens to the connection: it has
    [Connection: close] exactly when the connection is closed behind it. *)
Theorem connection_announced s status content_type body :
  is_open s = true ->
  let s' := send_response s status content_type body in
  exists r, written s' = written s ++ [r] /\ rs_status r = status /\ rs_body r = body /\
    (rs_connection r = Some (str "close") <-> is_open s' = false).
Proof.
  intros Ho. unfold send_response, connection_field, keep_alive. rewrite Ho. cbn [m_http_keep_alive].
  destruct keep_alive_setting, (m_http_keep_alive s), (m_http_ver s =? 10);
    (eexists; split; [done|]; split; [done|]; split; [done|]; split; intros; (discriminate || done)).
Qed.

(** C38: with authentication on, a request without the key is refused with 401
    before its method, path or body are looked at: no handler runs, the failure is
    recorded for the address of the client, and the connection is closed. *)
Theorem unauthorised_request w s t a now req :
  auth_enable = true -> is_open s = true -> rq_auth_key req <> Some auth_key ->
  exists r s', process_request w s t a now req = Ok (w, s', None, mark_failed t a now) /\
    written s' = written s ++ [r] /\ rs_status r = 401 /\ rs_body r = str "Access Denied" /\
    rs_connection r = Some (str "close") /\ is_open s' = false.
Proof.
  intros Ha Ho Hk. unfold process_request, check_auth. rewrite Ha. cbn [negb].
  assert (match rq_auth_key req with Some v => bool_decide (v = auth_key) | None => false end = false) as ->.
  { destruct (rq_auth_key req); [|done]. apply bool_decide_eq_false_2. congruence. }
  unfold send_bad_response, send_response, connection_field, keep_alive, set_keep. rewrite Ho.
  cbn [negb m_http_keep_alive m_http_ver is_open written].
  destruct keep_alive_setting, (m_http_ver s =? 10); do 2 eexists; split_and!; done.
Qed.

(** A POST request that a handler answers at once with [text], and the state it
    leaves. *)
Record prompt (w : St) (req : request) (text : bytes) (w' : St) : Prop := {
  pr_auth : check_auth req = true;
  pr_verb : rq_verb req = Post;
  pr_target : rq_target req = str "/";
  pr_doc : exists l m, parse_json (rq_body req) = Some (JObj l) /\
    (validate_request = true -> forall accept, schema = Some accept -> accept (JObj l) = None) /\
    get_value_str (JObj l) "method" = Some m /\ has_id (JObj l) = true /\
    exists call, handlers ThisSession (c_str m) = Some call /\ call (rq_body req) w = Ok (w', (false, text))
}.

Definition json_response (s : session) (text : bytes) : response :=
  {| rs_status := 200; rs_content_type := str "application/json"; rs_connection := connection_field s;
     rs_body := text |}.

Lemma prompt_processed w s t a now req text w' :
  prompt w req text w' ->
  process_request w s t a now req =
    Ok (w', send_json (set_keep s (rq_version req) (request_keep_alive req)) text, None,
        if auth_enable then try_reset t a else t).
Proof.
  intros [Hau Hv Ht (l & m & Hp & Hs & Hm & Hi & call & Hh & Hc)]. unfold process_request. rewrite Hau, Hv. cbn [negb].
  unfold process_post_request. rewrite bool_decide_eq_true_2 by done. cbn [negb]. rewrite Hp.
  assert ((if validate_request then match schema with Some accept => accept (JObj l) | None => None end else None)
          = None) as ->.
  { destruct validate_request; [|done]. destruct schema; [|done]. by apply Hs. }
  unfold process_document, process_single_request. rewrite Hm, Hi. cbn [negb]. rewrite Hh. unfold dispatch. by rewrite Hc.
Qed.

(** Requests that are answered at once, one after the other. *)
Inductive prompt_all : St -> list (request * bytes) -> St -> Prop :=
| prompt_nil w : prompt_all w [] w
| prompt_cons w req text w1 reqs w2 :
    prompt w req text w1 -> request_keep_alive req = true -> prompt_all w1 reqs w2 ->
    prompt_all w ((req, text) :: reqs) w2.

(** A connection that is kept alive answers in order: requests that keep it
    open and that handlers answer at once get one response each, in the order of
    the requests, each from the state the ones before it left, and the connection
    is open afterwards. *)
Theorem requests_answered_in_order w s t a now reqs w' :
  keep_alive_setting = true -> is_open s = true -> prompt_all w reqs w' ->
  exists s' t', run w s t a now (map fst reqs) = Ok (w', s', t') /\ is_open s' = true /\
    map rs_body (written s') = map rs_body (written s) ++ map snd reqs /\
    length (written s') = (length (written s) + length reqs)%nat.
Proof.
  intros Hk Ho Hall. revert s t Ho. induction Hall as [w|w req text w1 reqs w2 Hp Hka Hall IH]; intros s t Ho.
  { exists s, t. cbn. rewrite app_nil_r. split_and!; done || lia. }
  cbn [map fst snd run]. rewrite Ho.
  rewrite (prompt_processed w s t a now req text w1 Hp). cbn [mbind res_bind].
  set (s1 := send_json _ text).
  assert (is_open s1 = true /\ keep_alive s1 = true /\
          exists r, written s1 = written s ++ [r] /\ rs_body r = text) as (Ho1 & Hk1 & r & Hw & Hb).
  { unfold s1, send_json, send_response, keep_alive, set_keep. rewrite Hk, Hka. cbn. rewrite Ho. cbn. eauto. }
  rewrite Hk1. destruct (IH s1 (if auth_enable then try_reset t a else t) Ho1) as (s' & t' & E & Ho' & Hbs & Hl).
  exists s', t'. split_and!; try done.
  - rewrite Hbs, Hw, map_app, <- app_assoc. cbn. by rewrite Hb.
  - rewrite Hl, Hw, length_app. cbn. lia.
Qed.

(** An answer that comes later is lost when the connection was closed in the
    meantime: on a connection that is kept alive the next request is read while
    the first one is still being worked on, and when that one asks to close the
    connection, the answer to the first never reaches the client. *)
Theorem late_answer_lost w s t a now req text w' late :
  is_open s = true -> prompt w req text w' -> request_keep_alive req = false ->
  exists s' t', process_request w s t a now req = Ok (w', s', None, t') /\
    written (send_json s' late) = written s' /\ length (written s') = S (length (written s)).
Proof.
  intros Ho Hp Hka. rewrite (prompt_processed w s t a now req text w' Hp). do 2 eexists. split; [done|].
  unfold send_json, send_response, keep_alive, set_keep. rewrite Hka. cbn. rewrite Ho.
  destruct keep_alive_setting; cbn; rewrite length_app; cbn; split; (done || lia).
Qed.

(** A GET request whose target begins with a question mark takes a character
    off an empty path, which is undefined. *)
Theorem get_without_path w s t a now req params :
  rq_verb req = Get -> rq_target req = "?"%char :: params -> params <> [] -> check_auth req = true ->
  process_request w s t a now req = Throw Undefined.
Proof.
  intros Hv Ht Hp Ha. unfold process_request, process_get_request. rewrite Ha, Hv, Ht, zlen_cons. cbn [negb].
  assert (0 < zlen params) by (destruct params; [done|]; rewrite zlen_cons; pose proof (zlen_nonneg params); lia).
  by ztest.
Qed.

(** Who gets in: with authentication on, a client that the security manager
    turns away has no access; otherwise access is granted exactly when all
    connections are allowed, or the client is local, or its address is listed. *)
Theorem access_spec t a now is_loopback listed :
  (check_access t a now is_loopback listed).1 = true <->
  (auth_enable = true -> (SecurityManager.check t a now).1 = true) /\
  (any_conns = true \/ is_loopback = true \/ listed = true).
Proof.
  unfold check_access. destruct auth_enable.
  - destruct (SecurityManager.check t a now) as [[] t']; cbn; destruct any_conns, is_loopback, listed;
      cbn; intuition discriminate.
  - cbn. destruct any_conns, is_loopback, listed; cbn; intuition discriminate.
Qed.
End Access.
End Session.

(** ** Witnesses *)

Module Sample.
Definition doc : json := JObj [(str "method", JStr (str "status")); (str "id", JInt 1)].
Definition parse_json (b : bytes) : option json := if bool_decide (b = str "q") then Some doc else None.
Definition stringify (_ : json) : bytes := str "text".
(** The state counts the calls. *)
Definition handlers (_ : context) (m : bytes) : option (entry Z) :=
  if bool_decide (m = str "status") then Some (fun _ n => Ok (n + 1, (false, str "fine"))) else None.
Definition req (conn : option bytes) : request :=
  {| rq_version := 11; rq_verb := Post; rq_target := str "/"; rq_body := str "q"; rq_connection := conn;
     rq_auth_key := Some (str "key"); rq_keep_alive := true |}.

Abbreviation process1 :=
  (process_request (address := Z) true true (str "key") false None parse_json stringify (fun _ => (0, []))
     handlers handlers).

Lemma req_prompt conn n : prompt true (str "key") false None parse_json handlers n (req conn) (str "fine") (n + 1).
Proof.
  split; try reflexivity. exists (members_of doc), (str "status"). repeat split; try (intros; discriminate).
  eexists. split; reflexivity.
Defined.

Lemma connection_announced_witness :
  exists r, written (send_response true session_new 200 (str "text/plain") (str "x")) = [r] /\ rs_status r = 200 /\
    rs_body r = str "x" /\
    (rs_connection r = Some (str "close") <->
     is_open (send_response true session_new 200 (str "text/plain") (str "x")) = false).
Proof. apply (connection_announced true session_new 200 (str "text/plain") (str "x")). reflexivity. Defined.

Lemma unauthorised_request_witness :
  exists r s', process_request (address := Z) true true (str "other") false None parse_json stringify
      (fun _ => (0, [])) handlers handlers 5 session_new ∅ 1 0 (req None) = Ok (5, s', None, mark_failed ∅ 1 0) /\
    written s' = [r] /\ rs_status r = 401 /\ rs_body r = str "Access Denied" /\
    rs_connection r = Some (str "close") /\ is_open s' = false.
Proof. apply (unauthorised_request true true (str "other")); [reflexivity | reflexivity | discriminate]. Defined.

Lemma requests_answered_in_order_witness :
  exists s' t', run (address := Z) true true (str "key") false None parse_json stringify (fun _ => (0, []))
      handlers handlers 0 session_new ∅ 1 0 [req None; req None] = Ok (2, s', t') /\ is_open s' = true /\
    map rs_body (written s') = [str "fine"; str "fine"] /\ length (written s') = 2%nat.
Proof.
  apply (requests_answered_in_order true true (str "key") false None parse_json stringify (fun _ => (0, []))
    handlers handlers 0 session_new ∅ 1 0 [(req None, str "fine"); (req None, str "fine")] 2).
  - reflexivity.
  - reflexivity.
  - eapply prompt_cons; [apply (req_prompt None 0)|reflexivity|].
    eapply prompt_cons; [apply (req_prompt None 1)|reflexivity|constructor].
Defined.

Lemma late_answer_lost_witness :
  exists s' t', process1 0 session_new ∅ 1 0 (req (Some (str "close"))) = Ok (1, s', None, t') /\
    written (send_json true s' (str "late")) = written s' /\ length (written s') = 1%nat.
Proof.
  apply (late_answer_lost true true (str "key") false None parse_json stringify (fun _ => (0, []))
    handlers handlers 0 session_new ∅ 1 0 (req (Some (str "close"))) (str "fine") 1).
  - reflexivity.
  - apply (req_prompt _ 0).
  - reflexivity.
Defined.

Lemma get_without_path_witness :
  process1 0 session_new ∅ 1 0
    {| rq_version := 11; rq_verb := Get; rq_target := str "?a"; rq_body := []; rq_connection := None;
       rq_auth_key := Some (str "key"); rq_keep_alive := true |} = Throw Undefined.
Proof.
  apply (get_without_path true true (str "key") false None parse_json stringify (fun _ => (0, []))
    handlers handlers 0 session_new ∅ 1 0 _ (str "a")); try reflexivity. discriminate.
Defined.
End Sample.
