(* ===== verification/Validation.v ===== *)
(** What the validation of requests (Schema.v) promises to the rest of the server:
    to the session (HttpSession.v), which checks a request against the first
    schema, and to the handlers (Handlers.v, BlockHandlers.v, Dispatch.v), whose
    prepare checks it against the second.  Both checks are on by default. *)

From Stdlib Require Import String.
From S2P Require Import Prelude Text Hex Crypto Json BlockInfo BlockStore Settings WalletStorage HistoryCache.
From S2P Require Import Handlers TxHandlers GenerateJson BlockHandlers SyncHandlers Status Answers Dispatch BatchRequest HttpSession.
From S2P Require Import Schema.
Open Scope Z_scope.

(** ** Lemmas *)

Section Branches.
Abbreviation valid := validate.

(** The alternatives of oneOf. *)
Definition branches (sch : schema) : list schema := match sch with Schema _ (Some l) _ _ => l | _ => [] end.

Lemma branch_valid sch v : branches sch <> [] -> valid sch v = true -> exists s, s ∈ branches sch /\ valid s v = true.
Proof. destruct sch as [k [l|] props items]; [|done]. intros _. apply validate_one. Qed.

Definition no_object (k : keywords) : bool := negb (bool_decide (TObject ∈ type_ k)).

(** Objects with the member [name], and without it, are not accepted. *)
Definition excludes (name : string) (s : schema) : bool :=
  match s with
  | Schema k _ props _ =>
      no_object k || negb (additionalProperties_ k) && negb (bool_decide (str name ∈ named k)) &&
      match find_property (str name) props with Some _ => false | None => true end
  end.
Definition insists (name : string) (s : schema) : bool :=
  match s with Schema k _ _ _ => no_object k || bool_decide (str name ∈ required k) end.

Lemma no_object_refuses k one props items ms :
  no_object k = true -> valid (Schema k one props items) (JObj ms) = true -> False.
Proof.
  intros Hn Hv%validate_type. unfold no_object in Hn. cbn in Hv. rewrite Hv in Hn. done.
Qed.

Lemma excluded name s ms : excludes name s = true -> valid s (JObj ms) = true -> str name ∉ names ms.
Proof.
  destruct s as [k one props items]. unfold excludes. intros [Hn|Hx]%orb_prop Hv Hin.
  - by eapply no_object_refuses.
  - apply andb_prop in Hx as [[Ha Hk]%andb_prop Hf]. apply FindMember_names in Hin as [v Hv'%FindMember_elem].
    eapply validate_unknown; [exact Hv| |exact Hv'| |].
    + by destruct (additionalProperties_ k).
    + by destruct (find_property (str name) props).
    + by apply negb_true_iff, bool_decide_eq_false in Hk.
Qed.

Lemma insisted name s ms : insists name s = true -> valid s (JObj ms) = true -> str name ∈ names ms.
Proof.
  destruct s as [k one props items]. unfold insists. intros [Hn|Hx]%orb_prop Hv.
  - exfalso. by eapply no_object_refuses.
  - apply bool_decide_eq_true in Hx. rewrite validate_eq in Hv. apply andb_prop in Hv as [[Ha _]%andb_prop _].
    unfold accepts in Ha. apply andb_prop in Ha as [_ Ha]. unfold accepts_members in Ha.
    repeat (apply andb_prop in Ha as [Ha _]). rewrite forallb_forall in Ha.
    apply list_elem_of_In, Ha in Hx. by apply bool_decide_eq_true in Hx.
Qed.

(** The schema demands the member [f] and gives it a type. *)
Definition gives_here (s : schema) (f : string * stype) : bool :=
  match demands s (str f.1) with Some (Schema k _ _ _) => forallb (fun t => bool_decide (t ∈ [f.2])) (type_ k) | None => false end.
Definition gives (s : schema) (f : string * stype) : bool :=
  gives_here s f || negb (bool_decide (length (branches s) = 0%nat)) && forallb (fun s => gives_here s f) (branches s).

Lemma gives_here_sound s f v :
  gives_here s f = true -> valid s v = true -> exists x, get f.1 v = Some x /\ accepts_type [f.2] x = true.
Proof.
  unfold gives_here. destruct (demands s (str f.1)) as [[k one props items]|] eqn:Ed; [|done]. intros Ht Hv.
  destruct (demanded s f.1 _ v Ed Hv) as (x & Hx & Hvx). exists x. split; [done|].
  apply validate_type in Hvx. by eapply accepts_type_mono.
Qed.

Lemma gives_sound s f v :
  gives s f = true -> valid s v = true -> exists x, get f.1 v = Some x /\ accepts_type [f.2] x = true.
Proof.
  unfold gives. intros [H|[Hb Hf]%andb_prop]%orb_prop Hv; [by eapply gives_here_sound|].
  apply negb_true_iff, bool_decide_eq_false in Hb. apply branch_valid in Hv as (b & Hin & Hv); [|by intros E; rewrite E in Hb].
  rewrite forallb_forall in Hf. apply list_elem_of_In, Hf in Hin. by eapply gives_here_sound.
Qed.

(** *** The schema of the methods *)

(** The pattern for the member method. *)
Definition pattern_of (s : schema) : option (list piece) :=
  match demands s (str "method") with
  | Some (Schema k _ _ _) => if bool_decide (type_ k = [TString]) then pattern_ k else None
  | None => None
  end.

Lemma pattern_matched s p doc :
  pattern_of s = Some p -> valid s doc = true ->
  exists m, get_value_str doc "method" = Some m /\ matches p (regex_text m) = true.
Proof.
  unfold pattern_of. destruct (demands s (str "method")) as [[k one props items]|] eqn:Ed; [|done].
  case_bool_decide as Et; [|done]. intros Hp Hv. destruct (demanded s "method" _ doc Ed Hv) as (x & Hx & Hvx).
  pose proof (validate_type _ _ _ _ _ Hvx) as Ht. rewrite Et in Ht.
  destruct x as [| | | |m| |]; try (vm_compute in Ht; discriminate). exists m. unfold get_value_str. rewrite Hx. split; [done|].
  rewrite validate_eq in Hvx. apply andb_prop in Hvx as [[Ha _]%andb_prop _]. unfold accepts in Ha.
  apply andb_prop in Ha as [_ Ha]. unfold accepts_text in Ha. apply andb_prop in Ha as [_ Ha]. by rewrite Hp in Ha.
Qed.

(** The alternatives for a method. *)
Definition candidates (m : bytes) : list schema :=
  List.filter (fun s => match pattern_of s with Some p => matches p (regex_text m) | None => true end)
    (branches methods_schema).

Lemma every_branch_has_pattern : Forall (fun s => is_Some (pattern_of s)) (branches methods_schema).
Proof. vm_compute. repeat (constructor; [by eexists|]). constructor. Qed.

Lemma accepted_candidate doc :
  valid methods_schema doc = true -> exists s, s ∈ candidates (get_method doc) /\ valid s doc = true.
Proof.
  intros Hv. apply branch_valid in Hv as (s & Hin & Hv); [|by vm_compute].
  exists s. split; [|exact Hv]. apply list_elem_of_In in Hin as Hin'. unfold candidates.
  apply list_elem_of_In, filter_In. split; [exact Hin'|].
  pose proof every_branch_has_pattern as Hp. rewrite Forall_forall in Hp. destruct (Hp s Hin) as [p Ep].
  rewrite Ep. destruct (pattern_matched s p doc Ep Hv) as (m & Em & Hm). unfold get_method. by rewrite Em.
Qed.
End Branches.

(** ** Theorems *)

Section Theorems.
Abbreviation valid := validate.

(** *** The methods *)

(** What the handlers take from the params of a request without a look at its type
    first, or refuse the request for. *)
Definition parameters : list (string * list (string * stype)) :=
  [("validate", [("address", TString)]); ("fetch-balance", [("address", TString)]);
   ("fetch-balances", [("addresses", TArray)]); ("fetch-history", [("address", TString)]);
   ("fetch-history-filter", [("address", TString); ("filters", TObject)]);
   ("create-tx", [("address", TString); ("to", TString)]); ("create-tx2", [("address", TString); ("to", TString)]);
   ("send-tx", [("address", TString)]);
   ("get-block-by-hash", [("hash", TString)]); ("get-block-by-number", [("number", TInteger)]);
   ("get-dump-block-by-hash", [("hash", TString)]); ("get-dump-block-by-number", [("number", TInteger)]);
   ("get-tx", [("hash", TString)]); ("fetch-transaction", [("address", TString); ("data", TString)])]%string.

(** The alternatives [l] all give the fields. *)
Definition all_give (l : list schema) (fields : list (string * stype)) : bool :=
  forallb (fun s => match demands s (str "params") with Some p => forallb (gives p) fields | None => false end) l.

Lemma all_give_sound l fields s doc :
  all_give l fields = true -> s ∈ l -> valid s doc = true ->
  exists params, get_params doc = Some params /\
    Forall (fun f => exists v, get f.1 params = Some v /\ accepts_type [f.2] v = true) fields.
Proof.
  intros Ha Hin Hv. unfold all_give in Ha. rewrite forallb_forall in Ha. apply list_elem_of_In, Ha in Hin.
  destruct (demands s (str "params")) as [p|] eqn:Ed; [|done].
  destruct (demanded s "params" p doc Ed Hv) as (params & Hp & Hvp). exists params. split; [done|].
  rewrite Forall_forall. intros f Hf. rewrite forallb_forall in Hin. apply list_elem_of_In, Hin in Hf.
  by eapply gives_sound.
Qed.

Lemma parameters_checked name fields : (name, fields) ∈ parameters -> all_give (candidates (str name)) fields = true.
Proof.
  assert (forallb (fun e => all_give (candidates (str e.1)) e.2) parameters = true) as Hc by (vm_compute; reflexivity).
  rewrite forallb_forall in Hc. intros H%list_elem_of_In. exact (Hc _ H).
Qed.

(** C14: A request that the schema of the methods accepts has its parameters, and they
    have the types the handler of its method works with: for every method of the
    table, params is there and each of the named fields is there with its type. *)
Theorem validated_parameters doc name fields :
  (name, fields) ∈ parameters -> valid methods_schema doc = true -> get_method doc = str name ->
  exists params, get_params doc = Some params /\
    Forall (fun f => exists v, get f.1 params = Some v /\ accepts_type [f.2] v = true) fields.
Proof.
  intros He%parameters_checked Hv Hm. apply accepted_candidate in Hv as (s & Hin & Hv). rewrite Hm in Hin.
  exact (all_give_sound _ fields s doc He Hin Hv).
Qed.

Lemma filters_given doc :
  valid methods_schema doc = true -> get_method doc = str "fetch-history-filter" ->
  exists params l, get_params doc = Some params /\ get "filters" params = Some (JObj l).
Proof.
  intros Hv Hm. apply accepted_candidate in Hv as (s & Hin & Hv). rewrite Hm in Hin.
  assert (("fetch-history-filter", [("address", TString); ("filters", TObject)])%string ∈ parameters) as He
    by (do 4 apply list_elem_of_further; apply list_elem_of_here).
  apply parameters_checked in He. destruct (all_give_sound _ _ s doc He Hin Hv) as (params & Hp & Hf).
  exists params. apply Forall_cons in Hf as [_ [(x & Hx & Ht) _]%Forall_cons]. cbn [fst snd] in Hx, Ht.
  clear - Hp Hx Ht. destruct x; try (vm_compute in Ht; discriminate). by eexists.
Qed.

(** *** The handler of fetch-history-filter *)

Section Filter.
Context `{O : OpenSSL} `{!DigestLaws O}.
Context {parse_json : bytes -> option json} {stringify : json -> bytes} {parse_error : bytes -> Z * bytes}.
Context {resource : schema_type -> bytes} {get_error : schema -> json -> json}.

Lemma filter_prepare_defined h params l :
  get_params (m_reader h) = Some params -> get "filters" params = Some (JObj l) ->
  (filter_prepare h).2 <> Throw Undefined.
Proof.
  intros Hp Hf. unfold filter_prepare, END_TRY, need_id, need_params, gets, mbind, M_bind.
  unfold CHK_REQ at 1. destruct (negb (m_id h =? 0)); [|done]. cbv beta iota delta [mret M_ret]. rewrite Hp.
  cbv beta iota delta [need_req need_address mbind M_bind mret M_ret need CHK_PRM lift].
  destruct (get_value_str params "address") as [a|]; [|done]. cbv beta iota. rewrite Hf.
  destruct (negb (bool_decide (a = []))); [|done]. cbv beta iota.
  destruct (validate_address_spec a) as (b & -> & _). destruct b; [|done]. cbv beta iota. cbn [IsObject].
  by destruct (negb _).
Qed.

(** The resources are the two files. *)
Hypothesis resource_request : parse_json (resource type_request) = Some schema_request.
Hypothesis resource_methods : parse_json (resource type_methods) = Some schema_methods.
Abbreviation check := (checker resource parse_json get_error).

Lemma schemas_loaded t :
  get_schema (jsonrpc_schema_new resource parse_json) t =
  Some (match t with type_request => request_schema | type_methods => methods_schema end).
Proof.
  unfold jsonrpc_schema_new, load. rewrite resource_request, resource_methods.
  destruct schemas_compile as [-> ->]. by destruct t.
Qed.

Lemma checker_loaded t :
  check t = Some (fun doc => let s := match t with type_request => request_schema | type_methods => methods_schema end in
                             if valid s doc then None else Some (get_error s doc)).
Proof. unfold checker. by rewrite schemas_loaded. Qed.

Lemma END_TRY_defined {W A} (ret : A) (m : M (handler W) A) h :
  (m h).2 <> Throw Undefined -> (END_TRY ret m h).2 <> Throw Undefined.
Proof. unfold END_TRY. by destruct (m h) as [h' [a|[]]]. Qed.

Lemma get_id_defined doc : get_id doc <> Throw Undefined.
Proof.
  unfold get_id. destruct (get "id" doc) as [v|]; [|done].
  destruct v as [| |z| |t| |]; try done; [by destruct (IsInt (JInt z)), (IsUint (JInt z))|].
  unfold stoi. destruct (scan_number _) as [[neg m]|]; [|done]. by destruct (_ || _).
Qed.

(** C5: Validation keeps fetch-history-filter defined.  Its handler uses the member
    filters as an object without looking; when the methods are validated, which is
    the default, no request for this method, whatever its text, makes it use a
    value that is none. *)
Theorem validated_filter_defined w params :
  (forall doc, parse_json params = Some doc -> get_method doc = str "fetch-history-filter") ->
  (perform parse_json stringify parse_error true (check type_methods) (fetch_history_filter_handler stringify) w params).2
    <> Throw Undefined.
Proof.
  intros Hm. set (C := fetch_history_filter_handler stringify).
  assert (forall h, (prepare parse_json parse_error true (check type_methods) C params h).2 <> Throw Undefined) as Hp.
  { intros h. unfold prepare. apply END_TRY_defined. unfold modify, gets, lift, mbind, M_bind.
    cbv beta iota delta [CHK_PARSE]. destruct (parse_json params) as [doc|] eqn:Ep; [|done]. cbn [found default m_reader set_m_reader].
    cbv beta iota delta [mret M_ret]. cbn [m_reader set_m_reader]. change (id doc) with doc.
    pose proof (get_id_defined doc) as Hi.
    destruct (get_id doc) as [id|e]; [|destruct e; (discriminate || by destruct Hi)]. cbv beta iota. unfold write, modify. cbv beta iota.
    unfold prepare_checked. rewrite checker_loaded. cbv beta iota zeta delta [need_req mbind M_bind mret M_ret].
    destruct (valid methods_schema doc) eqn:Ev; [|done]. unfold prepare_rest, gets, mbind, M_bind.
    destruct (filters_given doc Ev (Hm doc eq_refl)) as (ps & l & Hps & Hf).
    set (h1 := set_m_writer _ _). pose proof (filter_prepare_defined h1 ps l Hps Hf) as Hd.
    change (prepare_params C h1) with (filter_prepare h1). clear - Hd. revert Hd. generalize (filter_prepare h1). intros q Hd.
    destruct q as [h2 [o|e]]; [|destruct e; (discriminate || by destruct Hd)].
    by destruct (_ && _). }
  unfold perform, mbind, M_bind. specialize (Hp (base_handler w)).
  destruct (prepare _ _ _ _ C params (base_handler w)) as [h1 [[t|]|e]]; [done|done|]. destruct e; (discriminate || by destruct Hp).
Qed.
End Filter.

(** *** The tables *)

Section Table.
Context `{O : OpenSSL} `{T : TorrentLib} `{I : InfoLib}.
Context {SHA256 : bytes -> bytes} {writable : bytes -> bool}.
Context {parse_json : bytes -> option json} {stringify : json -> bytes} {parse_error : bytes -> Z * bytes}.
Context {g_GIT_SHA1 g_GIT_DATE : bytes} {config : settings} {syncSingleton : option sync_db}.
Context {tx0 : TransactionInfo} {run : keygen_run} {count_blocks_result : nat -> bytes} {wallet_dir : option (list bytes)}.

Abbreviation remote := (remote_handlers SHA256 writable parse_json stringify parse_error g_GIT_SHA1 g_GIT_DATE config
  syncSingleton tx0 run count_blocks_result wallet_dir).
Abbreviation local := (local_handlers SHA256 writable parse_json stringify parse_error g_GIT_SHA1 g_GIT_DATE config
  syncSingleton tx0 run count_blocks_result wallet_dir).
Abbreviation table := (post_handlers SHA256 writable parse_json stringify parse_error g_GIT_SHA1 g_GIT_DATE config
  syncSingleton tx0 run count_blocks_result wallet_dir).

(** The schema of one request, and the methods it lists. *)
Definition request_item : schema := hd typeless (branches request_schema).
Definition method_enum : list json :=
  match demands request_item (str "method") with Some (Schema k _ _ _) => default [] (enum_ k) | None => [] end.

Lemma method_enum_names : method_enum = map (fun e => JStr (str e.1)) remote.
Proof. vm_compute. reflexivity. Qed.

(** The schemas and the tables know the same methods.  The schema of requests lists
    exactly the methods of the table for a node without a local database, and the
    schema of the methods has exactly one alternative for each of them; the table
    for a local database has all of them but fetch-history-filter. *)
Theorem schemas_know_methods :
  method_enum = map (fun e => JStr (str e.1)) remote /\
  Forall (fun n => length (candidates (str n)) = 1%nat) (map fst remote) /\
  forall n, n ∈ map fst remote -> n ∈ map fst local \/ n = "fetch-history-filter"%string.
Proof.
  split; [exact method_enum_names|]. split.
  { assert (forallb (fun n => length (candidates (str n)) =? 1)%nat (map fst remote) = true) as Hb by (vm_compute; reflexivity).
    rewrite forallb_forall in Hb. apply Forall_forall. intros n Hn%list_elem_of_In%Hb. by apply Nat.eqb_eq. }
  assert (Forall (fun n => n ∈ map fst local \/ n = "fetch-history-filter"%string) (map fst remote)) as Hf.
  { cbn [map fst remote_handlers local_handlers].
    repeat (apply Forall_cons; split; [first [by right|left; repeat (apply list_elem_of_here || apply list_elem_of_further)]|]).
    apply Forall_nil_2. }
  by rewrite Forall_forall in Hf.
Qed.

Lemma find_handler_names name (l : list (string * handler_class server)) :
  name ∈ map (fun e => str e.1) l -> find_handler name l <> None.
Proof.
  induction l as [|[n C] l IH]; cbn [map fst find_handler]; [by intros ?%not_elem_of_nil|].
  case_bool_decide as E; [done|]. intros [?|H]%elem_of_cons; [by subst|]. by apply IH.
Qed.

Lemma request_item_demands :
  exists k one props items, demands request_item (str "method") = Some (Schema k one props items) /\
    type_ k = [TString] /\ enum_ k = Some method_enum.
Proof. do 4 eexists. split; [vm_compute; reflexivity|]. split; vm_compute; reflexivity. Qed.

Lemma accepted_object ms :
  valid request_schema (JObj ms) = true -> valid request_item (JObj ms) = true.
Proof.
  intros Hv. apply branch_valid in Hv as (s & Hin & Hv); [|by vm_compute].
  assert (forallb (fun s => match s with Schema k _ _ _ => no_object k end) (List.tl (branches request_schema)) = true) as Hb
    by (vm_compute; reflexivity).
  assert (branches request_schema = request_item :: List.tl (branches request_schema)) as Hc by (vm_compute; reflexivity).
  rewrite Hc in Hin. apply elem_of_cons in Hin as [->|Hin]; [exact Hv|]. exfalso.
  rewrite forallb_forall in Hb. apply list_elem_of_In, Hb in Hin. destruct s as [k one props items].
  exact (no_object_refuses k one props items ms Hin Hv).
Qed.

Lemma accepted_method ms :
  valid request_item (JObj ms) = true ->
  exists m n, get_value_str (JObj ms) "method" = Some m /\ JStr n ∈ method_enum /\ Hasher.String m = Hasher.String n.
Proof.
  intros Hv. destruct request_item_demands as (k & one & props & items & Ed & Et & Ee).
  destruct (demanded request_item "method" _ _ Ed Hv) as (x & Hx & Hvx). clear Hv Ed.
  pose proof (validate_type _ _ _ _ _ Hvx) as Ht. rewrite Et in Ht.
  destruct x as [| | | |m| |]; try (vm_compute in Ht; discriminate).
  rewrite validate_eq in Hvx. apply andb_prop in Hvx as [[Ha _]%andb_prop _]. unfold accepts in Ha.
  apply andb_prop in Ha as [[_ Ha]%andb_prop _]. unfold accepts_enum in Ha. rewrite Ee in Ha. clear Ee Et Ht.
  apply existsb_exists in Ha as (y & Hy%list_elem_of_In & Hs).
  assert (exists n, y = JStr n) as [n ->].
  { rewrite method_enum_names in Hy. apply list_elem_of_fmap in Hy as (e & -> & _). by eexists. }
  exists m, n. unfold get_value_str. rewrite Hx. split_and!; [done|done|]. by apply Z.eqb_eq in Hs.
Qed.

(** The request for a method with nothing but what the schema insists on. *)
Definition bare_request (name : bytes) : json := obj [("jsonrpc", txt "2.0"); ("id", JInt 1); ("method", JStr name)].

(** [m] is [n] with one byte changed. *)
Definition one_byte_off (m n : bytes) : Prop := exists a c c' b, c <> c' /\ m = a ++ c :: b /\ n = a ++ c' :: b.

Lemma table_remote m :
  useLocalDatabase (system config) = false ->
  is_Some (table m) <-> m ∈ map (fun e => str e.1) remote.
Proof.
  intros Hl. unfold post_handlers. rewrite Hl. split.
  - intros [C H]. apply find_handler_in in H as (n & <- & Hn). apply list_elem_of_fmap. by exists (n, C).
  - intros H%find_handler_names. destruct (find_handler m remote) as [C|]; [by eexists|by destruct H].
Qed.

Lemma bare_requests_accepted m :
  m ∈ map (fun e => str e.1) remote -> valid request_schema (bare_request m) = true.
Proof.
  assert (forallb (fun m => valid request_schema (bare_request m)) (map (fun e => str e.1) remote) = true) as Hb
    by (vm_compute; reflexivity).
  rewrite forallb_forall in Hb. intros H%list_elem_of_In. exact (Hb m H).
Qed.

End Table.

(** *** The session *)

Lemma request_item_closed : excludes "version" request_item = true /\ insists "jsonrpc" request_item = true.
Proof. split; vm_compute; reflexivity. Qed.

(** C23: The requests of the documentation are refused.  With the default settings a
    POST of an object that has a member version, or has no member jsonrpc, as all
    the examples of README.md, is answered with the error of the validation and
    never reaches a handler. *)
Theorem documented_requests_refused parse_json stringify parse_error resource get_error keep {St : Type}
    (handlers : context -> bytes -> option (entry St)) (w : St) s req ms id :
  parse_json (resource type_request) = Some schema_request -> parse_json (resource type_methods) = Some schema_methods ->
  rq_target req = str "/" -> parse_json (rq_body req) = Some (JObj ms) -> get_id (JObj ms) = Ok id ->
  str "version" ∈ names ms \/ str "jsonrpc" ∉ names ms ->
  process_post_request keep true (checker resource parse_json get_error type_request)
    parse_json stringify parse_error handlers w s req =
  Ok (w, send_json keep s (stringify (set_error_data (set_error (set_id json_rpc_writer_new id) (-32600)
           (str "Common request json validation error")) (get_error request_schema (JObj ms)))), None).
Proof.
  intros Hr Hm Ht Hp Hi Hx. unfold process_post_request. rewrite Ht, bool_decide_eq_true_2 by done. cbn [negb]. rewrite Hp.
  rewrite (checker_loaded Hr Hm). cbv zeta.
  assert (valid request_schema (JObj ms) = false) as ->; [|by rewrite Hi].
  destruct (valid request_schema (JObj ms)) eqn:Ev; [|done]. exfalso. apply accepted_object in Ev.
  destruct request_item_closed as [Hc1 Hc2]. destruct Hx as [Hx|Hx]; apply Hx || revert Hx.
  - intros Hx. exact (excluded "version" request_item ms Hc1 Ev Hx).
  - exact (insisted "jsonrpc" request_item ms Hc2 Ev).
Qed.

(** *** Texts of hashes *)

(** The schema of a hash, as the methods use it. *)
Definition hash_digits : list (ascii * ascii) :=
  ("0", "9")%char :: map (fun c => (c, c)) (str "aAbBcCdDeEfF").
Definition hash_schema : schema :=
  match get "definitions" schema_methods with
  | Some d => match get "hash" d with Some h => default typeless (compile depth schema_methods h) | None => typeless end
  | None => typeless
  end.

Lemma hash_schema_valid s :
  valid hash_schema (JStr s) =
  match CountStringCodePoint s with Some n => (64 <=? n) && (n <=? 64) | None => true end &&
  matches [PStar hash_digits] (regex_text s).
Proof.
  assert (exists k, hash_schema = Schema k None [] None /\ type_ k = [TString] /\ enum_ k = None /\
    minLength_ k = 64 /\ maxLength_ k = 64 /\ pattern_ k = Some [PStar hash_digits]) as (k & -> & H1 & H2 & H3 & H4 & H5)
    by (eexists; split; [vm_compute; reflexivity|]; split_and!; vm_compute; reflexivity).
  rewrite validate_eq, !andb_true_r. unfold accepts, accepts_enum, accepts_text. rewrite H1, H2, H3, H4, H5.
  assert (accepts_type [TString] (JStr s) = true) as -> by (vm_compute; reflexivity). done.
Qed.

Lemma hash_methods name :
  name ∈ ["get-block-by-hash"; "get-dump-block-by-hash"; "get-tx"]%string ->
  exists s p, candidates (str name) = [s] /\ demands s (str "params") = Some p /\ demands p (str "hash") = Some hash_schema.
Proof.
  intros H. repeat (apply elem_of_cons in H as [->|H]; [do 2 eexists; split; [vm_compute; reflexivity|]; split; vm_compute; reflexivity|]).
  by apply not_elem_of_nil in H.
Qed.

(** The hash of an accepted request.  When the methods that look for a block or a
    transaction by its hash are validated, a hash without NUL and without characters
    beyond ASCII has 64 hexadecimal digits. *)
Theorem validated_hash doc name params hash :
  name ∈ ["get-block-by-hash"; "get-dump-block-by-hash"; "get-tx"]%string ->
  valid methods_schema doc = true -> get_method doc = str name -> get_params doc = Some params ->
  get "hash" params = Some (JStr hash) -> plain hash ->
  zlen hash = 64 /\ Forall (fun c => in_class hash_digits c = true) hash.
Proof.
  intros Hn Hv Hm Hp Hh Hpl. apply accepted_candidate in Hv as (s & Hin & Hv). rewrite Hm in Hin.
  destruct (hash_methods name Hn) as (s' & p & Ec & Ed & Eh). rewrite Ec in Hin. apply list_elem_of_singleton in Hin as ->.
  clear Ec. destruct (demanded s' "params" p doc Ed Hv) as (params' & Hp' & Hvp). unfold get_params in Hp.
  rewrite Hp in Hp'. apply (inj Some) in Hp' as <-.
  destruct (demanded p "hash" _ params Eh Hvp) as (x & Hx & Hvx). rewrite Hh in Hx. apply (inj Some) in Hx as <-.
  clear - Hvx Hpl. rewrite hash_schema_valid, regex_text_plain in Hvx by exact Hpl.
  rewrite count_ascii in Hvx.
  - apply andb_prop in Hvx as [[H1 H2]%andb_prop H3]. zbool. split; [lia|]. by apply matches_star.
  - eapply Forall_impl; [exact Hpl|]. intros c Hc. by apply plain_ascii.
Qed.

(** A NUL ends the check of a text: every text of 64 ASCII characters that begins
    with NUL passes for a hash. *)
Theorem nul_hides_text s :
  Forall (fun c => in_range 0 127 c = true) s -> length s = 63%nat ->
  valid hash_schema (JStr (Ascii.ascii_of_nat 0 :: s)) = true.
Proof.
  intros Hs Hl. rewrite hash_schema_valid, count_ascii by (by constructor). rewrite zlen_cons. unfold zlen. rewrite Hl. done.
Qed.
End Theorems.

(** ** Witnesses *)

Module Sample.
Import Crypto.Toy BlockHandlers.Sample.

Definition block_request : json :=
  obj [("jsonrpc", txt "2.0"); ("id", JInt 1); ("method", txt "get-block-by-number"); ("params", obj [("number", JInt 5)])].

Lemma validated_parameters_witness :
  exists params, get_params block_request = Some params /\
    Forall (fun f => exists v, get f.1 params = Some v /\ accepts_type [f.2] v = true) [("number"%string, TInteger)].
Proof.
  apply (validated_parameters block_request "get-block-by-number").
  - do 9 apply list_elem_of_further. apply list_elem_of_here.
  - vm_compute. reflexivity.
  - reflexivity.
Defined.

(** The filters are a text, the id is fine. *)
Definition bad_filter : json :=
  obj [("jsonrpc", txt "2.0"); ("id", JInt 1); ("method", txt "fetch-history-filter");
       ("params", obj [("address", txt "0x00"); ("filters", txt "all")])].
Definition readme : json := obj [("id", JInt 1); ("version", txt "2.0"); ("method", txt "get-count-blocks")].
Definition resource (t : schema_type) : bytes := match t with type_request => str "R" | type_methods => str "M" end.
Definition parse (s : bytes) : option json :=
  if bool_decide (s = str "R") then Some schema_request
  else if bool_decide (s = str "M") then Some schema_methods
  else if bool_decide (s = str "filter") then Some bad_filter
  else if bool_decide (s = str "readme") then Some readme
  else None.
Definition print (d : json) : bytes := if is_error d then str "error" else str "fine".
Definition no_error (_ : schema) (_ : json) : json := JNull.

Lemma validated_filter_defined_witness :
  (perform parse print (fun _ => (0, [])) true (checker resource parse no_error type_methods)
     (fetch_history_filter_handler print) blocks_cache_new (str "filter")).2 <> Throw Undefined.
Proof.
  apply (validated_filter_defined).
  - reflexivity.
  - reflexivity.
  - intros doc [= <-]. reflexivity.
Defined.

Definition count_request : list (bytes * json) :=
  [(str "jsonrpc", txt "2.0"); (str "id", JInt 1); (str "method", txt "get-count-blocks")].


Definition post (body : bytes) : request :=
  {| rq_version := 11; rq_verb := Post; rq_target := str "/"; rq_body := body; rq_connection := None;
     rq_auth_key := None; rq_keep_alive := true |}.

Lemma documented_requests_refused_witness :
  process_post_request true true (checker resource parse no_error type_request) parse print (fun _ => (0, []))
    (fun _ _ => None : option (entry Z)) 0 session_new (post (str "readme")) =
  Ok (0, send_json true session_new (str "error"), None).
Proof.
  rewrite (documented_requests_refused parse print (fun _ => (0, [])) resource no_error true
    (fun _ _ => None : option (entry Z)) 0 session_new (post (str "readme")) (members_of readme) 1).
  - vm_compute. reflexivity.
  - reflexivity.
  - reflexivity.
  - reflexivity.
  - reflexivity.
  - reflexivity.
  - left. right. left.
Defined.

Definition tx_request : json :=
  obj [("jsonrpc", txt "2.0"); ("id", JInt 1); ("method", txt "get-tx");
       ("params", obj [("hash", JStr (replicate 64 "a"%char))])].

Lemma validated_hash_witness :
  zlen (replicate 64 "a"%char) = 64 /\ Forall (fun c => in_class hash_digits c = true) (replicate 64 "a"%char).
Proof.
  apply (validated_hash tx_request "get-tx" (obj [("hash", JStr (replicate 64 "a"%char))])).
  - do 2 apply list_elem_of_further. apply list_elem_of_here.
  - vm_compute. reflexivity.
  - reflexivity.
  - reflexivity.
  - reflexivity.
  - repeat constructor.
Defined.

(** An id that passes, but is no number the server can use. *)
Lemma long_id_accepted :
  let doc := obj [("jsonrpc", txt "2.0"); ("id", txt "99999999999"); ("method", txt "get-count-blocks")] in
  validate request_schema doc = true /\ get_id doc = Throw OutOfRange.
Proof. split; vm_compute; reflexivity. Qed.

(** An id at the limit that the schema means to exclude, and one beyond it. *)
Lemma maximum_ignored :
  validate request_schema (obj [("jsonrpc", txt "2.0"); ("id", JInt 9223372036854775807); ("method", txt "status")]) = true /\
  validate request_schema (obj [("jsonrpc", txt "2.0"); ("id", JInt 18446744073709551615); ("method", txt "status")]) = true.
Proof. split; vm_compute; reflexivity. Qed.

(** The parameters of create-tx as README.md documents them. *)
Definition documented_create : json :=
  let a := txt "0x00fa2a5279f8f0fd2f0f9d3280ad70403f01f9d62f52373833" in
  obj [("jsonrpc", txt "2.0"); ("id", JInt 1); ("method", txt "create-tx");
       ("params", obj [("address", a); ("password", txt "p"); ("to", a); ("value", txt "all"); ("nonce", txt "1")])].

(** The password and the value all that README.md documents are refused. *)
Lemma documented_create_refused :
  validate methods_schema documented_create = false /\
  validate methods_schema (obj [("method", txt "create-tx");
    ("params", obj [("address", txt "0x00fa2a5279f8f0fd2f0f9d3280ad70403f01f9d62f52373833");
                    ("to", txt "0x00fa2a5279f8f0fd2f0f9d3280ad70403f01f9d62f52373833");
                    ("value", txt "all"); ("nonce", txt "1")])]) = false /\
  validate methods_schema (obj [("method", txt "create-tx");
    ("params", obj [("address", txt "0x00fa2a5279f8f0fd2f0f9d3280ad70403f01f9d62f52373833");
                    ("to", txt "0x00fa2a5279f8f0fd2f0f9d3280ad70403f01f9d62f52373833");
                    ("value", txt "7"); ("nonce", txt "1")])]) = true.
Proof. split_and!; vm_compute; reflexivity. Qed.
End Sample.
