(* ===== verification/Lookup.v ===== *)
(** The choice of the nodes that are asked: [get_ip_addresses] and
    [lookup_best_ip] of src/nslookup.cpp, and the first choice in src/main.cpp.

    The answers of the name server, of a request to a node and of its
    get-count-blocks are arguments, as are inet_pton and the time a request took.
    std::sort is not stable, so the sorted list is an argument too: any function
    that sorts by the time will do. *)

From Stdlib Require Import String Sorted.
From S2P Require Import Prelude Text Json ParseAddress.
Open Scope Z_scope.

Record NsResult := { server : bytes; timeout : Z; blocks_count : Z }.

Definition NsResult_new (s : bytes) (t : Z) : NsResult := {| server := s; timeout := t; blocks_count := 0 |}.
Definition with_blocks (i : NsResult) (n : Z) : NsResult :=
  {| server := server i; timeout := timeout i; blocks_count := n |}.

(** The variables of lookup_best_ip that outlive a round, and the two settings. *)
Record lookup := { tor : bytes; proxy : bytes; set_tor : bytes; set_proxy : bytes }.

Section Lookup.
Variable validateIpAddress : bytes -> bool.
(** nsLookup: the records, or the exception it throws. *)
Variable nsLookup : bytes -> res (list bytes).
(** How long a request took, [None] when it threw. *)
Variable probe : bytes -> option Z.
Variable sort : list NsResult -> list NsResult.
(** The body of the response to get-count-blocks; [None] for a null response. *)
Variable ask : bytes -> option bytes.
Variable parse_json : bytes -> option json.

(** The scheme with its slashes, and the rest. *)
Definition split_scheme (address : bytes) : bytes * bytes :=
  match find_sub (str "://") address with
  | Some pos => (take (pos + 3) address, drop (pos + 3) address)
  | None => ([], address)
  end.

(** The host and the port, 0 when there is none. *)
Definition split_host_port (rest : bytes) : res (bytes * Z) :=
  match find_char ":"%char rest with
  | Some pos => port ← stoi (drop (S pos) rest); Ok (take pos rest, port)
  | None => Ok (rest, 0)
  end.

Definition port_text (port : Z) : bytes := if port =? 0 then [] else str ":" ++ print_int port.

Definition get_ip_addresses (address : bytes) : res (list NsResult) :=
  let '(scheme, rest) := split_scheme address in
  hp ← split_host_port rest;
  let '(host, port) := (hp : bytes * Z) in
  if validateIpAddress host then Ok [NsResult_new (scheme ++ host ++ port_text port) 0]
  else
    records ← nsLookup host;
    Ok (sort (map (fun r => let serv := scheme ++ r ++ port_text port in
                            NsResult_new serv (default 999000 (probe serv))) records)).

(** reader.get_value of an [unsigned int]. *)
Definition get_value_uint (root : json) (name : string) : option Z :=
  match get name root with
  | Some (JInt z) => if IsUint (JInt z) then Some z else None
  | _ => None
  end.

(** What the answer of a node says about its blocks, [None] when it is skipped. *)
Definition count_answer (body : option bytes) : option Z :=
  match body with
  | None | Some [] => None
  | Some b =>
      match parse_json b with
      | None => None
      | Some doc =>
          match get_result doc with
          | None => None
          | Some r => get_value_uint r "count_blocks"
          end
      end
  end.

(** The loop over the torrent nodes: the nodes with their numbers of blocks, and
    the largest number. *)
Fixpoint ask_nodes (l : list NsResult) (max_blocks : Z) : list NsResult * Z :=
  match l with
  | [] => ([], max_blocks)
  | i :: l' =>
      if 2000 <=? timeout i then let (r, m) := ask_nodes l' max_blocks in (i :: r, m)
      else
        match count_answer (ask (server i)) with
        | None => let (r, m) := ask_nodes l' max_blocks in (i :: r, m)
        | Some n => let (r, m) := ask_nodes l' (Z.max max_blocks n) in (with_blocks i n :: r, m)
        end
  end.

(** The first node that has more blocks than [bound]. *)
Fixpoint first_above (bound : Z) (l : list NsResult) : option NsResult :=
  match l with
  | [] => None
  | i :: l' => if bound <? blocks_count i then Some i else first_above bound l'
  end.

Definition best_node (l : list NsResult) : option NsResult :=
  let (nodes, max_blocks) := ask_nodes l 0 in
  first_above (if 9 <? max_blocks then max_blocks - 10 else max_blocks) nodes.

Definition update_tor (l : list NsResult) (s : lookup) : lookup :=
  match l, best_node l with
  | [], _ | _, None => s
  | _, Some it =>
      if bool_decide (tor s = server it) then s
      else {| tor := server it; proxy := proxy s; set_tor := server it; set_proxy := set_proxy s |}
  end.

Definition update_proxy (l : list NsResult) (s : lookup) : lookup :=
  match l with
  | [] => s
  | i :: _ =>
      if bool_decide (proxy s = server i) then s
      else {| tor := tor s; proxy := server i; set_tor := set_tor s; set_proxy := server i |}
  end.

(** A round of the loop: the variables after it, and whether the loop goes on;
    an exception that is no common::exception ends the thread. *)
Definition round (torName proxyName : bytes) (s : lookup) : lookup * bool :=
  match get_ip_addresses torName with
  | Throw (CommonException _) => (s, true)
  | Throw _ => (s, false)
  | Ok tors =>
      let s := update_tor tors s in
      match get_ip_addresses proxyName with
      | Throw (CommonException _) => (s, true)
      | Throw _ => (s, false)
      | Ok prxs => (update_proxy prxs s, true)
      end
  end.

(** The start of the process: the first address of each name is set; [false] when
    main returns because there is none. *)
Definition main_nodes (torName proxyName : bytes) (s : lookup) : res (lookup * bool) :=
  tors ← get_ip_addresses torName;
  match (tors : list NsResult) with
  | [] => Ok (s, false)
  | i :: _ =>
      let s := {| tor := tor s; proxy := proxy s; set_tor := server i; set_proxy := set_proxy s |} in
      prxs ← get_ip_addresses proxyName;
      match (prxs : list NsResult) with
      | [] => Ok (s, false)
      | j :: _ => Ok ({| tor := tor s; proxy := proxy s; set_tor := set_tor s; set_proxy := server j |}, true)
      end
  end.

(** The thread of the lookup begins with the settings. *)
Definition lookup_start (s : lookup) : lookup :=
  {| tor := set_tor s; proxy := set_proxy s; set_tor := set_tor s; set_proxy := set_proxy s |}.
End Lookup.

(** ** Lemmas *)

Definition faster (i j : NsResult) : Prop := timeout i <= timeout j.

Section Facts.
Context {validateIpAddress : bytes -> bool} {nsLookup : bytes -> res (list bytes)} {probe : bytes -> option Z}.
Context {sort : list NsResult -> list NsResult} {ask : bytes -> option bytes} {parse_json : bytes -> option json}.
Hypothesis sort_permutation : forall l, sort l ≡ₚ l.
Hypothesis sort_sorted : forall l, StronglySorted faster (sort l).

Abbreviation addresses := (get_ip_addresses validateIpAddress nsLookup probe sort).
Abbreviation asked := (ask_nodes ask parse_json).

Lemma addresses_sorted a l :
  addresses a = Ok l -> StronglySorted faster l /\ Forall (fun i => blocks_count i = 0) l.
Proof.
  unfold get_ip_addresses. destruct (split_scheme a) as [scheme rest].
  intros ([host port] & _ & H)%bind_Ok. destruct (validateIpAddress host).
  - apply Ok_inj in H as <-. by repeat constructor.
  - apply bind_Ok in H as (records & _ & H). apply Ok_inj in H as <-. split; [apply sort_sorted|].
    rewrite sort_permutation. apply Forall_forall. intros i (r & -> & _)%list_elem_of_fmap. done.
Qed.

(** The loop leaves the order, and knows the largest number. *)
Lemma ask_nodes_spec l m nodes max :
  asked l m = (nodes, max) -> Forall (fun i => blocks_count i = 0) l -> 0 <= m ->
  map server nodes = map server l /\ map timeout nodes = map timeout l /\
  m <= max /\ Forall (fun i => blocks_count i <= max) nodes /\
  (max = m \/ exists i, i ∈ nodes /\ blocks_count i = max).
Proof.
  intros E Hl. revert m nodes max E. induction Hl as [|i l Hi Hl IH]; intros m nodes max E Hm; cbn [ask_nodes] in E.
  - injection E as <- <-. split_and!; try done. by left.
  - assert (forall x m', (let (r, m) := asked l m' in (x :: r, m)) = (nodes, max) -> 0 <= m' -> m <= m' ->
      (m' = m \/ blocks_count x = m') -> server x = server i -> timeout x = timeout i -> blocks_count x <= m' ->
      map server nodes = map server (i :: l) /\ map timeout nodes = map timeout (i :: l) /\
      m <= max /\ Forall (fun i => blocks_count i <= max) nodes /\
      (max = m \/ exists i, i ∈ nodes /\ blocks_count i = max)) as K.
    { intros x m' E' Hm' Hle Hx Hs Ht Hb. destruct (asked l m') as [r mx] eqn:Er. injection E' as <- <-.
      destruct (IH m' r mx Er Hm') as (H1 & H2 & H3 & H4 & H5). cbn [map].
      split_and!; [congruence|congruence|lia|constructor; [lia|done]|].
      destruct H5 as [->|(j & Hj & Hn)]; [|right; exists j; split; [by constructor|done]].
      destruct Hx as [->|Hx]; [by left|]. right. exists x. split; [by constructor|done]. }
    destruct (2000 <=? timeout i); [apply (K i m E); auto; lia|].
    destruct (count_answer _ _) as [n|]; [|apply (K i m E); auto; lia].
    apply (K (with_blocks i n) (Z.max m n) E); try done; cbn; try lia.
Qed.

Lemma first_above_Some b l i :
  first_above b l = Some i -> exists pre post, l = pre ++ i :: post /\ b < blocks_count i /\
    Forall (fun j => blocks_count j <= b) pre.
Proof.
  induction l as [|x l IH]; cbn; [done|]. destruct (b <? blocks_count x) eqn:E; zbool.
  - intros [= ->]. by exists [], l.
  - intros (pre & post & -> & Hb & Hp)%IH. exists (x :: pre), post. split_and!; [done|done|by constructor].
Qed.

Lemma first_above_None b l : first_above b l = None <-> Forall (fun j => blocks_count j <= b) l.
Proof.
  induction l as [|x l IH]; cbn; [done|]. rewrite Forall_cons. destruct (b <? blocks_count x) eqn:E; zbool.
  - split; [done|]. lia.
  - rewrite IH. split; [|by intros [_ ?]]. intros H. split; [lia|done].
Qed.

Lemma sorted_times l k : map timeout l = map timeout k -> StronglySorted faster l -> StronglySorted faster k.
Proof.
  intros E H. revert k E. induction H as [|i l H IH Hi]; intros [|j k] E; try done; [constructor|].
  injection E as Eij E. constructor; [by apply IH|]. apply Forall_forall. intros x Hx.
  assert (timeout x ∈ map timeout l) as (y & Hy & Hin)%list_elem_of_fmap by (rewrite E; by apply list_elem_of_fmap_2).
  rewrite Forall_forall in Hi. specialize (Hi y Hin). unfold faster in *. lia.
Qed.

Lemma sorted_head_fastest pre i post j :
  StronglySorted faster (pre ++ i :: post) -> j ∈ pre ++ i :: post -> (j ∉ pre) -> timeout i <= timeout j.
Proof.
  intros Hs Hj Hn. apply elem_of_app in Hj as [Hj|Hj]; [done|]. apply elem_of_cons in Hj as [->|Hj]; [lia|].
  induction pre as [|x pre IH]; cbn in Hs.
  - inversion Hs as [|? ? _ Hf]; subst. rewrite Forall_forall in Hf. by apply Hf.
  - inversion Hs; subst. apply IH; [done|]. by intros ?; apply Hn; constructor.
Qed.

Lemma sorted_head i l : StronglySorted faster (i :: l) -> Forall (faster i) (i :: l).
Proof. intros H. inversion H; subst. constructor; [unfold faster; lia|done]. Qed.

(** ** Theorems *)

(** [i] is the fastest of the nodes that are less than ten blocks behind. *)
Definition best (nodes : list NsResult) (max : Z) (i : NsResult) : Prop :=
  i ∈ nodes /\ max - 10 < blocks_count i /\
  forall j, j ∈ nodes -> max - 10 < blocks_count j -> timeout i <= timeout j.

Lemma best_node_spec l :
  StronglySorted faster l -> Forall (fun i => blocks_count i = 0) l ->
  let '(nodes, max) := asked l 0 in
  if 9 <? max then exists i, best_node ask parse_json l = Some i /\ best nodes max i
  else best_node ask parse_json l = None.
Proof.
  intros Hs Hz. unfold best_node. destruct (asked l 0) as [nodes max] eqn:E.
  destruct (ask_nodes_spec l 0 nodes max E Hz ltac:(lia)) as (_ & Ht & H0 & Hm & Hx).
  destruct (9 <? max) eqn:E9; zbool; [|by apply first_above_None].
  destruct (first_above (max - 10) nodes) as [i|] eqn:Ef.
  - exists i. split; [done|]. apply first_above_Some in Ef as (pre & post & -> & Hb & Hp).
    split; [apply elem_of_app; right; constructor|]. split; [done|]. intros j Hj Hjb.
    apply (sorted_head_fastest pre i post j); [by apply (sorted_times l)|done|].
    intros Hpre. rewrite Forall_forall in Hp. specialize (Hp j Hpre). cbv beta in Hp. lia.
  - exfalso. apply first_above_None in Ef. destruct Hx as [Hx|(i & Hi & Hn)]; [lia|].
    rewrite Forall_forall in Ef. specialize (Ef i Hi). cbv beta in Ef. lia.
Qed.

(** C30: the nodes that a round of the lookup leaves in the settings.  When the names
    could be resolved and some torrent node that answers in time has ten blocks or
    more, the new torrent node is the fastest of those that are less than ten
    blocks behind the longest chain; on a chain of at most nine blocks the old one
    is kept.  The new proxy is the fastest one. *)
Theorem lookup_picks_fastest torName proxyName s tors prxs :
  tor s = set_tor s -> proxy s = set_proxy s ->
  addresses torName = Ok tors -> addresses proxyName = Ok prxs ->
  let '(s', go_on) := round validateIpAddress nsLookup probe sort ask parse_json torName proxyName s in
  go_on = true /\ tor s' = set_tor s' /\ proxy s' = set_proxy s' /\
  (let '(nodes, max) := asked tors 0 in
   if 9 <? max then exists i, set_tor s' = server i /\ best nodes max i else set_tor s' = set_tor s) /\
  match prxs with
  | [] => set_proxy s' = set_proxy s
  | _ => exists i, i ∈ prxs /\ set_proxy s' = server i /\ Forall (faster i) prxs
  end.
Proof.
  intros Ht Hp Ea Eb. unfold round. rewrite Ea, Eb. split; [done|].
  destruct (addresses_sorted torName tors Ea) as [Hs Hz]. pose proof (best_node_spec tors Hs Hz) as Hb.
  destruct (addresses_sorted proxyName prxs Eb) as [Hs' _].
  set (s1 := update_tor ask parse_json tors s).
  assert (tor s1 = set_tor s1 /\ proxy s1 = proxy s /\ set_proxy s1 = set_proxy s /\
    let '(nodes, max) := asked tors 0 in
    if 9 <? max then exists i, set_tor s1 = server i /\ best nodes max i else set_tor s1 = set_tor s) as (T1 & T2 & T3 & T4).
  { unfold s1, update_tor. destruct tors as [|i0 tors]; [done|]. destruct (asked (i0 :: tors) 0) as [nodes max].
    destruct (9 <? max).
    - destruct Hb as (i & -> & Hbest). case_bool_decide as E; (split_and!; [done|done|done|]); exists i;
        (split; [cbn; congruence|done]).
    - rewrite Hb. done. }
  destruct prxs as [|i prxs]; cbn [update_proxy]; [split_and!; (done || congruence)|].
  pose proof (sorted_head i prxs Hs') as Hf.
  case_bool_decide as E; cbn; (split_and!; [congruence|congruence|exact T4|]); exists i;
    (split; [constructor|]); (split; [congruence|exact Hf]).
Qed.

(** The process starts with the fastest nodes: when main goes on, each of the two
    settings is the fastest address of its name, and the lookup finds them. *)
Theorem started_with_fastest torName proxyName s s' :
  main_nodes validateIpAddress nsLookup probe sort torName proxyName s = Ok (s', true) ->
  exists tors prxs i j, addresses torName = Ok tors /\ addresses proxyName = Ok prxs /\
    i ∈ tors /\ Forall (faster i) tors /\ j ∈ prxs /\ Forall (faster j) prxs /\
    lookup_start s' = {| tor := server i; proxy := server j; set_tor := server i; set_proxy := server j |}.
Proof.
  unfold main_nodes. intros ([|i tors] & Ea & H)%bind_Ok; [by apply Ok_inj in H|].
  apply bind_Ok in H as ([|j prxs] & Eb & H); apply Ok_inj in H as [= <-].
  exists (i :: tors), (j :: prxs), i, j.
  split_and!; [done|done|by constructor|apply sorted_head; by eapply addresses_sorted|
               by constructor|apply sorted_head; by eapply addresses_sorted|done].
Qed.

(** A name whose port is no number ends the lookup for good: std::stoi throws what
    the loop does not catch. *)
Theorem bad_port_ends_lookup torName proxyName s scheme rest pos :
  split_scheme torName = (scheme, rest) -> find_char ":"%char rest = Some pos ->
  scan_number (drop (S pos) rest) = None ->
  round validateIpAddress nsLookup probe sort ask parse_json torName proxyName s = (s, false).
Proof.
  intros Es Ef En. unfold round, get_ip_addresses, split_host_port. rewrite Es, Ef. unfold stoi. by rewrite En.
Qed.
End Facts.

(** ** Witnesses *)

Module Sample.
(** Insertion by time. *)
Fixpoint insert (i : NsResult) (l : list NsResult) : list NsResult :=
  match l with
  | [] => [i]
  | j :: l' => if timeout i <=? timeout j then i :: l else j :: insert i l'
  end.
Definition sort (l : list NsResult) : list NsResult := foldr insert [] l.

Lemma insert_permutation i l : insert i l ≡ₚ i :: l.
Proof.
  induction l as [|j l IH]; cbn; [done|]. destruct (_ <=? _); [done|]. rewrite IH. constructor.
Qed.

Lemma sort_permutation l : sort l ≡ₚ l.
Proof. induction l as [|i l IH]; cbn; [done|]. rewrite insert_permutation. by constructor. Qed.

Lemma insert_sorted i l : StronglySorted faster l -> StronglySorted faster (insert i l).
Proof.
  induction 1 as [|j l Hl IH Hj]; cbn; [by repeat constructor|]. destruct (timeout i <=? timeout j) eqn:E; zbool.
  - constructor; [by constructor|]. constructor; [exact E|]. eapply Forall_impl; [exact Hj|]. unfold faster. intros x. lia.
  - constructor; [done|]. rewrite insert_permutation. constructor; [unfold faster; lia|done].
Qed.

Lemma sort_sorted l : StronglySorted faster (sort l).
Proof. induction l as [|i l IH]; cbn; [constructor|]. by apply insert_sorted. Qed.

(** Three nodes: the fastest is far behind, the second is up to date. *)
Definition records (host : bytes) : res (list bytes) := Ok [str "c"; str "a"; str "b"].
Definition probe (s : bytes) : option Z :=
  if bool_decide (s = str "http://a:5795") then Some 10 else if bool_decide (s = str "http://b:5795") then Some 20 else None.
Definition ask (s : bytes) : option bytes := Some s.
Definition parse (s : bytes) : option json :=
  Some (JObj [(str "result", JObj [(str "count_blocks", JInt (if bool_decide (s = str "http://a:5795") then 5 else 100))])]).
Definition name : bytes := str "http://node:5795".
Definition s0 : lookup := {| tor := []; proxy := []; set_tor := []; set_proxy := [] |}.

Lemma lookup_picks_fastest_witness :
  exists tors prxs, get_ip_addresses (fun _ => false) records probe sort name = Ok tors /\
    get_ip_addresses (fun _ => false) records probe sort name = Ok prxs /\
    let '(s', go_on) := round (fun _ => false) records probe sort ask parse name name s0 in
    go_on = true /\ (exists i, i ∈ prxs /\ set_proxy s' = server i /\ Forall (faster i) prxs) /\
    set_tor s' = str "http://b:5795".
Proof.
  eexists _, _. split; [vm_compute; reflexivity|]. split; [vm_compute; reflexivity|].
  pose proof (lookup_picks_fastest (validateIpAddress := fun _ => false) (nsLookup := records) (probe := probe)
    (sort := sort) (ask := ask) (parse_json := parse) sort_permutation sort_sorted name name s0 _ _ eq_refl eq_refl
    eq_refl eq_refl) as K.
  destruct (round (fun _ => false) records probe sort ask parse name name s0) as [s' go_on] eqn:E.
  destruct K as (H1 & _ & _ & _ & H5). vm_compute in E. injection E as <- <-. split; [exact H1|]. split; [exact H5|].
  reflexivity.
Defined.
End Sample.
