(* ===== verification/LookupCalls.v ===== *)
(** The lookup's questions to the nodes: the loop of lookup_best_ip in
    src/nslookup.cpp over the calls it makes.

    Lookup.v takes the answers of the nodes as a function.  The code asks all of
    them on one object of [http_json_rpc_request], which is allowed one attempt;
    here the loop runs on that object as SyncCall.v models it. *)

From Stdlib Require Import String.
From S2P Require Import Prelude Text Json ConnectionPool ParseAddress HttpRequest RequestLife SyncCall Lookup.
Open Scope Z_scope.

Section Questions.
Variable parse_json : bytes -> option json.
Variable stringify : json -> bytes.
Variable conn_pool_ttl : Z.

(** The object: make_shared, set_path and set_body before the loop. *)
Definition lookup_request (js : jrpc_settings) (p : pool) (ev : env) : request :=
  set_body parse_json conn_pool_ttl count_body ev
    (set_path (str "get-count-blocks")
      (http_json_rpc_request_new [] true 3000 2000 1 (s_timeout js) (s_conn_timeout js) (s_attempts js) p)).

(** set_host, reset_attempts and execute for one node. *)
Definition ask_call (i : NsResult) (n : network) : call :=
  {| c_prepare := SetHost (server i); c_env := n_env n; c_pool := n_pool n; c_events := n_events n |}.

(** [for (auto& i: tors)]; [None] when a call does not return. *)
Fixpoint ask_over (l : list NsResult) (ns : list network) (req : request) (max_blocks : Z)
  : option (list NsResult * Z * request) :=
  match l with
  | [] => Some ([], max_blocks, req)
  | i :: l' =>
      if 2000 <=? timeout i then
        match ask_over l' ns req max_blocks with
        | Some (r, m, req) => Some (i :: r, m, req)
        | None => None
        end
      else
        match ns with
        | [] => None
        | n :: ns =>
            match sync_call parse_json stringify conn_pool_ttl (ask_call i n) req with
            | None => None
            | Some req =>
                match count_answer parse_json (option_map rsp_body (get_response req)) with
                | None =>
                    match ask_over l' ns req max_blocks with
                    | Some (r, m, req) => Some (i :: r, m, req)
                    | None => None
                    end
                | Some k =>
                    match ask_over l' ns req (Z.max max_blocks k) with
                    | Some (r, m, req) => Some (with_blocks i k :: r, m, req)
                    | None => None
                    end
                end
            end
        end
  end.
End Questions.

(** ** Lemmas *)

Section Facts.
Context {parse_json : bytes -> option json} {stringify : json -> bytes} {conn_pool_ttl : Z}.
Abbreviation ask_over := (ask_over parse_json stringify conn_pool_ttl).
Abbreviation sync_call := (sync_call parse_json stringify conn_pool_ttl).

(** The nodes that are asked. *)
Definition quick (l : list NsResult) : list NsResult := filter (fun i => timeout i < 2000) l.

(** What the node's own call says of it. *)
Definition heard (i : NsResult) (r : response) : NsResult :=
  match count_answer parse_json (Some (rsp_body r)) with Some k => with_blocks i k | None => i end.

(** The call ended with an error. *)
Definition broken (l : list (env * event)) : Prop :=
  exists l' ev i err eps r, l = l' ++ [(ev, Completed i (Some err) eps r)].

(** A node that answered has what it answered; one whose call failed has what an
    event of its own call brought, or nothing. *)
Inductive told : list NsResult -> list network -> list NsResult -> Prop :=
| told_nil ns : told [] ns []
| told_slow i l ns out : 2000 <= timeout i -> told l ns out -> told (i :: l) ns (i :: out)
| told_answered i l n ns r out :
    timeout i < 2000 -> answered (n_events n) r -> told l ns out -> told (i :: l) (n :: ns) (heard i r :: out)
| told_failed i l n ns r out :
    timeout i < 2000 -> broken (n_events n) -> (r = response_new \/ exists x, x ∈ n_events n /\ r ∈ brought x.2) ->
    told l ns out -> told (i :: l) (n :: ns) (heard i r :: out).

Lemma one_range : 0 <= 1 <= UINT32_MAX.
Proof. done. Qed.

Lemma lookup_request_rested js p ev : rested (N := 1) (lookup_request parse_json conn_pool_ttl js p ev).
Proof. apply set_body_rested. by split_and!; try exists false. Qed.

Lemma ask_over_told (E : nat) l ns req m nodes mx req' :
  rested (N := 1) req -> Forall (fun n => call_ok E (count_call n) /\ ended_by_handler (count_call n)) ns ->
  ask_over l ns req m = Some (nodes, mx, req') -> told l ns nodes.
Proof.
  revert ns req m nodes mx req'. induction l as [|i l IH]; intros ns req m nodes mx req' Hs Hns; cbn [LookupCalls.ask_over].
  { intros [= <- _ _]. constructor. }
  destruct (2000 <=? timeout i) eqn:Et; zbool.
  { destruct (LookupCalls.ask_over _ _ _ l ns req m) as [[[r k] q]|] eqn:Er; [|done]. intros [= <- _ _].
    apply told_slow; [lia|]. by eapply IH. }
  destruct ns as [|n ns]; [done|]. apply Forall_cons in Hns as [[[Hwf Hev] He] Hns].
  destruct (SyncCall.sync_call _ _ _ (ask_call i n) req) as [s1|] eqn:Ec; [|done].
  destruct (call_returned (N := 1) (E := E) one_range (ask_call i n) req s1 Hs Hwf Hev Ec) as (_ & Hr & Hrest).
  specialize (Hrest He).
  assert (exists r, get_response s1 = Some r /\
    (answered (n_events n) r \/ broken (n_events n) /\ (r = response_new \/ exists x, x ∈ n_events n /\ r ∈ brought x.2)))
    as (r & Er & Hin).
  { destruct He as (l0 & ev & j & [err|] & eps & r & El).
    - apply response_from_events in Hr as (r' & Er & Hin). exists r'. split; [done|]. right. split; [|done]. by exists l0, ev, j, err, eps, r.
    - exists r. assert (answered (n_events n) r) as Ha by by exists l0, ev, j, eps. split; [|by left].
      by apply (call_answered (N := 1) (E := E) one_range (ask_call i n) req s1 r Hs Hwf Hev Ha Ec). }
  rewrite Er. cbn [option_map].
  assert (forall m', match LookupCalls.ask_over parse_json stringify conn_pool_ttl l ns s1 m' with
                     | Some (out, k, q) => Some (heard i r :: out, k, q) | None => None end = Some (nodes, mx, req') ->
    told (i :: l) (n :: ns) nodes) as K.
  { intros m' Hm. destruct (LookupCalls.ask_over _ _ _ l ns s1 m') as [[[out k] q]|] eqn:Eo; [|done].
    injection Hm as <- _ _. destruct Hin as [Ha|[Hb Hin]]; [apply told_answered|apply told_failed]; try done; by eapply IH. }
  unfold heard in K. destruct (count_answer parse_json (Some (rsp_body r))); apply K.
Qed.

(** ** Theorems *)

(** C12: The nodes do not answer for one another.  All nodes are asked on one object.
    When every call returns and none is ended by its timer, the loop of the lookup
    leaves a node whose call ended with a response with the number of blocks in that
    very response, or as it was when the response holds none; a node whose call ended
    with an error as it was, unless events of that same call had brought a response
    with a number; and a node that is too slow to be asked as it was. *)
Theorem lookup_keeps_nodes_apart (E : nat) js p ev l ns nodes mx req' :
  Forall (fun n => call_ok E (count_call n) /\ ended_by_handler (count_call n)) ns ->
  ask_over l ns (lookup_request parse_json conn_pool_ttl js p ev) 0 = Some (nodes, mx, req') ->
  told l ns nodes.
Proof. intros Hns. apply ask_over_told with (E := E); [apply lookup_request_rested|done]. Qed.

(** The loop of Lookup.v is this one: with a function that answers for each node
    as its call did, the two have the same result. *)
Theorem ask_over_ask_nodes ask l ns req rs req' m :
  length ns = length (quick l) ->
  calls parse_json stringify conn_pool_ttl (zip_with ask_call (quick l) ns) req = Some (rs, req') ->
  Forall2 (fun i r => ask (server i) = option_map rsp_body r) (quick l) rs ->
  ask_over l ns req m = Some (ask_nodes ask parse_json l m, req').
Proof.
  revert ns req rs m. induction l as [|i l IH]; intros ns req rs m Hlen Hc Hf; cbn [LookupCalls.ask_over ask_nodes].
  { cbn in Hlen. destruct ns; [|done]. cbn in Hc. by injection Hc as _ <-. }
  unfold quick in *. rewrite filter_cons in Hlen, Hc, Hf. destruct (2000 <=? timeout i) eqn:Et; zbool.
  { rewrite decide_False in Hlen, Hc, Hf by lia. rewrite (IH ns req rs m) by done. by destruct (ask_nodes _ _ l m). }
  rewrite decide_True in Hlen, Hc, Hf by lia. destruct ns as [|n ns]; [done|]. cbn [zip_with SyncCall.calls] in Hc.
  destruct (SyncCall.sync_call _ _ _ (ask_call i n) req) as [s1|]; [|done].
  destruct (SyncCall.calls _ _ _ _ s1) as [[rs1 s2]|] eqn:Er; [|done]. injection Hc as <- ->.
  apply Forall2_cons in Hf as [Ha Hf]. rewrite Ha. injection Hlen as Hlen.
  destruct (count_answer parse_json _) as [k|].
  - rewrite (IH ns s1 rs1 (Z.max m k)) by done. by destruct (ask_nodes _ _ l _).
  - rewrite (IH ns s1 rs1 m) by done. by destruct (ask_nodes _ _ l _).
Qed.

(** A node that cannot be reached hides the next one.  When the connect to node [i]
    runs out of time, the lookup's only attempt, the connect is still to complete,
    with an error, when node [j] is asked: that completion ends the call for [j],
    whose own operation has only been started, and [j] keeps its number of blocks
    whatever it would have answered. *)
Theorem unreachable_node_hides_next (E : nat) i j n1 n2 req s1 k ev err eps r m :
  rested (N := 1) req -> timeout i < 2000 -> timeout j < 2000 -> call_ok E (count_call n1) ->
  sync_call (ask_call i n1) req = Some s1 -> get_response s1 = Some response_new -> pending s1 = [OpConnect k] ->
  n_events n2 = [(ev, Completed 0 (Some err) eps r)] ->
  exists s2, ask_over [i; j] [n1; n2] req m = Some ([i; j], m, s2) /\
    get_response s2 = Some response_new /\ exists o, pending s2 = [o].
Proof.
  intros Hs Hi Hj [Hwf Hev] Hc Hr Hp Hn. cbn [LookupCalls.ask_over].
  rewrite (proj2 (Z.leb_gt _ _)), (proj2 (Z.leb_gt _ _)) by lia. rewrite Hc, Hr. cbn [option_map count_answer rsp_body response_new].
  destruct (call_returned (N := 1) (E := E) one_range (ask_call i n1) req s1 Hs Hwf Hev Hc)
    as (((HN & _) & Hrr & _ & _ & _ & _ & _ & Hx & _) & _).
  destruct (stale_connect_ends_call (parse_json := parse_json) (stringify := stringify) (conn_pool_ttl := conn_pool_ttl)
    s1 (ask_call j n2) (server j) k ev err eps r) as (s2 & E2 & R2 & o & P2); try done.
  exists s2. rewrite E2, R2. cbn [option_map count_answer rsp_body response_new]. split; [done|]. split; [done|]. by exists o.
Qed.
End Facts.

(** ** Witnesses *)

Module Sample.
Import RequestLife.Sample SyncCall.Sample.

Definition parse (s : bytes) : option json :=
  if bool_decide (s = str "long") then Some (JObj [(str "result", JObj [(str "count_blocks", JInt 50)])])
  else if bool_decide (s = str "short") then Some (JObj [(str "result", JObj [(str "count_blocks", JInt 20)])])
  else None.

Definition node (name : string) (t : Z) : NsResult := NsResult_new (str name) t.
Definition three : list NsResult := [node "http://10.0.0.1:5795" 10; node "http://10.0.0.2:5795" 5000; node "http://10.0.0.3:5795" 30].
Definition req0 : request := lookup_request parse 60 js0 pool0 ev0.
Definition nets : list network := [net (str "long"); net (str "short")].
Definition three' : list NsResult :=
  [with_blocks (node "http://10.0.0.1:5795" 10) 50; node "http://10.0.0.2:5795" 5000; with_blocks (node "http://10.0.0.3:5795" 30) 20].
Definition loop_end : list NsResult * Z * request := default ([], 0, req0) (ask_over parse print 60 three nets req0 0).

Lemma nets_ok : Forall (fun n => call_ok 1 (count_call n) /\ ended_by_handler (count_call n)) nets.
Proof.
  constructor; [|constructor; [|constructor]]; (split; [split; [exact pool0_wf|apply fine_ok]|]).
  - exists (take 4 (fine_events (str "long"))), ev0, 0%nat, None, 0%nat, (answer (str "long")). reflexivity.
  - exists (take 4 (fine_events (str "short"))), ev0, 0%nat, None, 0%nat, (answer (str "short")). reflexivity.
Defined.

Lemma lookup_keeps_nodes_apart_witness :
  loop_end.1 = (three', 50) /\ told (parse_json := parse) three nets three'.
Proof.
  split; [vm_compute; reflexivity|].
  apply (lookup_keeps_nodes_apart (parse_json := parse) (stringify := print) (conn_pool_ttl := 60) 1 js0 pool0 ev0
    three nets three' 50 loop_end.2 nets_ok). vm_compute. reflexivity.
Defined.

(** The connect to the first node has run out of time. *)
Definition lost : network :=
  {| n_tor := []; n_env := ev0; n_pool := pool0;
     n_events := [(ev0, Completed 0 None 1 none); (ev0, Opened 0 5); (ev0, Expired none)] |}.
Definition next : network :=
  {| n_tor := []; n_env := ev0; n_pool := pool0; n_events := [(ev0, aborted)] |}.
Definition s_lost : request :=
  default req0 (sync_call parse print 60 (ask_call (node "http://10.0.0.1:5795" 10) lost) req0).

Lemma unreachable_node_hides_next_witness :
  exists s2, ask_over parse print 60 [node "http://10.0.0.1:5795" 10; node "http://10.0.0.3:5795" 30] [lost; next] req0 0
      = Some ([node "http://10.0.0.1:5795" 10; node "http://10.0.0.3:5795" 30], 0, s2) /\
    get_response s2 = Some response_new /\ exists o, pending s2 = [o].
Proof.
  apply (unreachable_node_hides_next (parse_json := parse) (stringify := print) (conn_pool_ttl := 60) 1
    (node "http://10.0.0.1:5795" 10) (node "http://10.0.0.3:5795" 30) lost next req0 s_lost 0 ev0
    (125, str "Operation canceled") 0 none 0).
  - apply lookup_request_rested.
  - reflexivity.
  - reflexivity.
  - split; [exact pool0_wf|repeat constructor].
  - vm_compute. reflexivity.
  - vm_compute. reflexivity.
  - vm_compute. reflexivity.
  - reflexivity.
Defined.
End Sample.
