(* ===== verification/Dns.v ===== *)
(** Name resolution: parse_record, nsLookup and validateIpAddress of
    src/nslookup.cpp.

    The resolver (res_query, ns_initparse, ns_parserr and the unpacking of names) is
    outside the repository: what it found is the record [reply], and [name_text] is
    the text of a packed name.  inet_ntoa and inet_pton are modelled after their
    documentation, on a little-endian host. *)

From Stdlib Require Import String.
From S2P Require Import Prelude Text Endian Lookup.
Open Scope Z_scope.

(** ns_rr: the type and the data of a resource record. *)
Record ns_rr := { rr_type : Z; rr_data : bytes }.

(** What the resolver returned: the size, the code and the number of answers of the
    reply, whether it could be parsed, and the records. *)
Record reply := {
  q_size : Z;
  q_rcode : Z;
  q_ancount : Z;
  q_parsed : bool;
  q_records : nat -> option ns_rr
}.

Definition T_A : Z := 1.
Definition T_NS : Z := 2.
Definition T_CNAME : Z := 5.
Definition T_MX : Z := 15.

(** ns_get32: four bytes, the most significant first; ntohl turns them round. *)
Definition ns_get32 (data : bytes) : Z := be_value (take 4 data).
Definition ns_get16 (data : bytes) : Z := be_value (take 2 data).
Definition ntohl (x : Z) : Z := le_value (be_bytes 4 x).

(** inet_ntoa: the bytes of the address in memory. *)
Definition dotted (l : list Z) : bytes :=
  match map to_string l with
  | [] => []
  | x :: r => x ++ flat_map (fun t => "."%char :: t) r
  end.
Definition inet_ntoa (s_addr : Z) : bytes := dotted (map uc (le_bytes 4 s_addr)).

Section Resolver.
Variable name_text : bytes -> bytes.
(** strerror(errno), and hstrerror(h_errno) with its number. *)
Variables errno_text herrno_text : bytes.

Definition parse_record (rr : option ns_rr) : res bytes :=
  match rr with
  | None => Throw (CommonException (str "ns_parserr error " ++ errno_text))
  | Some rr =>
      let data := rr_data rr in
      if rr_type rr =? T_MX then Ok (to_string (ns_get16 data) ++ str " " ++ name_text (drop 2 data))
      else if rr_type rr =? T_A then Ok (inet_ntoa (ntohl (ns_get32 data)))
      else if rr_type rr =? T_NS then Ok (name_text data)
      else Ok (str "unhandled record")
  end.

(** The loop over the answers. *)
Fixpoint parse_records (n : nat) (i : nat) (records : nat -> option ns_rr) : res (list bytes) :=
  match n with
  | O => Ok []
  | S n => r ← parse_record (records i); l ← parse_records n (S i) records; Ok (r :: l)
  end.

Definition nsLookup (q : reply) : res (list bytes) :=
  if q_size q =? -1 then Throw (CommonException herrno_text)
  else if 8192 <? q_size q then Throw (CommonException (str "Buffer too small reply truncated"))
  else if negb (q_rcode q =? 0) then Throw (CommonException (str "ns error " ++ to_string (q_rcode q)))
  else if negb (q_parsed q) then Throw (CommonException (str "ns_initparse error " ++ errno_text))
  else parse_records (Z.to_nat (q_ancount q)) 0 (q_records q).
End Resolver.

(** inet_pton(AF_INET): whether the text is four numbers up to 255, without leading
    zeros, separated by points.  The state is whether the current number has a digit,
    how many numbers have begun, and the value of the current one. *)
Definition pton_char (s : option (bool * Z * Z)) (c : ascii) : option (bool * Z * Z) :=
  match s with
  | None => None
  | Some (saw_digit, octets, value) =>
      if isdigit c then
        let new := value * 10 + (uc c - 48) in
        if saw_digit && (value =? 0) then None
        else if 255 <? new then None
        else if saw_digit then Some (true, octets, new)
        else if 4 <=? octets then None
        else Some (true, octets + 1, new)
      else if bool_decide (c = "."%char) && saw_digit then
        if octets =? 4 then None else Some (false, octets, 0)
      else None
  end.

Definition validateIpAddress (ipAddress : bytes) : bool :=
  match fold_left pton_char (c_str ipAddress) (Some (false, 0, 0)) with
  | Some (_, octets, _) => octets =? 4
  | None => false
  end.

(** ** Lemmas *)

(** A number up to 255, read at the beginning of a number. *)
Definition octet_read (k : Z) (b : Z) : bool :=
  bool_decide (fold_left pton_char (to_string b) (Some (false, k, 0)) = Some (true, k + 1, b)).

Lemma octets_read : forallb (fun k => forallb (octet_read (Z.of_nat k)) (map Z.of_nat (seq 0 256))) (seq 0 4) = true.
Proof. vm_compute. reflexivity. Qed.

Lemma octet_read_spec k b :
  0 <= k < 4 -> 0 <= b < 256 -> fold_left pton_char (to_string b) (Some (false, k, 0)) = Some (true, k + 1, b).
Proof.
  intros Hk Hb. pose proof octets_read as H. rewrite forallb_forall in H. specialize (H (Z.to_nat k)).
  rewrite Z2Nat.id, forallb_forall in H by lia. apply (bool_decide_eq_true_1 _), H.
  - apply in_seq. lia.
  - apply in_map_iff. exists (Z.to_nat b). split; [lia|]. apply in_seq. lia.
Qed.

(** The text of an address record is its four bytes. *)
Lemma address_record data : length data = 4%nat -> inet_ntoa (ntohl (ns_get32 data)) = dotted (map uc data).
Proof.
  intros Hl. unfold inet_ntoa, ntohl, ns_get32. rewrite take_ge by lia. rewrite <- Hl at 2.
  rewrite be_bytes_be_value. rewrite <- Hl. by rewrite le_bytes_le_value.
Qed.

Lemma c_str_app a b : c_str a = a -> c_str (a ++ b) = a ++ c_str b.
Proof.
  induction a as [|c a IH]; [done|]. cbn. case_bool_decide; [done|]. intros [= Ha]. by rewrite IH.
Qed.

Lemma octet_clean b : 0 <= b < 256 -> c_str (to_string b) = to_string b.
Proof.
  intros Hb.
  assert (forallb (fun b => bool_decide (c_str (to_string b) = to_string b)) (map Z.of_nat (seq 0 256)) = true) as H
    by (vm_compute; reflexivity).
  rewrite forallb_forall in H. apply (bool_decide_eq_true_1 _), H, in_map_iff. exists (Z.to_nat b).
  split; [lia|]. apply in_seq. lia.
Qed.

(** A point and the number behind it. *)
Lemma next_octet k b s :
  1 <= k < 4 -> 0 <= b < 256 -> 0 <= s ->
  fold_left pton_char ("."%char :: to_string b) (Some (true, k, s)) = Some (true, k + 1, b).
Proof.
  intros Hk Hb Hs. cbn [fold_left]. replace (pton_char (Some (true, k, s)) "."%char) with (Some (false, k, 0)); [by apply octet_read_spec; lia|].
  unfold pton_char. cbn. by rewrite (proj2 (Z.eqb_neq k 4)) by lia.
Qed.

Lemma dotted_valid a b c d :
  Forall (fun x => 0 <= x < 256) [a; b; c; d] -> validateIpAddress (dotted [a; b; c; d]) = true.
Proof.
  intros (Ha & (Hb & (Hc & (Hd & _)%Forall_cons)%Forall_cons)%Forall_cons)%Forall_cons. unfold validateIpAddress, dotted.
  cbn [map flat_map]. rewrite app_nil_r.
  assert (forall x t, 0 <= x < 256 -> c_str t = t -> c_str (("."%char :: to_string x) ++ t) = ("."%char :: to_string x) ++ t) as Hcl.
  { intros x t Hx Ht. rewrite c_str_app, Ht; [done|]. cbn [c_str]. rewrite bool_decide_eq_false_2 by done. by rewrite octet_clean. }
  assert (c_str ("."%char :: to_string d) = "."%char :: to_string d) as Hl by (rewrite <- (app_nil_r (_ :: _)); by apply Hcl).
  rewrite c_str_app by (by apply octet_clean). rewrite (Hcl b); [|done|by apply Hcl].
  rewrite !fold_left_app, (octet_read_spec 0 a), (next_octet (0 + 1) b a), (next_octet (0 + 1 + 1) c b), (next_octet (0 + 1 + 1 + 1) d c) by lia.
  reflexivity.
Qed.

(** The lookup of a host with address records. *)
Lemma address_records name_text errno_text herrno_text q l :
  q_size q <> -1 -> q_size q <= 8192 -> q_rcode q = 0 -> q_parsed q = true -> q_ancount q = zlen l ->
  (forall i rr, l !! i = Some rr -> q_records q i = Some rr /\ rr_type rr = T_A /\ length (rr_data rr) = 4%nat) ->
  nsLookup name_text errno_text herrno_text q = Ok (map (fun rr => dotted (map uc (rr_data rr))) l).
Proof.
  intros H1 H2 H3 H4 H5 Hr. unfold nsLookup.
  rewrite (proj2 (Z.eqb_neq _ _)), (proj2 (Z.ltb_ge _ _)), H3, H4, H5 by lia. cbn [Z.eqb negb].
  unfold zlen. rewrite Nat2Z.id.
  enough (forall i, (forall j rr, l !! j = Some rr -> q_records q (i + j)%nat = Some rr) ->
    parse_records name_text errno_text (length l) i (q_records q) = Ok (map (fun rr => dotted (map uc (rr_data rr))) l)) as He.
  { apply (He 0%nat). intros j rr Hj. by apply Hr. }
  assert (Forall (fun rr => rr_type rr = T_A /\ length (rr_data rr) = 4%nat) l) as Hf
    by (apply Forall_lookup; intros i rr Hi; by apply Hr in Hi as (_ & ? & ?)).
  clear Hr H5. induction Hf as [|rr l [Ht Hd] Hf IH]; intros i Hi; [done|]. cbn [length parse_records map].
  specialize (Hi 0%nat rr eq_refl) as H0. rewrite Nat.add_0_r in H0. rewrite H0. cbn [parse_record]. rewrite Ht. cbn [Z.eqb Pos.eqb T_A T_MX].
  rewrite address_record by done. cbn [mbind res_bind]. rewrite IH; [done|]. intros j rr' Hj. rewrite Nat.add_succ_comm. by apply Hi.
Qed.

Lemma record_valid rr : length (rr_data rr) = 4%nat -> validateIpAddress (dotted (map uc (rr_data rr))) = true.
Proof.
  intros Hl. destruct (rr_data rr) as [|a [|b [|c [|d [|]]]]]; try done.
  apply dotted_valid. repeat constructor; apply uc_range.
Qed.

(** ** Theorems *)

(** A server that is not an address itself, and whose name the resolver answers with
    address records, becomes one node per record: its scheme and port around the four
    bytes of the record in points, a text that passes for an address and is not looked
    up again. *)
Theorem addresses_resolved name_text errno_text herrno_text resolver probe sort address scheme rest host port l :
  let q := resolver host in
  (forall l, sort l ≡ₚ l) ->
  split_scheme address = (scheme, rest) -> split_host_port rest = Ok (host, port) -> validateIpAddress host = false ->
  q_size q <> -1 -> q_size q <= 8192 -> q_rcode q = 0 -> q_parsed q = true -> q_ancount q = zlen l ->
  (forall i rr, l !! i = Some rr -> q_records q i = Some rr /\ rr_type rr = T_A /\ length (rr_data rr) = 4%nat) ->
  exists nodes,
    get_ip_addresses validateIpAddress (fun h => nsLookup name_text errno_text herrno_text (resolver h)) probe sort address =
      Ok nodes /\
    map server nodes ≡ₚ map (fun rr => scheme ++ dotted (map uc (rr_data rr)) ++ port_text port) l /\
    Forall (fun rr => validateIpAddress (dotted (map uc (rr_data rr))) = true) l.
Proof.
  intros q Hs H1 H2 H3 H4 H5 H6 H7 H8 Hr. unfold get_ip_addresses. rewrite H1, H2. cbn [mbind res_bind]. rewrite H3.
  rewrite (address_records _ _ _ _ l) by done. cbn [mbind res_bind]. eexists. split_and!; [done| |].
  - rewrite Hs, !map_map. done.
  - apply Forall_lookup. intros i rr (_ & _ & Hl)%Hr. by apply record_valid.
Qed.

(** A record of another type, such as the CNAME of an alias, becomes a node name that
    no host has. *)
Theorem alias_record_kept name_text errno_text herrno_text q rr n :
  q_size q <> -1 -> q_size q <= 8192 -> q_rcode q = 0 -> q_parsed q = true -> q_ancount q = Z.of_nat (S n) ->
  q_records q 0%nat = Some rr -> rr_type rr = T_CNAME ->
  match nsLookup name_text errno_text herrno_text q with
  | Ok records => hd_error records = Some (str "unhandled record")
  | Throw _ => True
  end.
Proof.
  intros H1 H2 H3 H4 H5 Hr Ht. unfold nsLookup. rewrite (proj2 (Z.eqb_neq _ _)), (proj2 (Z.ltb_ge _ _)), H3, H4, H5 by lia.
  cbn [Z.eqb negb]. rewrite Nat2Z.id. cbn [parse_records]. rewrite Hr. cbn [parse_record]. rewrite Ht.
  cbn [Z.eqb Pos.eqb T_CNAME T_MX T_A T_NS]. cbn [mbind res_bind]. by destruct (parse_records _ _ _ _ _).
Qed.

(** ** Witnesses *)

Module Sample.
Definition records (i : nat) : option ns_rr :=
  match i with
  | 0%nat => Some {| rr_type := 1; rr_data := [chr 10; chr 0; chr 200; chr 7] |}
  | 1%nat => Some {| rr_type := 1; rr_data := [chr 1; chr 2; chr 3; chr 4] |}
  | _ => None
  end.
Definition q0 : reply := {| q_size := 80; q_rcode := 0; q_ancount := 2; q_parsed := true; q_records := records |}.

Definition rr1 : ns_rr := {| rr_type := 1; rr_data := [chr 10; chr 0; chr 200; chr 7] |}.
Definition rr2 : ns_rr := {| rr_type := 1; rr_data := [chr 1; chr 2; chr 3; chr 4] |}.

Lemma addresses_resolved_witness :
  exists nodes,
    get_ip_addresses validateIpAddress (fun h => nsLookup (fun b => b) [] [] q0) (fun _ => None) (fun l => l)
      (str "http://tor.net:5795") = Ok nodes /\
    map server nodes ≡ₚ [str "http://10.0.200.7:5795"; str "http://1.2.3.4:5795"].
Proof.
  destruct (addresses_resolved (fun b => b) [] [] (fun _ => q0) (fun _ => None) (fun l => l) (str "http://tor.net:5795")
    (str "http://") (str "tor.net:5795") (str "tor.net") 5795 [rr1; rr2]) as (nodes & H1 & H2 & _).
  - reflexivity.
  - reflexivity.
  - reflexivity.
  - reflexivity.
  - discriminate.
  - discriminate.
  - reflexivity.
  - reflexivity.
  - reflexivity.
  - intros [|[|i]] rr Hi; [injection Hi as <-..|discriminate]; split; [reflexivity|split; reflexivity|reflexivity|split; reflexivity].
  - exists nodes. split; [exact H1|exact H2].
Defined.

Definition q1 : reply :=
  {| q_size := 80; q_rcode := 0; q_ancount := 1; q_parsed := true;
     q_records := fun _ => Some {| rr_type := T_CNAME; rr_data := [] |} |}.

Lemma alias_record_kept_witness :
  match nsLookup (fun b => b) [] [] q1 with
  | Ok records => hd_error records = Some (str "unhandled record")
  | Throw _ => True
  end.
Proof.
  apply (alias_record_kept (fun b => b) [] [] q1 {| rr_type := T_CNAME; rr_data := [] |} 0);
    first [discriminate | reflexivity].
Defined.
End Sample.
