(* ===== verification/Fleet.v ===== *)
(** The calls of the process together: any number of http_json_rpc_request objects
    (src/http_json_rpc_request.cpp) over the one pool of connections
    (src/connection_pool.cpp).

    RequestLife.v follows one call that has the pool to itself.  Here the calls
    share it: a step of a call runs on the pool as the others left it, the monitor
    of the pool runs between the steps, and calls start at any time.  What a call
    does to the pool is described by the objects it gains and gives back, which the
    others do not notice ([keeps]); so each of them lives as in RequestLife.v. *)

From Stdlib Require Import String.
From S2P Require Import Prelude Text Json ConnectionPool ParseAddress HttpRequest RequestLife.
Open Scope Z_scope.

(** ** What a step of one call does to the pool *)

Definition held (l : links) : list nat := option_list (m_pool_obj l).

(** The call exchanges its own object only. *)
Definition keeps (l l' : links) : Prop :=
  enable (the_pool l') = enable (the_pool l) /\
  forall rest, nodes (m_busy (the_pool l)) ≡ₚ held l ++ rest -> nodes (m_busy (the_pool l')) ≡ₚ held l' ++ rest.

#[global] Instance keeps_refl : Reflexive keeps.
Proof. by split. Qed.

#[global] Instance keeps_trans : Transitive keeps.
Proof. intros a b c [H1 H2] [H3 H4]. split; [congruence|auto]. Qed.

Lemma checkin_nodes p id t ttl rest :
  nodes (m_busy p) ≡ₚ id :: rest -> nodes (m_busy (checkin p (Some id) t ttl).2) ≡ₚ rest.
Proof.
  intros Hp. unfold checkin. cbn [snd]. destruct (extract _ (m_busy p)) as [[d busy]|] eqn:E.
  - apply extract_Some in E as [Hf Hq]. apply bool_decide_eq_true_1 in Hf. injection Hf as Hf.
    rewrite (nodes_perm _ _ Hq) in Hp. cbn in Hp. rewrite Hf in Hp. apply (inj (cons id)) in Hp.
    by destruct (_ =? _).
  - apply extract_None in E. exfalso. assert (id ∈ nodes (m_busy p)) as Hid by (rewrite Hp; constructor).
    unfold nodes in Hid. apply list_elem_of_fmap in Hid as (d & -> & Hd). rewrite Forall_forall in E. apply E in Hd.
    by rewrite bool_decide_eq_true_2 in Hd.
Qed.

Lemma checkout_nodes p host o p' :
  checkout p host = (o, p') -> nodes (m_busy p') = option_list o ++ nodes (m_busy p) /\ enable p' = enable p.
Proof.
  unfold checkout, enable. destruct (negb _); [by intros [= <- <-]|].
  destruct (extract _ _) as [[d r]|]; [|destruct (_ <? _)]; by intros [= <- <-].
Qed.

Lemma close_keeps n ttl ssl force t l : pool_inv n l -> keeps l (close_links ttl ssl force t l).
Proof.
  intros [_ Ho]. unfold close_links, keeps, held. destruct (m_pool_obj l) as [id|] eqn:El; [|done].
  destruct Ho as (_ & He & _). rewrite He. set (v := if ssl then _ else _).
  destruct (checkin _ _ _ _) as [o p'] eqn:Ec. injection Ec as <- <-. rq. split.
  - destruct (extract _ _) as [[d busy]|]; [destruct (_ =? _)|]; exact He.
  - intros rest Hp. cbn [option_list app] in Hp |- *.
    apply (checkin_nodes (set_socket (the_pool l) id v) id t ttl rest).
    by rewrite (proj1 (set_socket_busy _ _ _)).
Qed.

Lemma begin_attempt_link callback s : link (begin_attempt callback s) = link s.
Proof.
  unfold begin_attempt. rq. destruct (m_io_ctx s) as [c|]; [destruct (_ =? 1)|]; by destruct callback.
Qed.

Lemma start_resolve_link s : link (start_resolve s) = link s.
Proof. done. Qed.

Lemma connect_keeps ev s : m_pool_obj (link s) = None -> keeps (link s) (link (connect ev s)).
Proof.
  intros Hn. unfold connect. destruct (enable (the_pool (link s))) eqn:He; [|done].
  destruct (checkout (the_pool (link s)) (m_host s)) as [o p] eqn:Hc.
  apply checkout_nodes in Hc as [Hc He'].
  assert (forall a b, keeps (link s) {| m_socket := a; m_ssl_socket := b; m_pool_obj := o; the_pool := p |}) as Hk.
  { intros a b. split; rq; [done|]. unfold held. rewrite Hn. cbn [option_list app]. rq. intros rest Hp. by rewrite Hc, Hp. }
  destruct o as [id|]; [|apply Hk]. destruct (object_socket p id =? -1); [apply Hk|].
  unfold reuse. destruct (assign_ok _ _ _); apply Hk.
Qed.

Section Steps.
Context {parse_json : bytes -> option json} {stringify : json -> bytes} {conn_pool_ttl : Z}.

Lemma deliver_link d s : link (stop_ctx (perform_callback stringify (set_m_result d s))) = link s.
Proof. unfold stop_ctx, perform_callback. rq. destruct (m_callback s), (m_io_ctx s) as [c|] eqn:E; rq; by rewrite ?E. Qed.

Lemma close_keeps_state n force ev s :
  pool_inv n (link s) -> keeps (link s) (link (close conn_pool_ttl force ev s)).
Proof. apply close_keeps. Qed.

Lemma error_handler_keeps n e from ev s :
  pool_inv n (link s) -> keeps (link s) (link (error_handler stringify conn_pool_ttl e from ev s).2).
Proof.
  intros Hl. unfold error_handler. destruct (negb (m_rerun s) && m_canceled s); [done|].
  destruct (negb (m_rerun s) && negb (failed e)); [done|].
  set (s1 := close _ _ _ _). assert (keeps (link s) (link s1)) as Hk by by apply (close_keeps n).
  assert (m_pool_obj (link s1) = None) as Ho by by apply (close_none n). clearbody s1.
  destruct (m_attempt s1 <? m_attempts_count s1); cbn [snd].
  - etrans; [exact Hk|]. unfold execute. rewrite <- (begin_attempt_link (m_callback s1) s1).
    apply connect_keeps. by rewrite begin_attempt_link.
  - by rewrite deliver_link.
Qed.

Lemma unless_error_keeps n e from ev s rest :
  pool_inv n (link s) ->
  (error_handler stringify conn_pool_ttl e from ev s = (false, s) -> keeps (link s) (link (rest s))) ->
  keeps (link s) (link (unless_error stringify conn_pool_ttl e from ev s rest)).
Proof.
  intros Hl Hr. unfold unless_error. pose proof (error_handler_keeps n e from ev s Hl) as Hk.
  assert (forall s', error_handler stringify conn_pool_ttl e from ev s = (false, s') -> s' = s) as Hsame.
  { unfold error_handler. destruct (negb (m_rerun s) && m_canceled s); [done|].
    destruct (negb (m_rerun s) && negb (failed e)); [by intros ? [= <-]|].
    by destruct (_ <? _). }
  destruct (error_handler _ _ _ _ _ _) as [[] s'] eqn:Ee; [exact Hk|].
  destruct (Hsame s' eq_refl). by apply Hr.
Qed.

Lemma handle_keeps n o e eps r ev s :
  pool_inv n (link s) -> keeps (link s) (link (handle parse_json stringify conn_pool_ttl o e eps r ev s)).
Proof.
  intros Hl. destruct o as [a p|k| | |]; cbn [handle]; unfold on_resolve, on_connect, on_handshake, on_write, on_read.
  1: apply (unless_error_keeps n); done.
  1: apply (unless_error_keeps n e "on_connect" ev (set_m_timer None s)); done.
  1, 2: apply (unless_error_keeps n); done.
  apply (unless_error_keeps n e "on_read" ev (set_m_timer None (set_m_response (Some r) s))); [done|]. intros _.
  rewrite deliver_link. by apply (close_keeps n).
Qed.

Lemma step_keeps n ev a s s' :
  pool_inv n (link s) -> HttpRequest.step parse_json stringify conn_pool_ttl ev a s = Some s' -> keeps (link s) (link s').
Proof.
  intros Hl. destruct a as [i e eps r|i fd|part]; cbn [HttpRequest.step].
  - destruct (pending s !! i) as [o|]; [|done]. case_bool_decide; [done|]. intros [= <-].
    by apply (handle_keeps n o e eps r ev (set_pending (delete i (pending s)) s)).
  - destruct (pending s !! i) as [[|[|k]| | |]|]; try done. intros [= <-]. by split.
  - destruct (m_timer s) as [t|]; [|done]. intros [= <-].
    assert (link (arrived part s) = link s) as Ha by (unfold arrived; by destruct (existsb _ _)). rewrite <- Ha in Hl |- *.
    clear Ha. revert Hl. generalize (arrived part s). clear s. intros s Hl. unfold on_timeout. change (m_canceled (set_m_timer None s)) with (m_canceled s). destruct (m_canceled s); [done|].
    set (s1 := close _ _ _ _). assert (keeps (link s) (link s1)) as Hk by by apply (close_keeps n).
    clearbody s1. destruct (m_attempt s1 <? m_attempts_count s1); [exact Hk|]. by rewrite deliver_link.
Qed.
End Steps.

(** ** Many calls *)

(** A call with what its owner remembers about it ([c_tag]) and, for the
    statements, the empty answer it began with, the responses that arrived for it
    and the number of its steps. *)
Record call {T : Type} := {
  c_tag : T;
  c_own : bool;
  c_request : request;
  c_base : json;
  c_seen : list response;
  c_steps : nat
}.
Arguments call : clear implicits.

(** The pool, and the calls in the order in which they began. *)
Record fleet {T : Type} := { f_pool : pool; f_calls : list (call T) }.
Arguments fleet : clear implicits.

(** The object's view of the pool. *)
Definition with_pool (p : pool) (l : links) : links :=
  {| m_socket := m_socket l; m_ssl_socket := m_ssl_socket l; m_pool_obj := m_pool_obj l; the_pool := p |}.
Definition install (p : pool) (r : request) : request := set_link (with_pool p (link r)) r.

(** A call begins, with a context of its own (synchronous) or without one; an
    operation or the timer of a call completes; the monitor of the pool runs. *)
Inductive fleet_event {T : Type} :=
| Begin (tag : T) (own : bool) (host path body : bytes) (ev : env)
| Net (i : nat) (ev : env) (a : event)
| Watch (now : Z) (assigned : Z -> bool).
Arguments fleet_event : clear implicits.

Section Fleet.
Context {T : Type}.
Variable parse_json : bytes -> option json.
Variable stringify : json -> bytes.
Variable conn_pool_ttl : Z.
Variable js : jrpc_settings.

Definition begin_call (tag : T) (own : bool) (host path body : bytes) (ev : env) (p : pool) : call T :=
  let r := prepared (parse_json := parse_json) (conn_pool_ttl := conn_pool_ttl) own host path body js p ev in
  {| c_tag := tag; c_own := own; c_request := execute (negb own) ev r; c_base := empty_answer r; c_seen := []; c_steps := 0 |}.

Definition step_call (ev : env) (a : event) (p : pool) (c : call T) : option (call T) :=
  match HttpRequest.step parse_json stringify conn_pool_ttl ev a (install p (c_request c)) with
  | Some r => Some {| c_tag := c_tag c; c_own := c_own c; c_request := r; c_base := c_base c;
                      c_seen := c_seen c ++ received a; c_steps := S (c_steps c) |}
  | None => None
  end.

Definition call_pool (c : call T) : pool := the_pool (link (c_request c)).

Definition fleet_step (e : fleet_event T) (f : fleet T) : option (fleet T) :=
  match e with
  | Begin tag own host path body ev =>
      let c := begin_call tag own host path body ev (f_pool f) in
      Some {| f_pool := call_pool c; f_calls := f_calls f ++ [c] |}
  | Net i ev a =>
      match f_calls f !! i with
      | Some c =>
          match step_call ev a (f_pool f) c with
          | Some c' => Some {| f_pool := call_pool c'; f_calls := <[i := c']> (f_calls f) |}
          | None => None
          end
      | None => None
      end
  | Watch now assigned => Some {| f_pool := monitor (f_pool f) now assigned; f_calls := f_calls f |}
  end.

Fixpoint fleet_run (l : list (fleet_event T)) (f : fleet T) : option (fleet T) :=
  match l with
  | [] => Some f
  | e :: l' => match fleet_step e f with Some f' => fleet_run l' f' | None => None end
  end.

(** ** The invariant *)

(** A bound on the endpoints of a host, and the objects in use by others. *)
Context {E : nat} {ext : list nat}.

Definition bound : nat := (E + 10) * Z.to_nat (Z.max 1 (s_attempts js)).

Definition call_held (c : call T) : list nat := held (link (c_request c)).
Definition all_held (l : list (call T)) : list nat := flat_map call_held l.

(** The call lives as in RequestLife.v, on the pool [p]. *)
Definition lives (p : pool) (c : call T) : Prop :=
  reset (c_base c) = c_base c /\
  alive_inv (parse_json := parse_json) (stringify := stringify) (N := s_attempts js) (base := c_base c)
    (cb := negb (c_own c)) (own := c_own c) (others := get_busy_size p - zlen (call_held c)) (E := E)
    (c_seen c) (install p (c_request c)) /\
  (c_steps c + measure (N := s_attempts js) (E := E) (c_request c) <= bound)%nat.

Record fleet_inv (f : fleet T) : Prop := {
  fi_wf : wf (f_pool f);
  fi_busy : nodes (m_busy (f_pool f)) ≡ₚ all_held (f_calls f) ++ ext;
  fi_enabled : all_held (f_calls f) <> [] -> enable (f_pool f) = true;
  fi_lives : Forall (lives (f_pool f)) (f_calls f)
}.

(** What a pool has to be for a call to go on. *)
Definition suits (p : pool) (c : call T) : Prop :=
  wf p /\ forall id, id ∈ call_held c -> id ∈ nodes (m_busy p) /\ enable p = true.

Lemma suits_inv p c : suits p c -> pool_inv (get_busy_size p - zlen (call_held c)) (link (install p (c_request c))).
Proof.
  intros [Hw Ho]. split; [done|]. unfold call_held, held, zlen in *. cbn.
  destruct (m_pool_obj (link (c_request c))) as [id|]; cbn in *; [|lia].
  destruct (Ho id) as [H1 H2]; [constructor|]. split; [done|]. split; [done|lia].
Qed.

(** Whatever the others do to the pool, a call does not notice. *)
Lemma lives_install p p' c : lives p c -> suits p' c -> lives p' c.
Proof.
  intros (Hb & Hi & Hm) Hs%suits_inv. split; [done|]. split; [|done]. revert Hi.
  unfold alive_inv, waiting, rerunning, finished, steady, one_pending in *. cbn in *. tauto.
Qed.

Lemma install_same r : install (the_pool (link r)) r = r.
Proof. unfold install, with_pool. destruct r. cbn. by destruct link. Qed.

Hypothesis attempts_range : 0 <= s_attempts js <= UINT32_MAX.

Lemma pool_inv_others n l : pool_inv n l -> n = get_busy_size (the_pool l) - zlen (held l).
Proof. intros [_ Ho]. unfold held, zlen. destruct (m_pool_obj l); cbn; [destruct Ho as (_ & _ & ->); lia|lia]. Qed.

Lemma pool_inv_enabled n l : pool_inv n l -> held l <> [] -> enable (the_pool l) = true.
Proof. intros [_ Ho]. unfold held. destruct (m_pool_obj l); [by destruct Ho as (_ & ? & _)|done]. Qed.

Lemma alive_pool_inv N base cb own n seen s :
  alive_inv (parse_json := parse_json) (stringify := stringify) (N := N) (base := base) (cb := cb) (own := own)
    (others := n) (E := E) seen s -> pool_inv n (link s).
Proof. by intros [((_ & _ & H) & _)|[((_ & _ & H) & _)|((_ & _ & H) & _)]]. Qed.

(** A call that begins. *)
Lemma begin_lives tag own host path body ev p :
  wf p ->
  let c := begin_call tag own host path body ev p in
  lives (call_pool c) c /\ wf (call_pool c) /\ enable (call_pool c) = enable p /\
  (call_held c <> [] -> enable p = true) /\ nodes (m_busy (call_pool c)) ≡ₚ call_held c ++ nodes (m_busy p).
Proof.
  intros Hwf. cbv zeta. unfold lives, call_pool, call_held, begin_call. cbn [c_request c_base c_own c_seen c_steps].
  set (r := prepared own host path body js p ev).
  destruct (prepared_spec (parse_json := parse_json) (conn_pool_ttl := conn_pool_ttl) own host path body js p ev Hwf)
    as (H1 & H2 & H3 & H4 & H5 & H6 & H7 & H8 & H9 & H10 & H11 & _).
  fold r in H1, H2, H3, H4, H5, H6, H7, H8, H9, H10, H11.
  destruct (execute_waiting (N := s_attempts js) (base := empty_answer r) (cb := negb own) (own := own)
    (others := get_busy_size p) (E := E) ltac:(lia) (negb own) ev r) as (Hw & _ & Hm); try done; [lia|by rewrite H8, orb_false_r|].
  assert (keeps (link r) (link (execute (negb own) ev r))) as [Hk1 Hk2].
  { unfold execute. rewrite <- (begin_attempt_link (negb own) r). apply connect_keeps. by rewrite begin_attempt_link. }
  assert (pool_inv (get_busy_size p) (link (execute (negb own) ev r))) as Hp by by destruct Hw as ((_ & _ & Hp) & _).
  pose proof (pool_inv_others _ _ Hp) as Hn. rewrite H11 in Hk1, Hk2. split_and!.
  - done.
  - rewrite <- Hn, install_same. by left.
  - unfold bound. rewrite H6 in Hm. replace (Z.to_nat (Z.max 1 (s_attempts js))) with (S (Z.to_nat (s_attempts js - (0 + 1)))) by lia.
    lia.
  - by destruct Hp.
  - done.
  - intros Hh. rewrite <- Hk1. by eapply pool_inv_enabled.
  - apply Hk2. unfold held. by rewrite H4.
Qed.

(** A step of a call. *)
Lemma step_lives ev a p c c' :
  lives p c -> event_ok (E := E) a -> step_call ev a p c = Some c' ->
  lives (call_pool c') c' /\ wf (call_pool c') /\ enable (call_pool c') = enable p /\
  (call_held c' <> [] -> enable p = true) /\
  forall rest, nodes (m_busy p) ≡ₚ call_held c ++ rest -> nodes (m_busy (call_pool c')) ≡ₚ call_held c' ++ rest.
Proof.
  intros (Hb & Hi & Hm) Ha Hs. unfold step_call in Hs. destruct (HttpRequest.step _ _ _ _ _ _) as [r|] eqn:Es; [|done].
  injection Hs as <-. unfold lives, call_pool, call_held. cbn [c_request c_base c_own c_seen c_steps].
  destruct (step_keeps _ _ _ _ _ (alive_pool_inv _ _ _ _ _ _ _ Hi) Es) as [Hk1 Hk2].
  destruct (step_progress (parse_json := parse_json) (stringify := stringify) (conn_pool_ttl := conn_pool_ttl)
    (N := s_attempts js) (base := c_base c) (cb := negb (c_own c)) (own := c_own c) ltac:(lia) Hb
    (c_seen c) ev a (install p (c_request c)) r Hi Ha Es) as [Hi' Hm'].
  pose proof (alive_pool_inv _ _ _ _ _ _ _ Hi') as Hp. pose proof (pool_inv_others _ _ Hp) as Hn. split_and!.
  - done.
  - by rewrite <- Hn, install_same.
  - change (measure (install p (c_request c))) with (measure (N := s_attempts js) (E := E) (c_request c)) in Hm'. lia.
  - by destruct Hp.
  - done.
  - intros Hh. cbn in Hk1. rewrite <- Hk1. by eapply pool_inv_enabled.
  - exact Hk2.
Qed.

(** The other calls after a change of the pool. *)
Lemma others_live f p' l :
  fleet_inv f -> wf p' -> enable p' = enable (f_pool f) -> l ⊆ f_calls f ->
  (forall id, id ∈ all_held l -> id ∈ nodes (m_busy p')) -> Forall (lives p') l.
Proof.
  intros [_ _ He Hl] Hw Hen Hsub Hin. rewrite Forall_forall in Hl. apply Forall_forall. intros c Hc.
  assert (forall id, id ∈ call_held c -> id ∈ all_held l) as Hh.
  { intros id Hid. unfold all_held. apply list_elem_of_In, in_flat_map. exists c. split; by apply list_elem_of_In. }
  apply (lives_install (f_pool f)); [by apply Hl, Hsub|]. split; [done|]. intros id Hid. split; [by apply Hin, Hh|].
  rewrite Hen. apply He. intros Hnil. assert (id ∈ all_held (f_calls f)) as Hi.
  { unfold all_held. apply list_elem_of_In, in_flat_map. exists c. split; apply list_elem_of_In; [by apply Hsub|done]. }
  rewrite Hnil in Hi. by apply not_elem_of_nil in Hi.
Qed.

Lemma all_held_app l k : all_held (l ++ k) = all_held l ++ all_held k.
Proof. apply flat_map_app. Qed.

Definition fleet_event_ok (e : fleet_event T) : Prop := match e with Net _ _ a => event_ok (E := E) a | _ => True end.

(** A call that joins the others. *)
Lemma add_call_inv f c :
  fleet_inv f ->
  lives (call_pool c) c -> wf (call_pool c) -> enable (call_pool c) = enable (f_pool f) ->
  (call_held c <> [] -> enable (f_pool f) = true) ->
  nodes (m_busy (call_pool c)) ≡ₚ call_held c ++ nodes (m_busy (f_pool f)) ->
  fleet_inv {| f_pool := call_pool c; f_calls := f_calls f ++ [c] |}.
Proof.
  intros Hf H1 H2 H3 H4 H5. pose proof (fi_busy f Hf) as Hb. split; cbn [f_pool f_calls].
  - done.
  - rewrite all_held_app. unfold all_held at 2. cbn [flat_map]. rewrite app_nil_r, H5, Hb. solve_Permutation.
  - rewrite all_held_app, H3. intros Hne. destruct (all_held (f_calls f)) eqn:Ea; [|by apply Hf; rewrite Ea].
    apply H4. unfold all_held in Hne. cbn [flat_map] in Hne. by rewrite app_nil_r in Hne.
  - apply Forall_app. split; [|by constructor]. apply (others_live f); [done..|].
    intros id Hid. rewrite H5, Hb, !elem_of_app. auto.
Qed.

(** A call that goes on among the others. *)
Lemma change_call_inv f i c c' :
  fleet_inv f -> f_calls f !! i = Some c ->
  lives (call_pool c') c' -> wf (call_pool c') -> enable (call_pool c') = enable (f_pool f) ->
  (call_held c' <> [] -> enable (f_pool f) = true) ->
  (forall rest, nodes (m_busy (f_pool f)) ≡ₚ call_held c ++ rest -> nodes (m_busy (call_pool c')) ≡ₚ call_held c' ++ rest) ->
  fleet_inv {| f_pool := call_pool c'; f_calls := <[i := c']> (f_calls f) |}.
Proof.
  intros Hf Ei H1 H2 H3 H4 H5. apply list_elem_of_split_length in Ei as Hsp. destruct Hsp as (pre & post & Ec & Hi).
  assert (<[i := c']> (f_calls f) = pre ++ c' :: post) as ->.
  { rewrite Ec, Hi. by rewrite insert_app_r_alt, Nat.sub_diag by lia. }
  pose proof (fi_busy f Hf) as Hb.
  assert (nodes (m_busy (call_pool c')) ≡ₚ call_held c' ++ (all_held (pre ++ post) ++ ext)) as H6.
  { apply H5. rewrite Hb, Ec, !all_held_app. unfold all_held at 2. cbn [flat_map]. fold (all_held post). solve_Permutation. }
  split; cbn [f_pool f_calls].
  - done.
  - rewrite H6, !all_held_app. unfold all_held at 4. cbn [flat_map]. fold (all_held post). solve_Permutation.
  - rewrite all_held_app. unfold all_held at 2. cbn [flat_map]. fold (all_held post). rewrite H3. intros Hne.
    destruct (call_held c') eqn:Eh; [|by apply H4]. apply (fi_enabled f Hf). rewrite Ec, all_held_app.
    unfold all_held at 2. cbn [flat_map]. fold (all_held post). cbn [app] in Hne.
    intros [E1 [_ E2]%app_eq_nil]%app_eq_nil. by rewrite E1, E2 in Hne.
  - assert (Forall (lives (call_pool c')) (pre ++ post)) as [Hl1 Hl2]%Forall_app.
    { apply (others_live f); [done..| |].
      - rewrite Ec. intros x. rewrite !elem_of_app, elem_of_cons. tauto.
      - intros id Hid. rewrite H6, !elem_of_app. auto. }
    apply Forall_app. split; [done|]. by constructor.
Qed.

Lemma fleet_step_inv e f f' : fleet_inv f -> fleet_event_ok e -> fleet_step e f = Some f' -> fleet_inv f'.
Proof.
  intros Hf He Hs. destruct e as [tag own host path body ev|i ev a|now assigned]; cbn [fleet_step] in Hs.
  - apply (inj Some) in Hs. subst f'.
    destruct (begin_lives tag own host path body ev (f_pool f) (fi_wf f Hf)) as (H1 & H2 & H3 & H4 & H5).
    exact (add_call_inv f _ Hf H1 H2 H3 H4 H5).
  - destruct (f_calls f !! i) as [c|] eqn:Ei; [|done]. destruct (step_call ev a (f_pool f) c) as [c'|] eqn:Es; [|done].
    apply (inj Some) in Hs. subst f'. pose proof (fi_lives f Hf) as Hl. rewrite Forall_forall in Hl.
    destruct (step_lives ev a (f_pool f) c c') as (H1 & H2 & H3 & H4 & H5); [|done|done|].
    { by apply Hl, (list_elem_of_lookup_2 _ i). }
    exact (change_call_inv f i c c' Hf Ei H1 H2 H3 H4 H5).
  - injection Hs as <-. split; cbn [f_pool f_calls]; [by apply monitor_wf, Hf|apply Hf|apply Hf|].
    apply (others_live f); [done|by apply monitor_wf, Hf|done|done|].
    intros id Hid. cbn. rewrite (fi_busy f Hf), elem_of_app. auto.
Qed.

Lemma fleet_run_inv l f f' : fleet_inv f -> Forall fleet_event_ok l -> fleet_run l f = Some f' -> fleet_inv f'.
Proof.
  intros Hf Hl. revert f Hf. induction Hl as [|e l He Hl IH]; intros f Hf Hr; cbn [fleet_run] in Hr; [by injection Hr as <-|].
  destruct (fleet_step e f) as [f1|] eqn:Es; [|done]. apply (IH f1); [|done]. by eapply fleet_step_inv.
Qed.
End Fleet.

(** ** Theorems *)

Section Theorems.
Context {T : Type} {parse_json : bytes -> option json} {stringify : json -> bytes} {conn_pool_ttl : Z} {js : jrpc_settings}.
Abbreviation ran := (fleet_run (T := T) parse_json stringify conn_pool_ttl js).

Definition fleet_new (p : pool) : fleet T := {| f_pool := p; f_calls := [] |}.

Lemma fleet_new_inv p (E : nat) :
  wf p -> fleet_inv (T := T) parse_json stringify js (E := E) (ext := nodes (m_busy p)) (fleet_new p).
Proof. intros Hw. by split. Qed.

Lemma call_answer p l f c (E : nat) :
  wf p -> 0 <= s_attempts js <= UINT32_MAX -> Forall (fleet_event_ok (E := E)) l -> ran l (fleet_new p) = Some f ->
  c ∈ f_calls f ->
  (c_steps c <= bound js (E := E))%nat /\ (length (called (c_request c)) <= 1)%nat /\
  (pending (c_request c) = [] ->
   outcome (parse_json := parse_json) (base := c_base c) (c_seen c) (m_result (c_request c)) /\ call_held c = [] /\
   (c_own c = false -> called (c_request c) = [stringify (m_result (c_request c))])).
Proof.
  intros Hw Ha Hl Hr Hc.
  pose proof (fleet_run_inv parse_json stringify conn_pool_ttl js (ext := nodes (m_busy p)) Ha l _ f (fleet_new_inv p E Hw) Hl Hr) as Hf.
  pose proof (fi_lives _ _ _ _ Hf) as Hv. rewrite Forall_forall in Hv. destruct (Hv c Hc) as (_ & Hi & Hs). split; [lia|].
  destruct Hi as [(_ & _ & _ & (o & Ho & _) & _ & Hx & _)|[(_ & _ & _ & (o & Ho & _) & _ & _ & Hx & _)|Hi]]; cbn in *.
  - rewrite Hx, Ho. split; [cbn; lia|done].
  - rewrite Hx, Ho. split; [cbn; lia|done].
  - destruct Hi as (_ & _ & _ & Hx & _ & Ho & Hn & _). cbn in *. rewrite Hx. split; [by destruct (c_own c); cbn; lia|].
    intros _. split; [exact Ho|]. split; [unfold call_held, held; by rewrite Hn|]. by intros ->.
Qed.

(** C7: the calls of the process do not disturb each other.  However many of them
    share the pool, however their events, their beginnings and the passes of the
    pool's monitor are interleaved: no two calls have the same connection, the
    pool's objects in use are theirs and those of before, every call lives for at
    most [(E + 10)] events per attempt and calls its callback at most once; and when
    nothing is outstanding for any of them, all have been answered and every
    connection is back. *)
Theorem calls_do_not_interfere p l f (E : nat) :
  wf p -> 0 <= s_attempts js <= UINT32_MAX -> Forall (fleet_event_ok (E := E)) l -> ran l (fleet_new p) = Some f ->
  let objects := all_held (f_calls f) in
  wf (f_pool f) /\ NoDup objects /\ nodes (m_busy (f_pool f)) ≡ₚ objects ++ nodes (m_busy p) /\
  Forall (fun c => (c_steps c <= (E + 10) * Z.to_nat (Z.max 1 (s_attempts js)))%nat /\
                   (length (called (c_request c)) <= 1)%nat) (f_calls f) /\
  (Forall (fun c => pending (c_request c) = []) (f_calls f) ->
   nodes (m_busy (f_pool f)) ≡ₚ nodes (m_busy p) /\
   Forall (fun c => c_own c = false -> called (c_request c) = [stringify (m_result (c_request c))]) (f_calls f)).
Proof.
  intros Hw Ha Hl Hr objects.
  pose proof (fleet_run_inv parse_json stringify conn_pool_ttl js (ext := nodes (m_busy p)) Ha l _ f (fleet_new_inv p E Hw) Hl Hr) as Hf.
  assert (forall c, c ∈ f_calls f -> _) as Hc by exact (fun c => call_answer p l f c E Hw Ha Hl Hr).
  pose proof (fi_busy _ _ _ _ Hf) as Hb. split; [apply Hf|]. split.
  { destruct (fi_wf _ _ _ _ Hf) as [Hn _ _ _]. apply NoDup_app in Hn as [Hn _]. rewrite Hb in Hn.
    by apply NoDup_app in Hn as [? _]. }
  split; [done|]. split.
  { apply Forall_forall. intros c Hin. destruct (Hc c Hin) as (H1 & H2 & _). done. }
  rewrite !Forall_forall. intros Hp. split; [|intros c Hin; by apply Hc, Hp].
  rewrite Hb. unfold objects. replace (all_held (f_calls f)) with (@nil nat); [done|].
  assert (forall l : list (call T), (forall c, c ∈ l -> call_held c = []) -> all_held l = @nil nat) as Hnil.
  { intros k. induction k as [|c k IH]; intros Hk; [done|]. unfold all_held in *. cbn. rewrite Hk by constructor.
    apply IH. intros d Hd. apply Hk. by constructor. }
  symmetry. apply Hnil. intros c Hin. by apply Hc, Hp.
Qed.
End Theorems.

(** ** Witnesses *)

Module Sample.
Definition js0 : jrpc_settings := {| s_timeout := 100; s_conn_timeout := 100; s_attempts := 2 |}.
Definition ev0 : env := {| now := 0; alive _ := true |}.
Definition parse0 (b : bytes) : option json := if bool_decide (b = []) then None else Some (JObj [(str "result", JInt 9)]).
Definition print0 (d : json) : bytes := str "text".
Definition pool0 : pool := set_enable (ConnectionPool.start 2) true.
Definition rsp0 : response :=
  {| rsp_status := 200; rsp_version := 11; rsp_connection := None; rsp_keep_alive := true; rsp_body := str "{}" |}.
Definition ok0 : event := Completed 0 None 1 rsp0.
Definition failed0 : event := Completed 0 (Some (111, str "refused")) 1 rsp0.

(** Two calls to one host in turns: the first one fails once and is repeated. *)
Definition events0 : list (fleet_event nat) :=
  [Begin 1%nat false (str "node:80") (str "a") (str "x") ev0; Net 0 ev0 ok0; Begin 2%nat false (str "node:80") (str "b") (str "y") ev0;
   Net 1 ev0 ok0; Net 0 ev0 failed0; Net 1 ev0 (Opened 0 7); Net 1 ev0 ok0; Watch 5 (fun _ => true); Net 0 ev0 ok0;
   Net 1 ev0 ok0; Net 1 ev0 ok0; Net 0 ev0 (Opened 0 8); Net 0 ev0 ok0; Net 0 ev0 ok0; Net 0 ev0 ok0].

Lemma calls_do_not_interfere_witness :
  exists f, fleet_run parse0 print0 60 js0 events0 (fleet_new pool0) = Some f /\
    length (f_calls f) = 2%nat /\ Forall (fun c => pending (c_request c) = []) (f_calls f) /\
    nodes (m_busy (f_pool f)) ≡ₚ [] /\
    Forall (fun c => c_own c = false -> called (c_request c) = [print0 (m_result (c_request c))]) (f_calls f).
Proof.
  assert (exists f, fleet_run parse0 print0 60 js0 events0 (fleet_new pool0) = Some f /\ length (f_calls f) = 2%nat /\
    Forall (fun c => pending (c_request c) = []) (f_calls f)) as (f & Hr & Hn & Hp).
  { eexists. split; [vm_compute; reflexivity|]. split; [reflexivity|]. repeat constructor. }
  exists f. split; [exact Hr|]. split; [exact Hn|]. split; [exact Hp|].
  refine (proj2 (proj2 (proj2 (proj2 (calls_do_not_interfere (parse_json := parse0) (stringify := print0) (conn_pool_ttl := 60)
    (js := js0) pool0 events0 f 1 _ _ _ Hr)))) Hp).
  - split; cbn; [constructor|done|done|done].
  - split; vm_compute; discriminate.
  - repeat constructor.
Defined.
End Sample.
