(* ===== verification/Node.v ===== *)
(** The server as a whole: src/http_server.cpp, http_session.cpp,
    json_batch_request.cpp, task_handlers/base_handler.h and
    http_json_rpc_request.cpp over one state.

    A node has its connections to clients, the batches they sent, the calls to other
    nodes that are under way and the state of the process.  A step accepts a
    connection, reads a request, lets an operation of a call complete, starts a call
    of one of the workers, lets a worker change the state, or runs the monitor of the
    pool.  The handlers and workers are an interface here ([service]): the tables of
    methods, what the callback of a forwarded request does, and the changes; Serve.v
    has the methods and workers of the program behind it. *)

From Stdlib Require Import String.
From S2P Require Import ParseAddress HttpRequest RequestLife Fleet.
From S2P Require Import Prelude Text Json SecurityManager ConnectionPool Handlers Answers BatchRequest HttpSession.
Open Scope Z_scope.

(** ** The handlers *)

(** The methods of the program over the state [W]: the two tables, what the object of
    a handler keeps beside the members of its base class ([X]), the node that its
    request to a path goes to, and the callback: the text for the client, [None] when
    another request was handed over instead.  [B] are the changes that the workers
    make to the state, beside their calls. *)
Record service (W X B : Type) := {
  sv_find : bytes -> option (handler_class W);
  sv_get : bytes -> option (handler_class W);
  sv_extra : bytes -> W -> bytes -> X;
  sv_host : X -> bytes -> bytes -> bytes;
  sv_callback : bytes -> X -> bytes -> M (handler W) (option bytes);
  sv_change : B -> W -> W
}.
Arguments sv_find {W X B}. Arguments sv_get {W X B}. Arguments sv_host {W X B}. Arguments sv_extra {W X B}.
Arguments sv_callback {W X B}. Arguments sv_change {W X B}.

(** The context of a handler: a session or a batch. *)
Inductive destination := ToSession (i : nat) | ToBatch (b : nat).

#[global] Instance destination_eq_dec : EqDecision destination.
Proof. solve_decision. Defined.

(** Who waits for a call: one of the workers of the program, or a handler. *)
Inductive waiter {W X : Type} := Worker | Waiting (to : destination) (method : bytes) (h : handler W) (x : X).
Arguments waiter : clear implicits.

(** A connection: the client's address, the session, whether a read is outstanding,
    and how many requests were read, how many of them get no answer, and how many
    answers were handed to the session. *)
Record client {address : Type} := {
  cl_address : address;
  cl_session : session;
  cl_reading : bool;
  cl_asked : nat;
  cl_mute : nat;
  cl_given : nat
}.
Arguments client : clear implicits.

(** A batch: the connection it came from, whether an exception left [process], and
    its state. *)
Record batch_entry := { be_client : nat; be_stuck : bool; be_batch : batch }.

Record node {W X address : Type} `{Countable address} := {
  nd_world : W;
  nd_table : gmap address addr_info;
  nd_clients : list (client address);
  nd_batches : list batch_entry;
  nd_calls : list (call (waiter W X))
}.
Arguments node W X address {_ _}.

Inductive node_event {address B : Type} :=
| Connect (a : address) (is_loopback listed : bool) (now : Z)
| Arrive (i : nat) (req : HttpSession.request) (now : Z) (ev : nat -> env)
| Reply (i : nat) (ev : env) (a : HttpRequest.event) (ev' : env)
| Work (own : bool) (host path body : bytes) (ev : env)
| Monitored (now : Z) (assigned : Z -> bool)
| Changed (b : B).
Arguments node_event : clear implicits.

Section Node.
Context {W X B address : Type} `{Countable address}.
Variable get_pool : W -> pool.
Variable set_pool : pool -> W -> W.
Variable sv : service W X B.
(** The settings, RapidJSON and the schemas. *)
Variables keep_alive_setting auth_enable any_conns validate_request validate_methods : bool.
Variable auth_key : bytes.
Variables request_schema method_schema : option (json -> option json).
Variable parse_json : bytes -> option json.
Variable stringify : json -> bytes.
Variable parse_error : bytes -> Z * bytes.
Variable conn_pool_ttl : Z.
Variable js : jrpc_settings.

Abbreviation calls_t := (list (call (waiter W X))).
Abbreviation state := (W * calls_t)%type.

(** ** Entries of the tables *)

(** perform<C>, with the request that the handler hands over; the [k]-th call finds
    the clock and the descriptors of [ev k]. *)
Definition call_entry (ev : nat -> env) (to : destination) (method : bytes) (C : handler_class W) : entry state :=
  fun body st =>
    let '(w, calls) := st in
    match perform parse_json stringify parse_error validate_methods method_schema C w body with
    | (h, Ok (async, text)) =>
        if async : bool then
          let '(path, request_body) := default ([], []) (head (m_requests h)) in
          let x := sv_extra sv method w body in
          let c := begin_call parse_json conn_pool_ttl js (Waiting to method h x) false (sv_host sv x method path) path request_body
                     (ev (length calls)) (get_pool (world h)) in
          Ok ((set_pool (call_pool c) (world h), calls ++ [c]), (true, text))
        else Ok ((world h, calls), (false, text))
    | (_, Throw e) => Throw e
    end.

(** ** Steps *)

Definition with_client (i : nat) (c : client address) (n : node W X address) : node W X address :=
  {| nd_world := nd_world n; nd_table := nd_table n; nd_clients := <[i := c]> (nd_clients n);
     nd_batches := nd_batches n; nd_calls := nd_calls n |}.
Definition with_batch (b : nat) (e : batch_entry) (n : node W X address) : node W X address :=
  {| nd_world := nd_world n; nd_table := nd_table n; nd_clients := nd_clients n;
     nd_batches := <[b := e]> (nd_batches n); nd_calls := nd_calls n |}.
Definition with_calls (w : W) (l : calls_t) (n : node W X address) : node W X address :=
  {| nd_world := w; nd_table := nd_table n; nd_clients := nd_clients n; nd_batches := nd_batches n; nd_calls := l |}.

(** m_context->send_json(text) of a session. *)
Definition give (i : nat) (text : bytes) (n : node W X address) : node W X address :=
  match nd_clients n !! i with
  | Some c =>
      with_client i {| cl_address := cl_address c; cl_session := HttpSession.send_json keep_alive_setting (cl_session c) text;
                       cl_reading := cl_reading c; cl_asked := cl_asked c; cl_mute := cl_mute c;
                       cl_given := S (cl_given c) |} n
  | None => n
  end.

(** m_context->send_json(text). *)
Definition deliver (to : destination) (text : bytes) (n : node W X address) : node W X address :=
  match to with
  | ToSession i => give i text n
  | ToBatch b =>
      match nd_batches n !! b with
      | Some e =>
          let bt := BatchRequest.send_json parse_json stringify (be_batch e) text in
          let n := with_batch b {| be_client := be_client e; be_stuck := be_stuck e; be_batch := bt |} n in
          fold_left (fun n t => give (be_client e) t n) (drop (length (sent (be_batch e))) (sent bt)) n
      | None => n
      end
  end.

(** The callback of a call: the handler answers, or hands over another request. *)
Definition answered (t : waiter W X) (text : bytes) (ev : env) (n : node W X address) : option (node W X address) :=
  match t with
  | Worker => Some n
  | Waiting to method h x =>
      match sv_callback sv method x text (set_world (nd_world n) h) with
      | (h', Ok (Some out)) => Some (deliver to out (with_calls (world h') (nd_calls n) n))
      | (h', Ok None) =>
          let '(path, body) := List.last (m_requests h') ([], []) in
          let c := begin_call parse_json conn_pool_ttl js (Waiting to method h' x) false (sv_host sv x method path) path body ev
                     (get_pool (world h')) in
          Some (with_calls (set_pool (call_pool c) (world h')) (nd_calls n ++ [c]) n)
      | (_, Throw _) => None
      end
  end.

(** The tables as the session sees them. *)
Definition post_table (ev : nat -> env) (i b : nat) (ctx : context) (name : bytes) : option (entry state) :=
  option_map (call_entry ev (match ctx with ThisSession => ToSession i | ThisBatch => ToBatch b end) name) (sv_find sv name).
Definition get_table (ev : nat -> env) (i b : nat) (ctx : context) (name : bytes) : option (entry state) :=
  option_map (call_entry ev (match ctx with ThisSession => ToSession i | ThisBatch => ToBatch b end) name) (sv_get sv name).

(** *** Requests without an answer *)

Definition readable (doc : json) : bool := is_Ok (get_id doc).

(** The document of an element of a batch that makes [process] throw. *)
Definition stuck_document (tmp : json) : bool :=
  IsObject tmp &&
  match get_value_str tmp "method" with
  | None => false
  | Some m => has_id tmp && negb (found (sv_find sv (c_str m))) && negb (readable tmp)
  end.

(** Some element does, the document being [tmp] before the first. *)
Fixpoint stuck_batch (tmp : json) (l : list json) : bool :=
  match l with
  | [] => false
  | v :: l' => let tmp := parsed parse_json tmp (stringify v) in stuck_document tmp || stuck_batch tmp l'
  end.

Definition mute_document (doc : json) : bool :=
  match doc with
  | JObj _ =>
      match get_value_str doc "method" with
      | None => negb (readable doc)
      | Some m => negb (has_id doc) || (negb (found (sv_find sv (c_str m))) && negb (readable doc))
      end
  | JArr l => stuck_batch JNull l
  | _ => false
  end.

(** Notifications, and requests whose id cannot be read where it is needed. *)
Definition mute (req : HttpSession.request) : bool :=
  check_auth auth_enable auth_key req &&
  match rq_verb req with Post => true | _ => false end &&
  bool_decide (rq_target req = str "/") &&
  match parse_json (rq_body req) with
  | None => false
  | Some doc =>
      match (if validate_request then match request_schema with Some accept => accept doc | None => None end else None) with
      | Some _ => negb (readable doc)
      | None => mute_document doc
      end
  end.

(** The handler of async_read: process_request, and the next read when the
    connection is kept alive. *)
Definition arrive (i : nat) (req : HttpSession.request) (now : Z) (ev : nat -> env) (n : node W X address)
  : option (node W X address) :=
  match nd_clients n !! i with
  | Some c =>
      if cl_reading c && is_open (cl_session c) then
        let b := length (nd_batches n) in
        match process_request keep_alive_setting auth_enable auth_key validate_request request_schema parse_json stringify
                parse_error (post_table ev i b) (get_table ev i b) (nd_world n, nd_calls n) (cl_session c) (nd_table n)
                (cl_address c) now req with
        | Ok ((w, calls), s, ob, t) =>
            let c' := {| cl_address := cl_address c; cl_session := s;
                         cl_reading := HttpSession.keep_alive keep_alive_setting s;
                         cl_asked := S (cl_asked c);
                         cl_mute := if mute req then S (cl_mute c) else cl_mute c;
                         cl_given := cl_given c + (length (written s) - length (written (cl_session c))) |} in
            Some {| nd_world := w; nd_table := t; nd_clients := <[i := c']> (nd_clients n);
                    nd_batches := nd_batches n ++
                      match ob with Some bt => [{| be_client := i; be_stuck := mute req; be_batch := bt |}] | None => [] end;
                    nd_calls := calls |}
        | Throw _ => None
        end
      else None
  | None => None
  end.

(** http_server::accept: a client that has access gets a session, which reads. *)
Definition accept (a : address) (is_loopback listed : bool) (now : Z) (n : node W X address) : node W X address :=
  let '(ok, t) := check_access auth_enable any_conns (nd_table n) a now is_loopback listed in
  {| nd_world := nd_world n; nd_table := t;
     nd_clients := nd_clients n ++
       (if ok : bool then [{| cl_address := a; cl_session := session_new; cl_reading := true; cl_asked := 0; cl_mute := 0;
                              cl_given := 0 |}] else []);
     nd_batches := nd_batches n; nd_calls := nd_calls n |}.

(** [None]: the event cannot happen, or what the code does is undefined. *)
Definition node_step (e : node_event address B) (n : node W X address) : option (node W X address) :=
  match e with
  | Connect a is_loopback listed now => Some (accept a is_loopback listed now n)
  | Arrive i req now ev => arrive i req now ev n
  | Reply i ev a ev' =>
      match nd_calls n !! i with
      | Some c =>
          match step_call parse_json stringify conn_pool_ttl ev a (get_pool (nd_world n)) c with
          | Some c' =>
              let n := with_calls (set_pool (call_pool c') (nd_world n)) (<[i := c']> (nd_calls n)) n in
              match drop (length (called (c_request c))) (called (c_request c')) with
              | [] => Some n
              | text :: _ => answered (c_tag c') text ev' n
              end
          | None => None
          end
      | None => None
      end
  | Work own host path body ev =>
      let c := begin_call parse_json conn_pool_ttl js Worker own host path body ev (get_pool (nd_world n)) in
      Some (with_calls (set_pool (call_pool c) (nd_world n)) (nd_calls n ++ [c]) n)
  | Monitored now assigned =>
      Some (with_calls (set_pool (monitor (get_pool (nd_world n)) now assigned) (nd_world n)) (nd_calls n) n)
  | Changed b => Some (with_calls (sv_change sv b (nd_world n)) (nd_calls n) n)
  end.

Fixpoint node_run (l : list (node_event address B)) (n : node W X address) : option (node W X address) :=
  match l with
  | [] => Some n
  | e :: l' => match node_step e n with Some n' => node_run l' n' | None => None end
  end.
End Node.
