(* ===== verification/NodeLife.v ===== *)
(** What the server owes to its clients.

    The machine of Node.v is proved against an interface: what the tables of methods
    and the callbacks promise is the class [Serving].  The invariant is a balance:
    the requests read from a connection are those that get no answer, those that
    were answered, those that wait for a call to another node, and the batches that
    are not complete.  Every step keeps it, for any order of the events. *)

From Stdlib Require Import String.
From S2P Require Import ParseAddress HttpRequest RequestLife Fleet.
From S2P Require Import Prelude Text Json SecurityManager ConnectionPool Handlers Answers BatchRequest HttpSession Node.
Open Scope Z_scope.

(** ** The callback of a call *)

Lemma execute_called callback ev s : called (HttpRequest.execute callback ev s) = called s.
Proof.
  unfold HttpRequest.execute, HttpRequest.connect, begin_attempt, reuse. rq.
  repeat (case_match; rq); done.
Qed.

(** The callback is called at most once more. *)
Definition grows (s s' : HttpRequest.request) : Prop := called s `prefix_of` called s'.

#[global] Instance grows_preorder : PreOrder grows.
Proof. split; [intros s|intros s1 s2 s3 H1 H2]; unfold grows in *; [done|by etrans]. Qed.

Lemma deliver_grows stringify d s : grows s (stop_ctx (perform_callback stringify (set_m_result d s))).
Proof.
  unfold grows, stop_ctx, perform_callback. rq. destruct (m_callback s), (m_io_ctx s) eqn:Ei; rq; rewrite ?Ei; rq;
    (done || by apply prefix_app_r).
Qed.

Section Calls.
Context {parse_json : bytes -> option json} {stringify : json -> bytes} {conn_pool_ttl : Z}.

Lemma error_handler_grows e from ev s : grows s (error_handler stringify conn_pool_ttl e from ev s).2.
Proof.
  unfold error_handler. destruct (negb _ && _); [done|]. destruct (negb _ && _); [done|]. destruct (_ <? _); cbn [snd].
  - unfold grows. by rewrite execute_called.
  - match goal with |- grows _ (stop_ctx (perform_callback _ (set_m_result ?d ?s1))) => apply (deliver_grows stringify d s1) end.
Qed.

Lemma unless_error_grows e from ev s rest :
  (forall s', called (rest s') = called s' \/ grows s' (rest s')) ->
  grows s (unless_error stringify conn_pool_ttl e from ev s rest).
Proof.
  intros Hr. unfold unless_error. pose proof (error_handler_grows e from ev s) as Hg.
  destruct (error_handler _ _ _ _ _ _) as [[] s']; [done|]. cbn [snd] in Hg.
  destruct (Hr s') as [Hs|Hs]; [unfold grows; by rewrite Hs|]. by etrans.
Qed.

Lemma step_grows ev a s s' : HttpRequest.step parse_json stringify conn_pool_ttl ev a s = Some s' -> grows s s'.
Proof.
  destruct a as [i e eps r|i fd|part]; cbn [HttpRequest.step].
  - destruct (pending s !! i) as [o|]; [|done]. case_bool_decide; [done|]. intros [= <-].
    destruct o as [|k| | |]; cbn [handle]; unfold on_resolve, on_connect, on_handshake, on_write, on_read.
    5: match goal with |- grows _ (unless_error _ _ _ _ _ ?s0 _) => apply (unless_error_grows e "on_read" ev s0) end;
       intros s'; right; match goal with |- grows _ (stop_ctx (perform_callback _ (set_m_result ?d ?s1))) =>
         apply (deliver_grows stringify d s1) end.
    all: match goal with |- grows _ (unless_error _ _ _ ?from _ ?s0 _) => apply (unless_error_grows e from ev s0) end; by left.
  - destruct (pending s !! i) as [[|[|k]| | |]|]; try done. intros [= <-]. unfold grows. by cbn.
  - destruct (m_timer s) as [t|]; [|done]. intros [= <-].
    assert (forall x, grows (arrived part s) x -> grows s x) as Ha by (unfold arrived; by destruct (existsb _ _)). apply Ha.
    clear Ha. generalize (arrived part s). clear s. intros s. unfold on_timeout.
    destruct (m_canceled _); [by unfold grows|]. destruct (_ <? _); [by unfold grows|].
    match goal with |- grows _ (stop_ctx (perform_callback _ (set_m_result ?d ?s1))) => apply (deliver_grows stringify d s1) end.
Qed.
End Calls.

(** ** Calls and what is owed *)

(** The context is among that many sessions and batches. *)
Definition exists_in (clients batches : nat) (d : destination) : Prop :=
  match d with ToSession i => (i < clients)%nat | ToBatch b => (b < batches)%nat end.

Section Owed.
Context {W X : Type}.
Abbreviation call_t := (call (waiter W X)).

Definition goes_to (d : destination) (c : call_t) : bool :=
  match c_tag c with Waiting to _ _ _ => bool_decide (to = d) | Worker => false end.
Definition unanswered (c : call_t) : bool := bool_decide (called (c_request c) = []).

(** The calls whose answer goes to [d] and has not come. *)
Definition awaited (d : destination) (l : list call_t) : nat :=
  length (List.filter (fun c => goes_to d c && unanswered c) l).

(** Those, and the answer that a handler is about to give. *)
Definition owed (o : option destination) (d : destination) (l : list call_t) : nat :=
  awaited d l + (if bool_decide (o = Some d) then 1 else 0).

Lemma awaited_app d l k : awaited d (l ++ k) = (awaited d l + awaited d k)%nat.
Proof. unfold awaited. by rewrite List.filter_app, length_app. Qed.

Lemma awaited_cons d c l : awaited d (c :: l) = ((if goes_to d c && unanswered c then 1 else 0) + awaited d l)%nat.
Proof. unfold awaited. cbn [List.filter]. by destruct (goes_to d c && unanswered c). Qed.

(** Replacing one call. *)
Lemma awaited_insert d l i c c' :
  l !! i = Some c ->
  (awaited d (<[i := c']> l) + (if goes_to d c && unanswered c then 1 else 0))%nat =
  (awaited d l + (if goes_to d c' && unanswered c' then 1 else 0))%nat.
Proof.
  revert i. induction l as [|a l IH]; intros [|i] Hi; try done; cbn in Hi.
  - injection Hi as ->. change (<[0%nat:=c']> (c :: l)) with (c' :: l). rewrite !awaited_cons. lia.
  - change (<[S i:=c']> (a :: l)) with (a :: <[i := c']> l). rewrite !awaited_cons. specialize (IH i Hi). lia.
Qed.

(** New calls of a handler for [d]. *)
Definition waits_for (d : destination) (c : call_t) : Prop :=
  c_own c = false /\ called (c_request c) = [] /\ exists m h x, c_tag c = Waiting d m h x.

Lemma awaited_new d d' l :
  Forall (waits_for d) l -> awaited d' l = if bool_decide (d = d') then length l else 0%nat.
Proof.
  induction 1 as [|c l (_ & Hc & m & h & x & Ht) Hl IH]; [by case_bool_decide|]. rewrite awaited_cons, IH.
  unfold goes_to, unanswered. rewrite Ht, Hc. case_bool_decide; done.
Qed.

(** A handler's calls run without a context of their own, and their contexts exist. *)
Definition belongs (clients batches : nat) (c : call_t) : Prop :=
  match c_tag c with
  | Worker => True
  | Waiting to _ _ _ => c_own c = false /\ exists_in clients batches to
  end.

Lemma belongs_mono n m n' m' c : (n <= n')%nat -> (m <= m')%nat -> belongs n m c -> belongs n' m' c.
Proof. unfold belongs. destruct (c_tag c) as [|[i|b] ? ? ?]; try done; cbn; intros ? ? [? ?]; (split; [done|lia]). Qed.

Lemma awaited_absent n m d l :
  Forall (belongs n m) l -> ~ exists_in n m d -> awaited d l = 0%nat.
Proof.
  intros Hl Hd. induction Hl as [|c l Hc Hl IH]; [done|]. rewrite awaited_cons, IH. unfold goes_to, belongs in *.
  destruct (c_tag c) as [|to ? ? ?]; [done|]. destruct Hc as [_ Hc]. case_bool_decide; [|done]. by subst to.
Qed.
End Owed.

(** ** Batches *)

(** The balance of a batch that is owed [o] answers. *)
Definition batch_ok (o : nat) (e : batch_entry) : Prop :=
  let b := be_batch e in
  if be_stuck e then sent b = [] /\ zlen (BatchRequest.m_result b) + Z.of_nat o < m_size b
  else (sent b = [] /\ m_size b = zlen (BatchRequest.m_result b) + Z.of_nat o /\ (0 < o)%nat) \/
       (length (sent b) = 1%nat /\ o = 0%nat).

Definition live (e : batch_entry) : bool := negb (be_stuck e) && bool_decide (sent (be_batch e) = []).
Definition open_batches (i : nat) (l : list batch_entry) : nat :=
  length (List.filter (fun e => bool_decide (be_client e = i) && live e) l).

Lemma open_batches_app i l k : open_batches i (l ++ k) = (open_batches i l + open_batches i k)%nat.
Proof. unfold open_batches. by rewrite List.filter_app, length_app. Qed.

Lemma open_batches_cons i e l :
  open_batches i (e :: l) = ((if bool_decide (be_client e = i) && live e then 1 else 0) + open_batches i l)%nat.
Proof. unfold open_batches. cbn [List.filter]. by destruct (bool_decide _ && _). Qed.

Lemma open_batches_insert i l b e e' :
  l !! b = Some e ->
  (open_batches i (<[b := e']> l) + (if bool_decide (be_client e = i) && live e then 1 else 0))%nat =
  (open_batches i l + (if bool_decide (be_client e' = i) && live e' then 1 else 0))%nat.
Proof.
  revert b. induction l as [|a l IH]; intros [|b] Hb; try done; cbn in Hb.
  - injection Hb as ->. change (<[0%nat:=e']> (e :: l)) with (e' :: l). rewrite !open_batches_cons. lia.
  - change (<[S b:=e']> (a :: l)) with (a :: <[b := e']> l). rewrite !open_batches_cons. specialize (IH b Hb). lia.
Qed.

Lemma open_batches_absent i l : Forall (fun e => (be_client e < i)%nat) l -> open_batches i l = 0%nat.
Proof.
  induction 1 as [|e l He Hl IH]; [done|]. rewrite open_batches_cons, IH. case_bool_decide; [lia|done].
Qed.

Lemma open_batches_none i l : Forall (fun e => live e = false) l -> open_batches i l = 0%nat.
Proof. induction 1 as [|e l He Hl IH]; [done|]. by rewrite open_batches_cons, IH, He, andb_false_r. Qed.

(** An answer comes. *)
Lemma batch_ok_send parse_json stringify o e text :
  batch_ok (S o) e ->
  let b := BatchRequest.send_json parse_json stringify (be_batch e) text in
  let e' := {| be_client := be_client e; be_stuck := be_stuck e; be_batch := b |} in
  batch_ok o e' /\ sent (be_batch e) = [] /\
  (length (sent b) + (if live e' then 1 else 0) = if live e then 1 else 0)%nat.
Proof.
  unfold batch_ok, live, BatchRequest.send_json, complete. cbn [push m_size BatchRequest.m_result be_batch be_stuck].
  rewrite zlen_app, zlen_cons, zlen_nil. destruct (be_stuck e).
  - intros [Hs Hr]. ztest. cbn. rewrite Hs, zlen_app, zlen_cons, zlen_nil. split_and!; [done|lia|done|done].
  - intros [(Hs & Hr & _)|[_ ?]]; [|done]. rewrite Hs. destruct (decide (o = 0%nat)) as [->|Ho].
    + assert ((m_size (be_batch e) =? zlen (BatchRequest.m_result (be_batch e)) + (1 + 0)) = true) as -> by (apply Z.eqb_eq; lia).
      cbn. rewrite Hs. split; [by right|done].
    + assert ((m_size (be_batch e) =? zlen (BatchRequest.m_result (be_batch e)) + (1 + 0)) = false) as -> by (apply Z.eqb_neq; lia).
      cbn. rewrite Hs, zlen_app, zlen_cons, zlen_nil. split; [left; split_and!; [done|lia|lia]|done].
Qed.

(** ** Entries of the tables *)

(** What the methods and workers promise: each class is [Answering], no callback lets
    an exception out, and neither a class nor a callback nor a worker touches the
    pool of connections, which the calls change. *)
Class Serving {W X B} (get_pool : W -> pool) (set_pool : pool -> W -> W) (sv : service W X B)
    (parse_json : bytes -> option json) (stringify : json -> bytes) (parse_error : bytes -> Z * bytes)
    (validate_methods : bool) (schema : option (json -> option json)) : Prop := {
  serves_answering : forall name C, sv_find sv name = Some C \/ sv_get sv name = Some C -> Answering C;
  get_set_pool : forall p w, get_pool (set_pool p w) = p;
  serves_pool : forall name C w body h r, sv_find sv name = Some C \/ sv_get sv name = Some C ->
    perform parse_json stringify parse_error validate_methods schema C w body = (h, r) -> get_pool (world h) = get_pool w;
  calls_back_pool : forall name x text h h' r,
    sv_callback sv name x text h = (h', r) -> get_pool (world h') = get_pool (world h);
  calls_back_catches : forall name x text h h' e, sv_callback sv name x text h = (h', Throw e) -> e = Undefined;
  changes_pool : forall b w, get_pool (sv_change sv b w) = get_pool w
}.

Section Life.
Context {W X B address : Type} `{Countable address}.
Context {get_pool : W -> pool} {set_pool : pool -> W -> W} {sv : service W X B}.
Context {keep_alive_setting auth_enable any_conns validate_request validate_methods : bool}.
Context {auth_key : bytes} {request_schema method_schema : option (json -> option json)}.
Context {parse_json : bytes -> option json} {stringify : json -> bytes} {parse_error : bytes -> Z * bytes}.
Context {conn_pool_ttl : Z} {js : jrpc_settings}.
Context `{!Serving get_pool set_pool sv parse_json stringify parse_error validate_methods method_schema}.
(** A bound on the endpoints of a host, and the connections in use by others. *)
Context {E : nat} {ext : list nat}.
Hypothesis attempts_range : 0 <= s_attempts js <= UINT32_MAX.

Abbreviation calls_t := (list (call (waiter W X))).
Abbreviation state := (W * calls_t)%type.

Definition fleet_of (w : W) (l : calls_t) : fleet (waiter W X) := {| f_pool := get_pool w; f_calls := l |}.
Abbreviation sound w l := (fleet_inv parse_json stringify js (E := E) (ext := ext) (fleet_of w l)).

(** A step that adds [k] calls for [d] and nothing else to the calls. *)
Definition extends (d : destination) (k : nat) (st st' : state) : Prop :=
  (sound st.1 st.2 -> sound st'.1 st'.2) /\
  exists new, st'.2 = st.2 ++ new /\ length new = k /\ Forall (waits_for d) new.

Lemma adds_calls_refl d st : extends d 0 st st.
Proof. split; [done|]. exists []. by rewrite app_nil_r. Qed.

Lemma adds_calls_trans d k k' a b c : extends d k a b -> extends d k' b c -> extends d (k + k') a c.
Proof.
  intros [H1 (n & E1 & L1 & F1)] [H2 (n' & E2 & L2 & F2)]. split; [auto|]. exists (n ++ n').
  rewrite E2, E1, app_assoc, length_app. split_and!; [done|lia|by apply Forall_app].
Qed.

(** A new call on the pool of [w]. *)
Lemma begin_extends d method h x host path body ev w calls :
  let c := begin_call parse_json conn_pool_ttl js (Waiting d method h x) false host path body ev (get_pool w) in
  extends d 1 (w, calls) (set_pool (call_pool c) w, calls ++ [c]).
Proof.
  intros c. split; cbn [fst snd].
  - intros Hs. unfold fleet_of. rewrite get_set_pool.
    by apply (fleet_step_inv parse_json stringify conn_pool_ttl js attempts_range
      (Begin (Waiting d method h x) false host path body ev) (fleet_of w calls)).
  - exists [c]. split_and!; [done|done|]. apply Forall_cons. split; [|done]. split; [done|]. split; [|by do 3 eexists].
    unfold c, begin_call. cbn [c_request]. rewrite execute_called. unfold prepared, set_body.
    destruct (parse_json body) as [doc|]; [destruct (get_id doc)|]; done.
Qed.

(** An entry that adds a call for [d] exactly when its answer comes later. *)
Definition entry_ok (d : destination) (call : entry state) : Prop :=
  forall body st st' async text, call body st = Ok (st', (async, text)) -> extends d (if async then 1 else 0) st st'.

Abbreviation new_entry := (call_entry get_pool set_pool sv validate_methods method_schema parse_json stringify parse_error
  conn_pool_ttl js).

Lemma call_entry_ok ev d name C :
  sv_find sv name = Some C \/ sv_get sv name = Some C -> entry_ok d (new_entry ev d name C).
Proof.
  intros HC body [w calls] st' async text. unfold call_entry.
  destruct (perform _ _ _ _ _ C w body) as [h [[a t]|e]] eqn:Ep; [|done].
  assert (get_pool (world h) = get_pool w) as Hp by by eapply serves_pool.
  assert (extends d 0 (w, calls) (world h, calls)) as Hx.
  { split; [|exists []; by rewrite app_nil_r]. unfold fleet_of. cbn [fst snd]. by rewrite Hp. }
  destruct a.
  - destruct (default _ _) as [path request_body]. intros [= <- <- <-]. change 1%nat with (0 + 1)%nat.
    eapply adds_calls_trans; [exact Hx|]. apply begin_extends.
  - by intros [= <- <- <-].
Qed.

Lemma call_entry_catches ev d name C body st e :
  sv_find sv name = Some C \/ sv_get sv name = Some C -> new_entry ev d name C body st = Throw e -> e = Undefined.
Proof.
  intros HC%serves_answering. destruct st as [w calls]. unfold call_entry.
  destruct (perform _ _ _ _ _ C w body) as [h [[[] t]|e']] eqn:Ep; [by destruct (default _ _)|done|].
  intros [= <-]. by eapply perform_catches.
Qed.

(** ** process of a batch *)

Section Process.
Variable handlers : bytes -> option (entry state).
Variable d : destination.
Hypothesis entries_ok : forall name call, handlers name = Some call -> entry_ok d call.
Hypothesis entries_catch : forall name call, handlers name = Some call -> forall body st e, call body st = Throw e -> e = Undefined.
Hypothesis same_names : forall name, found (handlers name) = found (sv_find sv name).

Abbreviation stuck := (stuck_document sv).
Abbreviation stuck_batch := (stuck_batch sv parse_json stringify).

(** One element: the answers that are missing for [m_size] grow by the calls. *)
Lemma process_item_balance st b w v st' b' w' :
  process_item parse_json stringify handlers st b w v = Ok (st', b', w') -> 0 < m_size b < 2 ^ 32 ->
  w'.1 = parsed parse_json w.1 (stringify v) /\ stuck (parsed parse_json w.1 (stringify v)) = false /\ sent b' = sent b /\
  exists k, extends d k st st' /\
    m_size b' - zlen (BatchRequest.m_result b') - Z.of_nat k = m_size b - zlen (BatchRequest.m_result b) - 1 /\
    m_size b - 1 <= m_size b' <= m_size b.
Proof.
  intros Hp Hb. unfold stuck_document. unfold process_item in Hp.
  assert (forall a, exists k, extends d k st st /\
    m_size (push b a) - zlen (BatchRequest.m_result (push b a)) - Z.of_nat k
      = m_size b - zlen (BatchRequest.m_result b) - 1 /\ m_size b - 1 <= m_size (push b a) <= m_size b) as Hnow.
  { intros a. exists 0%nat. split; [apply adds_calls_refl|]. cbn. rewrite zlen_app, zlen_cons, zlen_nil. lia. }
  destruct (IsObject _); cbn [negb andb] in *; [|by injection Hp as <- <- <-].
  destruct (get_value_str _ _) as [m|]; [|by injection Hp as <- <- <-].
  destruct (has_id _); cbn [negb andb] in *.
  2:{ injection Hp as <- <- <-. split_and!; try done. exists 0%nat. split; [apply adds_calls_refl|]. cbn.
      assert (u32 (m_size b - 1) = m_size b - 1) as -> by (apply Z.mod_small; lia). lia. }
  rewrite <- same_names. destruct (handlers (c_str m)) as [call|] eqn:Eh; cbn [found negb andb].
  - apply bind_Ok in Hp as ([st1 [async text]] & Ec & Hp). apply (entries_ok _ _ Eh) in Ec.
    destruct async; injection Hp as <- <- <-; (split; [done|]); (split; [done|]); (split; [done|]); eexists; (split; [exact Ec|]); cbn;
      rewrite ?zlen_app, ?zlen_cons, ?zlen_nil; lia.
  - apply bind_Ok in Hp as (id & Ei & Hp). injection Hp as <- <- <-. unfold readable. by rewrite Ei.
Qed.

Lemma process_item_throws st b w v e :
  process_item parse_json stringify handlers st b w v = Throw e -> e <> Undefined ->
  stuck (parsed parse_json w.1 (stringify v)) = true.
Proof.
  intros Hp He. unfold stuck_document, process_item in *.
  destruct (IsObject _); cbn [negb andb] in *; [|done]. destruct (get_value_str _ _) as [m|]; [|done].
  destruct (has_id _); cbn [negb andb] in *; [|done]. rewrite <- same_names.
  destruct (handlers (c_str m)) as [call|] eqn:Eh; cbn [found negb andb].
  - destruct (call _ st) as [[st1 [[] text]]|e1] eqn:Ec; cbn in Hp; try done. injection Hp as <-.
    by destruct (He (entries_catch _ _ Eh _ _ _ Ec)).
  - unfold readable. by destruct (get_id _).
Qed.

Lemma process_loop_balance l st b w st' b' ok :
  process_loop parse_json stringify handlers st b w l = Ok (st', b', ok) -> zlen l <= m_size b < 2 ^ 32 ->
  sent b' = sent b /\ ok = negb (stuck_batch w.1 l) /\
  exists k, extends d k st st' /\
    let left := m_size b' - zlen (BatchRequest.m_result b') - Z.of_nat k in
    let before := m_size b - zlen (BatchRequest.m_result b) - zlen l in
    if ok then left = before else before < left.
Proof.
  revert st b w. induction l as [|v l IH]; intros st b w Hp Hb; cbn [process_loop Node.stuck_batch] in *.
  { injection Hp as <- <- <-. split_and!; try done. exists 0%nat. split; [apply adds_calls_refl|]. unfold zlen in *; cbn; lia. }
  rewrite zlen_cons in *. pose proof (zlen_nonneg l).
  destruct (process_item _ _ _ st b w v) as [[[st1 b1] w1]|e] eqn:Ei.
  - destruct (process_item_balance _ _ _ _ _ _ _ Ei) as (Ew & Es & Hs & k & Hx & Hk & Hm); [lia|]. cbv zeta. rewrite Es.
    destruct (IH st1 b1 w1 Hp) as (Hs' & -> & k' & Hx' & Hk'); [lia|]. rewrite Hs'. rewrite Ew in *. split_and!; try done.
    exists (k + k')%nat. split; [by eapply adds_calls_trans|]. cbv zeta in *. cbn [orb]. destruct (negb _); lia.
  - assert (e <> Undefined /\ st' = st /\ b' = b /\ ok = false) as (He & -> & -> & ->) by (destruct e; try discriminate Hp; by injection Hp as <- <- <-).
    rewrite (process_item_throws _ _ _ _ _ Ei He). split_and!; try done. exists 0%nat. split; [apply adds_calls_refl|]. cbn. lia.
Qed.

(** What [process] leaves: a batch that waits for its calls, or that is done. *)
Lemma process_balance i l st st' b :
  process parse_json stringify handlers st batch_new l = Ok (st', b) -> zlen l < 2 ^ 32 ->
  exists k, extends d k st st' /\ batch_ok k {| be_client := i; be_stuck := stuck_batch JNull l; be_batch := b |}.
Proof.
  intros Hp Hl. unfold process in Hp. case_bool_decide as Hn.
  { injection Hp as <- <-. subst l. exists 0%nat. split; [apply adds_calls_refl|]. cbn. by right. }
  pose proof (zlen_nonneg l). assert (u32 (zlen l) = zlen l) as Eu by (apply Z.mod_small; lia). rewrite Eu in Hp.
  apply bind_Ok in Hp as ([[st1 b1] ok] & Ep & Hp). injection Hp as <- <-.
  apply process_loop_balance in Ep as (Hs & -> & k & Hx & Hk); [|cbn; lia]. change (fst documents_new) with JNull in *.
  cbn in Hk. change (zlen (@nil json)) with 0 in Hk.
  exists k. split; [done|]. unfold batch_ok. cbn [be_stuck be_batch]. destruct (stuck_batch JNull l); cbn [negb] in *.
  - split; [done|lia].
  - unfold complete. destruct (Z.eqb_spec (m_size b1) (zlen (BatchRequest.m_result b1))).
    + right. cbn. rewrite Hs. cbn. split; [done|lia].
    + left. rewrite Hs. split; [done|lia].
Qed.
End Process.

(** ** Requests of a session *)

Abbreviation send := (HttpSession.send_response keep_alive_setting).

Lemma send_written s status ct body :
  is_open s = true -> length (written (send s status ct body)) = S (length (written s)).
Proof.
  intros Ho. unfold HttpSession.send_response. rewrite Ho. destruct (negb _); cbn; rewrite length_app; cbn; lia.
Qed.

Lemma send_open s status ct body : is_open (send s status ct body) = true -> is_open s = true.
Proof. unfold HttpSession.send_response. destruct (is_open s) eqn:Eo; [done|]. destruct (negb _); cbn; congruence. Qed.

(** A request that does not become a batch: one answer, or one call, or none when it
    is mute. *)
Definition single (i : nat) (m : bool) (s : session) (st : state) (r : state * session) : Prop :=
  exists k, extends (ToSession i) k st r.1 /\
    (length (written r.2) + k + (if m then 1 else 0) = S (length (written s)) /\
     length (written s) <= length (written r.2))%nat.

Lemma single_sent i s st status ct body : is_open s = true -> single i false s st (st, send s status ct body).
Proof. intros Ho. exists 0%nat. split; [apply adds_calls_refl|]. cbn [snd]. rewrite send_written by done. lia. Qed.

Lemma single_mute i s st : single i true s st (st, s).
Proof. exists 0%nat. split; [apply adds_calls_refl|]. cbn. lia. Qed.

Lemma dispatch_single i call st s body r :
  is_open s = true -> entry_ok (ToSession i) call -> dispatch keep_alive_setting call st s body = Ok r ->
  single i false s st r.
Proof.
  intros Ho Hc Hd. unfold dispatch in Hd. apply bind_Ok in Hd as ([st1 [async text]] & Ec & [= <-]).
  apply Hc in Ec. eexists. split; [exact Ec|]. destruct async; cbn [snd]; [lia|]. unfold HttpSession.send_json.
  rewrite send_written by done. lia.
Qed.

Abbreviation post ev i b := (post_table get_pool set_pool sv validate_methods method_schema parse_json stringify parse_error
  conn_pool_ttl js ev i b).
Abbreviation getter ev i b := (get_table get_pool set_pool sv validate_methods method_schema parse_json stringify parse_error
  conn_pool_ttl js ev i b).

Lemma post_ok ev i b ctx name call :
  post ev i b ctx name = Some call ->
  entry_ok (match ctx with ThisSession => ToSession i | ThisBatch => ToBatch b end) call /\
  forall body st e, call body st = Throw e -> e = Undefined.
Proof.
  unfold post_table. destruct (sv_find sv name) as [C|] eqn:EC; [|done]. intros [= <-]. split.
  - apply call_entry_ok. by left.
  - intros body st e. apply call_entry_catches. by left.
Qed.

Lemma get_ok ev i b name call : getter ev i b ThisSession name = Some call -> entry_ok (ToSession i) call.
Proof.
  unfold get_table. destruct (sv_get sv name) as [C|] eqn:EC; [|done]. intros [= <-]. apply call_entry_ok. by right.
Qed.

Lemma post_names ev i b ctx name : found (post ev i b ctx name) = found (sv_find sv name).
Proof. unfold post_table. by destruct (sv_find sv name). Qed.

Lemma single_request_balance ev i b st s l body r :
  is_open s = true ->
  process_single_request keep_alive_setting stringify (post ev i b) st s (JObj l) body = Ok r ->
  single i (mute_document sv parse_json stringify (JObj l)) s st r.
Proof.
  intros Ho. unfold process_single_request, mute_document. destruct (get_value_str _ _) as [m|].
  2:{ unfold readable. destruct (get_id _); intros [= <-]; [by apply single_sent|apply single_mute]. }
  destruct (has_id _); cbn [negb orb]; [|intros [= <-]; apply single_mute].
  rewrite <- (post_names ev i b ThisSession).
  destruct (post ev i b ThisSession (c_str m)) as [call|] eqn:Eh; cbn [found negb andb].
  - apply dispatch_single; [done|]. by apply post_ok in Eh as [? _].
  - unfold readable. destruct (get_id _); intros [= <-]; [by apply single_sent|apply single_mute].
Qed.

Lemma get_request_balance ev i b st s req r :
  is_open s = true -> process_get_request keep_alive_setting stringify (getter ev i b) st s req = Ok r ->
  single i false s st r.
Proof.
  intros Ho. unfold process_get_request. destruct (_ <? 2); [intros [= <-]; by apply single_sent|].
  intros ([method params] & _ & Hr)%bind_Ok. destruct (getter ev i b ThisSession method) as [call|] eqn:Eh.
  - revert Hr. apply dispatch_single; [done|]. by eapply get_ok.
  - injection Hr as <-. by apply single_sent.
Qed.

(** What reading a request does: one answer, call or batch. *)
Definition read_balance (i b : nat) (m : bool) (s : session) (st : state) (r : state * session * option batch) : Prop :=
  let '(st', s', ob) := r in
  match ob with
  | None => single i m s st (st', s')
  | Some bt => exists k, extends (ToBatch b) k st st' /\
      batch_ok k {| be_client := i; be_stuck := m; be_batch := bt |} /\
      length (written s') = (length (written s) + length (sent bt))%nat
  end.

Lemma no_batch_balance i b m s st r p :
  (forall q, r = Ok q -> single i m s st q) -> no_batch r = Ok p -> read_balance i b m s st p.
Proof. intros Hr. unfold no_batch. intros ([w s'] & E1 & [= <-])%bind_Ok. by apply Hr. Qed.

Lemma batch_balance ev i b st s l st' s' bt :
  is_open s = true -> zlen l < 2 ^ 32 ->
  process_batch_request keep_alive_setting parse_json stringify (post ev i b) st s l = Ok (st', s', bt) ->
  read_balance i b (Node.stuck_batch sv parse_json stringify JNull l) s st (st', s', Some bt).
Proof.
  intros Ho Hl. unfold process_batch_request. intros ([st1 b1] & Ep & [= <- <- <-])%bind_Ok.
  destruct (process_balance (post ev i b ThisBatch) (ToBatch b)) with (i := i) (4 := Ep) as (k & Hx & Hk); try done.
  - intros name call Hh. by apply post_ok in Hh as [? _].
  - intros name call Hh. by apply post_ok in Hh as [_ ?].
  - intros name. apply post_names.
  - exists k. split_and!; [done|done|]. unfold batch_ok in Hk. cbn in Hk.
    assert ((length (sent b1) <= 1)%nat) as Hs by (destruct (Node.stuck_batch sv parse_json stringify JNull l); [destruct Hk as [-> _]; cbn; lia|];
      destruct Hk as [(-> & _)|[-> _]]; cbn; lia).
    destruct (sent b1) as [|x [|y r]]; cbn in *; [lia| |lia]. unfold HttpSession.send_json. rewrite send_written by done. lia.
Qed.

Abbreviation handle_request ev i b := (process_request (address := address) keep_alive_setting auth_enable auth_key
  validate_request request_schema parse_json stringify parse_error (post ev i b) (getter ev i b)).
Abbreviation mute_request := (mute sv auth_enable validate_request auth_key request_schema parse_json stringify).

Lemma post_balance ev i b st s req r :
  is_open s = true -> rq_verb req = Post -> check_auth auth_enable auth_key req = true ->
  (forall l, parse_json (rq_body req) = Some (JArr l) -> zlen l < 2 ^ 32) ->
  process_post_request keep_alive_setting validate_request request_schema parse_json stringify parse_error (post ev i b) st s req
    = Ok r ->
  read_balance i b (mute_request req) s st r.
Proof.
  intros Ho Hv Hau Hl. unfold process_post_request, mute. rewrite Hau, Hv. case_bool_decide; cbn [negb andb].
  2:{ intros [= <-]. by apply single_sent. }
  destruct (parse_json (rq_body req)) as [doc|]; [|intros [= <-]; by apply single_sent].
  destruct (if validate_request then _ else _).
  { unfold readable. destruct (get_id doc); intros [= <-]; [by apply single_sent|apply single_mute]. }
  destruct doc as [| | | | |l|l]; cbn [process_document mute_document];
    try (intros [= <-]; by apply single_sent).
  - intros ([[st1 s1] b1] & Ep & [= <-])%bind_Ok. by eapply batch_balance; [|apply Hl|].
  - apply no_batch_balance. intros q. by apply single_request_balance.
Qed.

Lemma request_balance ev i b st s t a now req st' s' ob t' :
  is_open s = true -> (forall l, parse_json (rq_body req) = Some (JArr l) -> zlen l < 2 ^ 32) ->
  handle_request ev i b st s t a now req = Ok (st', s', ob, t') ->
  read_balance i b (mute_request req) s st (st', s', ob).
Proof.
  intros Ho Hl. unfold process_request. destruct (check_auth _ _ req) eqn:Hau; cbn [negb].
  2:{ intros [= <- <- <- <-]. unfold mute. rewrite Hau. by apply (single_sent i (set_keep s (m_http_ver s) false)). }
  set (s1 := set_keep _ _ _). intros ([[st1 s2] ob1] & Er & [= <- <- <- <-])%bind_Ok.
  change (read_balance i b (mute_request req) s1 st (st1, s2, ob1)). destruct (rq_verb req) eqn:Hv.
  - by apply (post_balance ev i b st s1 req).
  - assert (mute_request req = false) as -> by (unfold mute; rewrite Hv, Hau; done).
    revert Er. apply no_batch_balance. intros q. by apply get_request_balance.
  - assert (mute_request req = false) as -> by (unfold mute; rewrite Hv, Hau; done).
    injection Er as <- <- <-. by apply (single_sent i s1).
Qed.

(** *** Exceptions *)

Lemma process_loop_throws (handlers : bytes -> option (entry state)) l st b d e :
  process_loop parse_json stringify handlers st b d l = Throw e -> e = Undefined.
Proof.
  revert st b d. induction l as [|v l IH]; intros st b d; cbn [process_loop]; [done|].
  destruct (process_item _ _ handlers st b d v) as [[[st1 b1] d1]|[]]; try done; [apply IH|by intros [= <-]].
Qed.

Lemma batch_throws (handlers : context -> bytes -> option (entry state)) st s l e :
  process_batch_request keep_alive_setting parse_json stringify handlers st s l = Throw e -> e = Undefined.
Proof.
  unfold process_batch_request, process. intros [Hp|([] & _ & [=])]%bind_Throw. revert Hp.
  case_bool_decide; [done|]. intros [Hp%process_loop_throws|([[] ] & _ & [=])]%bind_Throw. done.
Qed.

Lemma dispatch_throws (call : entry state) st s body e :
  (forall body st e, call body st = Throw e -> e = Undefined) ->
  dispatch keep_alive_setting call st s body = Throw e -> e = Undefined.
Proof. intros Hc. unfold dispatch. destruct (call _ st) as [[st1 [[] text]]|e1] eqn:Ec; cbn; try done. intros [= <-]. by eapply Hc. Qed.

Lemma post_throws ev i b st s req e :
  process_post_request keep_alive_setting validate_request request_schema parse_json stringify parse_error (post ev i b) st s req
    = Throw e -> e = Undefined.
Proof.
  unfold process_post_request. destruct (negb _); [done|]. destruct (parse_json _) as [doc|]; [|done].
  destruct (if validate_request then _ else _); [by destruct (get_id doc)|]. unfold process_document.
  destruct doc as [| | | | |l|ms]; try by destruct (get_id _).
  - intros [Hb%batch_throws|([[]] & _ & [=])]%bind_Throw. done.
  - unfold no_batch. intros [Hs|([] & _ & [=])]%bind_Throw. revert Hs. unfold process_single_request.
    destruct (get_value_str _ _) as [m|]; [|by destruct (get_id _)]. destruct (negb _); [done|].
    destruct (post ev i b ThisSession (c_str m)) as [call|] eqn:Eh; [|by destruct (get_id _)].
    apply dispatch_throws. by apply post_ok in Eh as [_ ?].
Qed.

Lemma getter_catches ev i b ctx name call :
  getter ev i b ctx name = Some call -> forall body st e, call body st = Throw e -> e = Undefined.
Proof.
  unfold get_table. destruct (sv_get sv name) as [C|] eqn:EC; [|done]. intros [= <-] body st e. apply call_entry_catches. by right.
Qed.

(** No exception leaves the handling of a request. *)
Lemma request_throws ev i b st s t a now req e :
  handle_request ev i b st s t a now req = Throw e -> e = Undefined.
Proof.
  unfold process_request. destruct (negb _); [done|]. set (s1 := set_keep s _ _).
  intros [Hv|(r & _ & [=])]%bind_Throw. destruct (rq_verb req); [by eapply post_throws| |done].
  unfold no_batch in Hv. apply bind_Throw in Hv as [Hv|([] & _ & [=])]. revert Hv. unfold process_get_request.
  destruct (_ <? _); [done|]. intros [Hv|([method params] & _ & Hv)]%bind_Throw.
  - revert Hv. unfold split_target. destruct (split_at _ _) as [[[] ?]|]; [by intros [= <-]|done|].
    destruct (rq_target req); [by intros [= <-]|done].
  - destruct (getter ev i b ThisSession method) as [call|] eqn:Eg; [|done]. eapply dispatch_throws, Hv.
    exact (getter_catches _ _ _ _ _ _ Eg).
Qed.

(** ** The invariant *)

(** The balance of a connection that is owed [o] answers and has [b] open batches. *)
Definition client_ok (o b : nat) (c : client address) : Prop :=
  cl_asked c = (cl_mute c + cl_given c + o + b)%nat /\
  (is_open (cl_session c) = true -> length (written (cl_session c)) = cl_given c).

(** The node, with an answer that a handler is about to give ([o]). *)
Record node_inv (o : option destination) (n : node W X address) : Prop := {
  ni_sound : sound (nd_world n) (nd_calls n);
  ni_clients : forall i c, nd_clients n !! i = Some c ->
    client_ok (owed o (ToSession i) (nd_calls n)) (open_batches i (nd_batches n)) c;
  ni_batches : forall b e, nd_batches n !! b = Some e ->
    (be_client e < length (nd_clients n))%nat /\ batch_ok (owed o (ToBatch b) (nd_calls n)) e;
  ni_calls : Forall (belongs (length (nd_clients n)) (length (nd_batches n))) (nd_calls n)
}.

Lemma owed_none d (l : calls_t) : owed None d l = awaited d l.
Proof. unfold owed. rewrite bool_decide_eq_false_2 by done. lia. Qed.
Lemma owed_same d (l : calls_t) : owed (Some d) d l = S (awaited d l).
Proof. unfold owed. rewrite bool_decide_eq_true_2 by done. lia. Qed.
Lemma owed_other d d' (l : calls_t) : d <> d' -> owed (Some d) d' l = awaited d' l.
Proof. intros Hd. unfold owed. rewrite bool_decide_eq_false_2 by congruence. lia. Qed.

Lemma client_ok_move o b o' b' c : (o + b = o' + b')%nat -> client_ok o b c -> client_ok o' b' c.
Proof. intros Hm [Hb Hw]. split; [lia|done]. Qed.

(** send_json of a session. *)
Lemma client_ok_give o b c text :
  client_ok (S o) b c ->
  client_ok o b {| cl_address := cl_address c; cl_session := HttpSession.send_json keep_alive_setting (cl_session c) text;
                   cl_reading := cl_reading c; cl_asked := cl_asked c; cl_mute := cl_mute c; cl_given := S (cl_given c) |}.
Proof.
  intros [Hb Hw]. split; cbn [cl_asked cl_mute cl_given cl_session]; [lia|]. intros Ho.
  apply send_open in Ho as Ho'. unfold HttpSession.send_json. rewrite send_written by done. auto.
Qed.

Lemma give_inv i text (n : node W X address) :
  node_inv (Some (ToSession i)) n -> (i < length (nd_clients n))%nat -> node_inv None (give keep_alive_setting i text n).
Proof.
  intros [Hs Hc Hb Hl] Hi. unfold give. destruct (lookup_lt_is_Some_2 _ _ Hi) as [c0 Ei]. rewrite Ei.
  split; cbn [nd_world nd_clients nd_batches nd_calls with_client]; rewrite ?length_insert; [done| | |done].
  - intros j c Hj. rewrite owed_none. destruct (decide (i = j)) as [<-|Hne].
    + rewrite list_lookup_insert_eq in Hj by done. injection Hj as <-. apply client_ok_give. rewrite <- owed_same.
      by apply Hc.
    + rewrite list_lookup_insert_ne in Hj by done. rewrite <- (owed_other (ToSession i)) by congruence. by apply Hc.
  - intros b e He. rewrite owed_none, <- (owed_other (ToSession i)) by done. by apply Hb.
Qed.

(** An answer for a batch, which the batch keeps or hands to the session. *)
Lemma batch_inv b e text (n : node W X address) :
  node_inv (Some (ToBatch b)) n -> nd_batches n !! b = Some e ->
  let bt := BatchRequest.send_json parse_json stringify (be_batch e) text in
  let n' := with_batch b {| be_client := be_client e; be_stuck := be_stuck e; be_batch := bt |} n in
  sent (be_batch e) = [] /\
  match sent bt with
  | [] => node_inv None n'
  | [_] => node_inv (Some (ToSession (be_client e))) n'
  | _ => False
  end.
Proof.
  intros [Hs Hc Hb Hl] He bt n'. destruct (Hb b e He) as [Hcl Hok]. rewrite owed_same in Hok.
  destruct (batch_ok_send parse_json stringify _ e text Hok) as (Hok' & Hn & Hlen). split; [done|].
  cbv zeta in Hok', Hlen. fold bt in Hok', Hlen. set (e' := {| be_client := _; be_batch := bt |}) in *.
  set (o := match sent bt with [] => None | _ => Some (ToSession (be_client e)) end).
  assert (length (sent bt) <= 1)%nat as Hle by (destruct (live e); lia).
  assert (forall d (l : calls_t),
    owed o d l = (awaited d l + (if bool_decide (d = ToSession (be_client e)) then length (sent bt) else 0))%nat) as Ho.
  { intros d l. unfold o. destruct (sent bt) as [|x [|]]; cbn in Hle; [|unfold owed|lia].
    - rewrite owed_none. case_bool_decide; cbn; lia.
    - cbn [length]. do 2 case_bool_decide; congruence || lia. }
  assert (node_inv o n') as Hi; [|unfold o in Hi; by destruct (sent bt) as [|x [|]]; cbn in Hle; [| |lia]].
  split; cbn [nd_world nd_clients nd_batches nd_calls with_batch n']; rewrite ?length_insert; [done| | |done].
  - intros i c Hi. eapply client_ok_move; [|by apply Hc]. rewrite Ho, owed_other by done.
    pose proof (open_batches_insert i (nd_batches n) b e e' He) as Hx. change (be_client e') with (be_client e) in Hx.
    destruct (decide (be_client e = i)) as [<-|Hne].
    + rewrite !(bool_decide_eq_true_2) in * by done. cbn [andb] in Hx. destruct (live e), (live e'); lia.
    + rewrite !(bool_decide_eq_false_2) in * by congruence. cbn [andb] in Hx. lia.
  - intros b' e1 He1. rewrite Ho, bool_decide_eq_false_2, Nat.add_0_r by done. destruct (decide (b = b')) as [<-|Hne].
    + rewrite list_lookup_insert_eq in He1 by (by eapply lookup_lt_Some). by injection He1 as <-.
    + rewrite list_lookup_insert_ne in He1 by done. rewrite <- (owed_other (ToBatch b)) by congruence. by apply Hb.
Qed.

Definition reachable (n : node W X address) (d : destination) : Prop :=
  exists_in (length (nd_clients n)) (length (nd_batches n)) d.

Lemma deliver_inv d text (n : node W X address) :
  node_inv (Some d) n -> reachable n d -> node_inv None (deliver keep_alive_setting parse_json stringify d text n).
Proof.
  intros Hi Hd. destruct d as [i|b]; cbn [deliver]; [by apply give_inv|].
  destruct (lookup_lt_is_Some_2 _ _ Hd) as [e He]. rewrite He. destruct (batch_inv b e text n Hi He) as [-> Hs].
  cbn [drop length]. destruct (sent _) as [|x [|]]; cbn [fold_left]; [done| |done].
  apply give_inv; [done|]. by apply (ni_batches _ _ Hi b e He).
Qed.

(** ** Steps *)

Lemma node_inv_extends o d k (n : node W X address) w l nc nb :
  node_inv o n -> extends d k (nd_world n, nd_calls n) (w, l) ->
  (length (nd_clients n) <= nc)%nat -> (length (nd_batches n) <= nb)%nat -> exists_in nc nb d ->
  sound w l /\ Forall (belongs nc nb) l /\
  forall d', awaited d' l = (awaited d' (nd_calls n) + if bool_decide (d = d') then k else 0)%nat.
Proof.
  intros [Hs _ _ Hl] [H1 (new & E1 & <- & Hf)] Hc Hb Hd. cbn [fst snd] in *. subst l. split; [by apply H1|]. split.
  - apply Forall_app. split; [by eapply Forall_impl; [exact Hl|]; intros; eapply belongs_mono|].
    eapply Forall_impl; [exact Hf|]. intros c (Ho & _ & m & h & x & Ht). unfold belongs. by rewrite Ht.
  - intros d'. by rewrite awaited_app, (awaited_new d d' new).
Qed.

(** A handler that hands over another request instead of an answer. *)
Lemma hand_over_inv d (n : node W X address) w l :
  node_inv (Some d) n -> reachable n d -> extends d 1 (nd_world n, nd_calls n) (w, l) ->
  node_inv None (with_calls w l n).
Proof.
  intros Hi Hd Hx. destruct (node_inv_extends _ _ _ _ _ _ _ _ Hi Hx (le_n _) (le_n _) Hd) as (H1 & H2 & H3). destruct Hi as [_ Hc Hb _].
  assert (forall d', owed None d' l = owed (Some d) d' (nd_calls n)) as Eo.
  { intros d'. rewrite owed_none, H3. unfold owed. do 2 case_bool_decide; congruence || lia. }
  split; cbn [nd_world nd_clients nd_batches nd_calls with_calls]; [done| | |done].
  - intros i c Hi. rewrite Eo. by apply Hc.
  - intros b e He. rewrite Eo. by apply Hb.
Qed.

(** The world of the handler replaces the world. *)
Lemma node_inv_world o (n : node W X address) w :
  get_pool w = get_pool (nd_world n) -> node_inv o n -> node_inv o (with_calls w (nd_calls n) n).
Proof. intros Hw [Hs Hc Hb Hl]. split; cbn; try done. unfold fleet_of. by rewrite Hw. Qed.

Abbreviation callback := (answered get_pool set_pool sv keep_alive_setting parse_json stringify conn_pool_ttl js).

Lemma answered_inv to method h x text ev n n' :
  node_inv (Some to) n -> reachable n to -> callback (Waiting to method h x) text ev n = Some n' -> node_inv None n'.
Proof.
  intros Hi Hd. cbn [answered]. destruct (sv_callback sv method x text _) as [h' [[out|]|e]] eqn:Ec; [| |done].
  - intros [= <-]. apply calls_back_pool in Ec. cbn in Ec. apply deliver_inv; [|done]. by apply node_inv_world.
  - destruct (List.last _ _) as [path body]. intros [= <-]. apply calls_back_pool in Ec. cbn in Ec.
    eapply (hand_over_inv to (with_calls (world h') (nd_calls n) n)); [by apply node_inv_world|done|]. apply begin_extends.
Qed.

Lemma accept_inv a is_loopback listed now (n : node W X address) :
  node_inv None n -> node_inv None (accept auth_enable any_conns a is_loopback listed now n).
Proof.
  intros [Hs Hc Hb Hl]. unfold accept. destruct (check_access _ _ _ _ _ _ _) as [ok t].
  set (new := if ok then _ else _).
  split; cbn [nd_world nd_clients nd_batches nd_calls]; [done| | |].
  - intros i c [Hi|[Hlen Hi]]%lookup_app_Some; [by apply Hc|]. rewrite owed_none.
    assert (awaited (ToSession i) (nd_calls n) = 0%nat) as -> by (eapply awaited_absent; [exact Hl|]; cbn; lia).
    assert (open_batches i (nd_batches n) = 0%nat) as ->.
    { apply open_batches_absent, Forall_lookup. intros b e He. destruct (Hb b e He). lia. }
    unfold new in Hi. destruct ok; [|done]. apply list_lookup_singleton_Some in Hi as [_ <-]. by split.
  - intros b e He. destruct (Hb b e He) as [H1 H2]. rewrite length_app. split; [lia|done].
  - eapply Forall_impl; [exact Hl|]. intros c. rewrite length_app. apply belongs_mono; lia.
Qed.

Abbreviation arrival := (arrive get_pool set_pool sv keep_alive_setting auth_enable validate_request validate_methods auth_key
  request_schema method_schema parse_json stringify parse_error conn_pool_ttl js).

(** The node after a request of connection [i] was read. *)
Definition read (i : nat) (c : client address) (m : bool) (w : W) (l : calls_t) (s : session) (bs : list batch_entry)
    (t : gmap address addr_info) (n : node W X address) : node W X address :=
  let c' := {| cl_address := cl_address c; cl_session := s; cl_reading := HttpSession.keep_alive keep_alive_setting s;
               cl_asked := S (cl_asked c); cl_mute := if m then S (cl_mute c) else cl_mute c;
               cl_given := cl_given c + (length (written s) - length (written (cl_session c))) |} in
  {| nd_world := w; nd_table := t; nd_clients := <[i := c']> (nd_clients n); nd_batches := nd_batches n ++ bs; nd_calls := l |}.

Lemma read_batch_inv i c m w l s bt t k (n : node W X address) :
  node_inv None n -> nd_clients n !! i = Some c -> is_open (cl_session c) = true ->
  extends (ToBatch (length (nd_batches n))) k (nd_world n, nd_calls n) (w, l) ->
  let e := {| be_client := i; be_stuck := m; be_batch := bt |} in
  batch_ok k e -> length (written s) = (length (written (cl_session c)) + length (sent bt))%nat ->
  node_inv None (read i c m w l s [e] t n).
Proof.
  intros Hi Ei Eo Hx e0 Hok Hlen. subst e0. pose proof (lookup_lt_Some _ _ _ Ei) as Hlt.
  destruct (ni_clients _ _ Hi i c Ei) as [Hb Hw]. rewrite owed_none in Hb. specialize (Hw Eo).
  assert (awaited (ToBatch (length (nd_batches n))) (nd_calls n) = 0%nat) as H0.
  { eapply awaited_absent; [apply Hi|]. cbn. lia. }
  destruct (node_inv_extends _ _ _ _ _ _ (length (nd_clients n)) (S (length (nd_batches n))) Hi Hx) as (H1 & H2 & H3);
    [lia|lia|cbn; lia|].
  split; cbn [nd_world nd_clients nd_batches nd_calls read]; rewrite ?length_insert, ?length_app, ?Nat.add_1_r; [done| | |done].
  - intros j c' Hj. rewrite owed_none, H3, bool_decide_eq_false_2, open_batches_app by done.
    unfold open_batches at 2. cbn [List.filter be_client]. destruct (decide (i = j)) as [<-|Hne].
    + rewrite list_lookup_insert_eq in Hj by done. injection Hj as <-. rewrite bool_decide_eq_true_2 by done.
      unfold live, batch_ok in *. cbn [be_stuck be_batch andb] in *. split; cbn [cl_asked cl_mute cl_given cl_session]; [|lia].
      destruct m; [destruct Hok as [Hs _]; rewrite Hs in *; cbn in *; lia|].
      destruct Hok as [(Hs & _)|[Hs _]]; [rewrite Hs in *; cbn in *; lia|].
      rewrite bool_decide_eq_false_2 by (intros E0; by rewrite E0 in Hs). cbn. lia.
    + rewrite list_lookup_insert_ne in Hj by done. rewrite bool_decide_eq_false_2 by done. cbn.
      eapply client_ok_move; [|by apply Hi]. rewrite owed_none. lia.
  - intros b e [He|[Hge He]]%lookup_app_Some.
    + destruct (ni_batches _ _ Hi b e He) as [Hb1 Hb2]. split; [done|]. rewrite owed_none, H3 in *.
      apply lookup_lt_Some in He. rewrite bool_decide_eq_false_2, Nat.add_0_r by (intros [= E0]; lia). done.
    + apply list_lookup_singleton_Some in He as [Hz <-]. split; [done|]. replace b with (length (nd_batches n)) by lia.
      rewrite owed_none, H3, bool_decide_eq_true_2, H0 by done. done.
Qed.

Lemma read_single_inv i c (m : bool) w l s t k (n : node W X address) :
  node_inv None n -> nd_clients n !! i = Some c -> is_open (cl_session c) = true ->
  extends (ToSession i) k (nd_world n, nd_calls n) (w, l) ->
  (length (written s) + k + (if m then 1 else 0))%nat = S (length (written (cl_session c))) ->
  (length (written (cl_session c)) <= length (written s))%nat ->
  node_inv None (read i c m w l s [] t n).
Proof.
  intros Hi Ei Eo Hx Hlen Hle. pose proof (lookup_lt_Some _ _ _ Ei) as Hlt.
  destruct (ni_clients _ _ Hi i c Ei) as [Hb Hw]. rewrite owed_none in Hb. specialize (Hw Eo).
  destruct (node_inv_extends _ _ _ _ _ _ _ _ Hi Hx (le_n _) (le_n _) Hlt) as (H1 & H2 & H3).
  split; cbn [nd_world nd_clients nd_batches nd_calls read]; rewrite ?length_insert, ?app_nil_r; [done| | |done].
  - intros j c' Hj. rewrite owed_none, H3. destruct (decide (i = j)) as [<-|Hne].
    + rewrite list_lookup_insert_eq in Hj by done. injection Hj as <-. rewrite bool_decide_eq_true_2 by done.
      split; cbn [cl_asked cl_mute cl_given cl_session]; [destruct m; lia|lia].
    + rewrite list_lookup_insert_ne in Hj by done. rewrite bool_decide_eq_false_2 by congruence.
      eapply client_ok_move; [|by apply Hi]. rewrite owed_none. lia.
  - intros b e He. destruct (ni_batches _ _ Hi b e He) as [Hb1 Hb2]. split; [done|].
    rewrite owed_none, H3 in *. by rewrite bool_decide_eq_false_2, Nat.add_0_r.
Qed.

Lemma arrive_inv i req now ev n n' :
  node_inv None n -> (forall l, parse_json (rq_body req) = Some (JArr l) -> zlen l < 2 ^ 32) ->
  arrival i req now ev n = Some n' -> node_inv None n'.
Proof.
  intros Hi Hreq Ha. unfold arrive in Ha. destruct (nd_clients n !! i) as [c|] eqn:Ei; [|done].
  destruct (cl_reading c && is_open (cl_session c)) eqn:Eo; [|done]. apply andb_true_iff in Eo as [_ Eo].
  destruct (process_request _ _ _ _ _ _ _ _ _ _ _ _ _ _ _ _) as [[[[[w calls] s] ob] t]|] eqn:Ep; [|done]. injection Ha as <-.
  apply request_balance in Ep; [|done|done]. destruct ob as [bt|].
  - destruct Ep as (k & Hx & Hok & Hlen). by apply (read_batch_inv i c (mute_request req) w calls s bt t k).
  - destruct Ep as (k & Hx & Hlen & Hle). by apply (read_single_inv i c (mute_request req) w calls s t k).
Qed.

(** The call after one of its events: it has called its callback now, or nothing
    changed in that. *)
Lemma step_called ev a p c c' :
  lives parse_json stringify js (E := E) p c -> event_ok (E := E) a ->
  step_call (T := waiter W X) parse_json stringify conn_pool_ttl ev a p c = Some c' ->
  c_tag c' = c_tag c /\ c_own c' = c_own c /\
  (called (c_request c') = called (c_request c) \/
   called (c_request c) = [] /\ exists text, called (c_request c') = [text]).
Proof.
  intros Hl He Hs. pose proof (step_lives _ _ _ _ attempts_range ev a p c c' Hl He Hs) as (Hl' & _).
  unfold step_call in Hs. destruct (HttpRequest.step _ _ _ _ _ _) as [r|] eqn:Er; [|done]. injection Hs as <-.
  split; [done|]. split; [done|]. apply step_grows in Er as [more Hm]. cbn in Hm |- *.
  assert (forall q c1, lives parse_json stringify js (E := E) q c1 -> (length (called (c_request (T := waiter W X) c1)) <= 1)%nat) as Hone.
  { intros q c1 (_ & [(_ & _ & _ & _ & _ & Hx & _)|[(_ & _ & _ & _ & _ & _ & Hx & _)|(_ & _ & _ & Hx & _)]] & _);
      cbn in Hx; rewrite Hx; cbn; [lia|lia|]. destruct (negb (c_own c1)); cbn; lia. }
  pose proof (Hone _ _ Hl'). cbn in *. rewrite Hm in *. rewrite length_app in *.
  destruct more as [|text [|]]; cbn in *; [left; by rewrite app_nil_r| |lia].
  right. destruct (called (c_request c)); cbn in *; [eauto|lia].
Qed.

Definition node_event_ok (e : node_event address B) : Prop :=
  match e with
  | Arrive _ req _ _ => forall l, parse_json (rq_body req) = Some (JArr l) -> zlen l < 2 ^ 32
  | Reply _ _ a _ => event_ok (E := E) a
  | _ => True
  end.

Abbreviation step_node := (node_step get_pool set_pool sv keep_alive_setting auth_enable any_conns validate_request
  validate_methods auth_key request_schema method_schema parse_json stringify parse_error conn_pool_ttl js).

(** A step of the network. *)
Lemma net_inv (e : fleet_event (waiter W X)) (n : node W X address) f' :
  node_inv None n -> fleet_event_ok (E := E) e ->
  fleet_step parse_json stringify conn_pool_ttl js e (fleet_of (nd_world n) (nd_calls n)) = Some f' ->
  sound (set_pool (f_pool f') (nd_world n)) (f_calls f').
Proof.
  intros Hi He Hs. unfold fleet_of. rewrite get_set_pool. destruct f' as [p l].
  by eapply (fleet_step_inv parse_json stringify conn_pool_ttl js attempts_range e _ _ (ni_sound _ _ Hi)).
Qed.

(** What a call is counted as, before and after an event. *)
Lemma reply_inv i ev a ev' n n' :
  node_inv None n -> event_ok (E := E) a -> step_node (Reply i ev a ev') n = Some n' -> node_inv None n'.
Proof.
  intros Hi Ha. cbn [node_step]. destruct (nd_calls n !! i) as [c|] eqn:Ei; [|done].
  destruct (step_call _ _ _ ev a (get_pool (nd_world n)) c) as [c'|] eqn:Es; [|done].
  pose proof (Forall_lookup_1 _ _ _ _ (fi_lives _ _ _ _ (ni_sound _ _ Hi)) Ei) as Hl. cbn [f_pool fleet_of] in Hl.
  destruct (step_called _ _ _ _ _ Hl Ha Es) as (Et & Eo & Hc).
  assert (sound (set_pool (call_pool c') (nd_world n)) (<[i := c']> (nd_calls n))) as Hs.
  { apply (net_inv (Net i ev a) n {| f_pool := call_pool c'; f_calls := <[i := c']> (nd_calls n) |}); [done|done|].
    cbn [fleet_step f_calls f_pool fleet_of]. by rewrite Ei, Es. }
  set (n1 := with_calls _ _ n).
  pose proof (fun d => awaited_insert d (nd_calls n) i c c' Ei) as Hn.
  assert (Forall (belongs (length (nd_clients n)) (length (nd_batches n))) (<[i := c']> (nd_calls n))) as Hbe.
  { apply Forall_insert; [apply Hi|]. pose proof (Forall_lookup_1 _ _ _ _ (ni_calls _ _ Hi) Ei) as Hb.
    unfold belongs in *. by rewrite Et, Eo. }
  assert (forall o, (forall d, owed o d (<[i := c']> (nd_calls n)) = owed None d (nd_calls n)) -> node_inv o n1) as Hsame.
  { intros o Ho. split; cbn [nd_world nd_clients nd_batches nd_calls with_calls n1]; [done| | |done].
    - intros j c0 Hj. rewrite Ho. by apply Hi.
    - intros b e He. rewrite Ho. by apply Hi. }
  assert (forall d, goes_to d c' = goes_to d c) as Eg by (intros d; unfold goes_to; by rewrite Et).
  unfold unanswered in Hn. destruct Hc as [Hc|[Hc [text Hc']]].
  - rewrite Hc, drop_all. intros [= <-]. apply Hsame. intros d. rewrite !owed_none. specialize (Hn d). rewrite Eg, Hc in Hn. lia.
  - rewrite Hc, Hc'. cbn [drop length]. rewrite Et. destruct (c_tag c) as [|to method h x] eqn:Etag.
    + intros [= <-]. apply Hsame. intros d. rewrite !owed_none. specialize (Hn d). unfold goes_to in Hn. rewrite Et, Etag in Hn. cbn in Hn. lia.
    + apply answered_inv.
      * apply Hsame. intros d. unfold owed. specialize (Hn d). unfold goes_to in Hn. rewrite Et, Etag, Hc, Hc' in Hn.
        rewrite (bool_decide_eq_true_2 (@nil bytes = [])), (bool_decide_eq_false_2 ([text] = [])) in Hn by done.
        rewrite andb_true_r, andb_false_r in Hn. rewrite (bool_decide_eq_false_2 (None = Some d)) by done.
        do 2 case_bool_decide; congruence || lia.
      * pose proof (Forall_lookup_1 _ _ _ _ (ni_calls _ _ Hi) Ei) as Hb. unfold belongs in Hb. rewrite Etag in Hb. by destruct Hb.
Qed.

(** A call of the program's own threads begins. *)
Lemma begin_sound n c own host path body ev :
  c = begin_call parse_json conn_pool_ttl js Worker own host path body ev (get_pool (nd_world n)) ->
  node_inv None n -> sound (set_pool (call_pool c) (nd_world n)) (nd_calls n ++ [c]).
Proof.
  intros Ec Hi. pose proof (ni_sound _ _ Hi) as Hf.
  destruct (begin_lives parse_json stringify conn_pool_ttl js attempts_range (E := E) (@Worker W X) own host path body ev _ (fi_wf _ _ _ _ Hf))
    as (H1 & H2 & H3 & H4 & H5). cbn [fleet_of f_pool] in H1, H2, H3, H4, H5. rewrite <- Ec in H1, H2, H3, H4, H5.
  unfold fleet_of. rewrite get_set_pool. exact (add_call_inv _ _ _ _ c Hf H1 H2 H3 H4 H5).
Qed.

Lemma work_inv n c w :
  node_inv None n -> c_tag c = Worker -> sound w (nd_calls n ++ [c]) -> node_inv None (with_calls w (nd_calls n ++ [c]) n).
Proof.
  intros [_ Hc Hb Hl] Ht Hs. assert (forall d, awaited d (nd_calls n ++ [c]) = awaited d (nd_calls n)) as Hw.
  { intros d. rewrite awaited_app, awaited_cons. unfold goes_to. rewrite Ht. unfold awaited. cbn. lia. }
  split; cbn [nd_world nd_clients nd_batches nd_calls with_calls]; [done| | |].
  - intros j c0. rewrite owed_none, Hw, <- owed_none. apply Hc.
  - intros b e. rewrite owed_none, Hw, <- owed_none. apply Hb.
  - apply Forall_app. split; [done|]. constructor; [|constructor]. unfold belongs. by rewrite Ht.
Qed.

Lemma node_step_inv e n n' : node_inv None n -> node_event_ok e -> step_node e n = Some n' -> node_inv None n'.
Proof.
  intros Hi He. destruct e as [a lo li now|i req now ev|i ev a ev'|own host path body ev|now assigned|b].
  - intros [= <-]. by apply accept_inv.
  - by apply arrive_inv.
  - by apply reply_inv.
  - intros <-%(inj Some). apply work_inv; [exact Hi|reflexivity|]. exact (begin_sound n _ own host path body ev eq_refl Hi).
  - intros [= <-].
    assert (sound (set_pool (monitor (get_pool (nd_world n)) now assigned) (nd_world n)) (nd_calls n)) as Hs.
    { by apply (net_inv (Watch now assigned) n {| f_pool := monitor (get_pool (nd_world n)) now assigned; f_calls := nd_calls n |}). }
    destruct Hi as [_ Hc Hb Hl]. by split.
  - intros [= <-]. destruct Hi as [Hs Hc Hb Hl]. split; try done. unfold fleet_of in *. cbn [with_calls nd_world nd_calls].
    by rewrite changes_pool.
Qed.

Abbreviation run_node := (node_run get_pool set_pool sv keep_alive_setting auth_enable any_conns validate_request
  validate_methods auth_key request_schema method_schema parse_json stringify parse_error conn_pool_ttl js).

Lemma node_run_inv l n n' : node_inv None n -> Forall node_event_ok l -> run_node l n = Some n' -> node_inv None n'.
Proof.
  intros Hi Hl. revert n Hi. induction Hl as [|e l He Hl IH]; intros n Hi Hr; cbn [node_run] in Hr; [by injection Hr as <-|].
  destruct (step_node e n) as [n1|] eqn:Es; [|done]. apply (IH n1); [|done]. by eapply node_step_inv.
Qed.

(** Why an event is not followed: it cannot happen, since the connection reads
    nothing or the call waits for something else; or the code behaves in a way the
    language leaves undefined, in the handling of a request or in a callback. *)
Definition impossible (e : node_event address B) (n : node W X address) : Prop :=
  match e with
  | Arrive i _ _ _ => forall c, nd_clients n !! i = Some c -> cl_reading c && is_open (cl_session c) = false
  | Reply i ev a _ => forall c, nd_calls n !! i = Some c ->
      step_call (T := waiter W X) parse_json stringify conn_pool_ttl ev a (get_pool (nd_world n)) c = None
  | _ => False
  end.
Definition undefined (e : node_event address B) (n : node W X address) : Prop :=
  match e with
  | Arrive i req now ev => exists c, nd_clients n !! i = Some c /\
      handle_request ev i (length (nd_batches n)) (nd_world n, nd_calls n) (cl_session c) (nd_table n) (cl_address c) now req
        = Throw Undefined
  | Reply i ev a _ => exists c c' to method h x text more, nd_calls n !! i = Some c /\
      step_call (T := waiter W X) parse_json stringify conn_pool_ttl ev a (get_pool (nd_world n)) c = Some c' /\
      drop (length (called (c_request c))) (called (c_request c')) = text :: more /\ c_tag c' = Waiting to method h x /\
      (sv_callback sv method x text (set_world (set_pool (call_pool c') (nd_world n)) h)).2 = Throw Undefined
  | _ => False
  end.

Lemma node_step_stops e n : step_node e n = None -> impossible e n \/ undefined e n.
Proof.
  destruct e as [a lo li now|i req now ev|i ev a ev'|own host path body ev|now assigned|b]; try done; cbn [node_step impossible undefined].
  - unfold arrive. destruct (nd_clients n !! i) as [c|]; [|by left]. destruct (cl_reading c && is_open (cl_session c)) eqn:Eo.
    2:{ intros _. left. by intros c' [= <-]. }
    destruct (process_request _ _ _ _ _ _ _ _ _ _ _ _ _ _ _ _) as [[[[[w calls] s] ob] t]|e] eqn:Ep; [done|]. intros _. right.
    exists c. split; [done|]. rewrite Ep. f_equal. by eapply request_throws.
  - destruct (nd_calls n !! i) as [c|]; [|by left].
    destruct (step_call _ _ _ ev a (get_pool (nd_world n)) c) as [c'|] eqn:Es; [|intros _; left; by intros c' [= <-]].
    destruct (drop _ _) as [|text more] eqn:Ed; [done|]. unfold answered. destruct (c_tag c') as [|to method h x] eqn:Et; [done|].
    cbn [nd_world with_calls]. set (w := set_pool _ _).
    destruct (sv_callback sv method x text (set_world w h)) as [h' [[out|]|e]] eqn:Ec; [done|by destruct (List.last _ _)|].
    intros _. right. exists c, c', to, method, h, x, text, more. split_and!; try done.
    fold w. by rewrite Ec, (calls_back_catches _ _ _ _ _ _ Ec).
Qed.

(** A run is followed to its end, or to an event that is not. *)
Lemma node_run_stops l n :
  run_node l n = None ->
  exists l1 e l2 n1, l = l1 ++ e :: l2 /\ run_node l1 n = Some n1 /\ (impossible e n1 \/ undefined e n1).
Proof.
  revert n. induction l as [|e l IH]; intros n Hr; [done|]. cbn [node_run] in Hr.
  destruct (step_node e n) as [n1|] eqn:Es.
  - destruct (IH n1 Hr) as (l1 & e' & l2 & n2 & -> & Hr' & He). exists (e :: l1), e', l2, n2. split; [done|].
    split; [|done]. cbn [node_run]. by rewrite Es.
  - exists [], e, l, n. split_and!; [done|done|]. by apply node_step_stops.
Qed.

(** Nothing is outstanding on the network. *)
Definition idle (n : node W X address) : Prop := Forall (fun c => pending (c_request c) = []) (nd_calls n).

Lemma idle_check n : forallb (fun c => bool_decide (pending (c_request c) = [])) (nd_calls n) = true -> idle n.
Proof.
  unfold idle. induction (nd_calls n) as [|c l IH]; [done|]. cbn. intros [Hc Hl]%andb_true_iff.
  apply bool_decide_eq_true_1 in Hc. constructor; auto.
Qed.

Lemma idle_answered p c nc nb d :
  lives parse_json stringify js (E := E) p c -> belongs nc nb c -> pending (c_request c) = [] ->
  goes_to (W := W) (X := X) d c && unanswered c = false.
Proof.
  intros (_ & Hc & _) Hb Hp. unfold goes_to, belongs, unanswered in *. destruct (c_tag c) as [|to m h x]; [done|].
  destruct Hb as [Ho _]. apply andb_false_iff. right. apply bool_decide_eq_false_2.
  destruct Hc as [(_ & _ & _ & (o & Ho' & _) & _)|[(_ & _ & _ & (o & Ho' & _) & _)|(_ & _ & _ & Hx & _)]]; cbn in *;
    [by rewrite Hp in Ho'|by rewrite Hp in Ho'|]. by rewrite Hx, Ho.
Qed.

Lemma idle_awaited n d : node_inv None n -> idle n -> awaited d (nd_calls n) = 0%nat.
Proof.
  intros [Hs _ _ Hb] Hp. pose proof (fi_lives _ _ _ _ Hs) as Hl. unfold idle in Hp. cbn [f_pool f_calls fleet_of] in Hl.
  clear Hs. induction (nd_calls n) as [|c l IH]; [done|]. apply Forall_cons in Hp as [Hpc Hp], Hb as [Hbc Hb], Hl as [Hc Hl].
  rewrite awaited_cons, (idle_answered (get_pool (nd_world n)) c _ _ d Hc Hbc Hpc). by apply IH.
Qed.

Lemma idle_held n : node_inv None n -> idle n -> all_held (nd_calls n) = [].
Proof.
  intros [Hs _ _ _] Hp. pose proof (fi_lives _ _ _ _ Hs) as Hl. unfold idle in Hp. cbn [f_pool f_calls fleet_of] in Hl.
  clear Hs. induction (nd_calls n) as [|c l IH]; [done|]. apply Forall_cons in Hp as [Hpc Hp], Hl as [(_ & Hc & _) Hl].
  change (all_held (c :: l)) with (call_held c ++ all_held l). rewrite IH by done. rewrite app_nil_r. unfold call_held, held.
  destruct Hc as [(_ & _ & _ & (o & Ho & _) & _)|[(_ & _ & _ & (o & Ho & _) & _)|(_ & _ & _ & _ & _ & _ & Hn & _)]]; cbn in *;
    [by rewrite Hpc in Ho|by rewrite Hpc in Ho|]. by rewrite Hn.
Qed.

(** No batch waits when no call does. *)
Lemma idle_batches n i : node_inv None n -> idle n -> open_batches i (nd_batches n) = 0%nat.
Proof.
  intros Hi Hp. apply open_batches_none, Forall_lookup. intros b e He. destruct (ni_batches _ _ Hi b e He) as [_ Hb].
  rewrite owed_none, idle_awaited in Hb by done. unfold batch_ok, live in *. destruct (be_stuck e); [done|].
  destruct Hb as [(_ & _ & Hb)|[Hb _]]; [lia|]. cbn. apply bool_decide_eq_false_2. intros E0. by rewrite E0 in Hb.
Qed.

(** The server before the first connection. *)
Definition node_new (w : W) : node W X address :=
  {| nd_world := w; nd_table := ∅; nd_clients := []; nd_batches := []; nd_calls := [] |}.
End Life.

(** ** Theorems *)

Section Theorems.
Context {W X B address : Type} `{Countable address}.
Context {get_pool : W -> pool} {set_pool : pool -> W -> W} {sv : service W X B}.
Context {keep_alive_setting auth_enable any_conns validate_request validate_methods : bool}.
Context {auth_key : bytes} {request_schema method_schema : option (json -> option json)}.
Context {parse_json : bytes -> option json} {stringify : json -> bytes} {parse_error : bytes -> Z * bytes}.
Context {conn_pool_ttl : Z} {js : jrpc_settings}.

(** Every request gets one answer: no connection is handed more answers than it
    asked for; one that is open has been written exactly what it was handed; every
    call to another node ends after a bounded number of its events; and when nothing
    is outstanding, every request but the [mute] ones was answered once, and all
    connections to nodes are back in the pool.  A batch counts as one request. *)
Lemma node_answers w l n (E : nat) :
  Serving get_pool set_pool sv parse_json stringify parse_error validate_methods method_schema ->
  wf (get_pool w) -> 0 <= s_attempts js <= UINT32_MAX ->
  Forall (node_event_ok (address := address) (parse_json := parse_json) (E := E)) l ->
  node_run get_pool set_pool sv keep_alive_setting auth_enable any_conns validate_request validate_methods auth_key
    request_schema method_schema parse_json stringify parse_error conn_pool_ttl js l (node_new w) = Some n ->
  Forall (fun c => (cl_mute c + cl_given c <= cl_asked c)%nat /\
    (is_open (cl_session c) = true -> length (written (cl_session c)) = cl_given c)) (nd_clients n) /\
  Forall (fun c => (c_steps c <= (E + 10) * Z.to_nat (Z.max 1 (s_attempts js)))%nat) (nd_calls n) /\
  (idle n ->
   Forall (fun c => cl_asked c = (cl_mute c + cl_given c)%nat) (nd_clients n) /\
   nodes (m_busy (get_pool (nd_world n))) ≡ₚ nodes (m_busy (get_pool w))).
Proof.
  intros HS Hw Ha Hl Hr.
  assert (node_inv (get_pool := get_pool) (parse_json := parse_json) (stringify := stringify) (js := js) (E := E)
    (ext := nodes (m_busy (get_pool w))) None n) as Hi.
  { eapply (node_run_inv (js := js) Ha); [|exact Hl|exact Hr]. split; try done; by intros []. }
  split_and!.
  - apply Forall_lookup. intros i c Hc. destruct (ni_clients _ _ Hi i c Hc) as [Hb Ho]. split; [lia|done].
  - eapply Forall_impl; [exact (fi_lives _ _ _ _ (ni_sound _ _ Hi))|]. intros c (_ & _ & Hb). unfold bound in Hb. lia.
  - intros Hp. split.
    + apply Forall_lookup. intros i c Hc. destruct (ni_clients _ _ Hi i c Hc) as [Hb _].
      rewrite owed_none, (idle_awaited n _ Hi Hp), (idle_batches n _ Hi Hp) in Hb. lia.
    + pose proof (fi_busy _ _ _ _ (ni_sound _ _ Hi)) as Hb. cbn [f_pool f_calls fleet_of] in Hb.
      by rewrite Hb, (idle_held n Hi Hp).
Qed.
End Theorems.
