(* ===== verification/Serve.v ===== *)
(** The methods of the program behind the server of Node.v: the tables of
    src/task_handlers/task_handlers.cpp, the hosts of the constructors of the
    handlers and their callbacks.

    The promise [Serving] is discharged class by class: the handlers over a part of
    the state (wallet, caches) cannot touch the pool, the others are followed down
    to their calls.  The theorem of NodeLife.v then holds for the program. *)

From Stdlib Require Import String.
From S2P Require Import Settings HistoryCache ParseAddress HttpRequest RequestLife JsonText Fleet.
From S2P Require Import Prelude Text Hex Crypto Transaction WalletStorage Json BlockInfo BlockStore ConnectionPool.
From S2P Require Import Handlers TxHandlers GenerateJson BlockHandlers SyncHandlers Status Answers Dispatch Forward.
From S2P Require Import SecurityManager BatchRequest HttpSession Node NodeLife.
Open Scope Z_scope.

Definition put_pool (p : pool) (s : server) : server :=
  {| srv_wallet := srv_wallet s; srv_blocks := srv_blocks s; srv_history := srv_history s; srv_pool := p;
     srv_tor := srv_tor s; srv_proxy := srv_proxy s; srv_calls := srv_calls s |}.

(** ** The service *)

Section Service.
Context `{O : OpenSSL} `{T : TorrentLib} `{I : InfoLib}.
Variable SHA256 : bytes -> bytes.
Variable writable : bytes -> bool.
Variable parse_json : bytes -> option json.
Variable stringify : json -> bytes.
Variable parse_error : bytes -> Z * bytes.
Variables g_GIT_SHA1 g_GIT_DATE : bytes.
Variable config : settings.
Variable syncSingleton : option sync_db.
Variable tx0 : TransactionInfo.
Variable run : keygen_run.
Variable count_blocks_result : nat -> bytes.
Variable wallet_dir : option (list bytes).

Abbreviation folder := (wallet_stotage (system config)).
Abbreviation local := (useLocalDatabase (system config)).
Abbreviation table := (post_handlers SHA256 writable parse_json stringify parse_error g_GIT_SHA1 g_GIT_DATE config
  syncSingleton tx0 run count_blocks_result wallet_dir).

(** The object of a handler behind the first lines of prepare. *)
Definition received (w : server) (body : bytes) : handler server :=
  match parse_json body with
  | Some doc =>
      match get_id doc with
      | Ok i => set_m_writer (set_id json_rpc_writer_new i) (set_m_id i (set_m_reader doc (base_handler w)))
      | Throw _ => set_m_reader doc (base_handler w)
      end
  | None => base_handler w
  end.

(** The members that send_tx_handler has read when it asks for the balance. *)
Definition sent_fields (w : server) (body : bytes) : option tx_fields :=
  match (send_check_params folder (inner srv_wallet (received w body))).2 with
  | Ok (CkFields f) => Some f
  | _ => None
  end.

Definition is_send (name : bytes) : bool := bool_decide (name = str "send-tx").
Definition asks_balance (path : bytes) : bool := bool_decide (path = str "fetch-balance").

(** What an object of a handler keeps: the nodes at the time of its construction, and
    the members that send_tx_handler has read. *)
Record kept := { k_tor : bytes; k_proxy : bytes; k_fields : option tx_fields }.

(** The constructors: the handlers of transactions talk to a proxy, the others, and
    the query for a balance, to a torrent node. *)
Definition host_of (x : kept) (name path : bytes) : bytes :=
  if is_send name && negb (asks_balance path) then k_proxy x else k_tor x.

Definition on_answer (respond : json -> M (handler server) unit) (text : bytes) : M (handler server) (option bytes) :=
  t ← on_complete parse_json stringify parse_error respond text; mret (Some t).

(** The callback of the request that was handed over last; send-tx has two. *)
Definition callback_of (name : bytes) (x : kept) (text : bytes) : M (handler server) (option bytes) :=
  if is_send name then
    if local then on_answer (fun reader => zoom srv_wallet put_wallet (sync_send_process_response reader)) text
    else
      h ← gets (fun h => h);
      if asks_balance (List.last (m_requests h) ([], [])).1 then
        match k_fields x with
        | Some f => zoom srv_wallet put_wallet (on_get_balance SHA256 parse_json stringify parse_error f text)
        | None => throw Undefined
        end
      else on_answer (fun reader => zoom srv_wallet put_wallet (send_process_response reader)) text
  else on_answer (responder (config := config) name) text.

(** What the workers change while the server runs: the block cache and the history
    cache, in any way, and the nodes that the lookup has chosen. *)
Inductive change :=
| BlocksCached (c : cache)
| HistoryCached (c : history_cache)
| TorChosen (name : bytes)
| ProxyChosen (name : bytes).

Definition make_change (b : change) (s : server) : server :=
  match b with
  | BlocksCached c => put_blocks c s
  | HistoryCached c => put_history c s
  | TorChosen name =>
      {| srv_wallet := srv_wallet s; srv_blocks := srv_blocks s; srv_history := srv_history s; srv_pool := srv_pool s;
         srv_tor := name; srv_proxy := srv_proxy s; srv_calls := srv_calls s |}
  | ProxyChosen name =>
      {| srv_wallet := srv_wallet s; srv_blocks := srv_blocks s; srv_history := srv_history s; srv_pool := srv_pool s;
         srv_tor := srv_tor s; srv_proxy := name; srv_calls := srv_calls s |}
  end.

Definition program : service server kept change :=
  {| sv_find := table;
     sv_get := fun name => find_handler name (get_handlers parse_json stringify parse_error g_GIT_SHA1 g_GIT_DATE config
                 syncSingleton count_blocks_result wallet_dir);
     sv_host := host_of;
     sv_extra := fun name w body =>
       {| k_tor := srv_tor w; k_proxy := srv_proxy w; k_fields := if is_send name then sent_fields w body else None |};
     sv_callback := callback_of;
     sv_change := make_change |}.
End Service.

(** ** The promise *)

Section Laws.
Context `{O : OpenSSL} `{T : TorrentLib} `{I : InfoLib}.
Context {SHA256 : bytes -> bytes} {writable : bytes -> bool}.
Context {parse_json : bytes -> option json} {stringify : json -> bytes} {parse_error : bytes -> Z * bytes}.
Context {g_GIT_SHA1 g_GIT_DATE : bytes} {config : settings} {syncSingleton : option sync_db}.
Context {tx0 : TransactionInfo} {run : keygen_run} {count_blocks_result : nat -> bytes} {wallet_dir : option (list bytes)}.
Context {method_schema : option (json -> option json)}.

Abbreviation service := (program SHA256 writable parse_json stringify parse_error g_GIT_SHA1 g_GIT_DATE config
  syncSingleton tx0 run count_blocks_result wallet_dir).

#[local] Typeclasses Opaque zoom_class on_wallet on_blocks on_history generate_handler addr_validate_handler
  create_tx_handler create_tx_handler_v2 send_tx_handler send_tx_handler_sync fetch_transaction_handler status_handler
  get_block_by_hash_handler_sync get_block_by_number_handler_sync get_dump_block_by_hash_handler_sync
  get_dump_block_by_number_handler_sync get_count_blocks_handler_sync fetch_balance_handler_sync
  fetch_history_handler_sync get_tx_handler_sync get_block_by_hash_handler get_block_by_number_handler
  get_dump_block_by_hash get_dump_block_by_number get_count_blocks_handler get_last_txs_handler get_blocks_handler
  get_tx_handler fetch_balance_handler fetch_balances_handler fetch_history_handler fetch_history_filter_handler.

Lemma table_untouching name C : sv_find service name = Some C -> Untouching srv_pool C.
Proof.
  cbn [program sv_find]. unfold post_handlers. intros (n & _ & Hn)%find_handler_in. revert Hn.
  destruct (useLocalDatabase (system config)); intros Hn;
    [assert (Forall (fun p => Untouching srv_pool (p : string * handler_class server).2)
       (local_handlers SHA256 writable parse_json stringify parse_error g_GIT_SHA1 g_GIT_DATE config syncSingleton tx0 run
         count_blocks_result wallet_dir)) as Hf
    |assert (Forall (fun p => Untouching srv_pool (p : string * handler_class server).2)
       (remote_handlers SHA256 writable parse_json stringify parse_error g_GIT_SHA1 g_GIT_DATE config syncSingleton tx0 run
         count_blocks_result wallet_dir)) as Hf];
    try (repeat (apply Forall_cons; split; [cbn [snd]; apply _|]); apply Forall_nil_2);
    rewrite Forall_forall in Hf; exact (Hf _ Hn).
Qed.

(** The one method of the GET requests is also one of the POST requests. *)
Lemma get_is_status name C :
  sv_get service name = Some C -> C = status_handler parse_json stringify parse_error g_GIT_SHA1 g_GIT_DATE config syncSingleton
    count_blocks_result wallet_dir.
Proof. cbn. case_bool_decide; [by intros [= <-]|done]. Qed.

Lemma on_answer_untouched respond text :
  (forall reader, untouched srv_pool (respond reader)) ->
  untouched srv_pool (on_answer parse_json stringify parse_error respond text).
Proof. intros Hr. unfold on_answer. follow_untouched. Qed.

Lemma callback_untouched name x text :
  untouched srv_pool (callback_of SHA256 parse_json stringify parse_error config name x text).
Proof.
  assert (forall Y (m : M _ Y), untouched srv_pool (zoom srv_wallet put_wallet m)) as Hw by (intros; by apply untouched_zoom).
  assert (forall Y (m : M _ Y), untouched srv_pool (zoom srv_blocks put_blocks m)) as Hb by (intros; by apply untouched_zoom).
  unfold callback_of. destruct (is_send name).
  - destruct (useLocalDatabase _); [apply on_answer_untouched; intros; apply Hw|].
    apply untouched_bind; [done|]. intros h. destruct (asks_balance _); [destruct (k_fields x); [apply Hw|done]|].
    apply on_answer_untouched. intros. apply Hw.
  - apply on_answer_untouched. intros reader. unfold responder. case_bool_decide; [apply Hb|auto with untouched].
Qed.

Lemma catches_bind {W A C} (m : M (handler W) A) (f : A -> M (handler W) C) :
  catches m -> (forall a, catches (f a)) -> catches (m ≫= f).
Proof.
  intros Hm Hf h e. unfold mbind, M_bind. destruct (m h) as [h' [a|e']] eqn:Em; [apply Hf|].
  intros [= <-]. apply (Hm h). by rewrite Em.
Qed.
Lemma catches_gets {W A} (f : handler W -> A) : catches (gets f).
Proof. done. Qed.
Lemma catches_zoom {A} (m : M (handler store_state) A) : catches m -> catches (zoom srv_wallet put_wallet m).
Proof. intros Hm h e. unfold zoom. specialize (Hm (inner srv_wallet h) e). by destruct (m _). Qed.

Lemma on_answer_catches respond text : catches (on_answer parse_json stringify parse_error respond text).
Proof.
  unfold on_answer, on_complete. apply catches_bind; [|done]. apply catches_bind; [apply catches_try|done].
Qed.

Lemma callback_catches name x text : catches (callback_of SHA256 parse_json stringify parse_error config name x text).
Proof.
  unfold callback_of. destruct (is_send name); [|apply on_answer_catches].
  destruct (useLocalDatabase _); [apply on_answer_catches|]. apply catches_bind; [apply catches_gets|]. intros h.
  destruct (asks_balance _); [|apply on_answer_catches]. destruct (k_fields x) as [f|]; [|by intros h' e [= <-]].
  apply catches_zoom. unfold on_get_balance. apply catches_bind; [apply catches_try|done].
Qed.

#[global] Instance program_serving :
  Serving srv_pool put_pool service parse_json stringify parse_error (validate_methods (system config)) method_schema.
Proof.
  split.
  - intros name C [HC|HC]; [exact (table_answering name C HC)|]. apply get_is_status in HC as ->. apply status_answering.
  - done.
  - intros name C w body h r HC Hp.
    assert (Untouching srv_pool C) as HU.
    { destruct HC as [HC|HC]; [by eapply table_untouching|]. apply get_is_status in HC as ->. apply status_untouching. }
    pose proof (perform_untouched (part := srv_pool) (parse_json := parse_json) (stringify := stringify)
      (parse_error := parse_error) (validate_methods := validate_methods (system config)) (schema := method_schema) C w body) as E.
    by rewrite Hp in E.
  - intros name x text h h' r Hc. pose proof (callback_untouched name x text h) as E.
    change (sv_callback service) with (callback_of SHA256 parse_json stringify parse_error config) in Hc. by rewrite Hc in E.
  - intros name x text h h' e Hc. apply (callback_catches name x text h).
    change (sv_callback service) with (callback_of SHA256 parse_json stringify parse_error config) in Hc. by rewrite Hc.
  - by intros [].
Qed.

(** What send-tx reads before it asks for the balance. *)
Lemma sent_fields_spec w body p a to value fee k s' :
  tx_request (wallet_stotage := wallet_stotage (system config)) (inner srv_wallet (received parse_json w body)) p a to value fee k s' ->
  get_text p "transaction" = None ->
  sent_fields parse_json config w body = Some (fields p a to value fee k).
Proof. intros Hr Ht. unfold sent_fields. by rewrite (send_check_fields _ _ _ _ _ _ _ _ Hr Ht). Qed.

Context {address : Type} `{Countable address} {request_schema : option (json -> option json)}.

(** The server with the program's methods and settings. *)
Definition server_run : list (node_event address change) -> node server kept address ->
    option (node server kept address) :=
  node_run srv_pool put_pool service (srv_keep_alive (Settings.service config)) (auth_enable (Settings.service config))
    (any_conns (Settings.service config)) (validate_request (system config)) (validate_methods (system config))
    (auth_key (Settings.service config)) request_schema method_schema parse_json stringify parse_error
    (conn_pool_ttl (system config)) (request_settings (config := config)).

(** The state of the server when it has answered what it was asked: no connection was
    handed more answers than it asked for; an open one has been written exactly what
    it was handed; every call took a bounded number of its events; and when nothing is
    outstanding on the network, every request that is not mute was answered once, and
    the connections in use are those that were in use in [w]. *)
Definition answers_owed (w : server) (E : nat) (n : node server kept address) : Prop :=
  Forall (fun c => (cl_mute c + cl_given c <= cl_asked c)%nat /\
    (is_open (cl_session c) = true -> length (written (cl_session c)) = cl_given c)) (nd_clients n) /\
  Forall (fun c => (c_steps c <= (E + 10) * Z.to_nat (Z.max 1 (jrpc_attempts_count (system config))))%nat) (nd_calls n) /\
  (idle n ->
   Forall (fun c => cl_asked c = (cl_mute c + cl_given c)%nat) (nd_clients n) /\
   nodes (m_busy (srv_pool (nd_world n))) ≡ₚ nodes (m_busy (srv_pool w))).

(** The event cannot happen; what the server does is undefined. *)
Abbreviation cannot_happen := (impossible (get_pool := srv_pool) (B := change) (X := kept)
  (parse_json := parse_json) (stringify := stringify) (conn_pool_ttl := conn_pool_ttl (system config))).
Abbreviation is_undefined := (NodeLife.undefined (get_pool := srv_pool) (set_pool := put_pool) (sv := service)
  (keep_alive_setting := srv_keep_alive (Settings.service config)) (auth_enable := auth_enable (Settings.service config))
  (validate_request := validate_request (system config)) (validate_methods := validate_methods (system config))
  (auth_key := auth_key (Settings.service config)) (request_schema := request_schema) (method_schema := method_schema)
  (parse_json := parse_json) (stringify := stringify) (parse_error := parse_error)
  (conn_pool_ttl := conn_pool_ttl (system config)) (js := request_settings (config := config))).

(** C1: Every request gets one answer, up to the first one on which the behaviour of
    the code is undefined.  Take any sequence of connections, requests (alone or in
    batches; a batch counts as one), completions and timers of calls to other nodes,
    calls of the workers and changes they make, and passes of the pool's monitor.  If
    the server follows it to the end: no connection is handed more answers than it
    asked for; an open one has been written exactly what it was handed; every call to
    a node ends after a bounded number of its events; and when nothing is outstanding
    on the network, every request was answered once, but for the mute ones
    (notifications, and requests whose id cannot be read where it is needed), and all
    connections to nodes are back in the pool.  Otherwise this holds up to an event
    that cannot happen there, or whose handling is undefined behaviour (a GET of a
    target that begins with a question mark, a short transaction in send-tx, filters
    that are no object); no exception ends it. *)
Theorem server_answers_every_request w l (E : nat) :
  wf (srv_pool w) -> 0 <= jrpc_attempts_count (system config) <= UINT32_MAX ->
  Forall (node_event_ok (address := address) (parse_json := parse_json) (E := E)) l ->
  match server_run l (node_new w) with
  | Some n => answers_owed w E n
  | None => exists l1 e l2 n1, l = l1 ++ e :: l2 /\ server_run l1 (node_new w) = Some n1 /\
      answers_owed w E n1 /\ (cannot_happen e n1 \/ is_undefined e n1)
  end.
Proof.
  intros Hw Ha Hl. destruct (server_run l (node_new w)) as [n|] eqn:Hr.
  - exact (node_answers (js := request_settings (config := config)) w l n E program_serving Hw Ha Hl Hr).
  - apply (node_run_stops (E := E) (ext := [])) in Hr as (l1 & e & l2 & n1 & -> & Hr & He); [|exact Ha]. exists l1, e, l2, n1. split_and!; try done.
    apply Forall_app in Hl as [Hl _].
    exact (node_answers (js := request_settings (config := config)) w l1 n1 E program_serving Hw Ha Hl Hr).
Qed.
End Laws.

(** ** Witnesses *)

Module Sample.
Import Crypto.Toy BlockHandlers.Sample Dispatch.Sample Forward.Sample.

(** A batch with a request for the number of blocks, a notification and a request
    without a method. *)
Definition batch0 : json :=
  JArr [JObj [(str "id", JInt 7); (str "method", JStr (str "get-count-blocks"))];
        JObj [(str "method", JStr (str "status"))]; JObj [(str "id", JInt 8)]].
Definition http_request0 : HttpSession.request :=
  {| rq_version := 11; rq_verb := Post; rq_target := str "/"; rq_body := print_value batch0; rq_connection := None;
     rq_auth_key := None; rq_keep_alive := true |}.
Definition events1 : list (node_event Z change) :=
  [Connect 1 true false 0; Changed (TorChosen (str "10.0.0.1:5795")); Arrive 0 http_request0 0 (fun _ => ev0)] ++
  map (fun x => Reply 0 ev0 x.2 ev0) events0.
Abbreviation server0 :=
  (server_run (SHA256 := fun b => b) (writable := fun _ => false) (parse_json := parse_value) (stringify := print_value)
    (parse_error := fun _ => (0, [])) (g_GIT_SHA1 := []) (g_GIT_DATE := []) (config := config) (syncSingleton := None)
    (tx0 := SyncHandlers.Sample.tx0) (run := run) (count_blocks_result := fun _ => []) (wallet_dir := None) (method_schema := None)
    (request_schema := None) (address := Z)).
Definition end1 : node server kept Z := default (node_new s0) (server0 events1 (node_new s0)).

Lemma run1_ends : server0 events1 (node_new s0) = Some end1.
Proof. vm_compute. reflexivity. Qed.
Lemma run1_clients : map (fun c => (cl_asked c, cl_mute c)) (nd_clients end1) = [(1%nat, 0%nat)].
Proof. vm_compute. reflexivity. Qed.
Lemma run1_idle : idle end1.
Proof. apply idle_check. vm_compute. reflexivity. Qed.

Lemma batch0_short l : parse_value (print_value batch0) = Some (JArr l) -> zlen l < 2 ^ 32.
Proof. rewrite parse_print_value. by intros [= <-]. Qed.

Lemma server_answers_every_request_witness :
  exists c, nd_clients end1 = [c] /\ cl_asked c = 1%nat /\ cl_mute c = 0%nat /\ cl_given c = 1%nat.
Proof.
  assert (wf (srv_pool s0)) as Hw by (apply wf_init; lia).
  assert (0 <= jrpc_attempts_count (system config) <= UINT32_MAX) as Ha by (split; vm_compute; discriminate).
  assert (Forall (node_event_ok (address := Z) (parse_json := parse_value) (E := 1)) events1) as Hl.
  { constructor; [exact Logic.I|]. constructor; [exact Logic.I|]. constructor; [exact batch0_short|]. repeat constructor. }
  pose proof (server_answers_every_request (SHA256 := fun b => b) (writable := fun _ => false) (parse_json := parse_value)
    (stringify := print_value) (parse_error := fun _ => (0, [])) (g_GIT_SHA1 := []) (g_GIT_DATE := []) (config := config)
    (syncSingleton := None) (tx0 := SyncHandlers.Sample.tx0) (run := run) (count_blocks_result := fun _ => []) (wallet_dir := None)
    (method_schema := None) (request_schema := None) s0 events1 1 Hw Ha Hl) as H.
  rewrite run1_ends in H. destruct H as (_ & _ & H3). destruct (H3 run1_idle) as [H4 _]. clear H3.
  pose proof run1_clients as Hc. destruct (nd_clients end1) as [|c [|]]; [discriminate| |discriminate].
  injection Hc as Ha' Hm. apply Forall_cons_1 in H4 as [H4 _]. rewrite Ha', Hm in H4.
  exists c. split; [reflexivity|]. split; [exact Ha'|]. split; [exact Hm|exact (eq_sym H4)].
Defined.

(** A GET of the target [?a]. *)
Definition bare_query : HttpSession.request :=
  {| rq_version := 11; rq_verb := Get; rq_target := str "?a"; rq_body := []; rq_connection := None;
     rq_auth_key := None; rq_keep_alive := true |}.
Definition events2 : list (node_event Z change) := [Connect 1 true false 0; Arrive 0 bare_query 0 (fun _ => ev0)].
Lemma bare_query_stops : server0 events2 (node_new s0) = None.
Proof. vm_compute. reflexivity. Qed.
End Sample.
