(* ===== verification/Threads.v ===== *)
(** The threads of the process, from main to its end: src/main.cpp (runServer and
    main), src/http_server.cpp (run, stop, checkTimeout, routine), and start, stop
    and the thread of src/connection_pool.cpp, src/cache/blocks_cache.cpp,
    src/cache/history_cache.cpp, and the loop of lookup_best_ip in src/nslookup.cpp.

    Each thread is a small machine; a run is an interleaving of their steps, the
    signal and the failures.  What the threads do in a pass of their loops is in the
    files of the components; here a pass makes any number of calls, each a step, and
    then ends or throws: load_extra_blocks does not look at the signal, and a pass may
    go on for ever (load_extra_endless in BlockChain.v).  checkStopSignal and sleep (declared
    in src/common/stopProgram.h, defined outside the repository) throw StopException
    exactly when the signal was given. *)

From Stdlib Require Import String.
From S2P Require Import Prelude.
Open Scope Z_scope.

(** ** State *)

(** The singletons with a thread of their own. *)
Inductive component := Pool | Blocks | History.

#[global] Instance component_eq_dec : EqDecision component.
Proof. solve_decision. Defined.

(** Where the thread of a component is: not created, before its first line, at the
    test of its loop, at checkStopSignal, in the pass behind it, behind the loop,
    ended. *)
Inductive place := Absent | Entered | Testing | Checking | Passing | Leaving | Gone.

(** What a pass does next: another call, its end, an exception. *)
Inductive passage := GoesOn | Ends | Throws.

#[global] Instance place_eq_dec : EqDecision place.
Proof. solve_decision. Defined.
#[global] Instance passage_eq_dec : EqDecision passage.
Proof. solve_decision. Defined.

(** [m_run] of a cache, [m_enable] of the pool, and the thread. *)
Record worker := { w_flag : bool; w_place : place }.
Definition worker_new : worker := {| w_flag := false; w_place := Absent |}.

(** What is left to do in the thread that runs the server. *)
Inductive instruction :=
| Sleep            (* common::sleep(1s) in runServer *)
| Bind             (* the acceptor and the first accept *)
| SpawnServers (n : nat)
| Start (c : component)
| JoinServers
| Stop (c : component)
| Clear (c : component)
| Join (c : component)
| Free (c : component)
| FreeOthers       (* security_manager and jsonrpc_schema *)
| ServerStop.      (* srv.stop() at the end of runServer *)

(** lookup_best_ip: at checkStopSignal, in the body, ended. *)
Inductive lookup_place := LookTest | LookCall | LookEnd.

#[global] Instance instruction_eq_dec : EqDecision instruction.
Proof. solve_decision. Defined.
#[global] Instance lookup_place_eq_dec : EqDecision lookup_place.
Proof. solve_decision. Defined.

Record life := {
  stop_signal : bool;
  io_stopped : bool;
  servers : nat;
  program : list instruction;
  w_pool : worker;
  w_blocks : worker;
  w_history : worker;
  freed : list component;
  lookup : lookup_place
}.

Definition the_worker (c : component) (s : life) : worker :=
  match c with Pool => w_pool s | Blocks => w_blocks s | History => w_history s end.
Definition set_worker (c : component) (w : worker) (s : life) : life :=
  {| stop_signal := stop_signal s; io_stopped := io_stopped s; servers := servers s; program := program s;
     w_pool := if bool_decide (c = Pool) then w else w_pool s;
     w_blocks := if bool_decide (c = Blocks) then w else w_blocks s;
     w_history := if bool_decide (c = History) then w else w_history s;
     freed := freed s; lookup := lookup s |}.
Definition set_program (p : list instruction) (s : life) : life :=
  {| stop_signal := stop_signal s; io_stopped := io_stopped s; servers := servers s; program := p;
     w_pool := w_pool s; w_blocks := w_blocks s; w_history := w_history s; freed := freed s; lookup := lookup s |}.
Definition set_servers (stopped : bool) (n : nat) (s : life) : life :=
  {| stop_signal := stop_signal s; io_stopped := stopped; servers := n; program := program s;
     w_pool := w_pool s; w_blocks := w_blocks s; w_history := w_history s; freed := freed s; lookup := lookup s |}.
Definition set_signal (s : life) : life :=
  {| stop_signal := true; io_stopped := io_stopped s; servers := servers s; program := program s;
     w_pool := w_pool s; w_blocks := w_blocks s; w_history := w_history s; freed := freed s; lookup := lookup s |}.
Definition set_freed (l : list component) (s : life) : life :=
  {| stop_signal := stop_signal s; io_stopped := io_stopped s; servers := servers s; program := program s;
     w_pool := w_pool s; w_blocks := w_blocks s; w_history := w_history s; freed := l; lookup := lookup s |}.
Definition set_lookup (l : lookup_place) (s : life) : life :=
  {| stop_signal := stop_signal s; io_stopped := io_stopped s; servers := servers s; program := program s;
     w_pool := w_pool s; w_blocks := w_blocks s; w_history := w_history s; freed := freed s; lookup := l |}.

(** ** The threads *)

(** The settings conn_pool_enable, blocks_cache_enable, history_cache_enable and
    service.threads. *)
Record thread_settings := { pool_on : bool; blocks_on : bool; history_on : bool; threads : nat }.

(** http_server::run between the acceptor and its end. *)
Definition run_program (cf : thread_settings) : list instruction :=
  [SpawnServers (threads cf)]
  ++ (if pool_on cf then [Start Pool] else [])
  ++ (if blocks_on cf then [Start Blocks] else [])
  ++ (if history_on cf then [Start History] else [])
  ++ [JoinServers; Stop Blocks; Free Blocks; Stop History; Free History; Stop Pool; Free Pool; FreeOthers].

(** runServer. *)
Definition runServer (cf : thread_settings) : list instruction := [Sleep; Bind] ++ run_program cf ++ [ServerStop].

Definition life_new (cf : thread_settings) : life :=
  {| stop_signal := false; io_stopped := false; servers := 0; program := runServer cf; w_pool := worker_new;
     w_blocks := worker_new; w_history := worker_new; freed := []; lookup := LookTest |}.

(** start: the pool sets its flag and creates the thread, the caches create it. *)
Definition start (c : component) (w : worker) : worker :=
  {| w_flag := if bool_decide (c = Pool) then true else w_flag w; w_place := Entered |}.

(** The thread of a component: the caches set their flag first and clear it at the
    end; every loop tests the flag, then the signal, which throws.  The pass of the
    pool makes no calls; one of a cache makes as many as it likes, with the signal
    given or not, and ends or throws at any of them. *)
Definition worker_step (c : component) (signal : bool) (o : passage) (w : worker) : option worker :=
  let sets := negb (bool_decide (c = Pool)) in
  match w_place w with
  | Absent | Gone => None
  | Entered => Some {| w_flag := if sets then true else w_flag w; w_place := Testing |}
  | Testing => Some {| w_flag := w_flag w; w_place := if w_flag w then Checking else Leaving |}
  | Checking => Some {| w_flag := w_flag w; w_place := if signal then Leaving else Passing |}
  | Passing =>
      Some {| w_flag := w_flag w;
              w_place := match o with GoesOn => if sets then Passing else Testing | Ends => Testing | Throws => Leaving end |}
  | Leaving => Some {| w_flag := if sets then false else w_flag w; w_place := Gone |}
  end.

(** [m_worker.get() && m_worker->joinable()]: a thread that is there is waited for. *)
Definition joined (w : worker) : bool := bool_decide (w_place w = Absent) || bool_decide (w_place w = Gone).

(** One instruction of runServer; [None] while it waits. *)
Definition run_step (s : life) : option life :=
  match program s with
  | [] => None
  | Sleep :: p => Some (set_program (if stop_signal s then [ServerStop] else p) s)
  | Bind :: p | FreeOthers :: p => Some (set_program p s)
  | SpawnServers n :: p => Some (set_program p (set_servers (io_stopped s) n s))
  | Start c :: p => Some (set_program p (set_worker c (start c (the_worker c s)) s))
  | JoinServers :: p => if bool_decide (servers s = 0%nat) then Some (set_program p s) else None
  | Stop c :: p =>
      Some (set_program (if bool_decide (c = Pool) && negb (w_flag (the_worker c s)) then p else Clear c :: Join c :: p) s)
  | Clear c :: p =>
      Some (set_program p (set_worker c {| w_flag := false; w_place := w_place (the_worker c s) |} s))
  | Join c :: p => if joined (the_worker c s) then Some (set_program p s) else None
  | Free c :: p => Some (set_program p (set_freed (c :: freed s) s))
  | ServerStop :: p => Some (set_program p (set_servers true (servers s) s))
  end.

(** What can happen next: the signal, a step of runServer, the acceptor failing, a
    cache failing to start (it then has no thread), the timer of checkTimeout, the end
    of a server thread, a step of a component's thread, a step of the lookup, which
    resolves names and asks nodes in its pass. *)
Inductive happening :=
| Signal
| RunServer
| BindFails
| StartFails
| CheckTimeout
| ServerEnds
| Work (c : component) (o : passage)
| Lookup (on : bool).

Definition step (e : happening) (s : life) : option life :=
  match e with
  | Signal => Some (set_signal s)
  | RunServer => run_step s
  | BindFails => match program s with Bind :: _ => Some (set_program [ServerStop] s) | _ => None end
  | StartFails =>
      match program s with
      | Start Blocks :: p | Start History :: p => Some (set_program p s)
      | _ => None
      end
  | CheckTimeout =>
      if bool_decide (servers s = 0%nat) || io_stopped s then None
      else Some (if stop_signal s then set_servers true (servers s) s else s)
  | ServerEnds =>
      match servers s with
      | S n => if io_stopped s then Some (set_servers true n s) else None
      | O => None
      end
  | Work c o =>
      match worker_step c (stop_signal s) o (the_worker c s) with
      | Some w => Some (set_worker c w s)
      | None => None
      end
  | Lookup on =>
      match lookup s with
      | LookTest => Some (set_lookup (if stop_signal s then LookEnd else LookCall) s)
      | LookCall => Some (set_lookup (if on then LookCall else LookTest) s)
      | LookEnd => None
      end
  end.

Fixpoint run (l : list happening) (s : life) : option life :=
  match l with
  | [] => Some s
  | e :: l' => match step e s with Some s' => run l' s' | None => None end
  end.

Inductive reachable (cf : thread_settings) : life -> Prop :=
| reach_new : reachable cf (life_new cf)
| reach_step e s s' : reachable cf s -> step e s = Some s' -> reachable cf s'.

(** main: the three joins behind which it returns, but for the statistics. *)
Definition ended (s : life) : bool := bool_decide (program s = []) && bool_decide (lookup s = LookEnd).

(** ** The order of runServer *)

Definition spawns (i : instruction) : bool := match i with SpawnServers _ => true | _ => false end.
Definition about (c : component) (i : instruction) : bool :=
  match i with Start d | Stop d | Clear d | Join d => bool_decide (d = c) | _ => false end.
Definition has (i : instruction) (p : list instruction) : bool := existsb (fun j => bool_decide (j = i)) p.
Definition quiet (c : component) (p : list instruction) : bool := negb (existsb (about c) p).
Definition all_quiet (p : list instruction) : bool := quiet Pool p && quiet Blocks p && quiet History p.
(** No server threads are created or waited for any more. *)
Definition served (p : list instruction) : bool := negb (existsb spawns p) && negb (has JoinServers p).

(** What an instruction relies on in those behind it. *)
Definition in_order (i : instruction) (p : list instruction) : bool :=
  match i with
  | Sleep | Bind => existsb spawns p
  | SpawnServers _ => has JoinServers p && negb (existsb spawns p)
  | JoinServers => served p
  | Start c => has (Stop c) p && negb (existsb spawns p)
  | Stop c => quiet c p && served p
  | Clear c => has (Join c) p && served p
  | Join c => quiet c p && served p
  | Free c => served p && quiet c p && (negb (bool_decide (c = Pool)) || all_quiet p)
  | FreeOthers | ServerStop => served p && all_quiet p
  end.

Fixpoint ordered (p : list instruction) : bool :=
  match p with
  | [] => true
  | i :: p' => in_order i p' && ordered p'
  end.

Lemma runServer_ordered cf : ordered (runServer cf) = true.
Proof. destruct cf as [[] [] [] n]; reflexivity. Qed.

Definition alive (w : worker) : bool := negb (joined w).

Record life_inv (s : life) : Prop := {
  li_order : ordered (program s) = true;
  (** Before the server threads are created there is no thread at all. *)
  li_first : existsb spawns (program s) = true -> servers s = 0%nat /\ forall c, w_place (the_worker c s) = Absent;
  li_served : has JoinServers (program s) = false -> servers s = 0%nat;
  li_quiet : forall c, quiet c (program s) = true -> alive (the_worker c s) = false;
  (** The pool's thread runs with the flag set, or it is being waited for. *)
  li_pool : alive (w_pool s) = true -> w_flag (w_pool s) = true \/ has (Join Pool) (program s) = true;
  li_freed : forall c, c ∈ freed s ->
    served (program s) = true /\ quiet c (program s) = true /\ (c = Pool -> all_quiet (program s) = true)
}.

Lemma life_new_inv cf : life_inv (life_new cf).
Proof.
  split; cbn [life_new program servers the_worker w_pool w_blocks w_history freed worker_new w_place w_flag alive joined].
  - apply runServer_ordered.
  - intros _. split; [done|]. by intros [].
  - done.
  - by intros [] _.
  - done.
  - intros c Hc. by apply not_elem_of_nil in Hc.
Qed.

Lemma served_cons i p : served (i :: p) = true -> served p = true.
Proof. unfold served, has. cbn. rewrite !andb_true_iff, !negb_true_iff, !orb_false_iff. tauto. Qed.
Lemma quiet_cons c i p : quiet c (i :: p) = true -> quiet c p = true.
Proof. unfold quiet. cbn. rewrite !negb_true_iff, !orb_false_iff. tauto. Qed.
Lemma all_quiet_spec p : all_quiet p = true <-> forall c, quiet c p = true.
Proof.
  unfold all_quiet. rewrite !andb_true_iff. split; [|auto]. intros [[Hp Hb] Hh] []; done.
Qed.
Lemma served_servers s : life_inv s -> served (program s) = true -> servers s = 0%nat.
Proof. unfold served. intros Hi [_ Hs%negb_true_iff]%andb_true_iff. by apply (li_served s Hi). Qed.
Lemma quiet_no_join c p : quiet c p = true -> has (Join c) p = false.
Proof.
  unfold quiet, has. intros Hq%negb_true_iff. induction p as [|i p IH]; [done|]. cbn in *.
  apply orb_false_iff in Hq as [Hi Hp]. rewrite IH by done. case_bool_decide; [|done]. subst i. cbn in Hi.
  by rewrite bool_decide_eq_true_2 in Hi.
Qed.

(** What the rest of the program keeps of the invariant. *)
Lemma advance_inv i p s :
  program s = i :: p -> life_inv s ->
  (has JoinServers p = false -> servers s = 0%nat) ->
  (forall c, about c i = true -> quiet c p = true -> alive (the_worker c s) = false) ->
  (i = Join Pool -> alive (w_pool s) = false) ->
  life_inv (set_program p s).
Proof.
  intros Hp [Ho Hf Hs Hq Hw Hr] Hsv Hqt Hj. rewrite Hp in *. cbn [ordered] in Ho. apply andb_true_iff in Ho as [_ Ho].
  split; cbn [program set_program servers the_worker w_pool w_blocks w_history freed].
  - done.
  - intros He. apply Hf. cbn. by rewrite He, orb_true_r.
  - done.
  - intros c Hc. destruct (about c i) eqn:Ea; [by apply Hqt|]. apply Hq. unfold quiet in *. cbn. by rewrite Ea.
  - intros Ha. destruct (Hw Ha) as [H|H]; [by left|right]. unfold has in *. cbn in H. apply orb_true_iff in H as [H|H]; [|done].
    apply bool_decide_eq_true_1 in H. by rewrite Hj in Ha.
  - intros c (H1 & H2 & H3)%Hr. split_and!; [by eapply served_cons|by eapply quiet_cons|].
    intros Hc. apply all_quiet_spec. intros d. eapply quiet_cons. by apply all_quiet_spec, H3.
Qed.

(** A change of one worker under the program. *)
Lemma worker_inv c w s :
  life_inv s -> (alive w = true -> quiet c (program s) = false) ->
  (w_place w <> Absent -> existsb spawns (program s) = false) ->
  (c = Pool -> alive w = true -> w_flag w = true \/ has (Join Pool) (program s) = true) ->
  life_inv (set_worker c w s).
Proof.
  intros [Ho Hf Hs Hq Hw Hr] H1 H2 H3.
  assert (forall d, the_worker d (set_worker c w s) = if bool_decide (c = d) then w else the_worker d s) as Hd.
  { intros []; cbn; by repeat case_bool_decide. }
  split; cbn [program servers freed set_worker]; try done.
  - intros He. destruct (Hf He) as [Hse Hab]. split; [done|]. intros d. fold (set_worker c w s). rewrite Hd.
    case_bool_decide; [|done]. destruct (decide (w_place w = Absent)) as [->|Hn]; [done|]. by rewrite H2 in He.
  - intros d Hqd. fold (set_worker c w s). rewrite Hd. case_bool_decide; [|by apply Hq]. subst d.
    destruct (alive w) eqn:Ea; [|done]. by rewrite H1 in Hqd.
  - change (w_pool (set_worker c w s)) with (the_worker Pool (set_worker c w s)). rewrite Hd. case_bool_decide; auto.
Qed.

Lemma has_cons i j p : has i (j :: p) = bool_decide (j = i) || has i p.
Proof. done. Qed.
Lemma has_not_quiet i c p : has i p = true -> about c i = true -> quiet c p = false.
Proof.
  intros Hp Hi. induction p as [|j p IH]; [done|]. rewrite has_cons in Hp. unfold quiet in *. cbn [existsb].
  apply orb_true_iff in Hp as [->%bool_decide_eq_true_1|Hp]; [by rewrite Hi|]. apply negb_false_iff.
  apply negb_false_iff in IH; [|done]. by rewrite IH, orb_true_r.
Qed.

(** The other changes of the state. *)
Lemma servers_inv stopped n s :
  life_inv s -> existsb spawns (program s) = false -> (has JoinServers (program s) = false -> n = 0%nat) ->
  life_inv (set_servers stopped n s).
Proof. intros [Ho Hf Hs Hq Hw Hr] He Hn. split; try done. cbn. intros He'. by rewrite He in He'. Qed.

Lemma free_inv c s :
  life_inv s -> served (program s) = true -> quiet c (program s) = true -> (c = Pool -> all_quiet (program s) = true) ->
  life_inv (set_freed (c :: freed s) s).
Proof. intros [Ho Hf Hs Hq Hw Hr] H1 H2 H3. split; try done. cbn. intros d [->|Hd]%elem_of_cons; auto. Qed.

Lemma abandon_inv s :
  servers s = 0%nat -> (forall c, w_place (the_worker c s) = Absent) -> life_inv (set_program [ServerStop] s).
Proof.
  intros Hs Ha. split; try done.
  - intros c _. change (alive (the_worker c s) = false). unfold alive, joined. by rewrite Ha.
  - pose proof (Ha Pool) as Hp. cbn in Hp |- *. unfold alive, joined. by rewrite Hp.
Qed.

Lemma stop_inv c p s :
  program s = Stop c :: p -> life_inv s -> life_inv (set_program (Clear c :: Join c :: p) s).
Proof.
  intros Hp [Ho Hf Hs Hq Hw Hr]. rewrite Hp in *. cbn [ordered in_order] in Ho.
  apply andb_true_iff in Ho as [[Hqc Hse]%andb_true_iff Ho].
  split; cbn [program set_program servers the_worker w_pool w_blocks w_history freed].
  - cbn [ordered in_order]. rewrite has_cons, bool_decide_eq_true_2, Hqc, Hse, Ho by done. cbn. rewrite andb_true_r. exact Hse.
  - intros He. apply Hf. exact He.
  - intros Hj. apply Hs. exact Hj.
  - intros d Hd. apply Hq. revert Hd. unfold quiet. cbn. by destruct (bool_decide (c = d)).
  - intros Ha. destruct (Hw Ha) as [H|H]; [by left|right]. rewrite has_cons, bool_decide_eq_false_2 in H by done.
    cbn in H. by rewrite !has_cons, H, !orb_true_r.
  - intros d (H1 & H2 & H3)%Hr. assert (d <> c) as Hne.
    { intros ->. unfold quiet in H2. cbn in H2. by rewrite bool_decide_eq_true_2 in H2. }
    split_and!; [done| |].
    + unfold quiet in *. cbn in *. by rewrite bool_decide_eq_false_2 in * by congruence.
    + intros ->. specialize (H3 eq_refl). rewrite all_quiet_spec in H3. specialize (H3 c). unfold quiet in H3. cbn in H3.
      by rewrite bool_decide_eq_true_2 in H3.
Qed.

Lemma run_step_inv s s' : life_inv s -> run_step s = Some s' -> life_inv s'.
Proof.
  intros Hi Hs. unfold run_step in Hs. pose proof (li_order s Hi) as Ho. destruct (program s) as [|i p] eqn:Hp; [done|].
  cbn [ordered] in Ho. apply andb_true_iff in Ho as [Hio Ho].
  assert (i <> JoinServers -> has JoinServers p = false -> servers s = 0%nat) as Hsv.
  { intros Hne Hj. apply (li_served s Hi). by rewrite Hp, has_cons, Hj, bool_decide_eq_false_2. }
  assert (forall c, about c i = true -> quiet c p = false -> life_inv (set_program p s)) as Hadv.
  { intros c Hc Hq. apply (advance_inv i p s Hp Hi).
    - apply Hsv. intros ->. done.
    - intros d Hd Hqd. assert (d = c) as ->; [|by rewrite Hq in Hqd]. destruct i; cbn in Hc, Hd; try done;
        by apply bool_decide_eq_true_1 in Hc as ->, Hd as ->.
    - intros ->. cbn in *. apply andb_true_iff in Hio as [Hio _]. apply bool_decide_eq_true_1 in Hc as <-. by rewrite Hq in Hio. }
  destruct i as [| |n|c| |c|c|c|c| |]; cbn [in_order] in Hio;
    rewrite ?andb_true_iff, ?negb_true_iff in Hio.
  - (* Sleep *)
    injection Hs as <-. destruct (stop_signal s); [|eapply advance_inv; try done; auto].
    apply abandon_inv; apply (li_first s Hi); rewrite Hp; exact Hio.
  - injection Hs as <-. eapply advance_inv; try done; auto.
  - (* SpawnServers *)
    injection Hs as <-. apply (servers_inv _ n (set_program p s)); [eapply advance_inv; try done; auto|apply Hio|].
    intros Hj. change (has JoinServers p = false) in Hj. destruct Hio as [Hio _]. congruence.
  - (* Start *)
    injection Hs as <-. destruct Hio as [Hst Hsp].
    assert (quiet c p = false) as Hq by (apply (has_not_quiet _ _ _ Hst); cbn; by apply bool_decide_eq_true_2).
    apply (worker_inv c _ (set_program p s)); [apply (Hadv c); [by apply bool_decide_eq_true_2|done]|done|done|].
    intros -> _. by left.
  - (* JoinServers *) case_bool_decide; [|done]. injection Hs as <-. by eapply advance_inv.
  - (* Stop *)
    destruct (bool_decide (c = Pool) && negb (w_flag (the_worker c s))) eqn:Ec; injection Hs as <-; [|by apply stop_inv].
    apply andb_true_iff in Ec as [->%bool_decide_eq_true_1 Ef%negb_true_iff]. cbn in Ef.
    assert (alive (w_pool s) = false) as Ha.
    { destruct (alive (w_pool s)) eqn:Ea; [|done]. destruct (li_pool s Hi Ea) as [Hf|Hj]; [congruence|].
      rewrite Hp, has_cons in Hj. cbn in Hj. by rewrite (quiet_no_join _ _ (proj1 Hio)) in Hj. }
    eapply advance_inv; try done; auto. by intros [] Hd.
  - (* Clear *)
    injection Hs as <-. destruct Hio as [Hj [Hsp _]%andb_true_iff].
    assert (quiet c p = false) as Hq by (apply (has_not_quiet _ _ _ Hj); cbn; by apply bool_decide_eq_true_2).
    apply (worker_inv c _ (set_program p s)); [apply (Hadv c); [by apply bool_decide_eq_true_2|done]|done| |].
    + intros _. by apply negb_true_iff in Hsp.
    + intros -> _. by right.
  - (* Join *)
    destruct (joined (the_worker c s)) eqn:Ej; [|done]. injection Hs as <-. eapply advance_inv; try done; auto.
    + intros d Hd _. cbn in Hd. apply bool_decide_eq_true_1 in Hd as <-. unfold alive. by rewrite Ej.
    + intros [= ->]. unfold alive. cbn in Ej. by rewrite Ej.
  - (* Free *)
    injection Hs as <-. destruct Hio as [[Hse Hq] Hall].
    apply (free_inv c (set_program p s)); [eapply advance_inv; try done; auto|done|done|].
    intros ->. exact Hall.
  - injection Hs as <-. eapply advance_inv; try done; auto.
  - (* ServerStop *)
    injection Hs as <-. apply (servers_inv _ _ (set_program p s)); [eapply advance_inv; try done; auto| |auto].
    destruct Hio as [[Hsp _]%andb_true_iff _]. by apply negb_true_iff in Hsp.
Qed.

Lemma life_step_inv e s s' : life_inv s -> step e s = Some s' -> life_inv s'.
Proof.
  intros Hi Hs. destruct e as [| | | | | |c o|on]; cbn [step] in Hs.
  - injection Hs as <-. by destruct Hi.
  - by eapply run_step_inv.
  - pose proof (li_order s Hi) as Ho. destruct (program s) as [|[] p] eqn:Hp; try done. injection Hs as <-.
    cbn in Ho. apply andb_true_iff in Ho as [Ho _]. apply abandon_inv; apply (li_first s Hi); rewrite Hp; exact Ho.
  - pose proof (li_order s Hi) as Ho.
    destruct (program s) as [|[| | |c| | | | | | |] p] eqn:Hp; try done. cbn in Ho.
    apply andb_true_iff in Ho as [[Hst _]%andb_true_iff _]. pose proof (has_not_quiet (Stop c) c p Hst) as Hq.
    assert (about c (Stop c) = true) as Ha by by apply bool_decide_eq_true_2. specialize (Hq Ha).
    assert (life_inv (set_program p s)) as Hn.
    { eapply advance_inv; try done.
      - intros Hj. apply (li_served s Hi). by rewrite Hp, has_cons, Hj, bool_decide_eq_false_2.
      - intros d Hd Hqd. cbn in Hd. apply bool_decide_eq_true_1 in Hd as <-. by rewrite Hq in Hqd. }
    destruct c; [done|by injection Hs as <-..].
  - case_bool_decide as Hz; [done|]. destruct (io_stopped s); [done|]. cbn in Hs. injection Hs as <-.
    destruct (stop_signal s); [|done]. apply servers_inv; [done| |].
    + destruct (existsb spawns (program s)) eqn:He; [|done]. by destruct (li_first s Hi He).
    + intros Hj. by apply (li_served s Hi).
  - destruct (servers s) as [|n] eqn:En; [done|]. destruct (io_stopped s); [|done]. injection Hs as <-. apply servers_inv; [done| |].
    + destruct (existsb spawns (program s)) eqn:He; [|done]. destruct (li_first s Hi He). congruence.
    + intros Hj. pose proof (li_served s Hi Hj). congruence.
  - destruct (worker_step c (stop_signal s) o (the_worker c s)) as [w|] eqn:Ew; [|done]. injection Hs as <-.
    assert (alive (the_worker c s) = true /\ w_place (the_worker c s) <> Absent /\
            (c = Pool -> w_flag w = w_flag (the_worker c s))) as (Ha & Hn & Hfl).
    { unfold worker_step in Ew. unfold alive, joined. destruct (w_place (the_worker c s)); try done;
        injection Ew as <-; split_and!; try done; by intros ->. }
    apply worker_inv; [done| | |].
    + intros _. destruct (quiet c (program s)) eqn:Hq; [|done]. by rewrite (li_quiet s Hi c Hq) in Ha.
    + intros _. destruct (existsb spawns (program s)) eqn:He; [|done]. destruct (li_first s Hi He) as [_ H]. by destruct (Hn (H c)).
    + intros -> _. rewrite Hfl by done. by apply (li_pool s Hi).
  - destruct (lookup s); try done; injection Hs as <-; by destruct Hi.
Qed.

Lemma run_reachable cf l s s' : reachable cf s -> run l s = Some s' -> reachable cf s'.
Proof.
  revert s. induction l as [|e l IH]; intros s Hs; cbn; [by intros [= <-]|].
  destruct (step e s) as [s0|] eqn:Es; [|done]. apply IH. by eapply reach_step.
Qed.

Lemma life_reachable_inv cf s : reachable cf s -> life_inv s.
Proof. induction 1; [apply life_new_inv|by eapply life_step_inv]. Qed.

(** ** How long the end takes *)

Definition cost (i : instruction) : nat :=
  match i with Sleep | Bind => 2 | SpawnServers n => n + 1 | Start _ => 5 | Stop _ => 3 | _ => 1 end.
Fixpoint rest_cost (p : list instruction) : nat := match p with [] => 0 | i :: p' => cost i + rest_cost p' end.
Definition rank (w : worker) : nat :=
  match w_place w with Entered | Passing => 4 | Testing => 3 | Checking => 2 | Leaving => 1 | Absent | Gone => 0 end.
Definition lookup_rank (l : lookup_place) : nat := match l with LookCall => 2 | LookTest => 1 | LookEnd => 0 end.
Definition weight (s : life) : nat :=
  rest_cost (program s) + servers s + (if io_stopped s then 0 else 1) + rank (w_pool s) + rank (w_blocks s)
  + rank (w_history s) + lookup_rank (lookup s).

Lemma rank_worker c w s :
  (weight (set_worker c w s) + rank (the_worker c s) = weight s + rank w)%nat.
Proof.
  unfold weight, set_worker.
  destruct c; cbn [program servers io_stopped w_pool w_blocks w_history lookup the_worker]; repeat case_bool_decide; try done; lia.
Qed.

(** A call that a pass adds. *)
Definition goes_on (e : happening) : bool :=
  match e with Work _ GoesOn | Lookup true => true | _ => false end.

Lemma step_lighter e s s' :
  stop_signal s = true -> e <> Signal -> step e s = Some s' ->
  stop_signal s' = true /\ (weight s' + (if goes_on e then 0 else 1) <= weight s)%nat.
Proof.
  intros Hg He Hs. destruct e as [| | | | | |c o|on]; cbn [step] in Hs; cbn [goes_on]; try done.
  - unfold run_step in Hs. destruct (program s) as [|i p] eqn:Hp; [done|].
    assert (weight s = cost i + weight (set_program p s))%nat as Hw by (unfold weight; rewrite Hp; cbn; lia).
    destruct i as [| |n|c| |c|c|c|c| |]; cbn [cost] in Hw.
    + rewrite Hg in Hs. injection Hs as <-. split; [done|]. unfold weight in *. cbn in *. lia.
    + injection Hs as <-. split; [done|lia].
    + injection Hs as <-. split; [done|]. unfold weight in *. cbn in *. lia.
    + injection Hs as <-. split; [done|]. pose proof (rank_worker c (start c (the_worker c s)) (set_program p s)) as Hr.
      change (rank (start c (the_worker c s))) with 4%nat in Hr.
      change (set_program p (set_worker c (start c (the_worker c s)) s)) with (set_worker c (start c (the_worker c s)) (set_program p s)). lia.
    + case_bool_decide; [|done]. injection Hs as <-. split; [done|lia].
    + injection Hs as <-. split; [done|]. destruct (_ && _); [lia|]. unfold weight in *. cbn in *. lia.
    + injection Hs as <-. split; [done|].
      set (w := {| w_flag := false; w_place := w_place (the_worker c s) |}).
      pose proof (rank_worker c w (set_program p s)) as Hr. change (rank w) with (rank (the_worker c s)) in Hr.
      change (the_worker c (set_program p s)) with (the_worker c s) in Hr.
      change (set_program p (set_worker c w s)) with (set_worker c w (set_program p s)). lia.
    + destruct (joined _); [|done]. injection Hs as <-. split; [done|lia].
    + injection Hs as <-. split; [done|]. unfold weight in *. cbn in *. lia.
    + injection Hs as <-. split; [done|lia].
    + injection Hs as <-. split; [done|]. unfold weight in *. cbn in *. destruct (io_stopped s); lia.
  - destruct (program s) as [|[] p] eqn:Hp; try done. injection Hs as <-. split; [done|]. unfold weight. rewrite Hp. cbn. lia.
  - destruct (program s) as [|[| | |c| | | | | | |] p] eqn:Hp; try done.
    assert (s' = set_program p s) as -> by (destruct c; try discriminate Hs; by injection Hs as <-).
    split; [done|]. unfold weight. rewrite Hp. cbn. lia.
  - case_bool_decide; [done|]. destruct (io_stopped s) eqn:Eo; [done|]. rewrite Hg in Hs. injection Hs as <-. split; [done|].
    unfold weight. rewrite Eo. cbn. lia.
  - destruct (servers s) as [|n] eqn:En; [done|]. destruct (io_stopped s) eqn:Eo; [|done]. injection Hs as <-. split; [done|].
    unfold weight. rewrite Eo, En. cbn. lia.
  - destruct (worker_step c (stop_signal s) o (the_worker c s)) as [w|] eqn:Ew; [|done]. injection Hs as <-. split; [done|].
    pose proof (rank_worker c w s).
    assert (rank w + (if goes_on (Work c o) then 0 else 1) <= rank (the_worker c s))%nat; [|cbn [goes_on] in *; lia].
    unfold worker_step in Ew. unfold rank. rewrite Hg in Ew.
    destruct (w_place (the_worker c s)); try done; injection Ew as <-; destruct o; cbn; try lia;
      try (destruct (w_flag _); lia). destruct (negb _); lia.
  - destruct (lookup s) eqn:El; try done; injection Hs as <-; (split; [done|]); unfold weight; rewrite El, ?Hg;
      destruct on; cbn; lia.
Qed.

(** What the program still costs never grows, with or without the signal. *)
Lemma program_cost e s s' :
  step e s = Some s' -> (rest_cost (program s') + servers s' <= rest_cost (program s) + servers s)%nat.
Proof.
  intros Hs. destruct e as [| | | | | |c o|on]; cbn [step] in Hs.
  - by injection Hs as <-.
  - unfold run_step in Hs. destruct (program s) as [|i p] eqn:Hp; [done|].
    destruct i as [| |n|c| |c|c|c|c| |]; try (injection Hs as <-; cbn; lia).
    + injection Hs as <-. destruct (stop_signal s); cbn; lia.
    + destruct (bool_decide _); [|done]. injection Hs as <-. cbn. lia.
    + injection Hs as <-. destruct (_ && _); cbn; lia.
    + destruct (joined _); [|done]. injection Hs as <-. cbn. lia.
  - destruct (program s) as [|[] p]; try done. injection Hs as <-. cbn. lia.
  - destruct (program s) as [|[| | |c| | | | | | |] p]; try done.
    assert (s' = set_program p s) as -> by (destruct c; try discriminate Hs; by injection Hs as <-). cbn. lia.
  - destruct (_ || _); [done|]. injection Hs as <-. by destruct (stop_signal s).
  - destruct (servers s) as [|n]; [done|]. destruct (io_stopped s); [|done]. injection Hs as <-. cbn. lia.
  - destruct (worker_step _ _ _ _); [|done]. by injection Hs as <-.
  - destruct (lookup s); try done; by injection Hs as <-.
Qed.

Lemma reachable_weight cf s : reachable cf s -> (weight s <= threads cf + 52)%nat.
Proof.
  intros Hr. assert (rest_cost (program s) + servers s <= threads cf + 36)%nat as Hc.
  { induction Hr as [|e s s' Hr IH Hs]; [|pose proof (program_cost e s s' Hs); lia]. destruct cf as [[] [] [] n]; cbn; lia. }
  unfold weight. assert (forall w, rank w <= 4)%nat as Hk by (intros w; unfold rank; destruct (w_place w); lia).
  pose proof (Hk (w_pool s)). pose proof (Hk (w_blocks s)). pose proof (Hk (w_history s)).
  assert (lookup_rank (lookup s) <= 2)%nat by (destruct (lookup s); cbn; lia). destruct (io_stopped s); lia.
Qed.

(** The steps that end things: those of a process that is being shut down. *)
Definition ending : list happening :=
  [RunServer; CheckTimeout; ServerEnds; Work Pool Ends; Work Blocks Ends; Work History Ends; Lookup false].

Lemma ending_ends e : e ∈ ending -> e <> Signal /\ goes_on e = false.
Proof.
  revert e. apply Forall_forall. by repeat constructor.
Qed.

(** One of them is possible until everything has ended. *)
Lemma no_deadlock s :
  stop_signal s = true -> Forall (fun e => step e s = None) ending ->
  program s = [] /\ lookup s = LookEnd /\ forall c, alive (the_worker c s) = false.
Proof.
  intros Hg Hn. rewrite Forall_forall in Hn.
  assert (forall c, alive (the_worker c s) = false) as Ha.
  { intros c. assert (step (Work c Ends) s = None) as Hc by (apply Hn; destruct c; by repeat constructor).
    cbn [step] in Hc. unfold worker_step in Hc. unfold alive, joined. by destruct (w_place (the_worker c s)). }
  split_and!; [|by specialize (Hn (Lookup false) ltac:(by repeat constructor)); cbn in Hn; destruct (lookup s)|done].
  pose proof (Hn RunServer ltac:(by repeat constructor)) as Hr. cbn [step] in Hr. unfold run_step in Hr.
  destruct (program s) as [|i p]; [done|]. destruct i as [| |n|c| |c|c|c|c| |]; try done.
  - exfalso. pose proof (Hn CheckTimeout ltac:(by repeat constructor)) as Ht.
    pose proof (Hn ServerEnds ltac:(by repeat constructor)) as He. cbn [step] in Ht, He.
    destruct (servers s) as [|n]; [done|]. destruct (io_stopped s); [done|]. done.
  - specialize (Ha c). unfold alive in Ha. apply negb_false_iff in Ha. by rewrite Ha in Hr.
Qed.

Lemma no_deadlock_ended s :
  stop_signal s = true -> Forall (fun e => step e s = None) ending ->
  ended s = true /\ forall c, alive (the_worker c s) = false.
Proof.
  intros Hg Hn. destruct (no_deadlock s Hg Hn) as (H1 & H2 & H3). split; [|done].
  unfold ended. rewrite H1, H2. by rewrite !bool_decide_eq_true_2.
Qed.

(** The calls that the passes added are the only steps without a bound. *)
Lemma run_weight l s s' :
  stop_signal s = true -> Forall (fun e => e <> Signal) l -> run l s = Some s' ->
  stop_signal s' = true /\ (length (List.filter (fun e => negb (goes_on e)) l) + weight s' <= weight s)%nat.
Proof.
  intros Hg Hl. revert s Hg. induction Hl as [|e l He Hl IH]; intros s Hg Hrun; cbn [run List.filter] in *;
    [by injection Hrun as <-|].
  destruct (step e s) as [s1|] eqn:Es; [|done]. destruct (step_lighter e s s1 Hg He Es) as [Hg1 Hw1].
  destruct (IH s1 Hg1 Hrun). split; [done|]. destruct (goes_on e); cbn [negb length] in *; lia.
Qed.

(** From wherever it is, the process can be brought to its end. *)
Lemma can_end s :
  stop_signal s = true ->
  exists l s', Forall (fun e => e ∈ ending) l /\ run l s = Some s' /\ ended s' = true /\
    forall c, alive (the_worker c s') = false.
Proof.
  remember (weight s) as n eqn:En. revert s En. induction (lt_wf n) as [n _ IH]. intros s -> Hg.
  destruct (decide (Forall (fun e => step e s = None) ending)) as [Hn|Hn].
  - destruct (no_deadlock_ended s Hg Hn). by exists [], s.
  - apply not_Forall_Exists, Exists_exists in Hn as (e & He & Hs); [|apply _]. destruct (ending_ends e He) as [H1 H2].
    cbn in Hs. destruct (step e s) as [s1|] eqn:Es; [|done].
    destruct (step_lighter e s s1 Hg H1 Es) as [Hg1 Hw]. rewrite H2 in Hw.
    destruct (IH (weight s1) ltac:(lia) s1 eq_refl Hg1) as (l & s2 & Hl & Hr & H3). exists (e :: l), s2.
    split; [by constructor|]. split; [|done]. cbn. by rewrite Es.
Qed.

(** ** Theorems *)

(** C9: the threads of the server and of the components use nothing that was freed.
    However the threads are interleaved, and whenever the signal comes: once a
    component was deleted, no server thread runs, so no handler, and its own thread has
    ended; and once the pool was deleted, the threads of both caches, which use it,
    have ended too.  The other users of the pool are not waited for, and the theorem
    does not speak of them: the thread of the lookup (lookup_uses_freed_pool), and the
    timers of requests that were under way. *)
Theorem freed_only_when_unused cf s c :
  reachable cf s -> c ∈ freed s ->
  servers s = 0%nat /\ alive (the_worker c s) = false /\
  (c = Pool -> forall d, alive (the_worker d s) = false).
Proof.
  intros Hr Hc. pose proof (life_reachable_inv cf s Hr) as Hi. destruct (li_freed s Hi c Hc) as (H1 & H2 & H3). split_and!.
  - by apply served_servers.
  - by apply (li_quiet s Hi).
  - intros Hp d. apply (li_quiet s Hi). specialize (H3 Hp). by apply all_quiet_spec.
Qed.

(** C3: after the signal, only a pass that goes on making calls keeps the process from
    its end.  From any state it can be in when the signal has come, the threads make at
    most [threads + 52] steps in whatever order, not counting the calls that a pass of a
    cache or of the lookup under way adds; there is always a step that
    is none of these until main has joined the threads of the server and of the lookup
    and the threads of the pool and of the caches have ended; and so, wherever the run
    has got to, the end can be reached.  No deadlock then keeps the process alive; that the calls
    inside a pass come to an end is not part of it, and endless_pass_blocks_shutdown is
    the case where they do not. *)
Theorem shutdown_completes cf s l s' :
  reachable cf s -> stop_signal s = true -> Forall (fun e => e <> Signal) l -> run l s = Some s' ->
  (length (List.filter (fun e => negb (goes_on e)) l) <= threads cf + 52)%nat /\
  (Forall (fun e => step e s' = None) ending -> ended s' = true /\ forall c, alive (the_worker c s') = false) /\
  exists l2 s2, Forall (fun e => e ∈ ending) l2 /\ run l2 s' = Some s2 /\ ended s2 = true.
Proof.
  intros Hr Hg Hl Hrun. pose proof (reachable_weight cf s Hr) as Hw.
  destruct (run_weight l s s' Hg Hl Hrun) as [Hg' Hle]. split_and!; [lia|by apply no_deadlock_ended|].
  destruct (can_end s' Hg') as (l2 & s2 & H1 & H2 & H3 & _). by exists l2, s2.
Qed.

(** The thread of the block cache is waited for in the middle of a pass. *)
Definition awaited_pass (s : life) : Prop :=
  w_place (w_blocks s) = Passing /\ exists p, program s = Join Blocks :: p.

(** load_extra_blocks does not look at the signal or at m_run: while it only makes
    calls, http_server::run stays at the join, with the signal given or not. *)
Theorem endless_pass_blocks_shutdown l s s' :
  awaited_pass s -> Forall (fun e => e <> Work Blocks Ends /\ e <> Work Blocks Throws) l -> run l s = Some s' ->
  awaited_pass s' /\ program s' = program s.
Proof.
  intros Hs Hl. revert s Hs. induction Hl as [|e l [H1 H2] Hl IH]; intros s (Hp & p & Ep) Hrun; cbn [run] in Hrun;
    [by injection Hrun as <-; split; [split; [|exists p]|]|].
  destruct (step e s) as [s1|] eqn:Es; [|done]. assert (awaited_pass s1 /\ program s1 = program s) as [Ha <-]; [|by apply IH].
  unfold awaited_pass. destruct e as [| | | | | |c o|on]; cbn [step] in Es.
  - injection Es as <-. cbn. by eauto.
  - unfold run_step, joined in Es. rewrite Ep in Es. cbn [the_worker] in Es. by rewrite Hp in Es.
  - by rewrite Ep in Es.
  - by rewrite Ep in Es.
  - destruct (_ || _); [done|]. injection Es as <-. destruct (stop_signal s); cbn; by eauto.
  - destruct (servers s); [done|]. destruct (io_stopped s); [|done]. injection Es as <-. cbn. by eauto.
  - destruct (worker_step c (stop_signal s) o (the_worker c s)) as [w|] eqn:Ew; [|done]. injection Es as <-.
    destruct c; cbn; [by eauto| |by eauto]. unfold worker_step in Ew. cbn [the_worker] in Ew. rewrite Hp in Ew.
    destruct o; [|done|done]. injection Ew as <-. cbn. by eauto.
  - destruct (lookup s); try done; injection Es as <-; cbn; by eauto.
Qed.

(** Such a state is reached when the signal comes during a pass. *)
Theorem awaited_pass_reached :
  let cf := {| pool_on := true; blocks_on := true; history_on := true; threads := 1 |} in
  exists s, reachable cf s /\ stop_signal s = true /\ awaited_pass s.
Proof.
  intros cf.
  set (l := replicate 6 RunServer ++ replicate 3 (Work Blocks Ends) ++ [Signal; CheckTimeout; ServerEnds] ++ replicate 3 RunServer).
  destruct (run l (life_new cf)) as [s|] eqn:Er; [|vm_compute in Er; discriminate]. exists s.
  split; [by eapply run_reachable; [apply reach_new|]|]. vm_compute in Er. injection Er as <-. split; [done|]. split; [done|by eexists].
Qed.

(** A run without the signal in which no pass of the block cache throws. *)
Definition undisturbed (e : happening) : Prop := e <> Signal /\ e <> Work Blocks Throws.

(** The block cache runs although it was told to stop. *)
Definition missed_stop (s : life) : Prop :=
  stop_signal s = false /\ w_flag (w_blocks s) = true /\ w_place (w_blocks s) ∈ [Testing; Checking; Passing] /\
  exists p, program s = Join Blocks :: p.

Lemma missed_stop_step e s s' :
  missed_stop s -> undisturbed e -> step e s = Some s' -> missed_stop s' /\ program s' = program s.
Proof.
  intros (Hg & Hf & Hp & p & Ep) [H1 H2] Hs. unfold missed_stop.
  destruct e as [| | | | | |c o|on]; cbn [step] in Hs; try done.
  - unfold run_step in Hs. rewrite Ep in Hs. unfold joined in Hs. cbn [the_worker] in Hs.
    rewrite !elem_of_cons in Hp. destruct Hp as [Hp|[Hp|[Hp|Hp]]]; [by rewrite Hp in Hs..|by apply not_elem_of_nil in Hp].
  - by rewrite Ep in Hs.
  - by rewrite Ep in Hs.
  - destruct (_ || _); [done|]. rewrite Hg in Hs. injection Hs as <-. by eauto 10.
  - destruct (servers s); [done|]. destruct (io_stopped s); [|done]. injection Hs as <-. cbn. by eauto 10.
  - destruct (worker_step c (stop_signal s) o (the_worker c s)) as [w|] eqn:Ew; [|done]. injection Hs as <-.
    destruct c; cbn; [by eauto 10| |by eauto 10]. rewrite Hg in Ew. unfold worker_step in Ew. cbn [the_worker] in Ew.
    rewrite !elem_of_cons in Hp. destruct Hp as [Hp|[Hp|[Hp|Hp]]]; [| | |by apply not_elem_of_nil in Hp];
      rewrite Hp, ?Hf in Ew; injection Ew as <-; cbn; rewrite ?Hf; split; eauto; split_and!; eauto;
      destruct o; try (by destruct H2); rewrite ?elem_of_cons; cbn; auto.
  - destruct (lookup s); try done; injection Hs as <-; cbn; by eauto 10.
Qed.

(** A stop that comes too early is lost.  With no server thread (service.threads
    = 0) http_server::run goes on to stop the caches at once; when the thread of the
    block cache has not yet reached its first line, which sets m_run, it overwrites
    the stop, and the join waits until the signal comes. *)
Theorem early_stop_is_lost :
  let cf := {| pool_on := false; blocks_on := true; history_on := false; threads := 0 |} in
  exists s, reachable cf s /\ missed_stop s /\
    forall l s', Forall undisturbed l -> run l s = Some s' -> program s' = program s.
Proof.
  intros cf.
  destruct (run (replicate 5 RunServer ++ [RunServer; RunServer; Work Blocks Ends]) (life_new cf)) as [s|] eqn:Er;
    [|vm_compute in Er; discriminate].
  exists s. assert (missed_stop s) as Hm.
  { vm_compute in Er. injection Er as <-. split_and!; try done; [by constructor|by eexists]. }
  split_and!; [by eapply run_reachable; [apply reach_new|]|done|].
  intros l s' Hl. clear Er. revert s Hm. induction Hl as [|e l He Hl IH]; intros s Hm Hs; cbn in Hs; [by injection Hs as <-|].
  destruct (step e s) as [s1|] eqn:Es; [|done]. destruct (missed_stop_step e s s1 Hm He Es) as [Hm1 <-]. by apply IH.
Qed.

(** The thread of the lookup is joined behind the server, whose end deletes the pool
    that a call of the lookup uses. *)
Theorem lookup_uses_freed_pool :
  let cf := {| pool_on := true; blocks_on := true; history_on := true; threads := 1 |} in
  exists l s, run l (life_new cf) = Some s /\ Pool ∈ freed s /\ lookup s = LookCall.
Proof.
  intros cf.
  exists ([Lookup false] ++ replicate 6 RunServer ++ [Signal; CheckTimeout; ServerEnds] ++
          flat_map (fun c => replicate 4 (Work c Ends)) [Pool; Blocks; History] ++ replicate 13 RunServer).
  eexists. split; [vm_compute; reflexivity|]. split; [|reflexivity]. by constructor.
Qed.

(** The thread of the pool empties it as soon as it sees the signal, while the pool
    is still switched on and the server threads run calls with its objects. *)
Theorem pool_emptied_under_calls :
  let cf := {| pool_on := true; blocks_on := true; history_on := true; threads := 1 |} in
  exists l s, run l (life_new cf) = Some s /\ w_place (w_pool s) = Gone /\ w_flag (w_pool s) = true /\
    servers s = 1%nat /\ io_stopped s = false.
Proof.
  intros cf. exists (replicate 6 RunServer ++ [Signal] ++ replicate 4 (Work Pool Ends)).
  eexists. split; [vm_compute; reflexivity|]. by split_and!.
Qed.

(** ** Witnesses *)

Module Sample.
Definition cf : thread_settings := {| pool_on := true; blocks_on := false; history_on := false; threads := 2 |}.
(** Signal in the middle of the work, then the end. *)
Definition first_part : list happening := replicate 4 RunServer ++ [Work Pool Ends; Lookup false; Signal].
Definition last_part : list happening :=
  [CheckTimeout; ServerEnds; Work Pool Ends; Lookup false; ServerEnds; Lookup false; Work Pool Ends; Work Pool Ends]
  ++ replicate 15 RunServer.
Definition s1 : life := default (life_new cf) (run first_part (life_new cf)).
Definition s2 : life := default (life_new cf) (run last_part s1).

Lemma s1_reachable : reachable cf s1.
Proof. apply (run_reachable cf first_part (life_new cf)); [apply reach_new|vm_compute; reflexivity]. Qed.

Lemma freed_only_when_unused_witness : servers s2 = 0%nat /\ forall d, alive (the_worker d s2) = false.
Proof.
  destruct (freed_only_when_unused cf s2 Pool) as (H1 & _ & H3).
  - apply (run_reachable cf last_part s1); [apply s1_reachable|vm_compute; reflexivity].
  - apply (bool_decide_unpack _). vm_compute. exact I.
  - split; [exact H1|exact (H3 eq_refl)].
Defined.

Lemma shutdown_completes_witness : (length last_part <= 54)%nat /\ ended s2 = true.
Proof.
  destruct (shutdown_completes cf s1 last_part s2) as (H1 & H2 & _).
  - exact s1_reachable.
  - reflexivity.
  - repeat constructor; discriminate.
  - vm_compute. reflexivity.
  - split; [exact H1|]. apply H2. repeat constructor.
Defined.
End Sample.
