(* ===== verification/Statistics.v ===== *)
(** Statistics: src/Statistic/Statistics.h and .cpp, StatisticsServer.h and .cpp,
    and the part of src/main.cpp that starts and joins them.

    A thread of the object reports once a second; the other threads count requests
    and note blocks.  The machine below has a step for everything that is done
    under a mutex and for every test of [aborted]; a report, with the request to
    the statistics server, is one step, as it uses copies only.  The clock, the
    latency file, the benchmarks, libcurl and the stop signal are arguments of that
    step; the pause behind it is left out.  A join is a step that waits for the
    thread. *)

From Stdlib Require Import String Sorted.
From S2P Require Import Prelude Text Hex Json BlockInfo GenerateJson.
Open Scope Z_scope.

(** ** Counters *)

(** [operator<] of std::string. *)
Fixpoint str_less (a b : bytes) : bool :=
  match a, b with
  | [], _ :: _ => true
  | x :: a', y :: b' => (uc x <? uc y) || ((uc x =? uc y) && str_less a' b')
  | _, [] => false
  end.

(** struct RequestsStat; a std::map is the list of its pairs in their order. *)
Record RequestsStat := { requests : list (bytes * Z); allRequests : Z }.

(** [requests[request]++]. *)
Fixpoint increment (request : bytes) (l : list (bytes * Z)) : list (bytes * Z) :=
  match l with
  | [] => [(request, 1)]
  | (k, v) :: l' =>
      if str_less request k then (request, 1) :: l
      else if str_less k request then (k, v) :: increment request l'
      else (k, u64 (v + 1)) :: l'
  end.

Definition incRequest (request : bytes) (r : RequestsStat) : RequestsStat :=
  {| requests := increment request (requests r); allRequests := u64 (allRequests r + 1) |}.

Definition clear : RequestsStat := {| requests := []; allRequests := 0 |}.

(** ** Blocks *)

Record BlockStatistic := {
  bs_header : BlockHeader;
  timeGet : Z; timeSave : Z; timeAll : Z;
  countTransferTxs : Z; countInitTxs : Z;
  bs_time : option Z
}.

Definition BlockStatistic_default : BlockStatistic :=
  {| bs_header := header BlockInfo_default; timeGet := 0; timeSave := 0; timeAll := 0;
     countTransferTxs := 0; countInitTxs := 0; bs_time := None |}.

Definition block_at (bh : BlockHeader) (now : Z) : BlockStatistic :=
  {| bs_header := bh; timeGet := 0; timeSave := 0; timeAll := 0;
     countTransferTxs := 0; countInitTxs := 0; bs_time := Some now |}.

Definition makeBlockStatistic (bi : BlockInfo) (now : Z) : BlockStatistic := block_at (header bi) now.

(** ** The report *)

Record stat_config := {
  serverStatName : bytes; network : bytes; group : bytes; stat_server : bytes;
  stat_version : bytes; thisIp : bytes
}.

Record BenchmarkInfo := { opensslTest : Z; bench_memory : Z; ioTest : Z; ioTest2 : Z }.

(** What a report finds outside of the object: the clock in milliseconds, the
    contents of the latency file ([None] when it cannot be opened), the benchmarks,
    what Curl::request returns or throws, and whether the program is being
    stopped. *)
Record surroundings := {
  now_ms : Z; latency_file : option bytes; benchmarks : BenchmarkInfo;
  curl_answer : res bytes; stop_signal : bool
}.

(** [file >> result] into a variable that has no value: a text of blanks leaves it
    so, a text that is no number makes it 0, a large number the maximum. *)
Definition getLatency (file : option bytes) : res Z :=
  match file with
  | None => Ok 0
  | Some t =>
      match skip_spaces t with
      | [] => Throw Undefined
      | _ => match stoull t with
             | Ok v => Ok v
             | Throw OutOfRange => Ok UINT64_MAX
             | Throw _ => Ok 0
             end
      end
  end.

Section Report.
Context `{I : InfoLib}.
Variable parse : bytes -> option json.
Variable cfg : stat_config.

(** addParamFunc. *)
Definition param (type metric : bytes) (value : json) : json :=
  AddMember (AddMember (AddMember (JObj []) "type" (strToJson type)) "metric" (strToJson metric)) "value" value.

Definition block_text (bh : BlockHeader) (number : Z) : bytes :=
  str "number: " ++ to_string number ++ str "; " ++
  str "type: " ++ to_string (blockType bh) ++ str "; " ++
  str "size: " ++ to_string (blockSize bh) ++ str "; " ++
  str "hash: " ++ toHex_vec (hash bh) ++ str "; " ++
  str "prev_hash: " ++ toHex_vec (prevHash bh).

(** addBlockStatFunc; [value()] of an empty std::optional throws a
    std::exception. *)
Definition block_params (stat : BlockStatistic) (prefix : bytes) : res (list json) :=
  let bh := bs_header stat in
  match blockNumber bh with
  | None => Throw (RuntimeError (str "bad optional access"))
  | Some number =>
      Ok [param (str "none") (prefix ++ str "time_work") (JInt (timeGet stat + timeSave stat));
          param (str "none") (prefix ++ str "latency") (JInt (timeAll stat));
          param (str "none") (prefix ++ str "block_info") (strToJson (block_text bh number));
          param (str "none") (prefix ++ str "transactions_init") (JInt (countInitTxs stat));
          param (str "none") (prefix ++ str "transactions_transfer") (JInt (countTransferTxs stat))]
  end.

Definition last_block_params (stat : BlockStatistic) : res (list json) :=
  match bs_time stat with Some _ => block_params stat (str "last_") | None => Ok [] end.

Definition request_params (r : RequestsStat) : list json :=
  param (str "sum") (str "count_requests") (JInt (allRequests r)) ::
  map (fun '(key, value) => param (str "sum") (str "count_requests_" ++ key) (JInt value)) (requests r).

Definition report (e : surroundings) (block : BlockStatistic) (r : RequestsStat) : res json :=
  let paramsJson :=
    AddMember (AddMember (AddMember (AddMember (JObj []) "network" (strToJson (network cfg)))
      "group" (strToJson (group cfg))) "server" (strToJson (serverStatName cfg)))
      "timestamp_ms" (JInt (u64 (now_ms e))) in
  blocks ← last_block_params block;
  latency ← getLatency (latency_file e);
  let b := benchmarks e in
  let metricsJson := blocks ++ request_params r ++
    [param (str "none") (str "core_latency") (JInt latency);
     param (str "none") (str "ip") (strToJson (thisIp cfg));
     param (str "none") (str "version") (strToJson (stat_version cfg));
     param (str "none") (str "bench_mem") (JInt (bench_memory b));
     param (str "none") (str "bench_io") (JInt (ioTest b));
     param (str "none") (str "bench_io2") (JInt (ioTest2 b));
     param (str "none") (str "bench_ssl") (JInt (opensslTest b))] in
  Ok (AddMember (JObj []) "params" (AddMember paramsJson "metrics" (JArr metricsJson))).

(** The address of the request; the last character of an empty text is asked
    for. *)
Definition report_url : res bytes :=
  match last (stat_server cfg) with
  | None => Throw Undefined
  | Some c =>
      Ok (stat_server cfg ++ (if bool_decide (c = "/"%char) then [] else str "/") ++ str "save-metrics")
  end.

(** request, and the check of what it returns; RapidJSON asserts that a document
    whose members are asked for is an object. *)
Definition check_answer (postData : bytes) (answer : res bytes) : res unit :=
  buffer ← answer;
  match parse (c_str buffer) with
  | None => Throw (CommonException (str "rapidjson parse error. Data: " ++ buffer ++ str ". key " ++ postData))
  | Some (JObj l) =>
      match get "error" (JObj l) with
      | None | Some JNull =>
          if match get "result" (JObj l) with
             | Some (JStr s) => bool_decide (c_str s = str "ok")
             | _ => false
             end
          then Ok ()
          else Throw (CommonException (str "response field not found " ++ jsonToString (JObj l)))
      | Some e => Throw (CommonException (jsonToString e ++ str ". Key " ++ postData))
      end
  | Some _ => Throw Undefined
  end.

(** The body of the inner try: the address and the body of the request it made. *)
Definition send_report (e : surroundings) (block : BlockStatistic) (r : RequestsStat) : res (bytes * bytes) :=
  doc ← report e block r;
  url ← report_url;
  _ ← check_answer (jsonToString doc) (curl_answer e);
  Ok (url, jsonToString doc).

(** ** The thread *)

(** Where the thread is: before start, at the head of the loop, in its body, with
    the copy of the block, with both copies, at its end, joined; [Broken] is behind undefined
    behaviour or an exception that leaves the thread. *)
Inductive thread_at :=
| Idle
| Head
| Entered
| CopiedBlock (block : BlockStatistic)
| Copied (block : BlockStatistic) (r : RequestsStat)
| Ended
| Joined
| Broken.

Record StatisticsServer := {
  lastBlock : BlockStatistic;
  requestStat : RequestsStat;
  aborted : bool;
  thread : thread_at
}.

Definition StatisticsServer_new : StatisticsServer :=
  {| lastBlock := BlockStatistic_default; requestStat := clear; aborted := false; thread := Idle |}.

Definition set_block (b : BlockStatistic) (s : StatisticsServer) : StatisticsServer :=
  {| lastBlock := b; requestStat := requestStat s; aborted := aborted s; thread := thread s |}.
Definition set_requests (r : RequestsStat) (s : StatisticsServer) : StatisticsServer :=
  {| lastBlock := lastBlock s; requestStat := r; aborted := aborted s; thread := thread s |}.
Definition set_aborted (s : StatisticsServer) : StatisticsServer :=
  {| lastBlock := lastBlock s; requestStat := requestStat s; aborted := true; thread := thread s |}.
Definition set_thread (t : thread_at) (s : StatisticsServer) : StatisticsServer :=
  {| lastBlock := lastBlock s; requestStat := requestStat s; aborted := aborted s; thread := t |}.

(** The calls of other threads, and the steps of its own. *)
Inductive event :=
| Increment (request : bytes)
| SaveNewBlock (bi : BlockInfo) (now : Z)
| SetLastBlock (bh : BlockHeader) (now : Z)
| Start
| AbortCall
| JoinCall
| Test
| CopyBlock
| CopyRequests
| Report (e : surroundings).

(** What leaves the object: a report that was accepted, or the counters of one
    that failed. *)
Inductive output :=
| Accepted (url body : bytes) (r : RequestsStat)
| Dropped (r : RequestsStat).

(** The end of an iteration: checkStopSignal throws when the program stops. *)
Definition iteration_end (e : surroundings) : thread_at := if stop_signal e then Ended else Head.

(** A step, [None] where it cannot happen: a join waits for the thread, and a
    second start would assign to a running std::thread, which ends the process. *)
Definition step (ev : event) (s : StatisticsServer) : option (StatisticsServer * list output) :=
  match ev with
  | Increment k => Some (set_requests (incRequest k (requestStat s)) s, [])
  | SaveNewBlock bi now => Some (set_block (makeBlockStatistic bi now) s, [])
  | SetLastBlock bh now => Some (set_block (block_at bh now) s, [])
  | AbortCall => Some (set_aborted s, [])
  | Start =>
      match thread s with
      | Idle | Joined => Some (set_thread Head s, [])
      | _ => None
      end
  | JoinCall =>
      match thread s with
      | Idle | Joined => Some (s, [])
      | Ended => Some (set_thread Joined s, [])
      | _ => None
      end
  | Test =>
      match thread s with
      | Head => if aborted s then Some (set_thread Ended s, [])
                else Some (set_thread Entered s, [])
      | _ => None
      end
  | CopyBlock =>
      match thread s with
      | Entered => Some (set_thread (CopiedBlock (lastBlock s)) s, [])
      | _ => None
      end
  | CopyRequests =>
      match thread s with
      | CopiedBlock b => Some (set_thread (Copied b (requestStat s)) (set_requests clear s), [])
      | _ => None
      end
  | Report e =>
      match thread s with
      | Copied b r =>
          match send_report e b r with
          | Ok (url, body) => Some (set_thread (iteration_end e) s, [Accepted url body r])
          | Throw (CommonException _) => Some (set_thread (iteration_end e) s, [Dropped r])
          | Throw StopException => Some (set_thread Ended s, [Dropped r])
          | Throw x =>
              if is_std_exception x then Some (set_thread (iteration_end e) s, [Dropped r])
              else Some (set_thread Broken s, [Dropped r])
          end
      | _ => None
      end
  end.

Fixpoint run (evs : list event) (s : StatisticsServer) : option (StatisticsServer * list output) :=
  match evs with
  | [] => Some (s, [])
  | ev :: evs' =>
      match step ev s with
      | None => None
      | Some (s', o) =>
          match run evs' s' with
          | None => None
          | Some (s'', o') => Some (s'', o ++ o')
          end
      end
  end.
End Report.

(** ** The guard of main *)

Record StatisticGuard := { joined : bool }.

Definition StatisticGuard_default : StatisticGuard := {| joined := true |}.
Definition StatisticGuard_started : StatisticGuard := {| joined := false |}.

(** StatisticGuard::join with joinStatistics, and the destructor, which calls it:
    the calls it makes. *)
Definition guard_join (g : StatisticGuard) : list event * StatisticGuard :=
  if joined g then ([], g) else ([AbortCall; JoinCall], {| joined := true |}).

(** [statGuard = startStatistics()]: a class with a destructor of its own has no
    assignment that moves, so the guard is a copy and the temporary one, which is
    not joined either, is destroyed. *)
Definition assign_started : list event * StatisticGuard :=
  let temporary := StatisticGuard_started in
  let statGuard := temporary in
  ([Start] ++ (guard_join temporary).1, statGuard).

(** What main calls before the server runs, and at its end. *)
Definition main_start (isStartStatistic : bool) : list event * StatisticGuard :=
  if isStartStatistic then assign_started else ([], StatisticGuard_default).

Definition main_end (statGuard : StatisticGuard) : list event := (guard_join statGuard).1.

Definition is_owner (ev : event) : bool :=
  match ev with Start | AbortCall | JoinCall => true | _ => false end.

Definition owner_calls (evs : list event) : list event := filter is_owner evs.

Definition is_own (ev : event) : bool :=
  match ev with Test | CopyBlock | CopyRequests | Report _ => true | _ => false end.

(** ** Counting *)

(** The counter of a request, and the sum of all. *)
Fixpoint entry (k : bytes) (l : list (bytes * Z)) : Z :=
  match l with
  | [] => 0
  | (k', v) :: l' => (if bool_decide (k' = k) then v else 0) + entry k l'
  end.

Fixpoint total (l : list (bytes * Z)) : Z := match l with [] => 0 | (_, v) :: l' => v + total l' end.

(** The counters a thread has copied, and what was counted in the outputs. *)
Definition in_hand (t : thread_at) : RequestsStat := match t with Copied _ r => r | _ => clear end.
Definition output_stat (o : output) : RequestsStat := match o with Accepted _ _ r | Dropped r => r end.

Fixpoint sum {A} (f : A -> Z) (l : list A) : Z := match l with [] => 0 | x :: l' => f x + sum f l' end.

Lemma sum_app {A} (f : A -> Z) l k : sum f (l ++ k) = sum f l + sum f k.
Proof. induction l; cbn; lia. Qed.

(** ** The order of names *)

Lemma str_less_irrefl a : str_less a a = false.
Proof. induction a as [|x a IH]; cbn; [done|]. rewrite IH, andb_false_r, Z.ltb_irrefl. done. Qed.

Lemma str_less_total a b : str_less a b = false -> str_less b a = false -> a = b.
Proof.
  revert b. induction a as [|x a IH]; intros [|y b]; cbn; try done.
  intros [H1 H2]%orb_false_iff [H3 H4]%orb_false_iff. zbool.
  assert (uc x = uc y) as E by lia. rewrite E, Z.eqb_refl in *. cbn in *.
  f_equal; [by apply uc_inj|by apply IH].
Qed.

Lemma str_less_trans a b c : str_less a b = true -> str_less b c = true -> str_less a c = true.
Proof.
  revert b c. induction a as [|x a IH]; intros [|y b] [|z c]; cbn; try done.
  intros H1 H2. apply orb_true_iff in H1, H2. apply orb_true_iff.
  rewrite andb_true_iff, Z.ltb_lt, Z.eqb_eq in *.
  destruct H1 as [H1|[E1 H1]], H2 as [H2|[E2 H2]]; [left; lia..|].
  right. split; [congruence|by eapply IH].
Qed.

(** The names of a std::map are in order. *)
Definition ordered (l : list (bytes * Z)) : Prop := StronglySorted (fun p q => str_less p.1 q.1 = true) l.

(** What holds of counters: names in order, positive values that add up. *)
Record good (r : RequestsStat) : Prop := {
  good_ordered : ordered (requests r);
  good_positive : Forall (fun p => 0 < p.2) (requests r);
  good_total : total (requests r) = allRequests r
}.

Lemma good_clear : good clear.
Proof. split; [constructor|constructor|done]. Qed.

Lemma total_nonneg l : Forall (fun p => 0 < p.2) l -> 0 <= total l.
Proof. induction 1 as [|[k v] l H _ IH]; cbn in *; lia. Qed.

Lemma increment_spec k l :
  Forall (fun p => 0 < p.2) l -> total l + 1 < 2 ^ 64 ->
  Forall (fun p => 0 < p.2) (increment k l) /\ total (increment k l) = total l + 1 /\
  forall k', entry k' (increment k l) = entry k' l + (if bool_decide (k = k') then 1 else 0).
Proof.
  intros H. induction H as [|[n v] l Hv Hl IH]; cbn [increment]; intros Hb.
  - split_and!; [by repeat constructor|done|]. intros k'. cbn. lia.
  - pose proof (total_nonneg l Hl). cbn in Hv. cbn [total] in *.
    destruct (str_less k n) eqn:E1; [|destruct (str_less n k) eqn:E2].
    + split_and!; [by repeat constructor|cbn; lia|]. intros k'. cbn. lia.
    + destruct IH as (H1 & H2 & H3); [lia|]. split_and!; [by constructor|cbn; lia|].
      intros k'. cbn [entry]. rewrite H3. lia.
    + assert (n = k) as -> by (by apply str_less_total). rewrite (wrap_small 64) by lia.
      split_and!; [constructor; [cbn; lia|done]|cbn; lia|]. intros k'. cbn [entry]. case_bool_decide; lia.
Qed.

Lemma increment_names k l p : p ∈ increment k l -> p.1 = k \/ exists q, q ∈ l /\ q.1 = p.1.
Proof.
  induction l as [|[n v] l IH]; cbn [increment].
  - intros ->%list_elem_of_singleton. by left.
  - destruct (str_less k n); [|destruct (str_less n k)].
    + intros [->|H]%elem_of_cons; [by left|]. right. by exists p.
    + intros [->|H]%elem_of_cons; [right; exists (n, v); by split; [constructor|]|].
      apply IH in H as [->|(q & Hq & E)]; [by left|]. right. exists q. by split; [constructor|].
    + intros [->|H]%elem_of_cons; [right; exists (n, v); by split; [constructor|]|].
      right. exists p. by split; [constructor|].
Qed.

Lemma increment_ordered k l : ordered l -> ordered (increment k l).
Proof.
  induction 1 as [|[n v] l H IH Hn]; cbn [increment]; [by repeat constructor|].
  destruct (str_less k n) eqn:E1; [|destruct (str_less n k) eqn:E2].
  - constructor; [by constructor|]. constructor; [done|].
    eapply Forall_impl; [exact Hn|]. intros q Hq. cbn in *. by eapply str_less_trans.
  - constructor; [done|]. apply Forall_forall. intros p [->|(q & Hq & <-)]%increment_names; [done|].
    rewrite Forall_forall in Hn. by apply Hn.
  - by constructor.
Qed.

Lemma incRequest_spec k r :
  good r -> allRequests r + 1 < 2 ^ 64 ->
  good (incRequest k r) /\ allRequests (incRequest k r) = allRequests r + 1 /\
  forall k', entry k' (requests (incRequest k r)) = entry k' (requests r) + (if bool_decide (k = k') then 1 else 0).
Proof.
  intros [Ho Hp Ht] Hb. destruct (increment_spec k (requests r)) as (H1 & H2 & H3); [done|lia|].
  pose proof (total_nonneg _ Hp). assert (allRequests (incRequest k r) = allRequests r + 1) as E.
  { cbn. apply wrap_small. lia. }
  split_and!; [split; [by apply increment_ordered|done|]|done|done]. rewrite E. cbn [requests incRequest]. lia.
Qed.

(** ** Runs *)

Section Facts.
Context `{I : InfoLib} {parse : bytes -> option json} {cfg : stat_config}.
Abbreviation stepped := (step parse cfg).
Abbreviation ran := (run parse cfg).

Lemma run_cons ev evs s s'' o :
  ran (ev :: evs) s = Some (s'', o) ->
  exists s' o1 o2, stepped ev s = Some (s', o1) /\ ran evs s' = Some (s'', o2) /\ o = o1 ++ o2.
Proof.
  cbn [run]. destruct (stepped ev s) as [[s' o1]|]; [|done]. destruct (ran evs s') as [[t o2]|] eqn:E; [|done].
  intros [= <- <-]. by exists s', o1, o2.
Qed.

(** A step by cases: what it needs and what it leaves. *)
Ltac step_cases :=
  repeat match goal with
  | H : context [match ?x with _ => _ end] |- _ =>
      lazymatch x with context [match _ with _ => _ end] => fail | _ => destruct x eqn:?; try done end
  end.

(** A measure [f] of counters that a count of [k] increases by [d k]. *)
Section Measure.
Variable f : RequestsStat -> Z.
Variable d : bytes -> Z.
Hypothesis f_clear : f clear = 0.
Hypothesis f_count : forall k r, good r -> allRequests r + 1 < 2 ^ 64 -> f (incRequest k r) = f r + d k.

Definition event_weight (ev : event) : Z := match ev with Increment k => d k | _ => 0 end.
Definition held (s : StatisticsServer) : Z := f (requestStat s) + f (in_hand (thread s)).

Lemma step_conserves ev s s' o :
  stepped ev s = Some (s', o) -> good (requestStat s) -> allRequests (requestStat s) + 1 < 2 ^ 64 ->
  good (requestStat s') /\ 0 <= allRequests (requestStat s') <= allRequests (requestStat s) + 1 /\
  held s' + sum (fun x => f (output_stat x)) o = held s + event_weight ev.
Proof.
  intros E Hg Hb. pose proof (total_nonneg _ (good_positive _ Hg)) as Hn. rewrite (good_total _ Hg) in Hn.
  destruct ev; cbn [step] in E; unfold held, event_weight;
    try (injection E as <- <-; cbn; split_and!; try done; lia).
  - injection E as <- <-. destruct (incRequest_spec request _ Hg Hb) as (H1 & H2 & _).
    cbn [requestStat set_requests thread]. rewrite H2, f_count by done. cbn [sum]. split_and!; [done|lia|lia|lia].
  - step_cases; injection E as <- <-; cbn; rewrite ?f_clear; (split_and!; [done|lia|lia|lia]).
  - step_cases; injection E as <- <-; cbn; rewrite ?f_clear; rewrite ?Heqt; cbn; rewrite ?f_clear; (split_and!; [done|lia|lia|lia]).
  - step_cases; injection E as <- <-; cbn; rewrite ?f_clear; (split_and!; [done|lia|lia|lia]).
  - step_cases; injection E as <- <-; cbn; rewrite ?f_clear; (split_and!; [done|lia|lia|lia]).
  - step_cases; injection E as <- <-; cbn; rewrite ?f_clear; (split_and!; [apply good_clear|lia|lia|lia]).
  - destruct (thread s) as [| | | |b r| | |]; try done.
    assert (exists t w, s' = set_thread t s /\ in_hand t = clear /\ o = [w] /\ output_stat w = r) as (t & w & -> & Et & -> & Ew).
    { unfold iteration_end in E. step_cases; injection E as <- <-; by eexists _, _. }
    cbn [requestStat set_thread thread sum]. rewrite Et, Ew, f_clear. cbn [in_hand]. split_and!; [done|lia|lia|lia].
Qed.

Lemma run_conserves evs s s' o :
  ran evs s = Some (s', o) -> good (requestStat s) -> allRequests (requestStat s) + zlen evs < 2 ^ 64 ->
  good (requestStat s') /\ held s' + sum (fun x => f (output_stat x)) o = held s + sum event_weight evs.
Proof.
  revert s o. induction evs as [|ev evs IH]; intros s o E Hg Hb.
  - injection E as <- <-. cbn. split; [done|lia].
  - apply run_cons in E as (t & o1 & o2 & E1 & E2 & ->). rewrite zlen_cons in Hb. pose proof (zlen_nonneg evs).
    destruct (step_conserves _ _ _ _ E1 Hg) as (H1 & H2 & H3); [lia|].
    destruct (IH t o2 E2 H1) as (H4 & H5); [lia|]. split; [done|]. rewrite sum_app. cbn [sum]. lia.
Qed.
End Measure.

Definition is_count (k : bytes) (ev : event) : Z :=
  match ev with Increment k' => if bool_decide (k' = k) then 1 else 0 | _ => 0 end.
Definition is_any_count (ev : event) : Z := match ev with Increment _ => 1 | _ => 0 end.

(** C40: every request is counted once. However the counting threads and the
    reporting thread are interleaved, as long as fewer than [2^64] things happened,
    the number of times a request was counted is what the object holds for it, what
    the thread has copied, and what the reports held, accepted or not; and the same
    goes for the number of all requests.  The names in the object are in order,
    each once, and its counters add up. *)
Theorem requests_conserved evs s o k :
  ran evs StatisticsServer_new = Some (s, o) -> zlen evs < 2 ^ 64 ->
  good (requestStat s) /\
  entry k (requests (requestStat s)) + entry k (requests (in_hand (thread s))) +
    sum (fun x => entry k (requests (output_stat x))) o = sum (is_count k) evs /\
  allRequests (requestStat s) + allRequests (in_hand (thread s)) +
    sum (fun x => allRequests (output_stat x)) o = sum is_any_count evs.
Proof.
  intros E Hb.
  destruct (run_conserves (fun r => entry k (requests r)) (fun k' => if bool_decide (k' = k) then 1 else 0)
    eq_refl (fun k' r Hg Hr => proj2 (proj2 (incRequest_spec k' r Hg Hr)) k) _ _ _ _ E good_clear) as (H1 & H2); [cbn; lia|].
  destruct (run_conserves allRequests (fun _ => 1)
    eq_refl (fun k' r Hg Hr => proj1 (proj2 (incRequest_spec k' r Hg Hr))) _ _ _ _ E good_clear) as (_ & H3); [cbn; lia|].
  split_and!; [done|exact H2|exact H3].
Qed.

(** ** The end of the thread *)

(** The steps a thread can still make when it is to end. *)
Definition own_left (t : thread_at) : Z :=
  match t with
  | Head => 1 | Entered => 4 | CopiedBlock _ => 3 | Copied _ _ => 2
  | Idle | Ended | Joined | Broken => 0
  end.

Definition reports_left (t : thread_at) : Z :=
  match t with Entered | CopiedBlock _ | Copied _ _ => 1 | _ => 0 end.

Definition running (t : thread_at) : bool := 0 <? own_left t.

Definition own_steps (ev : event) : Z := if is_own ev then 1 else 0.

Lemma step_aborted ev s s' o :
  stepped ev s = Some (s', o) -> aborted s = true -> ev <> Start ->
  aborted s' = true /\ own_left (thread s') + own_steps ev <= own_left (thread s) /\
  reports_left (thread s') + zlen o <= reports_left (thread s).
Proof.
  intros E Ha Hs. unfold own_steps, zlen. destruct ev; cbn [step] in E; try done;
    try (injection E as <- <-; cbn; split_and!; done || lia).
  - step_cases; injection E as <- <-; cbn; try match goal with H : thread _ = _ |- _ => rewrite H end; cbn; split_and!; done || lia.
  - rewrite Ha in E. step_cases; injection E as <- <-; cbn; split_and!; done || lia.
  - step_cases; injection E as <- <-; cbn; split_and!; done || lia.
  - step_cases; injection E as <- <-; cbn; split_and!; done || lia.
  - unfold iteration_end in E. step_cases; injection E as <- <-; cbn; split_and!; done || lia.
Qed.

Lemma run_aborted evs s s' o :
  ran evs s = Some (s', o) -> aborted s = true -> Start ∉ evs ->
  aborted s' = true /\ own_left (thread s') + sum own_steps evs <= own_left (thread s) /\
  reports_left (thread s') + zlen o <= reports_left (thread s).
Proof.
  revert s o. induction evs as [|ev evs IH]; intros s o E Ha Hs.
  - injection E as <- <-. unfold zlen. cbn. split_and!; done || lia.
  - apply run_cons in E as (t & o1 & o2 & E1 & E2 & ->). apply not_elem_of_cons in Hs as [Hn Hs].
    destruct (step_aborted _ _ _ _ E1 Ha) as (H1 & H2 & H3); [done|].
    destruct (IH t o2 E2 H1 Hs) as (H4 & H5 & H6). rewrite zlen_app. cbn [sum]. split_and!; [done|lia|lia].
Qed.

Lemma running_steps (e : surroundings) s : running (thread s) = true -> exists ev, is_own ev = true /\ is_Some (stepped ev s).
Proof.
  unfold running. destruct (thread s) eqn:E; cbn; try done; intros _.
  - exists Test. split; [done|]. cbn. rewrite E. by destruct (aborted s).
  - exists CopyBlock. split; [done|]. cbn. by rewrite E.
  - exists CopyRequests. split; [done|]. cbn. by rewrite E.
  - exists (Report e). split; [done|]. cbn [step]. rewrite E.
    destruct (send_report _ _ _ _ _) as [[url body]|x]; [done|]. by destruct x.
Qed.

(** A thread that is to end ends: behind an abort, whatever the other threads
    do, the thread makes at most four more steps and one more report; while it runs
    it can go on; and when it does not run any more a join returns, unless what it
    used was undefined. *)
Theorem aborted_thread_ends evs s s' o (e : surroundings) :
  ran evs s = Some (s', o) -> aborted s = true -> Start ∉ evs ->
  sum own_steps evs <= 4 /\ zlen o <= 1 /\
  (running (thread s') = true -> exists ev, is_own ev = true /\ is_Some (stepped ev s')) /\
  (running (thread s') = false -> thread s' <> Broken -> is_Some (stepped JoinCall s')).
Proof.
  intros E Ha Hs. destruct (run_aborted _ _ _ _ E Ha Hs) as (_ & H1 & H2).
  assert (own_left (thread s) <= 4) by (destruct (thread s); cbn; lia).
  assert (reports_left (thread s) <= 1) by (destruct (thread s); cbn; lia).
  assert (0 <= own_left (thread s')) by (destruct (thread s'); cbn; lia).
  assert (0 <= reports_left (thread s')) by (destruct (thread s'); cbn; lia).
  split_and!; [lia|lia|by apply (running_steps e)|].
  intros Hr Hb. unfold running in Hr. destruct (thread s') eqn:Et; try done; cbn; by rewrite Et.
Qed.

(** ** What main makes of it *)

(** The state while main has these calls of its assignment left. *)
Definition phase (left : list event) (s : StatisticsServer) : Prop :=
  match left with
  | [Start; AbortCall; JoinCall] => thread s = Idle
  | [AbortCall; JoinCall] => thread s <> Idle /\ thread s <> Joined
  | [JoinCall] => thread s <> Idle /\ thread s <> Joined /\ aborted s = true
  | [] => thread s = Joined /\ aborted s = true
  | _ => False
  end.

Lemma phase_other ev s s' o left :
  stepped ev s = Some (s', o) -> is_owner ev = false -> phase left s -> phase left s'.
Proof.
  intros E Ho Hp.
  assert (aborted s' = aborted s /\ (thread s' = thread s \/
    running (thread s) = true /\ thread s' <> Idle /\ thread s' <> Joined)) as [Ha Ht].
  { destruct ev; cbn [step] in E; try done; try (injection E as <- <-; cbn; auto; fail);
      unfold iteration_end in E; step_cases; injection E as <- <-; cbn; auto. }
  unfold phase in *. rewrite Ha. destruct Ht as [->|(Hr & H1 & H2)]; [done|].
  step_cases; repeat match goal with H : _ /\ _ |- _ => destruct H end; try done;
    repeat match goal with H : thread s = _ |- _ => rewrite H in Hr end; done.
Qed.

Lemma phase_owner ev s s' o left :
  stepped ev s = Some (s', o) -> is_owner ev = true -> phase (ev :: left) s -> phase left s'.
Proof.
  intros E Ho Hp. destruct ev; try done; cbn [step] in E; unfold phase in Hp;
    destruct left as [|[] [|[] [|]]]; try done; cbn.
  - rewrite Hp in E. by injection E as <- <-.
  - destruct Hp. by injection E as <- <-.
  - destruct Hp as (H1 & H2 & H3). step_cases; by injection E as <- <-.
Qed.

Lemma run_phase evs s s' o left rest :
  ran evs s = Some (s', o) -> left = owner_calls evs ++ rest -> phase left s -> phase rest s'.
Proof.
  revert s o left. induction evs as [|ev evs IH]; intros s o left E -> Hp.
  - by injection E as <- <-.
  - apply run_cons in E as (t & o1 & o2 & E1 & E2 & ->). unfold owner_calls in *. rewrite filter_cons in Hp.
    destruct (is_owner ev) eqn:Ho; cbn in Hp.
    + eapply IH; [exact E2|reflexivity|]. eapply phase_owner; [exact E1|done|exact Hp].
    + eapply IH; [exact E2|reflexivity|]. eapply phase_other; [exact E1|done|exact Hp].
Qed.

(** The statistics end with the statement that starts them. When main's
    assignment of the guard has returned, the thread was told to end and was joined;
    from then on no report is made, whatever is counted while the server runs and
    up to main's own join. *)
Theorem statistics_end_at_start before after s1 o1 s2 o2 :
  owner_calls before = (main_start true).1 ->
  ran before StatisticsServer_new = Some (s1, o1) ->
  owner_calls after `prefix_of` main_end (main_start true).2 ->
  ran after s1 = Some (s2, o2) ->
  thread s1 = Joined /\ o2 = [] /\ thread s2 = Joined.
Proof.
  intros Hb E1 Ha E2.
  destruct (run_phase _ _ _ _ (main_start true).1 [] E1) as [Ht Hab]; [by rewrite app_nil_r|done|].
  assert (Start ∉ after) as Hs.
  { intros Hin. destruct Ha as [k Hk].
    assert (Start ∈ owner_calls after) as Hi by (apply list_elem_of_filter; by split).
    assert (Start ∈ main_end (main_start true).2) as Hm by (rewrite Hk; set_solver).
    cbn in Hm. by apply elem_of_cons in Hm as [|[|[]%elem_of_nil]%elem_of_cons]. }
  clear Hb Ha E1. revert s1 o2 E2 Ht Hab. induction after as [|ev after IH]; intros s1 o2 E2 Ht Hab.
  - by injection E2 as <- <-.
  - apply run_cons in E2 as (t & o3 & o4 & E3 & E4 & ->). apply not_elem_of_cons in Hs as [Hn Hs].
    destruct (step_aborted _ _ _ _ E3 Hab) as (Hat & _ & _); [done|].
    assert (thread t = Joined /\ o3 = []) as [Htt ->].
    { destruct ev; cbn [step] in E3; rewrite ?Ht in E3; try done; by injection E3 as <- <-. }
    destruct (IH Hs t o4 E4 Htt Hat) as (_ & -> & Hf). done.
Qed.

(** ** Contents of a report *)

Lemma metric_in_report e b r doc p :
  report cfg e b r = Ok doc -> p ∈ request_params r ->
  exists params metrics, doc = JObj [(str "params", params)] /\ get "metrics" params = Some (JArr metrics) /\ p ∈ metrics.
Proof.
  unfold report. intros (blocks & _ & H)%bind_Ok Hp. apply bind_Ok in H as (latency & _ & H).
  apply Ok_inj in H as <-. eexists _, _. split; [reflexivity|]. split; [reflexivity|].
  rewrite !elem_of_app. auto.
Qed.

(** A report shows what was counted: its metrics hold the number of all
    requests and, for every request that was counted, its number, each as a sum. *)
Theorem report_shows_counts e b r doc :
  report cfg e b r = Ok doc ->
  (exists params metrics, doc = JObj [(str "params", params)] /\ get "metrics" params = Some (JArr metrics) /\
    param (str "sum") (str "count_requests") (JInt (allRequests r)) ∈ metrics) /\
  forall k v, (k, v) ∈ requests r ->
    exists params metrics, doc = JObj [(str "params", params)] /\ get "metrics" params = Some (JArr metrics) /\
      param (str "sum") (str "count_requests_" ++ k) (JInt v) ∈ metrics.
Proof.
  intros E. split; [|intros k v Hk]; apply (metric_in_report _ _ _ _ _ E); [constructor|].
  unfold request_params. apply elem_of_cons. right. apply list_elem_of_fmap. by exists (k, v).
Qed.

(** A latency file of blanks: the report uses a variable that has no value. *)
Lemma blank_latency_file_undefined e b r s t :
  thread s = Copied b r -> bs_time b = None -> latency_file e = Some t -> skip_spaces t = [] ->
  stepped (Report e) s = Some (set_thread Broken s, [Dropped r]).
Proof.
  intros Ht Hb Hl Hs. cbn [step]. rewrite Ht. unfold send_report, report, last_block_params.
  rewrite Hb, Hl. cbn. by rewrite Hs.
Qed.
End Facts.

(** ** Samples *)

Module Sample.
#[local] Instance info : InfoLib := {|
  strToJson := JStr; jsonToString := fun _ => str "{}"; realFee := fun _ => 0;
  isIntStatusNotSuccess := fun _ => false; isEmpty := fun _ => false; received := fun _ => 0; spent := fun _ => 0;
  elem_received := fun _ => 0; elem_spent := fun _ => 0 |}.

Definition cfg : stat_config :=
  {| serverStatName := str "s"; network := str "n"; group := str "g"; stat_server := str "http://stat";
     stat_version := str "vc1"; thisIp := str "1.2.3.4" |}.
Definition parse (b : bytes) : option json :=
  if bool_decide (b = str "ok") then Some (JObj [(str "result", JStr (str "ok"))]) else None.
Definition env (answer : string) : surroundings :=
  {| now_ms := 5; latency_file := Some (str " 12"); benchmarks := {| opensslTest := 1; bench_memory := 2; ioTest := 3; ioTest2 := 4 |};
     curl_answer := Ok (str answer); stop_signal := false |}.

(** Two reports: one is accepted, and the counters of the other are dropped. *)
Definition events : list event :=
  [Start; Increment (str "b"); Test; CopyBlock; Increment (str "a"); CopyRequests; Increment (str "b"); Report (env "ok");
   Test; CopyBlock; CopyRequests; Increment (str "a"); Report (env "bad"); Test].

(** The requests to b: one in each report, none left. *)
Lemma requests_conserved_witness :
  exists s o, run parse cfg events StatisticsServer_new = Some (s, o) /\ zlen events < 2 ^ 64 /\
  zlen o = 2 /\
  entry (str "b") (requests (requestStat s)) + entry (str "b") (requests (in_hand (thread s))) +
    sum (fun x => entry (str "b") (requests (output_stat x))) o = 2.
Proof.
  eexists _, _. split; [vm_compute; reflexivity|]. split; [done|]. split; [reflexivity|].
  exact (proj1 (proj2 (requests_conserved (parse := parse) (cfg := cfg) events _ _ (str "b") eq_refl eq_refl))).
Defined.

(** An abort while a report is made. *)
Definition aborted_events : list event := [Start; Test; CopyBlock; AbortCall].
Definition last_events : list event := [CopyRequests; Report (env "ok"); Increment (str "a"); Test].

Lemma aborted_thread_ends_witness :
  exists s s' o, run parse cfg aborted_events StatisticsServer_new = Some (s, []) /\
  run parse cfg last_events s = Some (s', o) /\ zlen o <= 1 /\ is_Some (step parse cfg JoinCall s').
Proof.
  assert (exists s s' o, run parse cfg aborted_events StatisticsServer_new = Some (s, []) /\
    run parse cfg last_events s = Some (s', o) /\ aborted s = true /\ running (thread s') = false /\ thread s' <> Broken)
    as (s & s' & o & E1 & E2 & Ha & Hr & Hb) by (eexists _, _, _; split; [vm_compute; reflexivity|]; split; [vm_compute; reflexivity|]; by repeat split).
  exists s, s', o. split; [exact E1|]. split; [exact E2|].
  assert (Start ∉ last_events) as Hs by (intros H; repeat (apply elem_of_cons in H as [?|H]; [done|]); by apply elem_of_nil in H).
  destruct (aborted_thread_ends (parse := parse) (cfg := cfg) last_events s s' o (env "ok") E2 Ha Hs) as (_ & H & _ & K).
  exact (conj H (K Hr Hb)).
Defined.

Definition start_events : list event := [Start; Test; AbortCall; CopyBlock; CopyRequests; Report (env "ok"); Test; JoinCall].
Definition serving_events : list event := [Increment (str "a"); Increment (str "b"); AbortCall; JoinCall].

Lemma statistics_end_at_start_witness :
  exists s1 o1 s2 o2, run parse cfg start_events StatisticsServer_new = Some (s1, o1) /\
  run parse cfg serving_events s1 = Some (s2, o2) /\ zlen o1 = 1 /\ thread s1 = Joined /\ o2 = [].
Proof.
  assert (exists s1 o1 s2 o2, run parse cfg start_events StatisticsServer_new = Some (s1, o1) /\
    run parse cfg serving_events s1 = Some (s2, o2) /\ zlen o1 = 1)
    as (s1 & o1 & s2 & o2 & E1 & E2 & Hn) by (eexists _, _, _, _; split; [vm_compute; reflexivity|]; split; [vm_compute; reflexivity|]; reflexivity).
  exists s1, o1, s2, o2. split; [exact E1|]. split; [exact E2|]. split; [exact Hn|].
  destruct (statistics_end_at_start (parse := parse) (cfg := cfg) start_events serving_events s1 o1 s2 o2
    eq_refl E1 (ex_intro _ [] eq_refl) E2) as (H1 & H2 & _).
  exact (conj H1 H2).
Defined.

Definition counters : RequestsStat := incRequest (str "b") (incRequest (str "a") clear).

Lemma report_shows_counts_witness :
  exists doc params metrics, report cfg (env "ok") (block_at (with_number (header BlockInfo_default) 7) 1) counters = Ok doc /\
    doc = JObj [(str "params", params)] /\ get "metrics" params = Some (JArr metrics) /\
    param (str "sum") (str "count_requests") (JInt 2) ∈ metrics.
Proof.
  eexists. destruct (proj1 (report_shows_counts (cfg := cfg) (env "ok")
    (block_at (with_number (header BlockInfo_default) 7) 1) counters _ eq_refl)) as (params & metrics & H).
  exists params, metrics. split; [reflexivity|exact H].
Defined.
End Sample.
